(** * Near and Now: order placement and store-owner signup

    A shallow embedding of the order-fulfilment path of the storefront
    service ([getNearbyStoreIds], [chunk], [fetchProductRows],
    [generateOrderNumber], [createOrder]) and of the store-owner
    controller ([signupComplete]), with the properties of the
    specification stated over the embedding.

    Conventions.
    - A TypeScript [string | undefined] is an [option string]; the
      JavaScript truthiness test and the [||] operator are written out.
    - A [number] that carries money or a quantity is an exact rational
      ([Q]); equalities on amounts are stated with [==], so the rounding
      of IEEE doubles is abstracted.
    - A cart line is a JavaScript object: the cart is a list of object
      references into a heap, and [Array.prototype.indexOf] compares
      references.
    - A JavaScript [Map] is an association list in insertion order.
    - A datastore call consumes one entry of a fault script carried by
      the world; the tables it writes are lists of rows. *)

From Stdlib Require Import List String Ascii Bool Arith ZArith QArith Lia Permutation.
From Stdlib Require DecimalString DecimalNat.
Import ListNotations.
Close Scope Q_scope.
Open Scope string_scope.
Open Scope nat_scope.
Open Scope list_scope.


(** ** Exceptions and outcomes *)

(** [new Error(message)] and the engine's [TypeError]. *)
Inductive Exn : Type :=
| Error (message : string)
| TypeError (message : string).

(** The outcome of running a piece of code: a value, a thrown exception,
    or exhaustion of the fuel that bounds the [while] loop. *)
Inductive Outcome (A : Type) : Type :=
| Ret (a : A)
| Throw (e : Exn)
| Timeout.
Arguments Ret {A} a.
Arguments Throw {A} e.
Arguments Timeout {A}.

Definition obind {A B} (c : Outcome A) (k : A -> Outcome B) : Outcome B :=
  match c with
  | Ret a => k a
  | Throw e => Throw e
  | Timeout => Timeout
  end.

Declare Scope outcome_scope.
Delimit Scope outcome_scope with outcome.
Notation "x <- c ;; k" := (obind c (fun x => k))
  (at level 100, c at next level, right associativity) : outcome_scope.
Notation "' pat <- c ;; k" := (obind c (fun x => match x with pat => k end))
  (at level 100, pat pattern, c at next level, right associativity) : outcome_scope.

(** ** JavaScript values *)

Module Js.

(** The double-quote character, as a string. *)
Definition dquote : string := String (ascii_of_nat 34) EmptyString.

(** Truthiness of a [string | undefined]: [undefined] and the empty
    string are falsy. *)
Definition truthy (s : option string) : bool :=
  match s with
  | Some s => negb (String.eqb s EmptyString)
  | None => false
  end.

(** [a || b] on [string | undefined]. *)
Definition or (a b : option string) : option string :=
  if truthy a then a else b.

(** [s || fallback] where the result is used as a string. *)
Definition or_else (s : string) (fallback : string) : string :=
  if String.eqb s EmptyString then fallback else s.

(** [parts.join(sep)]. *)
Fixpoint join (sep : string) (parts : list string) : string :=
  match parts with
  | [] => EmptyString
  | [p] => p
  | p :: rest => String.append p (String.append sep (join sep rest))
  end.

(** ASCII part of [String.prototype.toLowerCase]. *)
Definition lower_ascii (c : ascii) : ascii :=
  let n := nat_of_ascii c in
  if (65 <=? n) && (n <=? 90) then ascii_of_nat (n + 32) else c.

Fixpoint toLowerCase (s : string) : string :=
  match s with
  | EmptyString => EmptyString
  | String c rest => String (lower_ascii c) (toLowerCase rest)
  end.

Fixpoint starts_with (p s : string) : bool :=
  match p, s with
  | EmptyString, _ => true
  | String a p', String b s' => Ascii.eqb a b && starts_with p' s'
  | String _ _, EmptyString => false
  end.

(** [s.includes(p)]. *)
Fixpoint includes (s p : string) : bool :=
  starts_with p s ||
  match s with
  | EmptyString => false
  | String _ s' => includes s' p
  end.

End Js.

(** A JavaScript [Map] with string keys, kept in insertion order. *)
Module JsMap.

Definition t (V : Type) : Type := list (string * V).

Definition empty {V} : t V := [].

(** [m.get(k)]; [None] is [undefined]. *)
Fixpoint get {V} (m : t V) (k : string) : option V :=
  match m with
  | [] => None
  | (k', v) :: rest => if String.eqb k' k then Some v else get rest k
  end.

(** [m.set(k, v)]: an existing key keeps its position. *)
Fixpoint set {V} (m : t V) (k : string) (v : V) : t V :=
  match m with
  | [] => [(k, v)]
  | (k', v') :: rest =>
      if String.eqb k' k then (k', v) :: rest else (k', v') :: set rest k v
  end.

(** [Array.from(m.keys())] and [Array.from(m.values())]. *)
Definition keys {V} (m : t V) : list string := map fst m.
Definition values {V} (m : t V) : list V := map snd m.

End JsMap.

(** A JavaScript [Set<number>] of array indices, in insertion order. *)
Module JsSet.

Definition t : Type := list nat.

Definition empty : t := [].

Definition has (s : t) (i : nat) : bool := existsb (Nat.eqb i) s.

Definition add (s : t) (i : nat) : t := if has s i then s else s ++ [i].

Definition size (s : t) : nat := List.length s.

End JsSet.

(** ** Data model *)

(** [interface OrderItem]: a cart line. *)
Module OrderItem.
Record t : Type := {
  product_id : option string;
  id : option string;
  name : string;
  price : Q;
  quantity : Q;
  image : option string;
  unit : option string
}.
End OrderItem.

(** Cart lines are objects; the cart array holds references to them. *)
Definition objref : Type := nat.
Definition Heap : Type := objref -> OrderItem.t.

(** A row of the [products] table (a store inventory entry), with the
    columns [createOrder] reads. *)
Module ProductRow.
Record t : Type := {
  id : string;
  store_id : string;
  master_product_id : string;
  is_active : bool
}.
End ProductRow.

(** An entry of [byMaster]: [{ store_id, product_id }]. *)
Module StoreOption.
Record t : Type := {
  store_id : string;
  product_id : string
}.
End StoreOption.

(** ** The paging helper *)

(** [IN_FILTER_CHUNK_SIZE]. *)
Definition IN_FILTER_CHUNK_SIZE : nat := 100.

(** [chunk(arr, size)]: [for (i = 0; i < arr.length; i += size)
    out.push(arr.slice(i, i + size))].  With [size >= 1] every round
    consumes at least one element, so [arr.length] rounds are enough;
    with [size = 0] the source loop does not end, and neither does the
    fuel suffice. *)
Fixpoint chunk_loop {T} (fuel : nat) (arr : list T) (size : nat)
  : Outcome (list (list T)) :=
  match arr with
  | [] => Ret []
  | _ =>
      match fuel with
      | 0 => Timeout
      | S fuel' =>
          (out <- chunk_loop fuel' (skipn size arr) size ;;
           Ret (firstn size arr :: out))%outcome
      end
  end.

Definition chunk {T} (arr : list T) (size : nat) : Outcome (list (list T)) :=
  chunk_loop (List.length arr) arr size.

(** ** The allocation loop of [createOrder] *)

(** What the engine throws when [.some] is read on [undefined]. *)
Definition undefined_read : Exn :=
  TypeError "Cannot read properties of undefined (reading 'some')".

Section Allocation.

Variable heap : Heap.
(** [orderData.items]. *)
Variable items : list objref.
(** The candidate stores, in the order [getNearbyStoreIds] gave them. *)
Variable storeIds : list string.
(** The rows returned by the availability query ([productRows || []]). *)
Variable productRows : list ProductRow.t.

(** [it.product_id || it.id]. *)
Definition item_mid (it : OrderItem.t) : option string :=
  Js.or it.(OrderItem.product_id) it.(OrderItem.id).

(** [{ store_id: row.store_id, product_id: row.id }]. *)
Definition option_of_row (row : ProductRow.t) : StoreOption.t :=
  {| StoreOption.store_id := row.(ProductRow.store_id);
     StoreOption.product_id := row.(ProductRow.id) |}.

(** The loop that fills [byMaster]. *)
Definition byMaster_step (byMaster : JsMap.t (list StoreOption.t)) (row : ProductRow.t)
  : JsMap.t (list StoreOption.t) :=
  let list :=
    match JsMap.get byMaster row.(ProductRow.master_product_id) with
    | Some l => l
    | None => []
    end in
  JsMap.set byMaster row.(ProductRow.master_product_id) (list ++ [option_of_row row]).

Definition build_byMaster : JsMap.t (list StoreOption.t) :=
  fold_left byMaster_step productRows JsMap.empty.

(** [items.indexOf(it)]; [None] stands for [-1]. *)
Fixpoint indexOf_from (l : list objref) (it : objref) (i : nat) : option nat :=
  match l with
  | [] => None
  | x :: rest => if Nat.eqb x it then Some i else indexOf_from rest it (S i)
  end.

Definition indexOf (l : list objref) (it : objref) : option nat :=
  indexOf_from l it 0.

(** [assigned.has(idx)] for the result of [indexOf]; the set holds
    array indices only, so it never has [-1]. *)
Definition has_idx (assigned : JsSet.t) (idx : option nat) : bool :=
  match idx with
  | Some i => JsSet.has assigned i
  | None => false
  end.

(** [mid ? byMaster.get(mid) : []]; [None] is [undefined]. *)
Definition item_options (byMaster : JsMap.t (list StoreOption.t)) (it : OrderItem.t)
  : option (list StoreOption.t) :=
  match item_mid it with
  | Some m => if Js.truthy (Some m) then JsMap.get byMaster m else Some []
  | None => Some []
  end.

(** [options.some((o) => o.store_id === storeId)]: a property read on
    [undefined] throws. *)
Definition options_some (options : option (list StoreOption.t)) (storeId : string)
  : Outcome bool :=
  match options with
  | Some l => Ret (existsb (fun o => String.eqb o.(StoreOption.store_id) storeId) l)
  | None => Throw undefined_read
  end.

Variable byMaster : JsMap.t (list StoreOption.t).

(** The inner [for (const it of items)] loop that computes [count]. *)
Fixpoint count_loop (assigned : JsSet.t) (storeId : string)
    (its : list objref) (count : nat) : Outcome nat :=
  match its with
  | [] => Ret count
  | it :: rest =>
      if has_idx assigned (indexOf items it) then
        count_loop assigned storeId rest count
      else
        (b <- options_some (item_options byMaster (heap it)) storeId ;;
         count_loop assigned storeId rest (if b then S count else count))%outcome
  end.

(** The [for (const storeId of storeIds)] loop that picks
    [bestStore] and [bestCount]. *)
Fixpoint best_loop (assigned : JsSet.t) (sids : list string)
    (bestStore : option string) (bestCount : nat)
  : Outcome (option string * nat) :=
  match sids with
  | [] => Ret (bestStore, bestCount)
  | storeId :: rest =>
      (count <- count_loop assigned storeId items 0 ;;
       if bestCount <? count
       then best_loop assigned rest (Some storeId) count
       else best_loop assigned rest bestStore bestCount)%outcome
  end.

(** The [for (let i = 0; i < items.length; i++)] loop that fills
    [chunk] and [assigned]. *)
Fixpoint assign_loop (bestStore : string) (its : list objref) (i : nat)
    (chunk : list objref) (assigned : JsSet.t)
  : Outcome (list objref * JsSet.t) :=
  match its with
  | [] => Ret (chunk, assigned)
  | it :: rest =>
      if JsSet.has assigned i then
        assign_loop bestStore rest (S i) chunk assigned
      else
        (b <- options_some (item_options byMaster (heap it)) bestStore ;;
         if b
         then assign_loop bestStore rest (S i) (chunk ++ [it]) (JsSet.add assigned i)
         else assign_loop bestStore rest (S i) chunk assigned)%outcome
  end.

(** The state of the [while] loop. *)
Record AllocState : Type := {
  storeToItems : JsMap.t (list objref);
  assigned : JsSet.t
}.

(** [while (assigned.size < items.length) { ... }]. *)
Fixpoint while_loop (fuel : nat) (st : AllocState) : Outcome AllocState :=
  if negb (JsSet.size st.(assigned) <? List.length items) then Ret st
  else
    match fuel with
    | 0 => Timeout
    | S fuel' =>
        ('(bestStore, bestCount) <- best_loop st.(assigned) storeIds None 0 ;;
         if negb (Js.truthy bestStore) || (bestCount =? 0) then Ret st
         else
           match bestStore with
           | None => Ret st
           | Some b =>
               '(chunk, assigned') <- assign_loop b items 0 [] st.(assigned) ;;
               let existing :=
                 match JsMap.get st.(storeToItems) b with
                 | Some l => l
                 | None => []
                 end in
               while_loop fuel'
                 {| storeToItems := JsMap.set st.(storeToItems) b (existing ++ chunk);
                    assigned := assigned' |}
           end)%outcome
    end.

(** [items.filter((_, i) => !assigned.has(i))]. *)
Fixpoint unassigned_from (assigned : JsSet.t) (its : list objref) (i : nat)
  : list objref :=
  match its with
  | [] => []
  | it :: rest =>
      if JsSet.has assigned i
      then unassigned_from assigned rest (S i)
      else it :: unassigned_from assigned rest (S i)
  end.

Definition unassigned_of (st : AllocState) : list objref :=
  unassigned_from st.(assigned) items 0.

End Allocation.

(** The allocation as [createOrder] runs it: [byMaster] is built from
    the availability rows, the loop starts from empty state, and every
    round assigns at least one more index, so [length items] rounds are
    enough fuel. *)
Definition allocate (heap : Heap) (items : list objref) (storeIds : list string)
    (productRows : list ProductRow.t) : Outcome AllocState :=
  while_loop heap items storeIds (build_byMaster productRows) (List.length items)
    {| storeToItems := JsMap.empty; assigned := JsSet.empty |}.

(** ** The datastore *)

(** A JavaScript [number] where the source tests [isNaN]. *)
Inductive number : Type :=
| Num (q : Q)
| NaN.

(** Rows of [customer_orders]; [id] and [placed_at] are filled by the
    datastore. *)
Module CustomerOrder.
Record t : Type := {
  id : nat;
  customer_id : option string;
  order_code : string;
  status : string;
  payment_status : string;
  payment_method : string;
  subtotal_amount : Q;
  delivery_fee : Q;
  discount_amount : Q;
  total_amount : Q;
  delivery_address : string;
  delivery_latitude : Q;
  delivery_longitude : Q;
  notes : option string;
  placed_at : string
}.
End CustomerOrder.

(** Rows of [store_orders]. *)
Module StoreOrder.
Record t : Type := {
  id : nat;
  customer_order_id : nat;
  store_id : string;
  subtotal_amount : Q;
  delivery_fee : Q;
  status : string
}.
End StoreOrder.

(** Rows of [order_items] (the insert payload). *)
Module OrderItemRow.
Record t : Type := {
  store_order_id : nat;
  product_id : string;
  product_name : string;
  unit : option string;
  image_url : option string;
  unit_price : Q;
  quantity : Q
}.
End OrderItemRow.

(** Rows of [order_status_history]. *)
Module StatusHistory.
Record t : Type := {
  customer_order_id : nat;
  status : string;
  notes : string;
  created_at : string
}.
End StatusHistory.

(** Rows of [app_users]. *)
Module AppUser.
Record t : Type := {
  id : nat;
  name : string;
  phone : string;
  email : option string;
  password_hash : option string;
  role : string;
  is_activated : bool
}.
End AppUser.

(** Rows of [stores] as [signupComplete] inserts them. *)
Module Store.
Record t : Type := {
  owner_id : nat;
  name : string;
  phone : string;
  address : string;
  latitude : Q;
  longitude : Q;
  is_active : bool
}.
End Store.

(** The tables. *)
Record Db : Type := {
  app_users : list AppUser.t;
  stores : list Store.t;
  products : list ProductRow.t;
  customer_orders : list CustomerOrder.t;
  store_orders : list StoreOrder.t;
  order_items : list OrderItemRow.t;
  order_status_history : list StatusHistory.t
}.

(** What the datastore does with one call: serve it, answer with an
    error object ([{ data: null, error }]), or reject the promise. *)
Inductive Fault : Type :=
| Served
| Refused (message : string)
| Rejected (e : Exn).

(** The requests sent to the datastore, as the transport sees them. *)
Inductive Request : Type :=
| ReqRpc (fn : string)
| ReqSelect (table : string) (in_filters : list (string * list string))
| ReqInsert (table : string) (rows : nat)
| ReqDelete (table : string) (key : nat).

(** Collaborators outside this code: the geocoder, the two stored
    procedures, the clock and the UUID source. *)
Record Env : Type := {
  geocodeAddress : string -> option (Q * Q);
  (** [data] of [get_nearby_store_ids(cust_lat, cust_lng, radius_km)]. *)
  get_nearby_store_ids : Q -> Q -> Q -> option (list string);
  (** [data] of [generate_next_order_number(prefix_input)] when it is a
      string. *)
  generate_next_order_number : string -> option string;
  (** [getFullYear()], [getMonth() + 1], [getDate()]. *)
  today : nat * nat * nat;
  (** [new Date().toISOString()]. *)
  now_iso : string;
  randomUUID : string
}.

Record World : Type := {
  db : Db;
  (** The fate of the coming datastore calls; past the end of the
      script every call is served. *)
  faults : list Fault;
  (** The requests sent so far, oldest first. *)
  sent : list Request;
  env : Env
}.

(** [{ data, error }] as the client returns it. *)
Record Response (A : Type) : Type := {
  data : option A;
  error : option string
}.
Arguments data {A} r.
Arguments error {A} r.

(** ** Code that talks to the datastore *)

Definition M (A : Type) : Type := World -> Outcome A * World.

Definition ret {A} (a : A) : M A := fun w => (Ret a, w).

Definition throw {A} (e : Exn) : M A := fun w => (Throw e, w).

Definition bind {A B} (c : M A) (k : A -> M B) : M B :=
  fun w =>
    match c w with
    | (Ret a, w') => k a w'
    | (Throw e, w') => (Throw e, w')
    | (Timeout, w') => (Timeout, w')
    end.

(** [try { c } catch { handler }]. *)
Definition try_catch {A} (c : M A) (handler : Exn -> M A) : M A :=
  fun w =>
    match c w with
    | (Throw e, w') => handler e w'
    | r => r
    end.

Definition lift {A} (o : Outcome A) : M A := fun w => (o, w).

Definition ask : M Env := fun w => (Ret w.(env), w).

Declare Scope m_scope.
Delimit Scope m_scope with m.
Notation "x <- c ;; k" := (bind c (fun x => k))
  (at level 100, c at next level, right associativity) : m_scope.
Notation "' pat <- c ;; k" := (bind c (fun x => match x with pat => k end))
  (at level 100, pat pattern, c at next level, right associativity) : m_scope.
Notation "c ;;; k" := (bind c (fun _ => k))
  (at level 100, right associativity) : m_scope.

(** One awaited datastore call: the request is sent, the next entry of
    the fault script decides its fate, and [serve] is what the datastore
    does when it serves the call. *)
Definition call {A} (req : Request) (serve : Db -> A * Db) : M (Response A) :=
  fun w =>
    let sent' := w.(sent) ++ [req] in
    match w.(faults) with
    | Refused msg :: rest =>
        (Ret {| data := None; error := Some msg |},
         {| db := w.(db); faults := rest; sent := sent'; env := w.(env) |})
    | Rejected e :: rest =>
        (Throw e, {| db := w.(db); faults := rest; sent := sent'; env := w.(env) |})
    | fs =>
        let (a, db') := serve w.(db) in
        (Ret {| data := Some a; error := None |},
         {| db := db'; faults := tl fs; sent := sent'; env := w.(env) |})
    end.

(** The key the datastore gives a new row: one past every key in use. *)
Definition fresh_id (ids : list nat) : nat := S (list_max ids).

(** ** Inputs and result of [createOrder] *)

Module ShippingAddress.
Record t : Type := {
  address : string;
  city : string;
  state : string;
  pincode : string;
  latitude : option number;
  longitude : option number
}.
End ShippingAddress.

Inductive OrderStatus : Type :=
| placed | confirmed | shipped | delivered | cancelled.

Inductive PaymentStatus : Type :=
| pending | paid | failed | refunded.

Definition PaymentStatus_string (p : PaymentStatus) : string :=
  match p with
  | pending => "pending"
  | paid => "paid"
  | failed => "failed"
  | refunded => "refunded"
  end.

(** [interface CreateOrderData]; [items] holds references to the cart
    lines. *)
Module CreateOrderData.
Record t : Type := {
  user_id : option string;
  customer_name : string;
  customer_email : option string;
  customer_phone : string;
  order_status : OrderStatus;
  payment_status : PaymentStatus;
  payment_method : string;
  order_total : Q;
  subtotal : Q;
  delivery_fee : Q;
  items : list objref;
  shipping_address : ShippingAddress.t
}.
End CreateOrderData.

(** [interface Order], with the fields [createOrder] fills. *)
Module Order.
Record t : Type := {
  id : nat;
  user_id : option string;
  customer_name : string;
  customer_email : option string;
  customer_phone : string;
  order_status : OrderStatus;
  payment_status : PaymentStatus;
  payment_method : string;
  order_total : Q;
  subtotal : Q;
  delivery_fee : Q;
  items : list objref;
  items_count : nat;
  shipping_address : ShippingAddress.t;
  created_at : string;
  order_number : string
}.
End Order.

(** ** Reads *)

(** [String(n)] for a natural number, and [padStart]. *)
Definition String_of_nat (n : nat) : string :=
  DecimalString.NilEmpty.string_of_uint (Nat.to_uint n).

Fixpoint repeat_string (pad : string) (n : nat) : string :=
  match n with
  | 0 => EmptyString
  | S n' => String.append pad (repeat_string pad n')
  end.

(** [s.padStart(n, pad)] for a one-character [pad]. *)
Definition padStart (n : nat) (pad : string) (s : string) : string :=
  String.append (repeat_string pad (n - String.length s)) s.

(** [generateOrderNumber()]. *)
Definition generateOrderNumber : M string :=
  try_catch
    (e <- ask ;;
     let '(year, month, day) := e.(today) in
     let dateString :=
       String.append (String_of_nat year)
         (String.append (padStart 2 "0" (String_of_nat month))
                        (padStart 2 "0" (String_of_nat day))) in
     let prefix := String.append "NN" dateString in
     r <- call (ReqRpc "generate_next_order_number")
            (fun d => (e.(generate_next_order_number) prefix, d)) ;;
     match r.(error) with
     | Some message =>
         throw (Error (String.append "Failed to generate order number: " message))
     | None =>
         match r.(data) with
         | Some (Some code) =>
             if Js.truthy (Some code) then ret code
             else throw (Error "Invalid response from order number generator")
         | _ => throw (Error "Invalid response from order number generator")
         end
     end)%m
    (fun error => throw error).

(** [getNearbyStoreIds(lat, lng, radiusKm)]. *)
Definition getNearbyStoreIds (lat lng radiusKm : Q) : M (list string) :=
  try_catch
    (e <- ask ;;
     r <- call (ReqRpc "get_nearby_store_ids")
            (fun d => (e.(get_nearby_store_ids) lat lng radiusKm, d)) ;;
     match r.(error), r.(data) with
     | None, Some (Some (s :: rest)) => ret (s :: rest)
     | _, _ => ret []
     end)%m
    (fun _ => ret []).

Definition mem_string (s : string) (l : list string) : bool :=
  existsb (String.eqb s) l.

(** The availability query of [createOrder]:
    [.in('store_id', storeIds).in('master_product_id', masterProductIds)
     .eq('is_active', true)], sent as one request. *)
Definition select_products_in_stores (storeIds masterProductIds : list string)
  : M (Response (list ProductRow.t)) :=
  call (ReqSelect "products"
          [("store_id", storeIds); ("master_product_id", masterProductIds)])
       (fun d =>
          (filter (fun row =>
                     mem_string row.(ProductRow.store_id) storeIds
                     && mem_string row.(ProductRow.master_product_id) masterProductIds
                     && row.(ProductRow.is_active))
                  d.(products), d)).

(** The per-store query of [createOrder]:
    [.eq('store_id', storeId).in('master_product_id', masterProductIds)
     .eq('is_active', true)]. *)
Definition select_products_of_store (storeId : string) (masterProductIds : list string)
  : M (Response (list ProductRow.t)) :=
  call (ReqSelect "products" [("master_product_id", masterProductIds)])
       (fun d =>
          (filter (fun row =>
                     String.eqb row.(ProductRow.store_id) storeId
                     && mem_string row.(ProductRow.master_product_id) masterProductIds
                     && row.(ProductRow.is_active))
                  d.(products), d)).

(** The listing query of [fetchProductRows] for one page of store ids:
    [.eq('is_active', true).in('store_id', ids)]. *)
Definition select_products_of_stores (ids : list string)
  : M (Response (list ProductRow.t)) :=
  call (ReqSelect "products" [("store_id", ids)])
       (fun d =>
          (filter (fun row =>
                     row.(ProductRow.is_active)
                     && mem_string row.(ProductRow.store_id) ids)
                  d.(products), d)).

(** The unfiltered listing query:
    [.eq('is_active', true).range(from, from + batchSize - 1)]. *)
Definition select_products_range (from batchSize : nat)
  : M (Response (list ProductRow.t)) :=
  call (ReqSelect "products" [])
       (fun d =>
          (firstn batchSize
             (skipn from (filter (fun row => row.(ProductRow.is_active)) d.(products))),
           d)).

(** [fetchProductRows(storeIds)]: the [for (const ids of storeChunks)]
    loop. *)
Fixpoint fetch_store_chunks (storeChunks : list (list string)) (allRows : list ProductRow.t)
  : M (list ProductRow.t) :=
  match storeChunks with
  | [] => ret allRows
  | ids :: rest =>
      (r <- select_products_of_stores ids ;;
       match r.(error) with
       | Some message => throw (Error (String.append "Database error: " message))
       | None =>
           fetch_store_chunks rest
             (allRows ++ match r.(data) with Some l => l | None => [] end)
       end)%m
  end.

(** [fetchProductRows(storeIds)]: the [while (hasMore)] loop. *)
Fixpoint fetch_ranges (fuel : nat) (from batchSize : nat) (allRows : list ProductRow.t)
  : M (list ProductRow.t) :=
  match fuel with
  | 0 => lift Timeout
  | S fuel' =>
      (r <- select_products_range from batchSize ;;
       match r.(error) with
       | Some message => throw (Error (String.append "Database error: " message))
       | None =>
           match r.(data) with
           | Some (row :: more) =>
               let data := row :: more in
               if List.length data =? batchSize
               then fetch_ranges fuel' (from + batchSize) batchSize (allRows ++ data)
               else ret (allRows ++ data)
           | _ => ret allRows
           end
       end)%m
  end.

(** [fetchProductRows(storeIds)]; [None] is [null].  A page of the
    [while] loop is either the last one or holds [batchSize] rows, so
    one round per row of the table (and one more) is enough fuel. *)
Definition fetchProductRows (storeIds : option (list string)) : M (list ProductRow.t) :=
  match storeIds with
  | Some (s :: rest) =>
      (storeChunks <- lift (chunk (s :: rest) IN_FILTER_CHUNK_SIZE) ;;
       fetch_store_chunks storeChunks [])%m
  | _ =>
      fun w => fetch_ranges (S (List.length w.(db).(products))) 0 500 [] w
  end.

(** ** Writes *)

Definition with_customer_orders (d : Db) (rows : list CustomerOrder.t) : Db :=
  {| app_users := d.(app_users); stores := d.(stores); products := d.(products);
     customer_orders := rows; store_orders := d.(store_orders);
     order_items := d.(order_items);
     order_status_history := d.(order_status_history) |}.

Definition with_store_orders (d : Db) (rows : list StoreOrder.t) : Db :=
  {| app_users := d.(app_users); stores := d.(stores); products := d.(products);
     customer_orders := d.(customer_orders); store_orders := rows;
     order_items := d.(order_items);
     order_status_history := d.(order_status_history) |}.

Definition with_order_items (d : Db) (rows : list OrderItemRow.t) : Db :=
  {| app_users := d.(app_users); stores := d.(stores); products := d.(products);
     customer_orders := d.(customer_orders); store_orders := d.(store_orders);
     order_items := rows;
     order_status_history := d.(order_status_history) |}.

Definition with_order_status_history (d : Db) (rows : list StatusHistory.t) : Db :=
  {| app_users := d.(app_users); stores := d.(stores); products := d.(products);
     customer_orders := d.(customer_orders); store_orders := d.(store_orders);
     order_items := d.(order_items);
     order_status_history := rows |}.

Definition with_app_users (d : Db) (rows : list AppUser.t) : Db :=
  {| app_users := rows; stores := d.(stores); products := d.(products);
     customer_orders := d.(customer_orders); store_orders := d.(store_orders);
     order_items := d.(order_items);
     order_status_history := d.(order_status_history) |}.

Definition with_stores (d : Db) (rows : list Store.t) : Db :=
  {| app_users := d.(app_users); stores := rows; products := d.(products);
     customer_orders := d.(customer_orders); store_orders := d.(store_orders);
     order_items := d.(order_items);
     order_status_history := d.(order_status_history) |}.

(** [.from('customer_orders').insert(row).select().single()]: the
    datastore fills [id] and [placed_at]. *)
Definition insert_customer_order (now : string) (mk : nat -> string -> CustomerOrder.t)
  : M (Response CustomerOrder.t) :=
  call (ReqInsert "customer_orders" 1)
       (fun d =>
          let row := mk (fresh_id (map CustomerOrder.id d.(customer_orders))) now in
          (row, with_customer_orders d (d.(customer_orders) ++ [row]))).

(** [.from('store_orders').insert(row).select().single()]. *)
Definition insert_store_order (mk : nat -> StoreOrder.t) : M (Response StoreOrder.t) :=
  call (ReqInsert "store_orders" 1)
       (fun d =>
          let row := mk (fresh_id (map StoreOrder.id d.(store_orders))) in
          (row, with_store_orders d (d.(store_orders) ++ [row]))).

(** [.from('order_items').insert(orderItemsPayload)]. *)
Definition insert_order_items (payload : list OrderItemRow.t) : M (Response unit) :=
  call (ReqInsert "order_items" (List.length payload))
       (fun d => (tt, with_order_items d (d.(order_items) ++ payload))).

(** [.from('order_status_history').insert(row)]. *)
Definition insert_order_status_history (row : StatusHistory.t) : M (Response unit) :=
  call (ReqInsert "order_status_history" 1)
       (fun d => (tt, with_order_status_history d (d.(order_status_history) ++ [row]))).

(** ** [createOrder] *)

Fixpoint for_each {A} (l : list A) (body : A -> M unit) : M unit :=
  match l with
  | [] => ret tt
  | x :: rest => (body x ;;; for_each rest body)%m
  end.

(** [[...new Set(ids)]]: first occurrences, in order. *)
Fixpoint dedupe (seen : list string) (ids : list string) : list string :=
  match ids with
  | [] => []
  | x :: rest =>
      if mem_string x seen then dedupe seen rest
      else x :: dedupe (x :: seen) rest
  end.

Section CreateOrder.

Variable heap : Heap.
Variable orderData : CreateOrderData.t.

Definition fullAddress : string :=
  let a := orderData.(CreateOrderData.shipping_address) in
  Js.join ", "
    (filter (fun s => negb (String.eqb s EmptyString))
       [a.(ShippingAddress.address); a.(ShippingAddress.city);
        a.(ShippingAddress.state); a.(ShippingAddress.pincode)]).

(** [its.map((it) => it.product_id || it.id)
        .filter((id) => id != null && id !== '')]. *)
Definition master_ids (its : list objref) : list string :=
  flat_map (fun r =>
              match item_mid (heap r) with
              | Some m => if Js.truthy (Some m) then [m] else []
              | None => []
              end) its.

Definition paymentMethodEnum : string :=
  let pm := orderData.(CreateOrderData.payment_method) in
  if Js.includes (Js.toLowerCase pm) "cash" || String.eqb pm "cod"
  then "cash_on_delivery" else "upi".

(** [chunk.reduce((sum, it) => sum + it.price * it.quantity, 0)]. *)
Definition chunkSubtotal_of (chunk : list objref) : Q :=
  fold_left (fun sum r =>
               (sum + (heap r).(OrderItem.price) * (heap r).(OrderItem.quantity))%Q)
            chunk 0%Q.

(** [itemChunks.length > 1 ? orderData.delivery_fee / itemChunks.length
                           : orderData.delivery_fee]. *)
Definition chunkDeliveryFee_of (n_chunks : nat) : Q :=
  if 1 <? n_chunks
  then (orderData.(CreateOrderData.delivery_fee) / inject_Z (Z.of_nat n_chunks))%Q
  else orderData.(CreateOrderData.delivery_fee).

(** The loop that fills [masterToProduct]. *)
Definition masterToProduct_of (products : list ProductRow.t) : JsMap.t string :=
  fold_left (fun m p => JsMap.set m p.(ProductRow.master_product_id) p.(ProductRow.id))
            products JsMap.empty.

(** The message [`Product "${name}" is not available from the store.`]. *)
Definition not_available_message (name : string) : string :=
  String.append "Product "
    (String.append Js.dquote
       (String.append name
          (String.append Js.dquote " is not available from the store."))).

(** [chunk.map((item) => { ... })] building [orderItemsPayload]. *)
Fixpoint orderItemsPayload_of (storeOrderId : nat) (masterToProduct : JsMap.t string)
    (chunk : list objref) : Outcome (list OrderItemRow.t) :=
  match chunk with
  | [] => Ret []
  | r :: rest =>
      let item := heap r in
      let masterId := item_mid item in
      let productId :=
        match masterId with
        | Some m => if Js.truthy (Some m) then JsMap.get masterToProduct m else None
        | None => None
        end in
      match productId with
      | Some pid =>
          if Js.truthy (Some pid) then
            (rows <- orderItemsPayload_of storeOrderId masterToProduct rest ;;
             Ret ({| OrderItemRow.store_order_id := storeOrderId;
                     OrderItemRow.product_id := pid;
                     OrderItemRow.product_name := item.(OrderItem.name);
                     OrderItemRow.unit := Js.or item.(OrderItem.unit) None;
                     OrderItemRow.image_url := Js.or item.(OrderItem.image) None;
                     OrderItemRow.unit_price := item.(OrderItem.price);
                     OrderItemRow.quantity := item.(OrderItem.quantity) |} :: rows))%outcome
          else
            Throw (Error (not_available_message item.(OrderItem.name)))
      | None =>
          Throw (Error (not_available_message item.(OrderItem.name)))
      end
  end.

(** The body of [for (let i = 0; i < itemChunks.length; i++)], for
    [storeId = storeIdsToUse[i]] and [chunk = itemChunks[i]]; a
    [continue] returns from the body. *)
Definition store_order_step (customerOrderId : nat) (n_chunks : nat)
    (storeId : string) (chunk : option (list objref)) : M unit :=
  match chunk with
  | None | Some [] => ret tt
  | Some chunk =>
      if negb (Js.truthy (Some storeId)) then ret tt
      else
        let chunkSubtotal := chunkSubtotal_of chunk in
        let chunkDeliveryFee := chunkDeliveryFee_of n_chunks in
        (so <- insert_store_order (fun new_id =>
                 {| StoreOrder.id := new_id;
                    StoreOrder.customer_order_id := customerOrderId;
                    StoreOrder.store_id := storeId;
                    StoreOrder.subtotal_amount := chunkSubtotal;
                    StoreOrder.delivery_fee := chunkDeliveryFee;
                    StoreOrder.status := "pending_at_store" |}) ;;
         match so.(error), so.(data) with
         | Some message, _ =>
             throw (Error (Js.or_else message "Failed to create store order"))
         | None, None => throw (Error "Failed to create store order")
         | None, Some storeOrder =>
             let masterProductIds := master_ids chunk in
             if List.length masterProductIds =? 0 then ret tt
             else
               pr <- select_products_of_store storeId masterProductIds ;;
               match pr.(error) with
               | Some _ => throw (Error "Failed to verify product availability")
               | None =>
                   let products :=
                     match pr.(data) with Some l => l | None => [] end in
                   let masterToProduct := masterToProduct_of products in
                   orderItemsPayload <-
                     lift (orderItemsPayload_of storeOrder.(StoreOrder.id)
                             masterToProduct chunk) ;;
                   ir <- insert_order_items orderItemsPayload ;;
                   match ir.(error) with
                   | Some message =>
                       throw (Error (Js.or_else message "Failed to create order items"))
                   | None => ret tt
                   end
               end
         end)%m
  end.

End CreateOrder.

(** Step 1 of [createOrder]: the coordinates given with the address
    when both are numbers, the geocoder otherwise. *)
Definition resolve_coordinates (orderData : CreateOrderData.t) : M (Q * Q) :=
  let lat := orderData.(CreateOrderData.shipping_address).(ShippingAddress.latitude) in
  let lng := orderData.(CreateOrderData.shipping_address).(ShippingAddress.longitude) in
  (e <- ask ;;
   match lat, lng with
   | Some (Num lat), Some (Num lng) => ret (lat, lng)
   | _, _ =>
       match e.(geocodeAddress) (fullAddress orderData) with
       | None =>
           throw (Error "Could not verify delivery address. Please use the map to pick your location or try a different address.")
       | Some result => ret result
       end
   end)%m.

(** The writes of [createOrder], from the [customer_orders] insert to
    the returned [Order]. *)
Definition persist_order (heap : Heap) (orderData : CreateOrderData.t)
    (geocoded : Q * Q) (orderCode : string) (alloc : AllocState) : M Order.t :=
  let storeIdsToUse := JsMap.keys alloc.(storeToItems) in
  let itemChunks := map (JsMap.get alloc.(storeToItems)) storeIdsToUse in
  (e <- ask ;;
   co <- insert_customer_order e.(now_iso) (fun new_id placed_at =>
           {| CustomerOrder.id := new_id;
              CustomerOrder.customer_id := orderData.(CreateOrderData.user_id);
              CustomerOrder.order_code := orderCode;
              CustomerOrder.status := "pending_at_store";
              CustomerOrder.payment_status :=
                PaymentStatus_string orderData.(CreateOrderData.payment_status);
              CustomerOrder.payment_method := paymentMethodEnum orderData;
              CustomerOrder.subtotal_amount := orderData.(CreateOrderData.subtotal);
              CustomerOrder.delivery_fee := orderData.(CreateOrderData.delivery_fee);
              CustomerOrder.discount_amount := 0%Q;
              CustomerOrder.total_amount := orderData.(CreateOrderData.order_total);
              CustomerOrder.delivery_address := fullAddress orderData;
              CustomerOrder.delivery_latitude := fst geocoded;
              CustomerOrder.delivery_longitude := snd geocoded;
              CustomerOrder.notes := None;
              CustomerOrder.placed_at := placed_at |}) ;;
   match co.(error), co.(data) with
   | Some message, _ => throw (Error (Js.or_else message "Failed to create order"))
   | None, None => throw (Error "Failed to create order")
   | None, Some customerOrder =>
       for_each (combine storeIdsToUse itemChunks)
         (fun '(storeId, chunk) =>
            store_order_step heap orderData customerOrder.(CustomerOrder.id)
              (List.length itemChunks) storeId chunk) ;;;
       _ <- insert_order_status_history
              {| StatusHistory.customer_order_id := customerOrder.(CustomerOrder.id);
                 StatusHistory.status := "pending_at_store";
                 StatusHistory.notes := "Order placed";
                 StatusHistory.created_at := e.(now_iso) |} ;;
       ret {| Order.id := customerOrder.(CustomerOrder.id);
              Order.user_id := orderData.(CreateOrderData.user_id);
              Order.customer_name := orderData.(CreateOrderData.customer_name);
              Order.customer_email := orderData.(CreateOrderData.customer_email);
              Order.customer_phone := orderData.(CreateOrderData.customer_phone);
              Order.order_status := placed;
              Order.payment_status := orderData.(CreateOrderData.payment_status);
              Order.payment_method := orderData.(CreateOrderData.payment_method);
              Order.order_total := orderData.(CreateOrderData.order_total);
              Order.subtotal := orderData.(CreateOrderData.subtotal);
              Order.delivery_fee := orderData.(CreateOrderData.delivery_fee);
              Order.items := orderData.(CreateOrderData.items);
              Order.items_count := List.length orderData.(CreateOrderData.items);
              Order.shipping_address := orderData.(CreateOrderData.shipping_address);
              Order.created_at :=
                Js.or_else customerOrder.(CustomerOrder.placed_at) e.(now_iso);
              Order.order_number := orderCode |}
   end)%m.

(** The availability query, the allocation and the writes of
    [createOrder], for the candidate stores [storeIds]. *)
Definition allocate_and_persist (heap : Heap) (orderData : CreateOrderData.t)
    (geocoded : Q * Q) (orderCode : string) (storeIds : list string) : M Order.t :=
  let items := orderData.(CreateOrderData.items) in
  let masterProductIds := dedupe [] (master_ids heap items) in
  if List.length masterProductIds =? 0 then
    throw (Error "No valid products in order")
  else
    (pr <- select_products_in_stores storeIds masterProductIds ;;
     let productRows := match pr.(data) with Some l => l | None => [] end in
     alloc <- lift (allocate heap items storeIds productRows) ;;
     let unassigned := unassigned_of items alloc in
     if 0 <? List.length unassigned then
       throw (Error (String.append
                       "Product(s) not available from any store near you: "
                       (Js.join ", "
                          (map (fun u => (heap u).(OrderItem.name)) unassigned))))
     else persist_order heap orderData geocoded orderCode alloc)%m.

(** [createOrder(orderData)]; the outer [try { ... } catch (error)
    { throw error }] rethrows what it catches. *)
Definition createOrder (heap : Heap) (orderData : CreateOrderData.t) : M Order.t :=
  try_catch
    (if negb (Js.truthy orderData.(CreateOrderData.user_id)) then
       throw (Error "User ID is required to place an order")
     else
       geocoded <- resolve_coordinates orderData ;;
       orderCode <- generateOrderNumber ;;
       storeIds <- getNearbyStoreIds (fst geocoded) (snd geocoded) 50%Q ;;
       if List.length storeIds =? 0 then
         throw (Error "No store available for your delivery address. Please contact support.")
       else allocate_and_persist heap orderData geocoded orderCode storeIds)%m
    (fun error => throw error).

(** ** [signupComplete] *)

Module StringOps.

(** White space removed by [String.prototype.trim] (ASCII part). *)
Definition is_space (c : ascii) : bool :=
  let n := nat_of_ascii c in
  (n =? 32) || ((9 <=? n) && (n <=? 13)).

Fixpoint trimStart (s : string) : string :=
  match s with
  | EmptyString => EmptyString
  | String c rest => if is_space c then trimStart rest else s
  end.

Fixpoint trimEnd (s : string) : string :=
  match s with
  | EmptyString => EmptyString
  | String c rest =>
      match trimEnd rest with
      | EmptyString => if is_space c then EmptyString else String c EmptyString
      | rest' => String c rest'
      end
  end.

Definition trim (s : string) : string := trimEnd (trimStart s).

End StringOps.

(** [req.body] of the signup request. *)
Module SignupBody.
Record t : Type := {
  phone : option string;
  ownerName : option string;
  storeName : option string;
  storeAddress : option string;
  radiusKm : option Q;
  email : option string;
  latitude : option Q;
  longitude : option Q
}.
End SignupBody.

(** [newUser] without [password_hash]. *)
Module PublicUser.
Record t : Type := {
  id : nat;
  name : string;
  phone : string;
  email : option string;
  role : string;
  is_activated : bool
}.
End PublicUser.

(** The JSON sent back. *)
Inductive ResponseBody : Type :=
| Failure (error : string)
| Registered (message token : string) (user : PublicUser.t).

Record HttpResponse : Type := {
  status : nat;
  body : ResponseBody
}.

Definition Exn_message (e : Exn) : string :=
  match e with
  | Error m => m
  | TypeError m => m
  end.

(** [.from('app_users').insert(row).select().single()]. *)
Definition insert_app_user (mk : nat -> AppUser.t) : M (Response AppUser.t) :=
  call (ReqInsert "app_users" 1)
       (fun d =>
          let row := mk (fresh_id (map AppUser.id d.(app_users))) in
          (row, with_app_users d (d.(app_users) ++ [row]))).

(** [.from('stores').insert(row)]. *)
Definition insert_store (row : Store.t) : M (Response unit) :=
  call (ReqInsert "stores" 1)
       (fun d => (tt, with_stores d (d.(stores) ++ [row]))).

(** [.from('app_users').delete().eq('id', key)]. *)
Definition delete_app_user (key : nat) : M (Response unit) :=
  call (ReqDelete "app_users" key)
       (fun d =>
          (tt, with_app_users d
                 (filter (fun u => negb (u.(AppUser.id) =? key)) d.(app_users)))).

Section Signup.

(** The value written to [stores.is_active]: [false] in the current
    controller ("start offline"), [true] in its earlier revision. *)
Variable store_is_active : bool.

Definition signupComplete (reqBody : SignupBody.t) : M HttpResponse :=
  try_catch
    (if negb (Js.truthy reqBody.(SignupBody.phone))
        || negb (Js.truthy reqBody.(SignupBody.ownerName))
        || negb (Js.truthy reqBody.(SignupBody.storeName))
     then
       ret {| status := 400;
              body := Failure "Phone, owner name and store name are required" |}
     else
       match reqBody.(SignupBody.phone), reqBody.(SignupBody.ownerName),
             reqBody.(SignupBody.storeName) with
       | Some phone, Some ownerName, Some storeName =>
           let name := StringOps.trim ownerName in
           let storeNameTrim := StringOps.trim storeName in
           let address :=
             if Js.truthy reqBody.(SignupBody.storeAddress)
             then option_map StringOps.trim reqBody.(SignupBody.storeAddress)
             else None in
           let lat := reqBody.(SignupBody.latitude) in
           let lng := reqBody.(SignupBody.longitude) in
           let emailVal :=
             if Js.truthy reqBody.(SignupBody.email)
             then Js.or (option_map StringOps.trim reqBody.(SignupBody.email)) None
             else None in
           ur <- insert_app_user (fun new_id =>
                   {| AppUser.id := new_id;
                      AppUser.name := name;
                      AppUser.phone := phone;
                      AppUser.email := emailVal;
                      AppUser.password_hash := None;
                      AppUser.role := "store_owner";
                      AppUser.is_activated := true |}) ;;
           match ur.(error), ur.(data) with
           | Some message, _ =>
               ret {| status := 500;
                      body := Failure (Js.or_else message "Failed to create account") |}
           | None, None =>
               ret {| status := 500; body := Failure "Failed to create account" |}
           | None, Some newUser =>
               sr <- insert_store
                       {| Store.owner_id := newUser.(AppUser.id);
                          Store.name := storeNameTrim;
                          Store.phone := phone;
                          Store.address :=
                            match Js.or address None with
                            | Some a => a
                            | None => EmptyString
                            end;
                          Store.latitude := match lat with Some q => q | None => 0%Q end;
                          Store.longitude := match lng with Some q => q | None => 0%Q end;
                          Store.is_active := store_is_active |} ;;
               match sr.(error) with
               | Some message =>
                   _ <- delete_app_user newUser.(AppUser.id) ;;
                   ret {| status := 500;
                          body := Failure (Js.or_else message "Failed to create store") |}
               | None =>
                   e <- ask ;;
                   let token := e.(randomUUID) in
                   let userWithoutPassword :=
                     {| PublicUser.id := newUser.(AppUser.id);
                        PublicUser.name := newUser.(AppUser.name);
                        PublicUser.phone := newUser.(AppUser.phone);
                        PublicUser.email := newUser.(AppUser.email);
                        PublicUser.role := newUser.(AppUser.role);
                        PublicUser.is_activated := newUser.(AppUser.is_activated) |} in
                   ret {| status := 200;
                          body := Registered "Registration complete" token
                                    userWithoutPassword |}
               end
           end
       | _, _, _ =>
           ret {| status := 400;
                  body := Failure "Phone, owner name and store name are required" |}
       end)%m
    (fun error =>
       ret {| status := 500;
              body := Failure (Js.or_else (Exn_message error) "Registration failed") |}).

End Signup.

(** ** Notions used to state the properties of the allocation *)

Section AllocationNotions.

Variable heap : Heap.
Variable items : list objref.
Variable byMaster : JsMap.t (list StoreOption.t).

(** The availability index lists the master product of cart line [r]
    for store [s]. *)
Definition carries (s : string) (r : objref) : bool :=
  match item_options byMaster (heap r) with
  | Some l => existsb (fun o => String.eqb o.(StoreOption.store_id) s) l
  | None => false
  end.

(** The cart lines the counting loop counts for store [s]. *)
Definition countable (asg : JsSet.t) (s : string) (it : objref) : bool :=
  negb (has_idx asg (indexOf items it)) && carries s it.

(** The positions (with their cart lines) that one run of the
    assignment loop adds for [bestStore], scanning [its] from index
    [i]. *)
Fixpoint picked (bestStore : string) (asg : JsSet.t) (its : list objref) (i : nat)
  : list (nat * objref) :=
  match its with
  | [] => []
  | it :: rest =>
      if JsSet.has asg i then picked bestStore asg rest (S i)
      else if carries bestStore it then (i, it) :: picked bestStore asg rest (S i)
      else picked bestStore asg rest (S i)
  end.

(** The cart lines at the positions of [asg]. *)
Definition refs_at (asg : list nat) : list objref :=
  map (fun i => nth i items 0) asg.

(** What every state of the [while] loop satisfies. *)
Record AllocInv (st : AllocState) : Prop := {
  inv_nodup : NoDup st.(assigned);
  inv_range : forall i, In i st.(assigned) -> i < List.length items;
  inv_alias : forall i j r,
      nth_error items i = Some r -> nth_error items j = Some r ->
      JsSet.has st.(assigned) i = JsSet.has st.(assigned) j;
  inv_keys : NoDup (JsMap.keys st.(storeToItems));
  inv_entry : forall s l,
      In (s, l) st.(storeToItems) ->
      l <> [] /\ s <> EmptyString /\ forall r, In r l -> carries s r = true;
  inv_disjoint : forall (s1 : string) (l1 : list objref) (s2 : string) (l2 : list objref) (r : objref),
      In (s1, l1) st.(storeToItems) -> In (s2, l2) st.(storeToItems) ->
      In r l1 -> In r l2 -> s1 = s2;
  inv_perm :
    Permutation (List.concat (JsMap.values st.(storeToItems))) (refs_at st.(assigned))
}.

End AllocationNotions.

(** A candidate store carries cart line [r] according to the rows of
    the availability query: some row of that store has the line's
    master product. *)
Definition row_carries (heap : Heap) (productRows : list ProductRow.t)
    (s : string) (r : objref) : Prop :=
  exists row,
    In row productRows
    /\ row.(ProductRow.store_id) = s
    /\ item_mid (heap r) = Some row.(ProductRow.master_product_id).


Definition Qsum (l : list Q) : Q := fold_right Qplus 0%Q l.

(** ** Notions used to state the properties of the writes *)

(** [d'] holds every row of [d]: the tables [createOrder] writes are
    those of [d] followed by new rows, the others are untouched. *)
Record db_extends (d d' : Db) : Prop := {
  ext_app_users : d'.(app_users) = d.(app_users);
  ext_stores : d'.(stores) = d.(stores);
  ext_products : d'.(products) = d.(products);
  ext_customer_orders :
    exists rows, d'.(customer_orders) = d.(customer_orders) ++ rows;
  ext_store_orders :
    exists rows, d'.(store_orders) = d.(store_orders) ++ rows;
  ext_order_items :
    exists rows, d'.(order_items) = d.(order_items) ++ rows;
  ext_order_status_history :
    exists rows, d'.(order_status_history) = d.(order_status_history) ++ rows
}.

Definition is_delete (r : Request) : bool :=
  match r with
  | ReqDelete _ _ => true
  | _ => false
  end.

(** From [w] to [w'] rows were only added, and no delete was sent. *)
Definition only_appended (w w' : World) : Prop :=
  db_extends w.(db) w'.(db)
  /\ w'.(env) = w.(env)
  /\ exists reqs, w'.(sent) = w.(sent) ++ reqs
                  /\ forallb (fun r => negb (is_delete r)) reqs = true.

(** A piece of code that only appends, whatever the world it runs in. *)
Definition appends_only {A} (c : M A) : Prop :=
  forall w, only_appended w (snd (c w)).

(** The store, subtotal, delivery fee and parent of a sub-order row. *)
Definition StoreOrder_summary (row : StoreOrder.t) : string * Q * Q * nat :=
  (row.(StoreOrder.store_id), row.(StoreOrder.subtotal_amount),
   row.(StoreOrder.delivery_fee), row.(StoreOrder.customer_order_id)).

(** The size of the largest [in] filter of a request. *)
Definition max_filter_size (r : Request) : nat :=
  match r with
  | ReqSelect _ in_filters => list_max (map (fun f => List.length (snd f)) in_filters)
  | _ => 0
  end.

(** A piece of code that leaves the part [proj] of the datastore as it
    found it. *)
Definition keeps {A X} (proj : Db -> X) (c : M A) : Prop :=
  forall w, proj (snd (c w)).(db) = proj w.(db).

(** ** Sample data *)

(** A cart line for master product [pid]. *)
Definition cart_line (pid name : string) (price quantity : Q) : OrderItem.t :=
  {| OrderItem.product_id := Some pid;
     OrderItem.id := None;
     OrderItem.name := name;
     OrderItem.price := price;
     OrderItem.quantity := quantity;
     OrderItem.image := None;
     OrderItem.unit := None |}.

(** Three cart lines A, B, C, and a fourth, Z, that no store carries. *)
Definition itemA : objref := 0.
Definition itemB : objref := 1.
Definition itemC : objref := 2.
Definition itemZ : objref := 3.

Definition ex_heap : Heap :=
  fun r =>
    match r with
    | 0 => cart_line "mp-A" "Apples" 10%Q 1%Q
    | 1 => cart_line "mp-B" "Bread" 10%Q 1%Q
    | 2 => cart_line "mp-C" "Cheese" 10%Q 1%Q
    | _ => cart_line "mp-Z" "Zucchini" 10%Q 1%Q
    end.

Definition inventory (rid sid mid : string) : ProductRow.t :=
  {| ProductRow.id := rid;
     ProductRow.store_id := sid;
     ProductRow.master_product_id := mid;
     ProductRow.is_active := true |}.

(** Store S1 carries A and B; store S2 carries B and C. *)
Definition ex_products : list ProductRow.t :=
  [inventory "p1" "S1" "mp-A"; inventory "p2" "S1" "mp-B";
   inventory "p3" "S2" "mp-B"; inventory "p4" "S2" "mp-C"].

Definition ex_env (nearby : option (list string)) : Env :=
  {| geocodeAddress := fun _ => None;
     get_nearby_store_ids := fun _ _ _ => nearby;
     generate_next_order_number := fun prefix => Some (String.append prefix "-0001");
     today := (2025, 6, 1);
     now_iso := "2025-06-01T10:00:00.000Z";
     randomUUID := "5b1c7f0e-token" |}.

Definition ex_db : Db :=
  {| app_users := [];
     stores := [];
     products := ex_products;
     customer_orders := [];
     store_orders := [];
     order_items := [];
     order_status_history := [] |}.

(** A datastore with the sample inventory, the candidate stores
    [nearby] and the fault script [fs]. *)
Definition ex_world (nearby : option (list string)) (fs : list Fault) : World :=
  {| db := ex_db; faults := fs; sent := []; env := ex_env nearby |}.

Definition ex_address : ShippingAddress.t :=
  {| ShippingAddress.address := "12 Lake Road";
     ShippingAddress.city := "Kolkata";
     ShippingAddress.state := "West Bengal";
     ShippingAddress.pincode := "700029";
     ShippingAddress.latitude := Some (Num (45 # 2));
     ShippingAddress.longitude := Some (Num (177 # 2)) |}.

(** An order for the cart [cart] with the amounts the caller sends. *)
Definition ex_order (cart : list objref) (subtotal delivery_fee : Q) : CreateOrderData.t :=
  {| CreateOrderData.user_id := Some "user-1";
     CreateOrderData.customer_name := "Asha";
     CreateOrderData.customer_email := None;
     CreateOrderData.customer_phone := "+910000000000";
     CreateOrderData.order_status := placed;
     CreateOrderData.payment_status := pending;
     CreateOrderData.payment_method := "Cash on Delivery";
     CreateOrderData.order_total := (subtotal + delivery_fee)%Q;
     CreateOrderData.subtotal := subtotal;
     CreateOrderData.delivery_fee := delivery_fee;
     CreateOrderData.items := cart;
     CreateOrderData.shipping_address := ex_address |}.

(** One hundred and one candidate stores. *)
Definition ex_many_stores : list string :=
  "S1" :: map (fun n => String.append "T" (String_of_nat n)) (seq 0 100).

Definition ex_signup : SignupBody.t :=
  {| SignupBody.phone := Some "+911111111111";
     SignupBody.ownerName := Some " Ravi ";
     SignupBody.storeName := Some "Ravi Stores";
     SignupBody.storeAddress := Some "4 Park Street";
     SignupBody.radiusKm := None;
     SignupBody.email := None;
     SignupBody.latitude := None;
     SignupBody.longitude := None |}.

(** The fate of the [n]-th coming datastore call. *)
Definition nth_fault (n : nat) (w : World) : Fault := nth n w.(faults) Served.

(** ** Notions used to state further properties *)

(** Every coming datastore call is served. *)
Definition all_served (w : World) : Prop :=
  Forall (fun f => f = Served) w.(faults).

(** The prefix [generateOrderNumber] sends to the stored procedure:
    [`NN${year}${month}${day}`] with month and day padded to two
    digits. *)
Definition order_prefix (today : nat * nat * nat) : string :=
  let '(year, month, day) := today in
  String.append "NN"
    (String.append (String_of_nat year)
       (String.append (padStart 2 "0" (String_of_nat month))
                      (padStart 2 "0" (String_of_nat day)))).

(** The rows a page of store ids selects in the listing path. *)
Definition listed_for (ids : list string) (row : ProductRow.t) : bool :=
  row.(ProductRow.is_active) && mem_string row.(ProductRow.store_id) ids.

(** From [d] to [d'] nothing was written but sub-orders of customer
    order [coid], under keys that were not in use, and order lines of
    those sub-orders. *)
Definition children_added (coid : nat) (d d' : Db) : Prop :=
  d'.(app_users) = d.(app_users)
  /\ d'.(stores) = d.(stores)
  /\ d'.(products) = d.(products)
  /\ d'.(customer_orders) = d.(customer_orders)
  /\ d'.(order_status_history) = d.(order_status_history)
  /\ exists sos ois,
       d'.(store_orders) = d.(store_orders) ++ sos
       /\ d'.(order_items) = d.(order_items) ++ ois
       /\ Forall (fun so => so.(StoreOrder.customer_order_id) = coid) sos
       /\ NoDup (map StoreOrder.id sos)
       /\ Forall (fun so => ~ In so.(StoreOrder.id) (map StoreOrder.id d.(store_orders)))
                 sos
       /\ Forall (fun oi => In oi.(OrderItemRow.store_order_id) (map StoreOrder.id sos))
                 ois.

(** Order line [row] records cart line [r] as bought from the store of
    sub-order [so]: it copies the line's name, price and quantity, and
    its product is an active row of that store for the line's master
    product. *)
Definition records_line (heap : Heap) (d : Db) (so : StoreOrder.t)
    (r : objref) (row : OrderItemRow.t) : Prop :=
  row.(OrderItemRow.store_order_id) = so.(StoreOrder.id)
  /\ row.(OrderItemRow.product_name) = (heap r).(OrderItem.name)
  /\ row.(OrderItemRow.unit_price) = (heap r).(OrderItem.price)
  /\ row.(OrderItemRow.quantity) = (heap r).(OrderItem.quantity)
  /\ exists p,
       In p d.(products)
       /\ p.(ProductRow.id) = row.(OrderItemRow.product_id)
       /\ p.(ProductRow.is_active) = true
       /\ p.(ProductRow.store_id) = so.(StoreOrder.store_id)
       /\ item_mid (heap r) = Some p.(ProductRow.master_product_id).

(** ** The product listing *)

(** A column that holds a number, a numeric string, or [null]. *)
Inductive JsNumeric : Type :=
| JNumber (n : number)
| JString (s : string)
| JNull.

(** [a < b] on JavaScript numbers: false as soon as one is [NaN]. *)
Definition number_lt (a b : number) : bool :=
  match a, b with
  | Num x, Num y => negb (Qle_bool y x)
  | _, _ => false
  end.

(** [n || 0]: zero and [NaN] are falsy. *)
Definition number_or_zero (n : number) : number :=
  match n with
  | Num q => if Qeq_bool q 0 then Num 0 else Num q
  | NaN => Num 0
  end.

(** The nested [master_products] row. *)
Module MasterProduct.
Record t : Type := {
  id : string;
  name : string;
  category : string;
  base_price : JsNumeric;
  discounted_price : JsNumeric;
  unit : option string;
  image_url : option string;
  description : option string;
  is_loose : option bool;
  is_active : bool;
  created_at : option string;
  updated_at : option string
}.
End MasterProduct.

(** A [ProductRow] as the listing selects it: the key columns with
    [quantity] and the joined [master_products] row. *)
Module ListingRow.
Record t : Type := {
  id : string;
  store_id : string;
  master_product_id : string;
  quantity : JsNumeric;
  is_active : bool;
  master_products : option MasterProduct.t
}.
End ListingRow.

(** The frontend [Product]. *)
Module Product.
Record t : Type := {
  unit : string;
  id : string;
  name : string;
  price : number;
  original_price : option number;
  description : option string;
  image : option string;
  image_url : option string;
  category : string;
  in_stock : bool;
  isLoose : bool;
  created_at : option string;
  updated_at : option string
}.
End Product.

Section Listing.

(** The engine's [parseFloat]. *)
Variable parseFloat : string -> number.

(** [typeof row.quantity === 'number' ? row.quantity
      : parseFloat(String(row.quantity)) || 0]. *)
Definition quantity_of (row : ListingRow.t) : number :=
  match row.(ListingRow.quantity) with
  | JNumber n => n
  | JString s => number_or_zero (parseFloat s)
  | JNull => number_or_zero (parseFloat "null")
  end.

(** [typeof existing.quantity === 'number' ? existing.quantity : 0]. *)
Definition existing_quantity (existing : ListingRow.t) : number :=
  match existing.(ListingRow.quantity) with
  | JNumber n => n
  | _ => Num 0
  end.

(** [!mp || !mp.is_active] is false: the row is not skipped. *)
Definition listed (row : ListingRow.t) : bool :=
  match row.(ListingRow.master_products) with
  | Some mp => mp.(MasterProduct.is_active)
  | None => false
  end.

(** The body of [for (const row of rows)] in
    [productRowsToProducts]. *)
Definition listing_step (byMaster : JsMap.t ListingRow.t) (row : ListingRow.t)
  : JsMap.t ListingRow.t :=
  if negb (listed row) then byMaster
  else
    let existing := JsMap.get byMaster row.(ListingRow.master_product_id) in
    let q := quantity_of row in
    match existing with
    | None => JsMap.set byMaster row.(ListingRow.master_product_id) row
    | Some ex =>
        if number_lt (existing_quantity ex) q
        then JsMap.set byMaster row.(ListingRow.master_product_id) row
        else byMaster
    end.

Definition listing_byMaster (rows : list ListingRow.t) : JsMap.t ListingRow.t :=
  fold_left listing_step rows JsMap.empty.

(** [x != null ? (typeof x === 'string' ? parseFloat(x) : x) : dflt]. *)
Definition numeric_or {A} (x : JsNumeric) (some : number -> A) (dflt : A) : A :=
  match x with
  | JNumber n => some n
  | JString s => some (parseFloat s)
  | JNull => dflt
  end.

(** [transformProductRowToProduct(row)]; [row.master_products!] is
    read without a check. *)
Definition transformProductRowToProduct (row : ListingRow.t) : Outcome Product.t :=
  match row.(ListingRow.master_products) with
  | None =>
      Throw (TypeError "Cannot read properties of null (reading 'discounted_price')")
  | Some mp =>
      let price := numeric_or mp.(MasterProduct.discounted_price) (fun n => n) (Num 0) in
      let originalPrice :=
        numeric_or mp.(MasterProduct.base_price) (fun n => Some n) None in
      let q := quantity_of row in
      Ret {| Product.id := mp.(MasterProduct.id);
             Product.name := mp.(MasterProduct.name);
             Product.category := mp.(MasterProduct.category);
             Product.price := price;
             Product.original_price := originalPrice;
             Product.image_url := mp.(MasterProduct.image_url);
             Product.image := mp.(MasterProduct.image_url);
             Product.description := mp.(MasterProduct.description);
             Product.in_stock := row.(ListingRow.is_active) && number_lt (Num 0) q;
             Product.unit :=
               match mp.(MasterProduct.unit) with Some u => u | None => "piece" end;
             Product.isLoose :=
               match mp.(MasterProduct.is_loose) with Some b => b | None => false end;
             Product.created_at := mp.(MasterProduct.created_at);
             Product.updated_at := mp.(MasterProduct.updated_at) |}
  end.

(** [rows.map(f)] for an [f] that may throw. *)
Fixpoint map_outcome {A B} (f : A -> Outcome B) (l : list A) : Outcome (list B) :=
  match l with
  | [] => Ret []
  | x :: rest =>
      (y <- f x ;;
       ys <- map_outcome f rest ;;
       Ret (y :: ys))%outcome
  end.

(** [productRowsToProducts(rows)]. *)
Definition productRowsToProducts (rows : list ListingRow.t) : Outcome (list Product.t) :=
  map_outcome transformProductRowToProduct (JsMap.values (listing_byMaster rows)).

End Listing.

(** Sample listing rows: master product [mid] sold by store [sid] with
    [qty] in stock. *)
Definition ex_master (mid : string) : MasterProduct.t :=
  {| MasterProduct.id := mid;
     MasterProduct.name := "Rice";
     MasterProduct.category := "Staples";
     MasterProduct.base_price := JNumber (Num 60%Q);
     MasterProduct.discounted_price := JNumber (Num 55%Q);
     MasterProduct.unit := Some "kg";
     MasterProduct.image_url := None;
     MasterProduct.description := None;
     MasterProduct.is_loose := None;
     MasterProduct.is_active := true;
     MasterProduct.created_at := None;
     MasterProduct.updated_at := None |}.

Definition ex_listing (rid sid mid : string) (qty : Q) : ListingRow.t :=
  {| ListingRow.id := rid;
     ListingRow.store_id := sid;
     ListingRow.master_product_id := mid;
     ListingRow.quantity := JNumber (Num qty);
     ListingRow.is_active := true;
     ListingRow.master_products := Some (ex_master mid) |}.

(** ** [getUserOrders] *)

(** A JavaScript [Map] keyed by row ids, kept in insertion order. *)
Module JsNatMap.

Definition t (V : Type) : Type := list (nat * V).

Definition empty {V} : t V := [].

Fixpoint get {V} (m : t V) (k : nat) : option V :=
  match m with
  | [] => None
  | (k', v) :: rest => if Nat.eqb k' k then Some v else get rest k
  end.

Fixpoint set {V} (m : t V) (k : nat) (v : V) : t V :=
  match m with
  | [] => [(k, v)]
  | (k', v') :: rest =>
      if Nat.eqb k' k then (k', v) :: rest else (k', v') :: set rest k v
  end.

End JsNatMap.

(** The loops that fill [coToStoreOrders] and [soToItems]:
    [const list = m.get(key) || []; list.push(row); m.set(key, list)]. *)
Definition group_rows {A} (key : A -> nat) (rows : list A) : JsNatMap.t (list A) :=
  fold_left (fun m row =>
               let list := match JsNatMap.get m (key row) with
                           | Some l => l
                           | None => []
                           end in
               JsNatMap.set m (key row) (list ++ [row]))
            rows JsNatMap.empty.

(** [.order('placed_at', { ascending: false })]: latest first, rows
    placed at the same time in table order. *)
Fixpoint insert_by_placed_at (co : CustomerOrder.t) (sorted : list CustomerOrder.t)
  : list CustomerOrder.t :=
  match sorted with
  | [] => [co]
  | x :: rest =>
      if String.ltb co.(CustomerOrder.placed_at) x.(CustomerOrder.placed_at)
      then x :: insert_by_placed_at co rest
      else co :: sorted
  end.

Definition order_by_placed_at_desc (rows : list CustomerOrder.t) : list CustomerOrder.t :=
  fold_right insert_by_placed_at [] rows.

(** [.from('customer_orders').select(...).eq('customer_id', userId)
     .order('placed_at', { ascending: false })]. *)
Definition select_customer_orders_of (userId : string)
  : M (Response (list CustomerOrder.t)) :=
  call (ReqSelect "customer_orders" [])
       (fun d =>
          (order_by_placed_at_desc
             (filter (fun co =>
                        match co.(CustomerOrder.customer_id) with
                        | Some c => String.eqb c userId
                        | None => false
                        end) d.(customer_orders)), d)).

(** [.from('store_orders').select('id, customer_order_id')
     .in('customer_order_id', orderIds)]. *)
Definition select_store_orders_in (orderIds : list nat)
  : M (Response (list StoreOrder.t)) :=
  call (ReqSelect "store_orders" [("customer_order_id", map String_of_nat orderIds)])
       (fun d =>
          (filter (fun so =>
                     existsb (Nat.eqb so.(StoreOrder.customer_order_id)) orderIds)
                  d.(store_orders), d)).

(** [.from('order_items').select(...).in('store_order_id', storeOrderIds)]. *)
Definition select_order_items_in (storeOrderIds : list nat)
  : M (Response (list OrderItemRow.t)) :=
  call (ReqSelect "order_items" [("store_order_id", map String_of_nat storeOrderIds)])
       (fun d =>
          (filter (fun oi =>
                     existsb (Nat.eqb oi.(OrderItemRow.store_order_id)) storeOrderIds)
                  d.(order_items), d)).

(** An [Order] as [getUserOrders] builds it: the items are new objects,
    the two statuses are the strings of the row. *)
Module UserOrder.
Record t : Type := {
  id : nat;
  user_id : option string;
  customer_name : string;
  customer_phone : string;
  order_status : string;
  payment_status : string;
  payment_method : string;
  order_total : Q;
  subtotal : Q;
  delivery_fee : Q;
  items : list OrderItem.t;
  items_count : nat;
  shipping_address : ShippingAddress.t;
  created_at : string;
  order_number : string
}.
End UserOrder.

(** The object pushed to [allItems] for order line [i]. *)
Definition item_of_row (i : OrderItemRow.t) : OrderItem.t :=
  {| OrderItem.product_id := Some i.(OrderItemRow.product_id);
     OrderItem.id := None;
     OrderItem.name := i.(OrderItemRow.product_name);
     OrderItem.price := i.(OrderItemRow.unit_price);
     OrderItem.quantity := i.(OrderItemRow.quantity);
     OrderItem.image := i.(OrderItemRow.image_url);
     OrderItem.unit := i.(OrderItemRow.unit) |}.

(** The body of [customerOrders.map((co) => { ... })]. *)
Definition user_order_of (coToStoreOrders : JsNatMap.t (list StoreOrder.t))
    (soToItems : JsNatMap.t (list OrderItemRow.t)) (co : CustomerOrder.t)
  : UserOrder.t :=
  let storeOrdersForCo :=
    match JsNatMap.get coToStoreOrders co.(CustomerOrder.id) with
    | Some l => l
    | None => []
    end in
  let allItems :=
    flat_map (fun so =>
                let oi := match JsNatMap.get soToItems so.(StoreOrder.id) with
                          | Some l => l
                          | None => []
                          end in
                map item_of_row oi)
             storeOrdersForCo in
  {| UserOrder.id := co.(CustomerOrder.id);
     UserOrder.user_id := co.(CustomerOrder.customer_id);
     UserOrder.customer_name := EmptyString;
     UserOrder.customer_phone := EmptyString;
     UserOrder.order_status := co.(CustomerOrder.status);
     UserOrder.payment_status := co.(CustomerOrder.payment_status);
     UserOrder.payment_method := Js.or_else co.(CustomerOrder.payment_method) EmptyString;
     UserOrder.order_total := co.(CustomerOrder.total_amount);
     UserOrder.subtotal := co.(CustomerOrder.subtotal_amount);
     UserOrder.delivery_fee := co.(CustomerOrder.delivery_fee);
     UserOrder.items := allItems;
     UserOrder.items_count := List.length allItems;
     UserOrder.shipping_address :=
       {| ShippingAddress.address :=
            Js.or_else co.(CustomerOrder.delivery_address) EmptyString;
          ShippingAddress.city := EmptyString;
          ShippingAddress.state := EmptyString;
          ShippingAddress.pincode := EmptyString;
          ShippingAddress.latitude := None;
          ShippingAddress.longitude := None |};
     UserOrder.created_at := Js.or_else co.(CustomerOrder.placed_at) EmptyString;
     UserOrder.order_number := co.(CustomerOrder.order_code) |}.

(** [getUserOrders(userId, userPhone, userEmail)]; the phone and the
    email are only logged.  The errors of the second and the third query
    are not read. *)
Definition getUserOrders (userId userPhone userEmail : option string)
  : M (list UserOrder.t) :=
  try_catch
    (if negb (Js.truthy userId) then ret []
     else
       match userId with
       | None => ret []
       | Some uid =>
           (r <- select_customer_orders_of uid ;;
            match r.(error) with
            | Some _ => ret []
            | None =>
                match r.(data) with
                | None | Some [] => ret []
                | Some customerOrders =>
                    let orderIds := map CustomerOrder.id customerOrders in
                    sr <- select_store_orders_in orderIds ;;
                    let storeOrders :=
                      match sr.(data) with Some l => l | None => [] end in
                    let storeOrderIds := map StoreOrder.id storeOrders in
                    let coToStoreOrders :=
                      group_rows StoreOrder.customer_order_id storeOrders in
                    ir <- select_order_items_in storeOrderIds ;;
                    let items := match ir.(data) with Some l => l | None => [] end in
                    let soToItems := group_rows OrderItemRow.store_order_id items in
                    ret (map (user_order_of coToStoreOrders soToItems) customerOrders)
                end
            end)%m
       end)
    (fun error => throw error).

(** ** [getStores] *)






(** The name, unit price and quantity of a cart line or of an item
    read back. *)
Definition line_summary (it : OrderItem.t) : string * Q * Q :=
  (it.(OrderItem.name), it.(OrderItem.price), it.(OrderItem.quantity)).

(** Every sub-order of [d] belongs to a customer order of [d], and every
    order line to a sub-order of [d]. *)
Definition references_resolve (d : Db) : Prop :=
  (forall so, In so d.(store_orders) ->
              In so.(StoreOrder.customer_order_id)
                 (map CustomerOrder.id d.(customer_orders)))
  /\ (forall oi, In oi d.(order_items) ->
                 In oi.(OrderItemRow.store_order_id)
                    (map StoreOrder.id d.(store_orders))).

(** ** The catalogue *)

(** [ProductFetchOptions]. *)
Module ProductFetchOptions.
Record t : Type := {
  lat : option Q;
  lng : option Q;
  radiusKm : option Q
}.
End ProductFetchOptions.

Section Catalogue.

Variable parseFloat : string -> number.

(** The column [quantity] and the joined [master_products] row that
    the listing query selects with each row of [products]. *)
Variable details : ProductRow.t -> JsNumeric * option MasterProduct.t.

Definition listing_row (row : ProductRow.t) : ListingRow.t :=
  {| ListingRow.id := row.(ProductRow.id);
     ListingRow.store_id := row.(ProductRow.store_id);
     ListingRow.master_product_id := row.(ProductRow.master_product_id);
     ListingRow.quantity := fst (details row);
     ListingRow.is_active := row.(ProductRow.is_active);
     ListingRow.master_products := snd (details row) |}.

(** The head of the three listing functions, down to
    [fetchProductRows(storeIdsToUse)]; [stored] is what
    [getLocationFromStorage()] returns. *)
Definition fetch_listing (options stored : option ProductFetchOptions.t)
  : M (list ListingRow.t) :=
  let opts := match options with Some o => Some o | None => stored end in
  let lat := match opts with Some o => o.(ProductFetchOptions.lat) | None => None end in
  let lng := match opts with Some o => o.(ProductFetchOptions.lng) | None => None end in
  let radiusKm :=
    match opts with
    | Some o => match o.(ProductFetchOptions.radiusKm) with
                | Some r => r
                | None => 50%Q
                end
    | None => 50%Q
    end in
  (nearbyStoreIds <-
     match lat, lng with
     | Some lat, Some lng =>
         (ids <- getNearbyStoreIds lat lng radiusKm ;; ret (Some ids))
     | _, _ => ret None
     end ;;
   let storeIdsToUse :=
     match nearbyStoreIds with
     | Some (s :: rest) => Some (s :: rest)
     | _ => None
     end in
   rows <- fetchProductRows storeIdsToUse ;;
   ret (map listing_row rows))%m.

(** [getAllProducts(options)]. *)
Definition getAllProducts (options stored : option ProductFetchOptions.t)
  : M (list Product.t) :=
  try_catch
    (rows <- fetch_listing options stored ;;
     lift (productRowsToProducts parseFloat rows))%m
    (fun error => throw error).

(** [getProductsByCategory(categoryName, options)]. *)
Definition getProductsByCategory (categoryName : string)
    (options stored : option ProductFetchOptions.t) : M (list Product.t) :=
  try_catch
    (rows <- fetch_listing options stored ;;
     let rowsInCategory :=
       filter (fun r =>
                 match r.(ListingRow.master_products) with
                 | Some mp => String.eqb mp.(MasterProduct.category) categoryName
                 | None => false
                 end) rows in
     lift (productRowsToProducts parseFloat rowsInCategory))%m
    (fun _ => ret []).

(** [searchProducts(query, options)]. *)
Definition searchProducts (query : string)
    (options stored : option ProductFetchOptions.t) : M (list Product.t) :=
  try_catch
    (rows <- fetch_listing options stored ;;
     let q := Js.toLowerCase (StringOps.trim query) in
     let matching :=
       if Js.truthy (Some q)
       then filter (fun r =>
                      match r.(ListingRow.master_products) with
                      | Some mp => Js.includes (Js.toLowerCase mp.(MasterProduct.name)) q
                      | None => false
                      end) rows
       else rows in
     lift (productRowsToProducts parseFloat matching))%m
    (fun _ => ret []).

End Catalogue.

(** ** Saved addresses *)

(** Rows of [customer_saved_addresses]; a nullable text column is an
    [option string]. *)
Module AddressRow.
Record t : Type := {
  id : nat;
  customer_id : string;
  label : option string;
  address : option string;
  city : option string;
  state : option string;
  pincode : option string;
  country : string;
  latitude : option Q;
  longitude : option Q;
  contact_name : option string;
  contact_phone : option string;
  landmark : option string;
  delivery_instructions : option string;
  is_default : bool;
  is_active : bool;
  delivery_for : option string;
  receiver_name : option string;
  receiver_address : option string;
  receiver_phone : option string;
  google_place_id : option string;
  google_formatted_address : option string;
  google_place_data : option string;
  created_at : string;
  updated_at : string
}.
End AddressRow.

(** The frontend [Address]. *)
Module Address.
Record t : Type := {
  id : nat;
  user_id : string;
  name : string;
  address_line_1 : string;
  address_line_2 : option string;
  city : string;
  state : string;
  pincode : string;
  phone : string;
  is_default : bool;
  latitude : option Q;
  longitude : option Q;
  label : option string;
  landmark : option string;
  delivery_instructions : option string;
  delivery_for : string;
  receiver_name : option string;
  receiver_address : option string;
  receiver_phone : option string;
  created_at : string;
  updated_at : string
}.
End Address.

(** [CreateAddressData]. *)
Module CreateAddressData.
Record t : Type := {
  user_id : string;
  name : string;
  address_line_1 : string;
  address_line_2 : option string;
  city : string;
  state : string;
  pincode : string;
  phone : string;
  is_default : bool;
  latitude : Q;
  longitude : Q;
  label : option string;
  landmark : option string;
  delivery_instructions : option string;
  delivery_for : option string;
  receiver_name : option string;
  receiver_address : option string;
  receiver_phone : option string;
  google_place_id : option string;
  google_formatted_address : option string;
  google_place_data : option string
}.
End CreateAddressData.

(** [s.split(sep)] for a one-character separator. *)
Fixpoint split_on (sep : ascii) (s : string) : list string :=
  match s with
  | EmptyString => [EmptyString]
  | String c rest =>
      if Ascii.eqb c sep then EmptyString :: split_on sep rest
      else
        match split_on sep rest with
        | [] => [String c EmptyString]
        | p :: ps => String c p :: ps
        end
  end.

(** [(x as string) || fallback]. *)
Definition text_or (x : option string) (fallback : string) : string :=
  match x with
  | Some s => Js.or_else s fallback
  | None => fallback
  end.

(** [mapRowToAddress(row)]. *)
Definition mapRowToAddress (row : AddressRow.t) : Address.t :=
  let fullAddress := text_or row.(AddressRow.address) EmptyString in
  let addressParts :=
    filter (fun s => negb (String.eqb s EmptyString))
           (map StringOps.trim (split_on "," fullAddress)) in
  let addressLine1 :=
    match addressParts with
    | p :: _ => Js.or_else p fullAddress
    | [] => fullAddress
    end in
  let addressLine2 :=
    if 1 <? List.length addressParts
    then Some (Js.join ", " (tl addressParts))
    else None in
  {| Address.id := row.(AddressRow.id);
     Address.user_id := row.(AddressRow.customer_id);
     Address.name :=
       text_or row.(AddressRow.contact_name) (text_or row.(AddressRow.label) "Address");
     Address.address_line_1 := addressLine1;
     Address.address_line_2 := addressLine2;
     Address.city := text_or row.(AddressRow.city) EmptyString;
     Address.state := text_or row.(AddressRow.state) EmptyString;
     Address.pincode := text_or row.(AddressRow.pincode) EmptyString;
     Address.phone := text_or row.(AddressRow.contact_phone) EmptyString;
     Address.is_default := row.(AddressRow.is_default);
     Address.latitude := row.(AddressRow.latitude);
     Address.longitude := row.(AddressRow.longitude);
     Address.label := Js.or row.(AddressRow.label) None;
     Address.landmark := Js.or row.(AddressRow.landmark) None;
     Address.delivery_instructions := Js.or row.(AddressRow.delivery_instructions) None;
     Address.delivery_for := text_or row.(AddressRow.delivery_for) "self";
     Address.receiver_name := Js.or row.(AddressRow.receiver_name) None;
     Address.receiver_address := Js.or row.(AddressRow.receiver_address) None;
     Address.receiver_phone := Js.or row.(AddressRow.receiver_phone) None;
     Address.created_at := row.(AddressRow.created_at);
     Address.updated_at := row.(AddressRow.updated_at) |}.

(** The address book and the datastore's answers to the calls on it:
    the table, the script of faults (as for [World]) and the clock. *)
Record AddressWorld : Type := {
  saved : list AddressRow.t;
  afaults : list Fault;
  anow : string
}.

Definition AM (A : Type) : Type := AddressWorld -> Outcome A * AddressWorld.

Definition aret {A} (a : A) : AM A := fun w => (Ret a, w).

Definition athrow {A} (e : Exn) : AM A := fun w => (Throw e, w).

Definition abind {A B} (c : AM A) (k : A -> AM B) : AM B :=
  fun w =>
    match c w with
    | (Ret a, w') => k a w'
    | (Throw e, w') => (Throw e, w')
    | (Timeout, w') => (Timeout, w')
    end.

Definition atry {A} (c : AM A) (handler : Exn -> AM A) : AM A :=
  fun w =>
    match c w with
    | (Throw e, w') => handler e w'
    | r => r
    end.

(** One awaited call on the table: [serve] is what the datastore does
    when it serves the call, at clock [now]; it may itself answer with
    an error. *)
Definition acall {A}
    (serve : string -> list AddressRow.t -> Response A * list AddressRow.t)
  : AM (Response A) :=
  fun w =>
    match w.(afaults) with
    | Refused msg :: rest =>
        (Ret {| data := None; error := Some msg |},
         {| saved := w.(saved); afaults := rest; anow := w.(anow) |})
    | Rejected e :: rest =>
        (Throw e, {| saved := w.(saved); afaults := rest; anow := w.(anow) |})
    | fs =>
        let (r, rows') := serve w.(anow) w.(saved) in
        (Ret r, {| saved := rows'; afaults := tl fs; anow := w.(anow) |})
    end.

Definition set_is_default (b : bool) (row : AddressRow.t) : AddressRow.t :=
  {| AddressRow.id := row.(AddressRow.id);
     AddressRow.customer_id := row.(AddressRow.customer_id);
     AddressRow.label := row.(AddressRow.label);
     AddressRow.address := row.(AddressRow.address);
     AddressRow.city := row.(AddressRow.city);
     AddressRow.state := row.(AddressRow.state);
     AddressRow.pincode := row.(AddressRow.pincode);
     AddressRow.country := row.(AddressRow.country);
     AddressRow.latitude := row.(AddressRow.latitude);
     AddressRow.longitude := row.(AddressRow.longitude);
     AddressRow.contact_name := row.(AddressRow.contact_name);
     AddressRow.contact_phone := row.(AddressRow.contact_phone);
     AddressRow.landmark := row.(AddressRow.landmark);
     AddressRow.delivery_instructions := row.(AddressRow.delivery_instructions);
     AddressRow.is_default := b;
     AddressRow.is_active := row.(AddressRow.is_active);
     AddressRow.delivery_for := row.(AddressRow.delivery_for);
     AddressRow.receiver_name := row.(AddressRow.receiver_name);
     AddressRow.receiver_address := row.(AddressRow.receiver_address);
     AddressRow.receiver_phone := row.(AddressRow.receiver_phone);
     AddressRow.google_place_id := row.(AddressRow.google_place_id);
     AddressRow.google_formatted_address := row.(AddressRow.google_formatted_address);
     AddressRow.google_place_data := row.(AddressRow.google_place_data);
     AddressRow.created_at := row.(AddressRow.created_at);
     AddressRow.updated_at := row.(AddressRow.updated_at) |}.

Definition set_updated_at (now : string) (row : AddressRow.t) : AddressRow.t :=
  {| AddressRow.id := row.(AddressRow.id);
     AddressRow.customer_id := row.(AddressRow.customer_id);
     AddressRow.label := row.(AddressRow.label);
     AddressRow.address := row.(AddressRow.address);
     AddressRow.city := row.(AddressRow.city);
     AddressRow.state := row.(AddressRow.state);
     AddressRow.pincode := row.(AddressRow.pincode);
     AddressRow.country := row.(AddressRow.country);
     AddressRow.latitude := row.(AddressRow.latitude);
     AddressRow.longitude := row.(AddressRow.longitude);
     AddressRow.contact_name := row.(AddressRow.contact_name);
     AddressRow.contact_phone := row.(AddressRow.contact_phone);
     AddressRow.landmark := row.(AddressRow.landmark);
     AddressRow.delivery_instructions := row.(AddressRow.delivery_instructions);
     AddressRow.is_default := row.(AddressRow.is_default);
     AddressRow.is_active := row.(AddressRow.is_active);
     AddressRow.delivery_for := row.(AddressRow.delivery_for);
     AddressRow.receiver_name := row.(AddressRow.receiver_name);
     AddressRow.receiver_address := row.(AddressRow.receiver_address);
     AddressRow.receiver_phone := row.(AddressRow.receiver_phone);
     AddressRow.google_place_id := row.(AddressRow.google_place_id);
     AddressRow.google_formatted_address := row.(AddressRow.google_formatted_address);
     AddressRow.google_place_data := row.(AddressRow.google_place_data);
     AddressRow.created_at := row.(AddressRow.created_at);
     AddressRow.updated_at := now |}.

Definition set_is_active (b : bool) (row : AddressRow.t) : AddressRow.t :=
  {| AddressRow.id := row.(AddressRow.id);
     AddressRow.customer_id := row.(AddressRow.customer_id);
     AddressRow.label := row.(AddressRow.label);
     AddressRow.address := row.(AddressRow.address);
     AddressRow.city := row.(AddressRow.city);
     AddressRow.state := row.(AddressRow.state);
     AddressRow.pincode := row.(AddressRow.pincode);
     AddressRow.country := row.(AddressRow.country);
     AddressRow.latitude := row.(AddressRow.latitude);
     AddressRow.longitude := row.(AddressRow.longitude);
     AddressRow.contact_name := row.(AddressRow.contact_name);
     AddressRow.contact_phone := row.(AddressRow.contact_phone);
     AddressRow.landmark := row.(AddressRow.landmark);
     AddressRow.delivery_instructions := row.(AddressRow.delivery_instructions);
     AddressRow.is_default := row.(AddressRow.is_default);
     AddressRow.is_active := b;
     AddressRow.delivery_for := row.(AddressRow.delivery_for);
     AddressRow.receiver_name := row.(AddressRow.receiver_name);
     AddressRow.receiver_address := row.(AddressRow.receiver_address);
     AddressRow.receiver_phone := row.(AddressRow.receiver_phone);
     AddressRow.google_place_id := row.(AddressRow.google_place_id);
     AddressRow.google_formatted_address := row.(AddressRow.google_formatted_address);
     AddressRow.google_place_data := row.(AddressRow.google_place_data);
     AddressRow.created_at := row.(AddressRow.created_at);
     AddressRow.updated_at := row.(AddressRow.updated_at) |}.

(** [.update(change)] on the rows that satisfy [sel]. *)
Definition update_where (sel : AddressRow.t -> bool) (change : AddressRow.t -> AddressRow.t)
    (rows : list AddressRow.t) : list AddressRow.t :=
  map (fun row => if sel row then change row else row) rows.

(** [.update({ is_default: false }).eq('customer_id', userId)]. *)
Definition unset_defaults (userId : string) : AM (Response unit) :=
  acall (fun _ rows =>
           ({| data := Some tt; error := None |},
            update_where (fun row => String.eqb row.(AddressRow.customer_id) userId)
                         (set_is_default false) rows)).

(** [.update(change).eq('id', addressId).eq('customer_id', userId)
     .select().single()]: the row is changed and returned when exactly
    one row matches; otherwise nothing is changed and the datastore
    answers with an error. *)
Definition update_single (addressId : nat) (userId : string)
    (change : string -> AddressRow.t -> AddressRow.t) : AM (Response AddressRow.t) :=
  acall (fun now rows =>
           let sel := fun row =>
                        Nat.eqb row.(AddressRow.id) addressId
                        && String.eqb row.(AddressRow.customer_id) userId in
           match filter sel rows with
           | [row] =>
               ({| data := Some (change now row); error := None |},
                update_where sel (change now) rows)
           | _ =>
               ({| data := None;
                   error := Some "JSON object requested, multiple (or no) rows returned" |},
                rows)
           end).

(** [.order('is_default', { ascending: false })
     .order('created_at', { ascending: false })]: defaults first, then
    latest first; equal rows in table order. *)
Definition address_after (a b : AddressRow.t) : bool :=
  (negb a.(AddressRow.is_default) && b.(AddressRow.is_default))
  || (Bool.eqb a.(AddressRow.is_default) b.(AddressRow.is_default)
      && String.ltb a.(AddressRow.created_at) b.(AddressRow.created_at)).

Fixpoint insert_address (a : AddressRow.t) (sorted : list AddressRow.t)
  : list AddressRow.t :=
  match sorted with
  | [] => [a]
  | x :: rest =>
      if address_after a x then x :: insert_address a rest else a :: sorted
  end.

Definition order_addresses (rows : list AddressRow.t) : list AddressRow.t :=
  fold_right insert_address [] rows.

(** [getUserAddresses(userId)]. *)
Definition getUserAddresses (userId : string) : AM (list Address.t) :=
  atry
    (abind
       (acall (fun _ rows =>
                 ({| data :=
                       Some (order_addresses
                               (filter (fun row =>
                                          String.eqb row.(AddressRow.customer_id) userId
                                          && row.(AddressRow.is_active)) rows));
                     error := None |}, rows)))
       (fun r =>
          match r.(error) with
          | Some message =>
              athrow (Error (String.append "Failed to fetch addresses: " message))
          | None =>
              aret (map mapRowToAddress
                        (match r.(data) with Some l => l | None => [] end))
          end))
    (fun error => athrow error).

(** The [payload] of [createAddress], as the row the datastore stores
    under key [new_id] at time [now]. *)
Definition address_payload (addressData : CreateAddressData.t) (new_id : nat)
    (now : string) : AddressRow.t :=
  {| AddressRow.id := new_id;
     AddressRow.customer_id := addressData.(CreateAddressData.user_id);
     AddressRow.label :=
       Some (match Js.or addressData.(CreateAddressData.label) None with
             | Some l => l
             | None => addressData.(CreateAddressData.name)
             end);
     AddressRow.address :=
       Some (String.append addressData.(CreateAddressData.address_line_1)
               (match Js.or addressData.(CreateAddressData.address_line_2) None with
                | Some l2 => String.append ", " l2
                | None => EmptyString
                end));
     AddressRow.city := Js.or (Some addressData.(CreateAddressData.city)) None;
     AddressRow.state := Js.or (Some addressData.(CreateAddressData.state)) None;
     AddressRow.pincode := Js.or (Some addressData.(CreateAddressData.pincode)) None;
     AddressRow.country := "India";
     AddressRow.latitude := Some addressData.(CreateAddressData.latitude);
     AddressRow.longitude := Some addressData.(CreateAddressData.longitude);
     AddressRow.contact_name := Some addressData.(CreateAddressData.name);
     AddressRow.contact_phone := Some addressData.(CreateAddressData.phone);
     AddressRow.landmark :=
       Js.or addressData.(CreateAddressData.landmark)
             (Js.or addressData.(CreateAddressData.address_line_2) None);
     AddressRow.delivery_instructions :=
       Some (text_or addressData.(CreateAddressData.delivery_instructions) EmptyString);
     AddressRow.is_default := addressData.(CreateAddressData.is_default);
     AddressRow.is_active := true;
     AddressRow.delivery_for :=
       Some (text_or addressData.(CreateAddressData.delivery_for) "self");
     AddressRow.receiver_name := Js.or addressData.(CreateAddressData.receiver_name) None;
     AddressRow.receiver_address :=
       Js.or addressData.(CreateAddressData.receiver_address) None;
     AddressRow.receiver_phone := Js.or addressData.(CreateAddressData.receiver_phone) None;
     AddressRow.google_place_id := Js.or addressData.(CreateAddressData.google_place_id) None;
     AddressRow.google_formatted_address :=
       Js.or addressData.(CreateAddressData.google_formatted_address) None;
     AddressRow.google_place_data :=
       Js.or addressData.(CreateAddressData.google_place_data) None;
     AddressRow.created_at := now;
     AddressRow.updated_at := now |}.

(** [createAddress(addressData)]. *)
Definition createAddress (addressData : CreateAddressData.t) : AM Address.t :=
  atry
    (abind
       (if addressData.(CreateAddressData.is_default)
        then abind (unset_defaults addressData.(CreateAddressData.user_id))
                   (fun _ => aret tt)
        else aret tt)
       (fun _ =>
          abind
            (acall (fun now rows =>
                      let row := address_payload addressData
                                   (fresh_id (map AddressRow.id rows)) now in
                      ({| data := Some row; error := None |}, rows ++ [row])))
            (fun r =>
               match r.(error) with
               | Some message =>
                   athrow (Error (String.append "Failed to create address: " message))
               | None =>
                   match r.(data) with
                   | Some row => aret (mapRowToAddress row)
                   | None =>
                       athrow (TypeError
                                 "Cannot read properties of null (reading 'address')")
                   end
               end)))
    (fun error => athrow error).

(** [deleteAddress(addressId, userId)]: a soft delete. *)
Definition deleteAddress (addressId : nat) (userId : string) : AM unit :=
  atry
    (abind
       (acall (fun now rows =>
                 ({| data := Some tt; error := None |},
                  update_where
                    (fun row => Nat.eqb row.(AddressRow.id) addressId
                                && String.eqb row.(AddressRow.customer_id) userId)
                    (fun row => set_updated_at now (set_is_active false row)) rows)))
       (fun r =>
          match r.(error) with
          | Some message =>
              athrow (Error (String.append "Failed to delete address: " message))
          | None => aret tt
          end))
    (fun error => athrow error).

(** [setDefaultAddress(addressId, userId)]. *)
Definition setDefaultAddress (addressId : nat) (userId : string) : AM Address.t :=
  atry
    (abind (unset_defaults userId)
       (fun _ =>
          abind
            (update_single addressId userId
               (fun now row => set_updated_at now (set_is_default true row)))
            (fun r =>
               match r.(error) with
               | Some message =>
                   athrow (Error (String.append "Failed to set default address: " message))
               | None =>
                   match r.(data) with
                   | Some row => aret (mapRowToAddress row)
                   | None =>
                       athrow (TypeError
                                 "Cannot read properties of null (reading 'address')")
                   end
               end)))
    (fun error => athrow error).

(** The user's addresses that [getUserAddresses] lists as default. *)
Definition defaults_of (userId : string) (rows : list AddressRow.t) : list AddressRow.t :=
  filter (fun row => String.eqb row.(AddressRow.customer_id) userId
                     && row.(AddressRow.is_default)) rows.

(** Every call of the script is served. *)
Definition address_served (w : AddressWorld) : Prop :=
  Forall (fun f => f = Served) w.(afaults).

(** A sample address and address book. *)
Definition ex_address_data (name line1 : string) (line2 : option string) (dflt : bool)
  : CreateAddressData.t :=
  {| CreateAddressData.user_id := "user-1";
     CreateAddressData.name := name;
     CreateAddressData.address_line_1 := line1;
     CreateAddressData.address_line_2 := line2;
     CreateAddressData.city := "Kolkata";
     CreateAddressData.state := "West Bengal";
     CreateAddressData.pincode := "700029";
     CreateAddressData.phone := "+910000000000";
     CreateAddressData.is_default := dflt;
     CreateAddressData.latitude := 22%Q;
     CreateAddressData.longitude := 88%Q;
     CreateAddressData.label := None;
     CreateAddressData.landmark := None;
     CreateAddressData.delivery_instructions := None;
     CreateAddressData.delivery_for := None;
     CreateAddressData.receiver_name := None;
     CreateAddressData.receiver_address := None;
     CreateAddressData.receiver_phone := None;
     CreateAddressData.google_place_id := None;
     CreateAddressData.google_formatted_address := None;
     CreateAddressData.google_place_data := None |}.

Definition ex_address_world (rows : list AddressRow.t) (fs : list Fault) : AddressWorld :=
  {| saved := rows; afaults := fs; anow := "2025-06-01T10:00:00Z" |}.

(** * Proofs *)

(** ** Facts about the JavaScript containers *)

Module JsMapFacts.

Lemma get_set {V} (m : JsMap.t V) k v k' :
  JsMap.get (JsMap.set m k v) k' =
  if String.eqb k k' then Some v else JsMap.get m k'.
Proof.
  induction m as [|[k0 v0] m IH]; simpl.
  - reflexivity.
  - destruct (String.eqb k0 k) eqn:E0; simpl.
    + apply String.eqb_eq in E0; subst k0.
      destruct (String.eqb k k'); reflexivity.
    + destruct (String.eqb k0 k') eqn:E1.
      * apply String.eqb_eq in E1; subst k'.
        rewrite String.eqb_sym, E0. reflexivity.
      * exact IH.
Qed.

Lemma get_set_same {V} (m : JsMap.t V) k v :
  JsMap.get (JsMap.set m k v) k = Some v.
Proof. rewrite get_set, String.eqb_refl. reflexivity. Qed.

Lemma get_set_other {V} (m : JsMap.t V) k v k' :
  k <> k' -> JsMap.get (JsMap.set m k v) k' = JsMap.get m k'.
Proof.
  intros H. rewrite get_set.
  destruct (String.eqb k k') eqn:E; [apply String.eqb_eq in E; contradiction | reflexivity].
Qed.

Lemma get_In {V} (m : JsMap.t V) k v :
  JsMap.get m k = Some v -> In (k, v) m.
Proof.
  induction m as [|[k0 v0] m IH]; simpl; [discriminate|].
  destruct (String.eqb k0 k) eqn:E.
  - apply String.eqb_eq in E. intros [= ->]. left. congruence.
  - intros H. right. auto.
Qed.

Lemma get_None_keys {V} (m : JsMap.t V) k :
  JsMap.get m k = None <-> ~ In k (JsMap.keys m).
Proof.
  induction m as [|[k0 v0] m IH]; simpl.
  - tauto.
  - destruct (String.eqb k0 k) eqn:E.
    + apply String.eqb_eq in E. split; [discriminate | intros H; exfalso; auto].
    + apply String.eqb_neq in E. rewrite IH. tauto.
Qed.

Lemma In_get {V} (m : JsMap.t V) k v :
  NoDup (JsMap.keys m) -> In (k, v) m -> JsMap.get m k = Some v.
Proof.
  induction m as [|[k0 v0] m IH]; simpl; [tauto|].
  intros Hnd [H|H].
  - inversion H; subst. rewrite String.eqb_refl. reflexivity.
  - inversion Hnd as [|? ? Hnot Hnd']; subst.
    destruct (String.eqb k0 k) eqn:E.
    + apply String.eqb_eq in E; subst.
      exfalso. apply Hnot. change k with (fst (k, v)). apply in_map. exact H.
    + auto.
Qed.

(** [set] on a present key rewrites the entry in place. *)
Lemma set_present {V} (m : JsMap.t V) k v v0 :
  JsMap.get m k = Some v0 ->
  exists m1 m2, m = m1 ++ (k, v0) :: m2 /\ JsMap.set m k v = m1 ++ (k, v) :: m2
                /\ ~ In k (JsMap.keys m1).
Proof.
  induction m as [|[k0 w0] m IH]; simpl; [discriminate|].
  destruct (String.eqb k0 k) eqn:E.
  - apply String.eqb_eq in E; subst. intros [= ->].
    exists [], m. simpl. auto.
  - intros H. destruct (IH H) as (m1 & m2 & -> & -> & Hn).
    exists ((k0, w0) :: m1), m2. simpl. repeat split; auto.
    intros [H0|H0]; [apply String.eqb_neq in E; auto | auto].
Qed.

(** [set] on an absent key appends the entry. *)
Lemma set_absent {V} (m : JsMap.t V) k v :
  JsMap.get m k = None -> JsMap.set m k v = m ++ [(k, v)].
Proof.
  induction m as [|[k0 w0] m IH]; simpl; [reflexivity|].
  destruct (String.eqb k0 k); [discriminate|].
  intros H. rewrite IH; auto.
Qed.

Lemma keys_set_present {V} (m : JsMap.t V) k v v0 :
  JsMap.get m k = Some v0 -> JsMap.keys (JsMap.set m k v) = JsMap.keys m.
Proof.
  intros H. destruct (set_present m k v _ H) as (m1 & m2 & -> & -> & _).
  unfold JsMap.keys. rewrite !map_app. reflexivity.
Qed.

Lemma keys_set_absent {V} (m : JsMap.t V) k v :
  JsMap.get m k = None -> JsMap.keys (JsMap.set m k v) = JsMap.keys m ++ [k].
Proof.
  intros H. rewrite set_absent by exact H.
  unfold JsMap.keys. rewrite map_app. reflexivity.
Qed.

Lemma NoDup_keys_set {V} (m : JsMap.t V) k v :
  NoDup (JsMap.keys m) -> NoDup (JsMap.keys (JsMap.set m k v)).
Proof.
  intros Hnd. destruct (JsMap.get m k) eqn:E.
  - rewrite (keys_set_present m k v _ E). exact Hnd.
  - rewrite (keys_set_absent m k v E).
    apply NoDup_app; [exact Hnd | repeat constructor; auto | ].
    intros x Hx [<-|[]]. apply get_None_keys in E. contradiction.
Qed.

End JsMapFacts.

Module JsSetFacts.

Lemma has_In s i : JsSet.has s i = true <-> In i s.
Proof.
  unfold JsSet.has. rewrite existsb_exists. split.
  - intros (x & Hx & E). apply Nat.eqb_eq in E. subst. exact Hx.
  - intros H. exists i. split; [exact H | apply Nat.eqb_refl].
Qed.

Lemma has_false s i : JsSet.has s i = false <-> ~ In i s.
Proof.
  rewrite <- has_In. destruct (JsSet.has s i); split; congruence.
Qed.

Lemma has_app s t i : JsSet.has (s ++ t) i = JsSet.has s i || JsSet.has t i.
Proof. unfold JsSet.has. apply existsb_app. Qed.

End JsSetFacts.

(** ** The loops of the allocation *)

Section LoopFacts.

Variable heap : Heap.
Variable items : list objref.
Variable storeIds : list string.
Variable byMaster : JsMap.t (list StoreOption.t).

Local Abbreviation Carries := (carries heap byMaster).
Local Abbreviation Countable := (countable heap items byMaster).
Local Abbreviation Picked := (picked heap byMaster).
Local Abbreviation count_loop := (count_loop heap items byMaster).
Local Abbreviation best_loop := (best_loop heap items byMaster).
Local Abbreviation assign_loop := (assign_loop heap byMaster).

(** *** [indexOf] *)

Lemma indexOf_from_Some l it i j :
  indexOf_from l it i = Some j ->
  i <= j /\ nth_error l (j - i) = Some it.
Proof.
  revert i. induction l as [|x l IH]; simpl; intros i H; [discriminate|].
  destruct (Nat.eqb x it) eqn:E.
  - apply Nat.eqb_eq in E. injection H as <-. subst.
    rewrite Nat.sub_diag. auto.
  - apply IH in H. destruct H as [Hle Hn]. split; [lia|].
    replace (j - i) with (S (j - S i)) by lia. exact Hn.
Qed.

Lemma indexOf_from_In l it i :
  In it l -> exists j, indexOf_from l it i = Some j.
Proof.
  revert i. induction l as [|x l IH]; simpl; intros i H; [contradiction|].
  destruct (Nat.eqb x it) eqn:E; [eauto|].
  destruct H as [H|H]; [subst; rewrite Nat.eqb_refl in E; discriminate|].
  apply IH. exact H.
Qed.

Lemma indexOf_In it :
  In it items -> exists j, indexOf items it = Some j /\ nth_error items j = Some it.
Proof.
  intros H. destruct (indexOf_from_In items it 0 H) as [j Hj].
  exists j. split; [exact Hj|].
  apply indexOf_from_Some in Hj. rewrite Nat.sub_0_r in Hj. tauto.
Qed.

(** *** The counting loop *)

Lemma options_some_Ret r s b :
  options_some (item_options byMaster (heap r)) s = Ret b -> b = Carries s r.
Proof.
  unfold options_some, Carries.
  destruct (item_options byMaster (heap r)); [|discriminate].
  intros [= <-]. reflexivity.
Qed.

Lemma options_some_defined r s :
  item_options byMaster (heap r) <> None ->
  options_some (item_options byMaster (heap r)) s = Ret (Carries s r).
Proof.
  unfold options_some, Carries.
  destruct (item_options byMaster (heap r)); [reflexivity | congruence].
Qed.

Lemma count_loop_Ret asg s its c0 c :
  count_loop asg s its c0 = Ret c ->
  c = c0 + List.length (filter (Countable asg s) its).
Proof.
  revert c0. induction its as [|it its IH]; simpl; intros c0 H.
  - injection H as <-. lia.
  - unfold Countable at 1.
    destruct (has_idx asg (indexOf items it)); simpl.
    + apply IH. exact H.
    + destruct (options_some (item_options byMaster (heap it)) s) as [b| |] eqn:E;
        simpl in H; try discriminate.
      apply options_some_Ret in E. subst b.
      apply IH in H. destruct (Carries s it); simpl; lia.
Qed.

Lemma count_loop_defined asg s its c0 :
  (forall it, In it its -> item_options byMaster (heap it) <> None) ->
  count_loop asg s its c0 = Ret (c0 + List.length (filter (Countable asg s) its)).
Proof.
  revert c0. induction its as [|it its IH]; simpl; intros c0 H.
  - f_equal. lia.
  - unfold Countable at 1.
    destruct (has_idx asg (indexOf items it)); simpl.
    + apply IH. auto.
    + rewrite options_some_defined by auto. simpl.
      rewrite IH by auto. destruct (Carries s it); simpl; f_equal; lia.
Qed.

(** *** The loop that picks the best store *)

Lemma best_loop_Ret asg sids bs bc bs' bc' :
  best_loop asg sids bs bc = Ret (bs', bc') ->
  bc <= bc'
  /\ (forall s, In s sids ->
                List.length (filter (Countable asg s) items) <= bc')
  /\ ((bs', bc') = (bs, bc)
      \/ (bc < bc' /\ exists s, bs' = Some s /\ In s sids
                                /\ bc' = List.length (filter (Countable asg s) items))).
Proof.
  revert bs bc. induction sids as [|s sids IH]; simpl; intros bs bc H.
  - injection H as <- <-. split; [lia|]. split; [tauto|]. left. reflexivity.
  - destruct (count_loop asg s items 0) as [c| |] eqn:Ec; simpl in H; try discriminate.
    apply count_loop_Ret in Ec. simpl in Ec.
    destruct (bc <? c) eqn:Elt.
    + apply Nat.ltb_lt in Elt. apply IH in H. destruct H as (Hle & Hmax & Hsel).
      split; [lia|]. split.
      * intros s' [<-|Hs']; [lia | auto].
      * right. destruct Hsel as [Heq | (Hlt & s' & -> & Hin & Hc)].
        -- injection Heq as -> ->. split; [lia|]. exists s. auto.
        -- split; [lia|]. exists s'. auto.
    + apply Nat.ltb_ge in Elt. apply IH in H. destruct H as (Hle & Hmax & Hsel).
      split; [lia|]. split.
      * intros s' [<-|Hs']; [lia | auto].
      * destruct Hsel as [Heq | (Hlt & s' & -> & Hin & Hc)]; [left; exact Heq|].
        right. split; [lia|]. exists s'. auto.
Qed.

Lemma best_loop_defined asg sids bs bc :
  (forall it, In it items -> item_options byMaster (heap it) <> None) ->
  exists bs' bc', best_loop asg sids bs bc = Ret (bs', bc').
Proof.
  intros Hdef. revert bs bc. induction sids as [|s sids IH]; simpl; intros bs bc.
  - eauto.
  - rewrite count_loop_defined by exact Hdef. simpl.
    destruct (bc <? _); apply IH.
Qed.

(** *** The assignment loop *)

Lemma picked_ext b asg1 asg2 its i :
  (forall j, i <= j -> JsSet.has asg1 j = JsSet.has asg2 j) ->
  Picked b asg1 its i = Picked b asg2 its i.
Proof.
  revert i. induction its as [|it its IH]; simpl; intros i H; [reflexivity|].
  rewrite (H i) by lia.
  rewrite (IH (S i)) by (intros; apply H; lia). reflexivity.
Qed.

Lemma picked_spec b asg its i j r :
  In (j, r) (Picked b asg its i) <->
  i <= j /\ nth_error its (j - i) = Some r
  /\ JsSet.has asg j = false /\ Carries b r = true.
Proof.
  revert i. induction its as [|it its IH]; simpl; intros i.
  - split; [tauto|]. intros (_ & H & _). destruct (j - i); discriminate.
  - assert (Hrest : (i <= j /\ nth_error (it :: its) (j - i) = Some r
                     /\ JsSet.has asg j = false /\ Carries b r = true)
                    <-> ((j = i /\ it = r /\ JsSet.has asg i = false /\ Carries b it = true)
                         \/ (S i <= j /\ nth_error its (j - S i) = Some r
                             /\ JsSet.has asg j = false /\ Carries b r = true))).
    { split.
      - intros (Hle & Hn & Hh & Hc).
        destruct (Nat.eq_dec j i) as [->|Hne].
        + rewrite Nat.sub_diag in Hn. simpl in Hn. injection Hn as ->. left. auto.
        + right. replace (j - i) with (S (j - S i)) in Hn by lia. simpl in Hn.
          repeat split; auto. lia.
      - intros [(-> & -> & Hh & Hc) | (Hle & Hn & Hh & Hc)].
        + rewrite Nat.sub_diag. simpl. auto.
        + replace (j - i) with (S (j - S i)) by lia. simpl.
          repeat split; auto. lia. }
    rewrite Hrest. clear Hrest.
    destruct (JsSet.has asg i) eqn:Eh.
    + rewrite IH. split; [tauto|].
      intros [(_ & _ & H & _) | H]; [discriminate | exact H].
    + destruct (Carries b it) eqn:Ec.
      * simpl. rewrite IH. split.
        -- intros [H|H]; [injection H as <- <-; left; auto | right; exact H].
        -- intros [(-> & -> & _) | H]; [left; reflexivity | right; exact H].
      * rewrite IH. split; [tauto|].
        intros [(_ & _ & _ & H) | H]; [discriminate | exact H].
Qed.

Lemma picked_fst_bounds b asg its i j :
  In j (map fst (Picked b asg its i)) -> i <= j < i + List.length its.
Proof.
  intros H. apply in_map_iff in H. destruct H as ([j' r] & <- & H). simpl.
  apply picked_spec in H. destruct H as (Hle & Hn & _).
  assert (j' - i < List.length its) by (apply nth_error_Some; congruence).
  lia.
Qed.

Lemma picked_fst_NoDup b asg its i :
  NoDup (map fst (Picked b asg its i)).
Proof.
  revert i. induction its as [|it its IH]; simpl; intros i; [constructor|].
  destruct (JsSet.has asg i); [apply IH|].
  destruct (Carries b it); [|apply IH].
  simpl. constructor; [|apply IH].
  intros H. apply picked_fst_bounds in H. lia.
Qed.

Lemma picked_fst_unassigned b asg its i j :
  In j (map fst (Picked b asg its i)) -> JsSet.has asg j = false.
Proof.
  intros H. apply in_map_iff in H. destruct H as ([j' r] & <- & H). simpl.
  apply picked_spec in H. tauto.
Qed.

Lemma assign_loop_Ret b its i chunk asg chunk' asg' :
  assign_loop b its i chunk asg = Ret (chunk', asg') ->
  chunk' = chunk ++ map snd (Picked b asg its i)
  /\ asg' = asg ++ map fst (Picked b asg its i).
Proof.
  revert i chunk asg. induction its as [|it its IH]; simpl; intros i chunk asg H.
  - injection H as <- <-. rewrite !app_nil_r. auto.
  - destruct (JsSet.has asg i) eqn:Eh.
    + apply IH in H; auto.
    + destruct (options_some (item_options byMaster (heap it)) b) as [c| |] eqn:E;
        simpl in H; try discriminate.
      apply options_some_Ret in E. subst c.
      destruct (Carries b it) eqn:Ec.
      * apply IH in H.
        unfold JsSet.add in H. rewrite Eh in H.
        rewrite (picked_ext b (asg ++ [i]) asg) in H.
        -- destruct H as [-> ->]. simpl. rewrite <- !app_assoc. simpl. auto.
        -- intros j Hj. rewrite JsSetFacts.has_app. simpl.
           replace (j =? i) with false by (symmetry; apply Nat.eqb_neq; lia).
           rewrite !orb_false_r. reflexivity.
      * apply IH in H; auto.
Qed.

Lemma assign_loop_defined b its i chunk asg :
  (forall it, In it its -> item_options byMaster (heap it) <> None) ->
  exists res, assign_loop b its i chunk asg = Ret res.
Proof.
  revert i chunk asg. induction its as [|it its IH]; simpl; intros i chunk asg Hdef.
  - eauto.
  - destruct (JsSet.has asg i); [apply IH; auto|].
    rewrite options_some_defined by auto. simpl.
    destruct (Carries b it); apply IH; auto.
Qed.

(** *** The inner loops run over the cart and the candidates: they
    never run out of steps *)

Lemma count_loop_not_Timeout asg s its c0 :
  count_loop asg s its c0 <> Timeout.
Proof.
  revert c0. induction its as [|it its IH]; simpl; intros c0; [discriminate|].
  destruct (has_idx asg (indexOf items it)); [apply IH|].
  unfold options_some.
  destruct (item_options byMaster (heap it)); simpl; [apply IH | discriminate].
Qed.

Lemma best_loop_not_Timeout asg sids bs bc :
  best_loop asg sids bs bc <> Timeout.
Proof.
  revert bs bc. induction sids as [|s sids IH]; simpl; intros bs bc; [discriminate|].
  destruct (count_loop asg s items 0) as [c| |] eqn:Ec; simpl; try discriminate.
  - destruct (bc <? c); apply IH.
  - exfalso. exact (count_loop_not_Timeout _ _ _ _ Ec).
Qed.

Lemma assign_loop_not_Timeout b its i chunk asg :
  assign_loop b its i chunk asg <> Timeout.
Proof.
  revert i chunk asg. induction its as [|it its IH]; simpl; intros i chunk asg;
    [discriminate|].
  destruct (JsSet.has asg i); [apply IH|].
  unfold options_some.
  destruct (item_options byMaster (heap it)); simpl; [|discriminate].
  destruct (existsb _ _); apply IH.
Qed.

End LoopFacts.

(** ** Index sets and maps, continued *)

Lemma In_set_iff {V} (m : JsMap.t V) k v s l :
  NoDup (JsMap.keys m) ->
  In (s, l) (JsMap.set m k v) <-> (s = k /\ l = v) \/ (s <> k /\ In (s, l) m).
Proof.
  intros Hnd.
  assert (Hnd' := JsMapFacts.NoDup_keys_set m k v Hnd).
  split.
  - intros H. apply JsMapFacts.In_get in H; [|exact Hnd'].
    rewrite JsMapFacts.get_set in H.
    destruct (String.eqb k s) eqn:E.
    + apply String.eqb_eq in E. injection H as <-. left. auto.
    + apply String.eqb_neq in E. right. split; [congruence|].
      apply JsMapFacts.get_In. exact H.
  - intros [[-> ->] | [Hne H]]; apply JsMapFacts.get_In.
    + apply JsMapFacts.get_set_same.
    + rewrite JsMapFacts.get_set_other by congruence.
      apply JsMapFacts.In_get; assumption.
Qed.

Lemma concat_values_set (m : JsMap.t (list objref)) k c :
  Permutation
    (List.concat (JsMap.values
       (JsMap.set m k (match JsMap.get m k with Some l => l | None => [] end ++ c))))
    (List.concat (JsMap.values m) ++ c).
Proof.
  destruct (JsMap.get m k) as [l0|] eqn:E.
  - destruct (JsMapFacts.set_present m k (l0 ++ c) _ E) as (m1 & m2 & -> & -> & _).
    unfold JsMap.values. rewrite !map_app. simpl. rewrite !concat_app. simpl.
    rewrite <- !app_assoc. apply Permutation_app_head. apply Permutation_app_head.
    apply Permutation_app_comm.
  - rewrite JsMapFacts.set_absent by exact E.
    unfold JsMap.values. rewrite map_app, concat_app. simpl.
    rewrite app_nil_r. reflexivity.
Qed.

Lemma full_index_set (asg : list nat) n :
  NoDup asg -> (forall i, In i asg -> i < n) -> n <= List.length asg ->
  forall j, j < n -> In j asg.
Proof.
  intros Hnd Hr Hlen j Hj.
  assert (Hincl : incl (seq 0 n) asg).
  { apply NoDup_length_incl; [exact Hnd | rewrite length_seq; exact Hlen |].
    intros i Hi. apply in_seq. specialize (Hr i Hi). lia. }
  apply Hincl. apply in_seq. lia.
Qed.

Lemma missing_index (asg : list nat) n :
  NoDup asg -> (forall i, In i asg -> i < n) -> List.length asg < n ->
  exists j, j < n /\ JsSet.has asg j = false.
Proof.
  intros Hnd Hr Hlen.
  destruct (existsb (fun j => negb (JsSet.has asg j)) (seq 0 n)) eqn:E.
  - apply existsb_exists in E. destruct E as (j & Hj & Hb).
    apply in_seq in Hj. exists j. split; [lia|].
    destruct (JsSet.has asg j); [discriminate | reflexivity].
  - exfalso.
    assert (Hincl : incl (seq 0 n) asg).
    { intros j Hj. apply JsSetFacts.has_In.
      destruct (JsSet.has asg j) eqn:Eh; [reflexivity|].
      assert (existsb (fun j => negb (JsSet.has asg j)) (seq 0 n) = true).
      { apply existsb_exists. exists j. rewrite Eh. auto. }
      congruence. }
    apply NoDup_incl_length in Hincl; [|apply seq_NoDup].
    rewrite length_seq in Hincl. lia.
Qed.

Lemma map_nth_seq (items : list objref) :
  map (fun i => nth i items 0) (seq 0 (List.length items)) = items.
Proof.
  induction items as [|a l IH]; simpl; [reflexivity|].
  f_equal. rewrite <- seq_shift, map_map. simpl. exact IH.
Qed.

Lemma unassigned_from_nil asg its i :
  (forall j, i <= j < i + List.length its -> JsSet.has asg j = true) ->
  unassigned_from asg its i = [].
Proof.
  revert i. induction its as [|it its IH]; simpl; intros i H; [reflexivity|].
  rewrite (H i) by lia. apply IH. intros j Hj. apply H. lia.
Qed.

Lemma unassigned_from_spec asg its i r :
  In r (unassigned_from asg its i) <->
  exists j, i <= j /\ nth_error its (j - i) = Some r /\ JsSet.has asg j = false.
Proof.
  revert i. induction its as [|it its IH]; simpl; intros i.
  - split; [tauto|]. intros (j & _ & H & _). destruct (j - i); discriminate.
  - assert (Hstep : (exists j, i <= j /\ nth_error (it :: its) (j - i) = Some r
                               /\ JsSet.has asg j = false)
                    <-> ((it = r /\ JsSet.has asg i = false)
                         \/ exists j, S i <= j /\ nth_error its (j - S i) = Some r
                                      /\ JsSet.has asg j = false)).
    { split.
      - intros (j & Hle & Hn & Hh).
        destruct (Nat.eq_dec j i) as [->|Hne].
        + rewrite Nat.sub_diag in Hn. simpl in Hn. injection Hn as ->. left. auto.
        + right. exists j. replace (j - i) with (S (j - S i)) in Hn by lia.
          simpl in Hn. repeat split; auto. lia.
      - intros [(-> & Hh) | (j & Hle & Hn & Hh)].
        + exists i. rewrite Nat.sub_diag. simpl. auto.
        + exists j. replace (j - i) with (S (j - S i)) by lia. simpl.
          repeat split; auto. lia. }
    rewrite Hstep. clear Hstep.
    destruct (JsSet.has asg i) eqn:Eh.
    + rewrite IH. split; [tauto|]. intros [[_ H]|H]; [discriminate | exact H].
    + simpl. rewrite IH. split.
      * intros [H|H]; [left; auto | right; exact H].
      * intros [[H _]|H]; [left; exact H | right; exact H].
Qed.

(** ** The invariant of the [while] loop *)

Section WhileFacts.

Variable heap : Heap.
Variable items : list objref.
Variable storeIds : list string.
Variable byMaster : JsMap.t (list StoreOption.t).

Local Abbreviation Carries := (carries heap byMaster).
Local Abbreviation Countable := (countable heap items byMaster).
Local Abbreviation Picked := (picked heap byMaster).
Local Abbreviation Inv := (AllocInv heap items byMaster).
Local Abbreviation while_loop := (while_loop heap items storeIds byMaster).

Lemma AllocInv_init :
  Inv {| storeToItems := JsMap.empty; assigned := JsSet.empty |}.
Proof.
  constructor; simpl; intros; try contradiction; try reflexivity; constructor.
Qed.

Lemma refs_at_picked b asg :
  refs_at items (map fst (Picked b asg items 0)) = map snd (Picked b asg items 0).
Proof.
  unfold refs_at. rewrite map_map. apply map_ext_in.
  intros [j r] H. simpl. apply picked_spec in H.
  destruct H as (_ & Hn & _). rewrite Nat.sub_0_r in Hn.
  apply nth_error_nth. exact Hn.
Qed.

Lemma In_fst_picked b asg j :
  In j (map fst (Picked b asg items 0)) <->
  exists r, nth_error items j = Some r
            /\ JsSet.has asg j = false /\ Carries b r = true.
Proof.
  rewrite in_map_iff. split.
  - intros ([j' r] & <- & H). simpl. apply picked_spec in H.
    rewrite Nat.sub_0_r in H. exists r. tauto.
  - intros (r & Hn & Hh & Hc). exists (j, r). split; [reflexivity|].
    apply picked_spec. rewrite Nat.sub_0_r. repeat split; auto. lia.
Qed.

Lemma In_snd_picked b asg r :
  In r (map snd (Picked b asg items 0)) ->
  Carries b r = true
  /\ exists j, nth_error items j = Some r /\ JsSet.has asg j = false.
Proof.
  rewrite in_map_iff. intros ([j r'] & <- & H). simpl.
  apply picked_spec in H. rewrite Nat.sub_0_r in H.
  split; [tauto|]. exists j. tauto.
Qed.

(** A store with a positive count gets at least one cart line. *)
Lemma picked_nonempty st b :
  Inv st ->
  List.length (filter (Countable st.(assigned) b) items) <> 0 ->
  Picked b st.(assigned) items 0 <> [].
Proof.
  intros HI Hc.
  destruct (filter (Countable st.(assigned) b) items) as [|it rest] eqn:E;
    [contradiction|].
  assert (Hin : In it (filter (Countable st.(assigned) b) items))
    by (rewrite E; left; reflexivity).
  apply filter_In in Hin. destruct Hin as [Hit Hcnt].
  unfold countable in Hcnt. apply andb_true_iff in Hcnt.
  destruct Hcnt as [Hidx Hcar].
  destruct (indexOf_In items it Hit) as (j & Hj & Hn).
  rewrite Hj in Hidx. simpl in Hidx. apply negb_true_iff in Hidx.
  assert (Hp : In j (map fst (Picked b st.(assigned) items 0))).
  { apply In_fst_picked. exists it. auto. }
  intros Hnil. rewrite Hnil in Hp. contradiction.
Qed.

(** One round of the loop keeps the invariant. *)
Lemma AllocInv_round st b :
  Inv st ->
  b <> EmptyString ->
  Picked b st.(assigned) items 0 <> [] ->
  Inv {| storeToItems :=
           JsMap.set st.(storeToItems) b
             (match JsMap.get st.(storeToItems) b with
              | Some l => l
              | None => []
              end ++ map snd (Picked b st.(assigned) items 0));
         assigned := st.(assigned) ++ map fst (Picked b st.(assigned) items 0) |}.
Proof.
  intros HI Hb Hne.
  destruct st as [m asg]. simpl in *.
  set (P := Picked b asg items 0) in *.
  destruct HI as [Hnd Hrange Halias Hkeys Hentry Hdisj Hperm]. simpl in *.
  assert (Hold : forall s l r, In (s, l) m -> In r l ->
                   exists j, nth_error items j = Some r /\ JsSet.has asg j = true).
  { intros s l r Hsl Hr.
    assert (Hc : In r (List.concat (JsMap.values m))).
    { apply in_concat. exists l. split; [|exact Hr].
      unfold JsMap.values. change l with (snd (s, l)). apply in_map. exact Hsl. }
    apply (Permutation_in _ Hperm) in Hc. unfold refs_at in Hc.
    apply in_map_iff in Hc. destruct Hc as (j & Hj & Hin).
    exists j. split.
    - rewrite <- Hj. apply nth_error_nth'. apply Hrange. exact Hin.
    - apply JsSetFacts.has_In. exact Hin. }
  assert (Hexisting : forall r,
             In r (match JsMap.get m b with Some l => l | None => [] end) ->
             exists l, In (b, l) m /\ In r l).
  { intros r Hr. destruct (JsMap.get m b) as [l|] eqn:E; [|contradiction].
    exists l. split; [apply JsMapFacts.get_In; exact E | exact Hr]. }
  constructor; simpl.
  - (* no duplicate index *)
    apply NoDup_app; [exact Hnd | apply picked_fst_NoDup |].
    intros j Hj Hp. apply picked_fst_unassigned in Hp.
    apply JsSetFacts.has_In in Hj. congruence.
  - (* indices in range *)
    intros i Hi. apply in_app_or in Hi. destruct Hi as [Hi|Hi]; [auto|].
    apply picked_fst_bounds in Hi. lia.
  - (* aliases share their status *)
    intros i j r Hi Hj. rewrite !JsSetFacts.has_app.
    rewrite (Halias i j r Hi Hj).
    destruct (JsSet.has asg j) eqn:Eh; [reflexivity|]. simpl.
    assert (Ehi : JsSet.has asg i = false) by (rewrite (Halias i j r Hi Hj); exact Eh).
    apply eq_true_iff_eq. unfold P. rewrite !JsSetFacts.has_In, !In_fst_picked.
    split; intros (r' & Hn & _ & Hc).
    + exists r. rewrite Hi in Hn. injection Hn as <-. auto.
    + exists r. rewrite Hj in Hn. injection Hn as <-. auto.
  - (* keys stay distinct *)
    apply JsMapFacts.NoDup_keys_set. exact Hkeys.
  - (* entries *)
    intros s l Hsl. apply In_set_iff in Hsl; [|exact Hkeys].
    destruct Hsl as [[-> ->] | [Hsne Hsl]]; [|apply Hentry; exact Hsl].
    split; [|split; [exact Hb|]].
    + intros Hnil. apply app_eq_nil in Hnil. destruct Hnil as [_ Hnil].
      apply map_eq_nil in Hnil. contradiction.
    + intros r Hr. apply in_app_or in Hr. destruct Hr as [Hr|Hr].
      * destruct (Hexisting r Hr) as (l & Hl & Hrl).
        apply (Hentry b l Hl). exact Hrl.
      * apply In_snd_picked in Hr. tauto.
  - (* a cart line goes to one store *)
    assert (Hfresh : forall s l r, In (s, l) m -> In r l ->
                       In r (map snd P) -> False).
    { intros s l r Hsl Hr Hp.
      destruct (Hold s l r Hsl Hr) as (j & Hj & Hh).
      apply In_snd_picked in Hp. destruct Hp as (_ & i & Hi & Hhi).
      rewrite (Halias i j r Hi Hj) in Hhi. congruence. }
    intros s1 l1 s2 l2 r H1 H2 Hr1 Hr2.
    apply In_set_iff in H1; [|exact Hkeys].
    apply In_set_iff in H2; [|exact Hkeys].
    destruct H1 as [[-> ->] | [Hne1 H1]]; destruct H2 as [[-> ->] | [Hne2 H2]].
    + reflexivity.
    + exfalso. apply in_app_or in Hr1. destruct Hr1 as [Hr1|Hr1].
      * destruct (Hexisting r Hr1) as (l & Hl & Hrl).
        apply Hne2. symmetry. exact (Hdisj b l s2 l2 r Hl H2 Hrl Hr2).
      * exact (Hfresh s2 l2 r H2 Hr2 Hr1).
    + exfalso. apply in_app_or in Hr2. destruct Hr2 as [Hr2|Hr2].
      * destruct (Hexisting r Hr2) as (l & Hl & Hrl).
        apply Hne1. exact (Hdisj s1 l1 b l r H1 Hl Hr1 Hrl).
      * exact (Hfresh s1 l1 r H1 Hr1 Hr2).
    + exact (Hdisj s1 l1 s2 l2 r H1 H2 Hr1 Hr2).
  - (* the lists hold the lines at the assigned positions *)
    eapply Permutation_trans; [apply concat_values_set|].
    unfold refs_at. rewrite map_app.
    apply Permutation_app; [exact Hperm|].
    fold (refs_at items (map fst P)). unfold P.
    rewrite refs_at_picked. reflexivity.
Qed.

(** What one pass through the loop body does, when it does not leave
    the loop. *)
Lemma while_loop_step fuel st :
  JsSet.size st.(assigned) < List.length items ->
  while_loop (S fuel) st =
  (obind (best_loop heap items byMaster st.(assigned) storeIds None 0)
     (fun '(bestStore, bestCount) =>
        if negb (Js.truthy bestStore) || (bestCount =? 0) then Ret st
        else
          match bestStore with
          | None => Ret st
          | Some b =>
              obind (assign_loop heap byMaster b items 0 [] st.(assigned))
                (fun '(chunk, assigned') =>
                   while_loop fuel
                     {| storeToItems :=
                          JsMap.set st.(storeToItems) b
                            (match JsMap.get st.(storeToItems) b with
                             | Some l => l
                             | None => []
                             end ++ chunk);
                        assigned := assigned' |})
          end)).
Proof.
  intros H. simpl.
  apply Nat.ltb_lt in H. rewrite H. reflexivity.
Qed.

Lemma while_loop_exit fuel st :
  List.length items <= JsSet.size st.(assigned) ->
  while_loop fuel st = Ret st.
Proof.
  intros H. apply Nat.ltb_ge in H.
  destruct fuel; simpl; rewrite H; reflexivity.
Qed.

Lemma truthy_Some_nonempty b : Js.truthy (Some b) = true -> b <> EmptyString.
Proof.
  simpl. intros H ->. discriminate.
Qed.

(** Every state the loop returns satisfies the invariant. *)
Lemma while_loop_inv fuel st st' :
  Inv st -> while_loop fuel st = Ret st' -> Inv st'.
Proof.
  revert st. induction fuel as [|fuel IH]; intros st HI H.
  - simpl in H. destruct (negb _); [injection H as <-; exact HI | discriminate].
  - destruct (Nat.lt_ge_cases (JsSet.size st.(assigned)) (List.length items)) as [Hlt|Hge].
    + rewrite while_loop_step in H by exact Hlt.
      destruct (best_loop heap items byMaster st.(assigned) storeIds None 0)
        as [[bs bc]| |] eqn:Eb; simpl in H; try discriminate.
      destruct (negb (Js.truthy bs) || (bc =? 0)) eqn:Ebrk;
        [injection H as <-; exact HI|].
      apply orb_false_iff in Ebrk. destruct Ebrk as [Etr Ebc].
      apply negb_false_iff in Etr. apply Nat.eqb_neq in Ebc.
      destruct bs as [b|]; [|discriminate].
      destruct (assign_loop heap byMaster b items 0 [] st.(assigned))
        as [[chunk asg']| |] eqn:Ea; simpl in H; try discriminate.
      apply assign_loop_Ret in Ea. simpl in Ea. destruct Ea as [-> ->].
      apply best_loop_Ret in Eb. destruct Eb as (_ & _ & [Heq | (_ & s & Hs & _ & Hc)]).
      * injection Heq as _ ->. contradiction.
      * injection Hs as <-. apply IH in H; [exact H|].
        apply AllocInv_round; [exact HI | apply truthy_Some_nonempty; exact Etr |].
        apply picked_nonempty; [exact HI | congruence].
    + rewrite while_loop_exit in H by exact Hge. injection H as <-. exact HI.
Qed.

(** The fuel [allocate] gives the loop is enough. *)
Lemma while_loop_total fuel st :
  Inv st ->
  List.length items <= fuel + JsSet.size st.(assigned) ->
  while_loop fuel st <> Timeout.
Proof.
  revert st. induction fuel as [|fuel IH]; intros st HI Hfuel.
  - rewrite while_loop_exit by (simpl in Hfuel; exact Hfuel). discriminate.
  - destruct (Nat.lt_ge_cases (JsSet.size st.(assigned)) (List.length items)) as [Hlt|Hge].
    + rewrite while_loop_step by exact Hlt.
      destruct (best_loop heap items byMaster st.(assigned) storeIds None 0)
        as [[bs bc]| |] eqn:Eb; simpl; try discriminate.
      * destruct (negb (Js.truthy bs) || (bc =? 0)) eqn:Ebrk; [discriminate|].
        apply orb_false_iff in Ebrk. destruct Ebrk as [Etr Ebc].
        apply negb_false_iff in Etr. apply Nat.eqb_neq in Ebc.
        destruct bs as [b|]; [|discriminate].
        destruct (assign_loop heap byMaster b items 0 [] st.(assigned))
          as [[chunk asg']| |] eqn:Ea; simpl; try discriminate.
        -- apply assign_loop_Ret in Ea. simpl in Ea. destruct Ea as [-> ->].
           apply best_loop_Ret in Eb.
           destruct Eb as (_ & _ & [Heq | (_ & s & Hs & _ & Hc)]).
           ++ injection Heq as _ ->. contradiction.
           ++ injection Hs as <-.
              assert (Hne : Picked b st.(assigned) items 0 <> [])
                by (apply picked_nonempty; [exact HI | congruence]).
              apply IH.
              ** apply AllocInv_round;
                   [exact HI | apply truthy_Some_nonempty; exact Etr | exact Hne].
              ** simpl. unfold JsSet.size in *. rewrite length_app, length_map.
                 destruct (Picked b st.(assigned) items 0); [contradiction|].
                 simpl. lia.
        -- exfalso. exact (assign_loop_not_Timeout _ _ _ _ _ _ _ Ea).
      * exfalso. exact (best_loop_not_Timeout _ _ _ _ _ _ _ Eb).
    + rewrite while_loop_exit by exact Hge. discriminate.
Qed.

End WhileFacts.

(** ** When every cart line is carried *)

Section Complete.

Variable heap : Heap.
Variable items : list objref.
Variable storeIds : list string.
Variable byMaster : JsMap.t (list StoreOption.t).

Local Abbreviation Carries := (carries heap byMaster).
Local Abbreviation Countable := (countable heap items byMaster).
Local Abbreviation Picked := (picked heap byMaster).
Local Abbreviation Inv := (AllocInv heap items byMaster).
Local Abbreviation while_loop := (while_loop heap items storeIds byMaster).

Hypothesis all_carried :
  forall r, In r items -> exists s, In s storeIds /\ Carries s r = true.
Hypothesis store_ids_nonempty :
  forall s, In s storeIds -> s <> EmptyString.

Lemma carried_defined r :
  In r items -> item_options byMaster (heap r) <> None.
Proof.
  intros Hr. destruct (all_carried r Hr) as (s & _ & Hc).
  unfold carries in Hc.
  destruct (item_options byMaster (heap r)); [discriminate | discriminate].
Qed.

Lemma while_loop_complete fuel st :
  Inv st ->
  List.length items <= fuel + JsSet.size st.(assigned) ->
  exists st', while_loop fuel st = Ret st'
              /\ Inv st'
              /\ List.length items <= JsSet.size st'.(assigned).
Proof.
  revert st. induction fuel as [|fuel IH]; intros st HI Hfuel.
  - exists st. rewrite while_loop_exit by (simpl in Hfuel; exact Hfuel).
    simpl in Hfuel. auto.
  - destruct (Nat.lt_ge_cases (JsSet.size st.(assigned)) (List.length items)) as [Hlt|Hge].
    2:{ exists st. rewrite while_loop_exit by exact Hge. auto. }
    rewrite while_loop_step by exact Hlt.
    destruct (best_loop_defined heap items byMaster st.(assigned) storeIds None 0
                carried_defined) as (bs & bc & Eb).
    rewrite Eb. simpl.
    (* some position is still free, and a candidate Carries its line *)
    destruct (missing_index st.(assigned) (List.length items)
                (inv_nodup _ _ _ _ HI) (inv_range _ _ _ _ HI) Hlt) as (j & Hj & Hfree).
    destruct (nth_error items j) as [r|] eqn:Er;
      [|apply nth_error_None in Er; lia].
    assert (Hr : In r items) by (eapply nth_error_In; exact Er).
    destruct (all_carried r Hr) as (s & Hs & Hc).
    assert (Hcount : 1 <= List.length (filter (Countable st.(assigned) s) items)).
    { assert (Hin : In r (filter (Countable st.(assigned) s) items)).
      { apply filter_In. split; [exact Hr|].
        unfold countable. rewrite Hc, andb_true_r.
        destruct (indexOf_In items r Hr) as (j0 & Hj0 & Hn0).
        rewrite Hj0. simpl.
        rewrite (inv_alias _ _ _ _ HI j0 j r Hn0 Er), Hfree. reflexivity. }
      destruct (filter (Countable st.(assigned) s) items); [contradiction | simpl; lia]. }
    apply best_loop_Ret in Eb. destruct Eb as (_ & Hmax & Hsel).
    specialize (Hmax s Hs).
    destruct Hsel as [Heq | (_ & b & -> & Hb & Hbc)].
    { injection Heq as _ ->. lia. }
    assert (Hbne : b <> EmptyString) by (apply store_ids_nonempty; exact Hb).
    assert (Etr : Js.truthy (Some b) = true).
    { simpl. destruct (String.eqb b EmptyString) eqn:E; [|reflexivity].
      apply String.eqb_eq in E. contradiction. }
    rewrite Etr. simpl.
    replace (bc =? 0) with false by (symmetry; apply Nat.eqb_neq; lia).
    destruct (assign_loop_defined heap byMaster b items 0 [] st.(assigned))
      as ([chunk asg'] & Ea).
    { intros it Hit. apply carried_defined. exact Hit. }
    rewrite Ea. simpl.
    apply assign_loop_Ret in Ea. simpl in Ea. destruct Ea as [-> ->].
    assert (Hne : Picked b st.(assigned) items 0 <> [])
      by (apply picked_nonempty; [exact HI | lia]).
    apply IH.
    + apply AllocInv_round; assumption.
    + simpl. unfold JsSet.size in *. rewrite length_app, length_map.
      destruct (Picked b st.(assigned) items 0); [contradiction|].
      simpl. lia.
Qed.

End Complete.

(** ** [byMaster] and the rows it is built from *)

Lemma get_fold_byMaster rows : forall acc m,
  JsMap.get (fold_left byMaster_step rows acc) m =
  match JsMap.get acc m,
        map option_of_row
          (filter (fun row => String.eqb row.(ProductRow.master_product_id) m) rows) with
  | Some l, new => Some (l ++ new)
  | None, [] => None
  | None, new => Some new
  end.
Proof.
  induction rows as [|row rows IH]; intros acc m; simpl.
  - destruct (JsMap.get acc m); [rewrite app_nil_r|]; reflexivity.
  - rewrite IH. unfold byMaster_step at 1. rewrite JsMapFacts.get_set.
    destruct (String.eqb row.(ProductRow.master_product_id) m) eqn:E; simpl.
    + apply String.eqb_eq in E. subst m.
      destruct (JsMap.get acc row.(ProductRow.master_product_id)); simpl.
      * rewrite <- app_assoc. reflexivity.
      * reflexivity.
    + reflexivity.
Qed.

Lemma get_build_byMaster rows m :
  JsMap.get (build_byMaster rows) m =
  match filter (fun row => String.eqb row.(ProductRow.master_product_id) m) rows with
  | [] => None
  | l => Some (map option_of_row l)
  end.
Proof.
  unfold build_byMaster. rewrite get_fold_byMaster. simpl.
  destruct (filter _ rows); reflexivity.
Qed.

Lemma carries_rows heap rows s r :
  carries heap (build_byMaster rows) s r = true ->
  row_carries heap rows s r.
Proof.
  unfold carries, item_options, row_carries.
  destruct (item_mid (heap r)) as [m|]; [|discriminate].
  destruct (Js.truthy (Some m)); [|discriminate].
  rewrite get_build_byMaster.
  destruct (filter _ rows) as [|row0 l] eqn:E; [discriminate|].
  intros H. apply existsb_exists in H. destruct H as (o & Ho & Hs).
  apply String.eqb_eq in Hs.
  apply in_map_iff in Ho. destruct Ho as (row & <- & Hrow).
  rewrite <- E in Hrow. apply filter_In in Hrow. destruct Hrow as [Hin Hm].
  apply String.eqb_eq in Hm.
  exists row. simpl in Hs. subst. auto.
Qed.

Lemma rows_carries heap rows s r :
  row_carries heap rows s r ->
  (forall row, In row rows -> row.(ProductRow.master_product_id) <> EmptyString) ->
  carries heap (build_byMaster rows) s r = true.
Proof.
  intros (row & Hin & Hs & Hm) Hne.
  unfold carries, item_options. rewrite Hm.
  assert (Etr : Js.truthy (Some row.(ProductRow.master_product_id)) = true).
  { simpl. destruct (String.eqb _ EmptyString) eqn:E; [|reflexivity].
    apply String.eqb_eq in E. exfalso. exact (Hne row Hin E). }
  rewrite Etr, get_build_byMaster.
  assert (Hf : In row (filter (fun row0 =>
                String.eqb row0.(ProductRow.master_product_id)
                           row.(ProductRow.master_product_id)) rows)).
  { apply filter_In. split; [exact Hin | apply String.eqb_refl]. }
  destruct (filter _ rows) as [|row0 l] eqn:E; [contradiction|].
  apply existsb_exists. exists (option_of_row row). split.
  - apply in_map. exact Hf.
  - simpl. rewrite Hs. apply String.eqb_refl.
Qed.

(** ** Datastore calls *)

(** The three fates of a call. *)
Lemma call_cases {A} (req : Request) (serve : Db -> A * Db) (w : World) :
  (exists fs,
      call req serve w =
      (Ret {| data := Some (fst (serve w.(db))); error := None |},
       {| db := snd (serve w.(db)); faults := fs;
          sent := w.(sent) ++ [req]; env := w.(env) |}))
  \/ (exists message fs,
         call req serve w =
         (Ret {| data := None; error := Some message |},
          {| db := w.(db); faults := fs; sent := w.(sent) ++ [req]; env := w.(env) |}))
  \/ (exists e fs,
         call req serve w =
         (Throw e,
          {| db := w.(db); faults := fs; sent := w.(sent) ++ [req]; env := w.(env) |})).
Proof.
  unfold call. destruct (faults w) as [|[|message|e] fs].
  - left. exists (tl []). destruct (serve (db w)); reflexivity.
  - left. exists fs. destruct (serve (db w)); reflexivity.
  - right. left. exists message, fs. reflexivity.
  - right. right. exists e, fs. reflexivity.
Qed.

(** ** Code that only appends *)

Lemma db_extends_refl d : db_extends d d.
Proof.
  constructor; try reflexivity; exists []; rewrite app_nil_r; reflexivity.
Qed.

Lemma db_extends_trans d1 d2 d3 :
  db_extends d1 d2 -> db_extends d2 d3 -> db_extends d1 d3.
Proof.
  intros [A1 B1 C1 [l1 D1] [m1 E1] [n1 F1] [o1 G1]]
         [A2 B2 C2 [l2 D2] [m2 E2] [n2 F2] [o2 G2]].
  constructor; try congruence.
  - exists (l1 ++ l2). rewrite D2, D1, app_assoc. reflexivity.
  - exists (m1 ++ m2). rewrite E2, E1, app_assoc. reflexivity.
  - exists (n1 ++ n2). rewrite F2, F1, app_assoc. reflexivity.
  - exists (o1 ++ o2). rewrite G2, G1, app_assoc. reflexivity.
Qed.

Lemma only_appended_refl w : only_appended w w.
Proof.
  split; [apply db_extends_refl|]. split; [reflexivity|].
  exists []. rewrite app_nil_r. auto.
Qed.

Lemma only_appended_trans w1 w2 w3 :
  only_appended w1 w2 -> only_appended w2 w3 -> only_appended w1 w3.
Proof.
  intros (D1 & E1 & r1 & S1 & F1) (D2 & E2 & r2 & S2 & F2).
  split; [eapply db_extends_trans; eassumption|].
  split; [congruence|].
  exists (r1 ++ r2). rewrite S2, S1, app_assoc. split; [reflexivity|].
  rewrite forallb_app, F1, F2. reflexivity.
Qed.

Lemma appends_only_ret {A} (a : A) : appends_only (ret a).
Proof. intros w. apply only_appended_refl. Qed.

Lemma appends_only_throw {A} (e : Exn) : appends_only (@throw A e).
Proof. intros w. apply only_appended_refl. Qed.

Lemma appends_only_lift {A} (o : Outcome A) : appends_only (lift o).
Proof. intros w. apply only_appended_refl. Qed.

Lemma appends_only_ask : appends_only ask.
Proof. intros w. apply only_appended_refl. Qed.

Lemma appends_only_bind {A B} (c : M A) (k : A -> M B) :
  appends_only c -> (forall a, appends_only (k a)) -> appends_only (bind c k).
Proof.
  intros Hc Hk w. unfold bind. specialize (Hc w).
  destruct (c w) as [[a|e|] w1]; simpl in *; try exact Hc.
  eapply only_appended_trans; [exact Hc | apply Hk].
Qed.

Lemma appends_only_try_catch {A} (c : M A) (h : Exn -> M A) :
  appends_only c -> (forall e, appends_only (h e)) -> appends_only (try_catch c h).
Proof.
  intros Hc Hh w. unfold try_catch. specialize (Hc w).
  destruct (c w) as [[a|e|] w1]; simpl in *; try exact Hc.
  eapply only_appended_trans; [exact Hc | apply Hh].
Qed.

Lemma appends_only_for_each {A} (l : list A) (body : A -> M unit) :
  (forall a, appends_only (body a)) -> appends_only (for_each l body).
Proof.
  intros Hb. induction l as [|x l IH]; simpl.
  - apply appends_only_ret.
  - apply appends_only_bind; [apply Hb | intros _; exact IH].
Qed.

(** A call that is not a delete and whose service only appends. *)
Lemma appends_only_call {A} (req : Request) (serve : Db -> A * Db) :
  is_delete req = false ->
  (forall d, db_extends d (snd (serve d))) ->
  appends_only (call req serve).
Proof.
  intros Hreq Hserve w.
  assert (Hsent : exists reqs, w.(sent) ++ [req] = w.(sent) ++ reqs
                               /\ forallb (fun r => negb (is_delete r)) reqs = true).
  { exists [req]. simpl. rewrite Hreq. auto. }
  destruct (call_cases req serve w)
    as [(fs & E) | [(message & fs & E) | (e & fs & E)]]; rewrite E; simpl;
    (split; [|split; [reflexivity | exact Hsent]]).
  - apply Hserve.
  - apply db_extends_refl.
  - apply db_extends_refl.
Qed.

(** The service of an insert adds rows to one table. *)
Ltac insert_extends :=
  intros ?d; constructor; simpl; try reflexivity;
  try (exists []; rewrite app_nil_r; reflexivity);
  eexists; reflexivity.

Lemma appends_only_read {A} (req : Request) (f : Db -> A) :
  is_delete req = false -> appends_only (call req (fun d => (f d, d))).
Proof.
  intros H. apply appends_only_call; [exact H|].
  intros d. apply db_extends_refl.
Qed.

Lemma appends_only_generateOrderNumber : appends_only generateOrderNumber.
Proof.
  unfold generateOrderNumber.
  apply appends_only_try_catch; [|intros; apply appends_only_throw].
  apply appends_only_bind; [apply appends_only_ask|]. intros e.
  destruct (today e) as [[year month] day].
  apply appends_only_bind; [apply appends_only_read; reflexivity|]. intros r.
  destruct (error r); [apply appends_only_throw|].
  destruct (data r) as [[code|]|]; try apply appends_only_throw.
  destruct (Js.truthy (Some code)); [apply appends_only_ret | apply appends_only_throw].
Qed.

Lemma appends_only_getNearbyStoreIds lat lng radiusKm :
  appends_only (getNearbyStoreIds lat lng radiusKm).
Proof.
  unfold getNearbyStoreIds.
  apply appends_only_try_catch; [|intros; apply appends_only_ret].
  apply appends_only_bind; [apply appends_only_ask|]. intros e.
  apply appends_only_bind; [apply appends_only_read; reflexivity|]. intros r.
  destruct (error r); [apply appends_only_ret|].
  destruct (data r) as [[[|s rest]|]|]; apply appends_only_ret.
Qed.

Lemma appends_only_resolve_coordinates orderData :
  appends_only (resolve_coordinates orderData).
Proof.
  unfold resolve_coordinates. cbv zeta.
  apply appends_only_bind; [apply appends_only_ask|]. intros e.
  destruct (ShippingAddress.latitude (CreateOrderData.shipping_address orderData))
    as [[lat|]|];
    destruct (ShippingAddress.longitude (CreateOrderData.shipping_address orderData))
      as [[lng|]|];
    try apply appends_only_ret;
    destruct (geocodeAddress e _); try apply appends_only_ret; apply appends_only_throw.
Qed.

Lemma appends_only_store_order_step heap orderData coid n storeId chunk :
  appends_only (store_order_step heap orderData coid n storeId chunk).
Proof.
  unfold store_order_step.
  destruct chunk as [[|r chunk]|]; try apply appends_only_ret.
  destruct (negb (Js.truthy (Some storeId))); [apply appends_only_ret|].
  apply appends_only_bind.
  { apply appends_only_call; [reflexivity | insert_extends]. }
  intros so. destruct (error so); [apply appends_only_throw|].
  destruct (data so) as [storeOrder|]; [|apply appends_only_throw].
  destruct (List.length _ =? 0); [apply appends_only_ret|].
  apply appends_only_bind; [apply appends_only_read; reflexivity|]. intros pr.
  destruct (error pr); [apply appends_only_throw|].
  apply appends_only_bind; [apply appends_only_lift|]. intros payload.
  apply appends_only_bind.
  { apply appends_only_call; [reflexivity | insert_extends]. }
  intros ir. destruct (error ir); [apply appends_only_throw | apply appends_only_ret].
Qed.

Lemma appends_only_persist_order heap orderData geocoded orderCode alloc :
  appends_only (persist_order heap orderData geocoded orderCode alloc).
Proof.
  unfold persist_order.
  apply appends_only_bind; [apply appends_only_ask|]. intros e.
  apply appends_only_bind.
  { apply appends_only_call; [reflexivity | insert_extends]. }
  intros co. destruct (error co); [apply appends_only_throw|].
  destruct (data co) as [customerOrder|]; [|apply appends_only_throw].
  apply appends_only_bind.
  { apply appends_only_for_each. intros [storeId chunk].
    apply appends_only_store_order_step. }
  intros _. apply appends_only_bind.
  { apply appends_only_call; [reflexivity | insert_extends]. }
  intros _. apply appends_only_ret.
Qed.

Lemma appends_only_allocate_and_persist heap orderData geocoded orderCode storeIds :
  appends_only (allocate_and_persist heap orderData geocoded orderCode storeIds).
Proof.
  unfold allocate_and_persist.
  destruct (List.length _ =? 0); [apply appends_only_throw|].
  apply appends_only_bind; [apply appends_only_read; reflexivity|]. intros pr.
  apply appends_only_bind; [apply appends_only_lift|]. intros alloc.
  destruct (0 <? _); [apply appends_only_throw|].
  apply appends_only_persist_order.
Qed.

Lemma appends_only_createOrder heap orderData :
  appends_only (createOrder heap orderData).
Proof.
  unfold createOrder.
  apply appends_only_try_catch; [|intros; apply appends_only_throw].
  destruct (negb _); [apply appends_only_throw|].
  apply appends_only_bind; [apply appends_only_resolve_coordinates|]. intros geocoded.
  apply appends_only_bind; [apply appends_only_generateOrderNumber|]. intros orderCode.
  apply appends_only_bind; [apply appends_only_getNearbyStoreIds|]. intros storeIds.
  destruct (List.length storeIds =? 0); [apply appends_only_throw|].
  apply appends_only_allocate_and_persist.
Qed.

(** ** Code that leaves a table alone *)

Section Keeps.

Context {X : Type} (proj : Db -> X).

Lemma keeps_ret {A} (a : A) : keeps proj (ret a).
Proof. intros w. reflexivity. Qed.

Lemma keeps_throw {A} (e : Exn) : keeps proj (@throw A e).
Proof. intros w. reflexivity. Qed.

Lemma keeps_lift {A} (o : Outcome A) : keeps proj (lift o).
Proof. intros w. reflexivity. Qed.

Lemma keeps_ask : keeps proj ask.
Proof. intros w. reflexivity. Qed.

Lemma keeps_bind {A B} (c : M A) (k : A -> M B) :
  keeps proj c -> (forall a, keeps proj (k a)) -> keeps proj (bind c k).
Proof.
  intros Hc Hk w. unfold bind. specialize (Hc w).
  destruct (c w) as [[a|e|] w1]; simpl in *; try exact Hc.
  rewrite <- Hc. apply Hk.
Qed.

Lemma keeps_try_catch {A} (c : M A) (h : Exn -> M A) :
  keeps proj c -> (forall e, keeps proj (h e)) -> keeps proj (try_catch c h).
Proof.
  intros Hc Hh w. unfold try_catch. specialize (Hc w).
  destruct (c w) as [[a|e|] w1]; simpl in *; try exact Hc.
  rewrite <- Hc. apply Hh.
Qed.

Lemma keeps_for_each {A} (l : list A) (body : A -> M unit) :
  (forall a, keeps proj (body a)) -> keeps proj (for_each l body).
Proof.
  intros Hb. induction l as [|x l IH]; simpl.
  - apply keeps_ret.
  - apply keeps_bind; [apply Hb | intros _; exact IH].
Qed.

Lemma keeps_call {A} (req : Request) (serve : Db -> A * Db) :
  (forall d, proj (snd (serve d)) = proj d) -> keeps proj (call req serve).
Proof.
  intros Hserve w.
  destruct (call_cases req serve w)
    as [(fs & E) | [(message & fs & E) | (e & fs & E)]]; rewrite E; simpl; auto.
Qed.

Lemma keeps_read {A} (req : Request) (f : Db -> A) :
  keeps proj (call req (fun d => (f d, d))).
Proof. apply keeps_call. reflexivity. Qed.

Lemma keeps_generateOrderNumber : keeps proj generateOrderNumber.
Proof.
  unfold generateOrderNumber.
  apply keeps_try_catch; [|intros; apply keeps_throw].
  apply keeps_bind; [apply keeps_ask|]. intros e.
  destruct (today e) as [[year month] day].
  apply keeps_bind; [apply keeps_read|]. intros r.
  destruct (error r); [apply keeps_throw|].
  destruct (data r) as [[code|]|]; try apply keeps_throw.
  destruct (Js.truthy (Some code)); [apply keeps_ret | apply keeps_throw].
Qed.

Lemma keeps_getNearbyStoreIds lat lng radiusKm :
  keeps proj (getNearbyStoreIds lat lng radiusKm).
Proof.
  unfold getNearbyStoreIds.
  apply keeps_try_catch; [|intros; apply keeps_ret].
  apply keeps_bind; [apply keeps_ask|]. intros e.
  apply keeps_bind; [apply keeps_read|]. intros r.
  destruct (error r); [apply keeps_ret|].
  destruct (data r) as [[[|s rest]|]|]; apply keeps_ret.
Qed.

Lemma keeps_resolve_coordinates orderData :
  keeps proj (resolve_coordinates orderData).
Proof.
  unfold resolve_coordinates. cbv zeta.
  apply keeps_bind; [apply keeps_ask|]. intros e.
  destruct (ShippingAddress.latitude (CreateOrderData.shipping_address orderData))
    as [[lat|]|];
    destruct (ShippingAddress.longitude (CreateOrderData.shipping_address orderData))
      as [[lng|]|];
    try apply keeps_ret;
    destruct (geocodeAddress e _); try apply keeps_ret; apply keeps_throw.
Qed.

Lemma keeps_select_products_in_stores storeIds masterProductIds :
  keeps proj (select_products_in_stores storeIds masterProductIds).
Proof. apply keeps_read. Qed.

Lemma keeps_select_products_of_store storeId masterProductIds :
  keeps proj (select_products_of_store storeId masterProductIds).
Proof. apply keeps_read. Qed.

End Keeps.

(** ** Inverting a successful run *)

Lemma bind_Ret_inv {A B} (c : M A) (k : A -> M B) w b w' :
  bind c k w = (Ret b, w') ->
  exists a w1, c w = (Ret a, w1) /\ k a w1 = (Ret b, w').
Proof.
  unfold bind. destruct (c w) as [[a|e|] w1]; intros H; try discriminate.
  exists a, w1. auto.
Qed.

Lemma bind_Ret {A B} (c : M A) (k : A -> M B) w a w1 :
  c w = (Ret a, w1) -> bind c k w = k a w1.
Proof. intros H. unfold bind. rewrite H. reflexivity. Qed.

Lemma bind_Throw {A B} (c : M A) (k : A -> M B) w e w1 :
  c w = (Throw e, w1) -> bind c k w = (Throw e, w1).
Proof. intros H. unfold bind. rewrite H. reflexivity. Qed.

Lemma try_catch_rethrow {A} (c : M A) w :
  try_catch c (fun error => throw error) w = c w.
Proof.
  unfold try_catch, throw. destruct (c w) as [[a|e|] w1]; reflexivity.
Qed.

Lemma lift_Ret_inv {A} (o : Outcome A) w a w' :
  lift o w = (Ret a, w') -> o = Ret a /\ w' = w.
Proof. unfold lift. intros [= -> ->]. auto. Qed.

Lemma ask_inv w e w' : ask w = (Ret e, w') -> e = w.(env) /\ w' = w.
Proof. unfold ask. intros [= <- <-]. auto. Qed.

(** A served call, seen from its result. *)
Lemma call_Ret_inv {A} (req : Request) (serve : Db -> A * Db) w r w' :
  call req serve w = (Ret r, w') ->
  (r = {| data := Some (fst (serve w.(db))); error := None |}
   /\ w'.(db) = snd (serve w.(db)) /\ w'.(env) = w.(env))
  \/ (exists message, r = {| data := None; error := Some message |}
                      /\ w'.(db) = w.(db) /\ w'.(env) = w.(env)).
Proof.
  destruct (call_cases req serve w)
    as [(fs & E) | [(message & fs & E) | (e & fs & E)]]; rewrite E.
  - intros [= <- <-]. left. auto.
  - intros [= <- <-]. right. exists message. auto.
  - discriminate.
Qed.

(** ** The writes of a successful [createOrder] *)

Section Persisted.

Variable heap : Heap.
Variable orderData : CreateOrderData.t.

(** What follows the [store_orders] insert in the loop body touches
    [order_items] only. *)
Lemma store_order_step_Ret coid n s l w w' :
  l <> [] -> s <> EmptyString ->
  store_order_step heap orderData coid n s (Some l) w = (Ret tt, w') ->
  exists row,
    w'.(db).(store_orders) = w.(db).(store_orders) ++ [row]
    /\ StoreOrder_summary row
       = (s, chunkSubtotal_of heap l, chunkDeliveryFee_of orderData n, coid)
    /\ w'.(db).(customer_orders) = w.(db).(customer_orders)
    /\ w'.(db).(order_status_history) = w.(db).(order_status_history).
Proof.
  intros Hl Hs H. unfold store_order_step in H.
  destruct l as [|r l]; [contradiction|].
  assert (Etr : Js.truthy (Some s) = true).
  { simpl. destruct (String.eqb s EmptyString) eqn:E; [|reflexivity].
    apply String.eqb_eq in E. contradiction. }
  rewrite Etr in H. simpl negb in H. cbv iota in H.
  apply bind_Ret_inv in H. destruct H as (so & w1 & Hins & Hrest).
  unfold insert_store_order in Hins. apply call_Ret_inv in Hins.
  destruct Hins as [(-> & Hdb & _) | (message & -> & _ & _)];
    [|simpl in Hrest; discriminate].
  simpl in Hrest. simpl in Hdb.
  set (row := {| StoreOrder.id := fresh_id (map StoreOrder.id w.(db).(store_orders));
                 StoreOrder.customer_order_id := coid;
                 StoreOrder.store_id := s;
                 StoreOrder.subtotal_amount := chunkSubtotal_of heap (r :: l);
                 StoreOrder.delivery_fee := chunkDeliveryFee_of orderData n;
                 StoreOrder.status := "pending_at_store" |}) in *.
  exists row.
  assert (Hkeep : forall {X} (proj : Db -> X),
             (forall d rows, proj (with_order_items d rows) = proj d) ->
             proj w'.(db) = proj w1.(db)).
  { intros X proj Hproj.
    match type of Hrest with
    | ?tail w1 = _ =>
        assert (Hk : keeps proj tail);
        [| specialize (Hk w1); rewrite Hrest in Hk; exact Hk]
    end.
    destruct (List.length _ =? 0); [apply keeps_ret|].
    apply keeps_bind; [apply keeps_read|]. intros pr.
    destruct (error pr); [apply keeps_throw|].
    apply keeps_bind; [apply keeps_lift|]. intros payload.
    apply keeps_bind; [apply keeps_call; intros d; apply Hproj|]. intros ir.
    destruct (error ir); [apply keeps_throw | apply keeps_ret]. }
  rewrite (Hkeep _ store_orders), (Hkeep _ customer_orders),
    (Hkeep _ order_status_history) by reflexivity.
  rewrite Hdb. simpl. auto.
Qed.

Lemma for_each_store_orders coid n (entries : list (string * list objref)) :
  forall w w',
    (forall s l, In (s, l) entries -> l <> [] /\ s <> EmptyString) ->
    for_each (map (fun '(s, l) => (s, Some l)) entries)
      (fun '(storeId, chunk) =>
         store_order_step heap orderData coid n storeId chunk) w = (Ret tt, w') ->
    exists rows,
      w'.(db).(store_orders) = w.(db).(store_orders) ++ rows
      /\ map StoreOrder_summary rows
         = map (fun '(s, l) =>
                  (s, chunkSubtotal_of heap l, chunkDeliveryFee_of orderData n, coid))
               entries
      /\ w'.(db).(customer_orders) = w.(db).(customer_orders)
      /\ w'.(db).(order_status_history) = w.(db).(order_status_history).
Proof.
  induction entries as [|[s l] entries IH]; simpl; intros w w' Hok H.
  - unfold ret in H. injection H as <-. exists []. rewrite app_nil_r. auto.
  - apply bind_Ret_inv in H. destruct H as ([] & w1 & Hstep & Hrest).
    destruct (Hok s l (or_introl eq_refl)) as [Hl Hs].
    apply store_order_step_Ret in Hstep; [|exact Hl|exact Hs].
    destruct Hstep as (row & Hso & Hsum & Hco & Hh).
    apply IH in Hrest; [|intros; apply Hok; right; assumption].
    destruct Hrest as (rows & Hso' & Hsum' & Hco' & Hh').
    exists (row :: rows). rewrite Hso', Hso, <- app_assoc. simpl.
    rewrite Hsum, Hsum'. repeat split; congruence.
Qed.

Lemma combine_keys_chunks {V} (m : JsMap.t V) :
  NoDup (JsMap.keys m) ->
  combine (JsMap.keys m) (map (JsMap.get m) (JsMap.keys m))
  = map (fun '(s, l) => (s, Some l)) m.
Proof.
  intros Hnd.
  assert (H : forall m0, (forall s l, In (s, l) m0 -> JsMap.get m s = Some l) ->
              combine (JsMap.keys m0) (map (JsMap.get m) (JsMap.keys m0))
              = map (fun '(s, l) => (s, Some l)) m0).
  { induction m0 as [|[s l] m0 IH]; simpl; intros Hget; [reflexivity|].
    rewrite (Hget s l) by (left; reflexivity).
    rewrite IH by (intros; apply Hget; right; assumption). reflexivity. }
  apply H. intros s l Hin. apply JsMapFacts.In_get; assumption.
Qed.

Lemma persist_order_Ret geocoded orderCode alloc w order w' :
  NoDup (JsMap.keys alloc.(storeToItems)) ->
  (forall s l, In (s, l) alloc.(storeToItems) -> l <> [] /\ s <> EmptyString) ->
  persist_order heap orderData geocoded orderCode alloc w = (Ret order, w') ->
  exists co rows,
    w'.(db).(customer_orders) = w.(db).(customer_orders) ++ [co]
    /\ w'.(db).(store_orders) = w.(db).(store_orders) ++ rows
    /\ co.(CustomerOrder.id) = order.(Order.id)
    /\ co.(CustomerOrder.subtotal_amount) = orderData.(CreateOrderData.subtotal)
    /\ co.(CustomerOrder.delivery_fee) = orderData.(CreateOrderData.delivery_fee)
    /\ map StoreOrder_summary rows
       = map (fun '(s, l) =>
                (s, chunkSubtotal_of heap l,
                 chunkDeliveryFee_of orderData (List.length alloc.(storeToItems)),
                 co.(CustomerOrder.id)))
             alloc.(storeToItems).
Proof.
  intros Hnd Hentries H.
  unfold persist_order in H. cbv zeta in H.
  apply bind_Ret_inv in H. destruct H as (e & w0 & Hask & H).
  apply ask_inv in Hask. destruct Hask as [-> ->].
  apply bind_Ret_inv in H. destruct H as (co & w1 & Hins & H).
  unfold insert_customer_order in Hins. apply call_Ret_inv in Hins.
  destruct Hins as [(-> & Hdb & Henv) | (message & -> & _ & _)];
    [|simpl in H; discriminate].
  simpl in H. simpl in Hdb.
  apply bind_Ret_inv in H. destruct H as ([] & w2 & Hloop & H).
  apply bind_Ret_inv in H. destruct H as (hr & w3 & Hhist & H).
  unfold ret in H. injection H as <- <-.
  rewrite combine_keys_chunks in Hloop by exact Hnd.
  apply for_each_store_orders in Hloop; [|exact Hentries].
  destruct Hloop as (rows & Hso & Hsum & Hco & _).
  assert (Hh1 : w3.(db).(store_orders) = w2.(db).(store_orders)).
  { pose proof (keeps_call store_orders (ReqInsert "order_status_history" 1)
                  (fun d => (tt, with_order_status_history d
                                   (d.(order_status_history) ++
                                    [{| StatusHistory.customer_order_id :=
                                          fresh_id (map CustomerOrder.id
                                                      w.(db).(customer_orders));
                                        StatusHistory.status := "pending_at_store";
                                        StatusHistory.notes := "Order placed";
                                        StatusHistory.created_at := w.(env).(now_iso) |}])))
                  (fun d => eq_refl) w2) as Hk.
    unfold insert_order_status_history in Hhist. simpl in Hhist.
    rewrite Hhist in Hk. exact Hk. }
  assert (Hh2 : w3.(db).(customer_orders) = w2.(db).(customer_orders)).
  { pose proof (keeps_call customer_orders (ReqInsert "order_status_history" 1)
                  (fun d => (tt, with_order_status_history d
                                   (d.(order_status_history) ++
                                    [{| StatusHistory.customer_order_id :=
                                          fresh_id (map CustomerOrder.id
                                                      w.(db).(customer_orders));
                                        StatusHistory.status := "pending_at_store";
                                        StatusHistory.notes := "Order placed";
                                        StatusHistory.created_at := w.(env).(now_iso) |}])))
                  (fun d => eq_refl) w2) as Hk.
    unfold insert_order_status_history in Hhist. simpl in Hhist.
    rewrite Hhist in Hk. exact Hk. }
  eexists. exists rows.
  rewrite Hh1, Hh2, Hso, Hco, Hdb. simpl.
  split; [reflexivity|]. split; [reflexivity|].
  split; [reflexivity|]. split; [reflexivity|]. split; [reflexivity|].
  rewrite Hsum. unfold JsMap.keys. rewrite !length_map. reflexivity.
Qed.

End Persisted.

(** ** From a successful [createOrder] back to its steps *)

Lemma allocate_inv heap items storeIds productRows st :
  allocate heap items storeIds productRows = Ret st ->
  AllocInv heap items (build_byMaster productRows) st.
Proof.
  unfold allocate. apply while_loop_inv. apply AllocInv_init.
Qed.

Lemma allocate_total heap items storeIds productRows :
  allocate heap items storeIds productRows <> Timeout.
Proof.
  unfold allocate. apply while_loop_total; [apply AllocInv_init|].
  simpl. lia.
Qed.

Lemma createOrder_Ret_inv heap orderData w order w' :
  createOrder heap orderData w = (Ret order, w') ->
  exists geocoded orderCode storeIds productRows alloc w4,
    w4.(db) = w.(db)
    /\ allocate heap orderData.(CreateOrderData.items) storeIds productRows = Ret alloc
    /\ unassigned_of orderData.(CreateOrderData.items) alloc = []
    /\ orderData.(CreateOrderData.items) <> []
    /\ persist_order heap orderData geocoded orderCode alloc w4 = (Ret order, w').
Proof.
  unfold createOrder. rewrite try_catch_rethrow.
  destruct (negb (Js.truthy _)); [discriminate|].
  intros H.
  apply bind_Ret_inv in H. destruct H as (geocoded & w1 & H1 & H).
  apply bind_Ret_inv in H. destruct H as (orderCode & w2 & H2 & H).
  apply bind_Ret_inv in H. destruct H as (storeIds & w3 & H3 & H).
  destruct (List.length storeIds =? 0); [discriminate|].
  unfold allocate_and_persist in H. cbv zeta in H.
  destruct (List.length (dedupe [] (master_ids heap _)) =? 0) eqn:Eids; [discriminate|].
  apply bind_Ret_inv in H. destruct H as (pr & w4 & H4 & H).
  apply bind_Ret_inv in H. destruct H as (alloc & w5 & H5 & H).
  apply lift_Ret_inv in H5. destruct H5 as [Halloc ->].
  destruct (0 <? List.length (unassigned_of _ alloc)) eqn:Eun; [discriminate|].
  exists geocoded, orderCode, storeIds,
    (match data pr with Some l => l | None => [] end), alloc, w4.
  split.
  { pose proof (keeps_resolve_coordinates (fun d => d) orderData w) as K1.
    pose proof (keeps_generateOrderNumber (fun d => d) w1) as K2.
    pose proof (keeps_getNearbyStoreIds (fun d => d) (fst geocoded) (snd geocoded)
                  50%Q w2) as K3.
    pose proof (keeps_select_products_in_stores (fun d => d) storeIds
                  (dedupe [] (master_ids heap orderData.(CreateOrderData.items))) w3)
      as K4.
    rewrite H1 in K1. rewrite H2 in K2. rewrite H3 in K3. rewrite H4 in K4.
    simpl in *. congruence. }
  split; [exact Halloc|].
  split.
  { apply Nat.ltb_ge in Eun. destruct (unassigned_of _ alloc); [reflexivity|].
    simpl in Eun. lia. }
  split; [|exact H].
  intros Hnil. rewrite Hnil in Eids. simpl in Eids. discriminate.
Qed.

(** ** Sums of amounts *)






Lemma Qsum_repeat q n :
  (Qsum (repeat q n) == inject_Z (Z.of_nat n) * q)%Q.
Proof.
  induction n as [|n IH].
  - simpl. ring.
  - cbn [repeat Qsum fold_right]. fold (Qsum (repeat q n)). rewrite IH.
    rewrite Nat2Z.inj_succ. unfold Z.succ. rewrite inject_Z_plus. ring.
Qed.

Lemma map_const_repeat {A B} (b : B) (l : list A) :
  map (fun _ => b) l = repeat b (List.length l).
Proof. induction l; simpl; congruence. Qed.

(** ** Every cart line assigned *)

Lemma all_assigned_perm heap items byMaster st :
  AllocInv heap items byMaster st ->
  unassigned_of items st = [] ->
  Permutation (List.concat (JsMap.values st.(storeToItems))) items.
Proof.
  intros HI Hun.
  assert (Hall : forall j, j < List.length items -> In j st.(assigned)).
  { intros j Hj. apply JsSetFacts.has_In.
    destruct (JsSet.has st.(assigned) j) eqn:Eh; [reflexivity|].
    destruct (nth_error items j) as [r|] eqn:Er; [|apply nth_error_None in Er; lia].
    assert (Hin : In r (unassigned_of items st)).
    { apply unassigned_from_spec. exists j. rewrite Nat.sub_0_r.
      repeat split; auto. lia. }
    rewrite Hun in Hin. contradiction. }
  eapply Permutation_trans; [exact (inv_perm _ _ _ _ HI)|].
  rewrite <- (map_nth_seq items) at 2. unfold refs_at.
  apply Permutation_map. apply NoDup_Permutation.
  - exact (inv_nodup _ _ _ _ HI).
  - apply seq_NoDup.
  - intros j. rewrite in_seq. split.
    + intros Hj. pose proof (inv_range _ _ _ _ HI j Hj). lia.
    + intros Hj. apply Hall. lia.
Qed.

(** ** The allocation: what the specification claims *)

(** C3. When every cart line is carried by at least one candidate store
    (some row of the availability query joins the line's master product
    to a candidate), the allocation loop terminates normally and leaves
    no cart line unassigned.  Store ids and master product ids are
    datastore keys, never the empty string. *)
Theorem allocate_all_assigned heap items storeIds productRows :
  (forall s, In s storeIds -> s <> EmptyString) ->
  (forall row, In row productRows ->
               row.(ProductRow.master_product_id) <> EmptyString) ->
  (forall r, In r items ->
             exists s, In s storeIds /\ row_carries heap productRows s r) ->
  exists st,
    allocate heap items storeIds productRows = Ret st
    /\ unassigned_of items st = [].
Proof.
  intros Hids Hmids Hcar.
  destruct (while_loop_complete heap items storeIds (build_byMaster productRows))
    with (fuel := List.length items)
         (st := {| storeToItems := JsMap.empty; assigned := JsSet.empty |})
    as (st & Hrun & HI & Hsize).
  - intros r Hr. destruct (Hcar r Hr) as (s & Hs & Hrow).
    exists s. split; [exact Hs|]. apply rows_carries; assumption.
  - exact Hids.
  - apply AllocInv_init.
  - simpl. lia.
  - exists st. split; [exact Hrun|].
    unfold unassigned_of. apply unassigned_from_nil.
    intros j Hj. apply JsSetFacts.has_In.
    apply (full_index_set st.(assigned) (List.length items)).
    + exact (inv_nodup _ _ _ _ HI).
    + exact (inv_range _ _ _ _ HI).
    + exact Hsize.
    + lia.
Qed.

(** C4. Whatever the cart and the availability rows, in the allocation
    returned no cart line is in the lists of two different stores, and a
    line in the list of a store is a line whose master product the
    availability rows list for that store. *)
Theorem allocate_one_store_per_item heap items storeIds productRows st :
  allocate heap items storeIds productRows = Ret st ->
  (forall s1 s2 l1 l2 r,
      JsMap.get st.(storeToItems) s1 = Some l1 ->
      JsMap.get st.(storeToItems) s2 = Some l2 ->
      In r l1 -> In r l2 -> s1 = s2)
  /\ (forall s l r,
         JsMap.get st.(storeToItems) s = Some l -> In r l ->
         row_carries heap productRows s r).
Proof.
  intros H. apply allocate_inv in H. split.
  - intros s1 s2 l1 l2 r H1 H2 Hr1 Hr2.
    apply JsMapFacts.get_In in H1. apply JsMapFacts.get_In in H2.
    exact (inv_disjoint _ _ _ _ H s1 l1 s2 l2 r H1 H2 Hr1 Hr2).
  - intros s l r Hget Hr. apply JsMapFacts.get_In in Hget.
    destruct (inv_entry _ _ _ _ H s l Hget) as (_ & _ & Hc).
    apply carries_rows. apply Hc. exact Hr.
Qed.

(** C5. Candidates [S1; S2], S1 carrying A and B, S2 carrying B and C,
    cart A, B, C: A and B go to S1, C goes to S2; two store assignments,
    nothing unassigned. *)
Theorem allocate_S1_S2 :
  allocate ex_heap [itemA; itemB; itemC] ["S1"; "S2"] ex_products
  = Ret {| storeToItems := [("S1", [itemA; itemB]); ("S2", [itemC])];
           assigned := [0; 1; 2] |}
  /\ unassigned_of [itemA; itemB; itemC]
       {| storeToItems := [("S1", [itemA; itemB]); ("S2", [itemC])];
          assigned := [0; 1; 2] |} = [].
Proof. split; reflexivity. Qed.

(** ** The rows of a successful [createOrder] *)

Lemma createOrder_Ret_rows heap orderData w order w' :
  createOrder heap orderData w = (Ret order, w') ->
  exists co rows (m : JsMap.t (list objref)),
    w'.(db).(customer_orders) = w.(db).(customer_orders) ++ [co]
    /\ w'.(db).(store_orders) = w.(db).(store_orders) ++ rows
    /\ co.(CustomerOrder.id) = order.(Order.id)
    /\ co.(CustomerOrder.subtotal_amount) = orderData.(CreateOrderData.subtotal)
    /\ map StoreOrder_summary rows
       = map (fun '(s, l) =>
                (s, chunkSubtotal_of heap l,
                 chunkDeliveryFee_of orderData (List.length m),
                 co.(CustomerOrder.id))) m
    /\ Permutation (List.concat (JsMap.values m)) orderData.(CreateOrderData.items)
    /\ orderData.(CreateOrderData.items) <> [].
Proof.
  intros H. apply createOrder_Ret_inv in H.
  destruct H as (geocoded & orderCode & storeIds & productRows & alloc & w4
                 & Hdb & Halloc & Hun & Hitems & Hpersist).
  apply allocate_inv in Halloc.
  apply persist_order_Ret in Hpersist.
  - destruct Hpersist as (co & rows & Hco & Hso & Hid & Hsub & _ & Hsum).
    exists co, rows, alloc.(storeToItems).
    rewrite Hdb in Hco, Hso.
    repeat split; try assumption.
    eapply all_assigned_perm; eassumption.
  - exact (inv_keys _ _ _ _ Halloc).
  - intros s l Hsl. destruct (inv_entry _ _ _ _ Halloc s l Hsl) as (? & ? & _). auto.
Qed.


(** C7. After a successful [createOrder] that wrote N sub-orders, N is
    at least one; every sub-order carries the order's delivery fee
    divided by N when N > 1 and the whole fee when N = 1; and the fees
    of the sub-orders add up to the order's delivery fee (amounts are
    exact rationals here, so the sum is exact). *)
Theorem createOrder_delivery_fee_split heap orderData w order w' :
  createOrder heap orderData w = (Ret order, w') ->
  exists rows,
    w'.(db).(store_orders) = w.(db).(store_orders) ++ rows
    /\ 1 <= List.length rows
    /\ (forall row, In row rows ->
          row.(StoreOrder.delivery_fee)
          = if 1 <? List.length rows
            then (orderData.(CreateOrderData.delivery_fee)
                  / inject_Z (Z.of_nat (List.length rows)))%Q
            else orderData.(CreateOrderData.delivery_fee))
    /\ (Qsum (map StoreOrder.delivery_fee rows)
        == orderData.(CreateOrderData.delivery_fee))%Q.
Proof.
  intros H. apply createOrder_Ret_rows in H.
  destruct H as (co & rows & m & _ & Hso & _ & _ & Hsum & Hperm & Hitems).
  assert (Hlen : List.length rows = List.length m).
  { rewrite <- (length_map StoreOrder_summary rows), Hsum, length_map. reflexivity. }
  assert (Hfees : map StoreOrder.delivery_fee rows
                  = repeat (chunkDeliveryFee_of orderData (List.length rows))
                           (List.length rows)).
  { transitivity (map (fun t : string * Q * Q * nat => snd (fst t))
                      (map StoreOrder_summary rows)).
    - rewrite map_map. reflexivity.
    - rewrite Hsum, map_map, Hlen, <- map_const_repeat.
      apply map_ext. intros [s l]. reflexivity. }
  assert (Hpos : 1 <= List.length rows).
  { rewrite Hlen. destruct m as [|e m]; [|simpl; lia].
    simpl in Hperm. apply Permutation_nil in Hperm. contradiction. }
  exists rows. split; [exact Hso|]. split; [exact Hpos|]. split.
  - intros row Hrow.
    assert (Hin : In row.(StoreOrder.delivery_fee) (map StoreOrder.delivery_fee rows))
      by (apply in_map; exact Hrow).
    rewrite Hfees in Hin. apply repeat_spec in Hin. exact Hin.
  - rewrite Hfees, Qsum_repeat. unfold chunkDeliveryFee_of.
    destruct (1 <? List.length rows) eqn:E.
    + field. intros Hz. unfold Qeq in Hz. simpl in Hz. lia.
    + apply Nat.ltb_ge in E. replace (List.length rows) with 1 by lia.
      simpl. ring.
Qed.

(** ** The store locator *)

Lemma nth_fault_0 w : nth_fault 0 w = match w.(faults) with [] => Served | f :: _ => f end.
Proof. unfold nth_fault. destruct (faults w); reflexivity. Qed.

(** C8. [getNearbyStoreIds] returns a list in every world: the empty
    list when the stored procedure answers with an error, when the call
    is rejected, and when it yields no stores.  And a [createOrder] that
    gets the empty list from it throws the no-stores error with the
    datastore as it found it. *)
Theorem getNearbyStoreIds_never_throws :
  (forall lat lng radiusKm w,
      exists ids,
        fst (getNearbyStoreIds lat lng radiusKm w) = Ret ids
        /\ (nth_fault 0 w <> Served -> ids = [])
        /\ (w.(env).(get_nearby_store_ids) lat lng radiusKm = None -> ids = [])
        /\ (w.(env).(get_nearby_store_ids) lat lng radiusKm = Some [] -> ids = []))
  /\ (forall heap orderData w geocoded w1 orderCode w2 w3,
         Js.truthy orderData.(CreateOrderData.user_id) = true ->
         resolve_coordinates orderData w = (Ret geocoded, w1) ->
         generateOrderNumber w1 = (Ret orderCode, w2) ->
         getNearbyStoreIds (fst geocoded) (snd geocoded) 50%Q w2 = (Ret [], w3) ->
         createOrder heap orderData w
         = (Throw (Error "No store available for your delivery address. Please contact support."),
            w3)
         /\ w3.(db) = w.(db)).
Proof.
  split.
  - intros lat lng radiusKm w. rewrite nth_fault_0.
    unfold getNearbyStoreIds, try_catch, bind, ask, call, ret.
    destruct (faults w) as [|[|message|e] fs]; simpl.
    + destruct (get_nearby_store_ids (env w) lat lng radiusKm) as [[|s rest]|];
        simpl; eexists; (split; [reflexivity|]); repeat split; congruence.
    + destruct (get_nearby_store_ids (env w) lat lng radiusKm) as [[|s rest]|];
        simpl; eexists; (split; [reflexivity|]); repeat split; congruence.
    + exists []. auto.
    + exists []. auto.
  - intros heap orderData w geocoded w1 orderCode w2 w3 Hu H1 H2 H3.
    split.
    + unfold createOrder. rewrite try_catch_rethrow, Hu. cbn [negb].
      rewrite (bind_Ret _ _ _ _ _ H1), (bind_Ret _ _ _ _ _ H2), (bind_Ret _ _ _ _ _ H3).
      reflexivity.
    + pose proof (keeps_resolve_coordinates (fun d => d) orderData w) as K1.
      pose proof (keeps_generateOrderNumber (fun d => d) w1) as K2.
      pose proof (keeps_getNearbyStoreIds (fun d => d) (fst geocoded) (snd geocoded)
                    50%Q w2) as K3.
      rewrite H1 in K1. rewrite H2 in K2. rewrite H3 in K3. simpl in *. congruence.
Qed.

(** ** An item no candidate carries *)

Lemma count_loop_undefined heap items byMaster s its c0 :
  (exists r, In r its /\ item_options byMaster (heap r) = None) ->
  count_loop heap items byMaster [] s its c0 = Throw undefined_read.
Proof.
  revert c0. induction its as [|it its IH]; intros c0 (r & Hr & Hnone).
  - contradiction.
  - simpl.
    assert (Hfree : has_idx [] (indexOf items it) = false)
      by (destruct (indexOf items it); reflexivity).
    rewrite Hfree.
    destruct (item_options byMaster (heap it)) as [l|] eqn:E; simpl.
    + apply IH. exists r. split; [|exact Hnone].
      destruct Hr as [->|Hr]; [congruence | exact Hr].
    + reflexivity.
Qed.

(** The first round of the allocation reads [.some] on [undefined] as
    soon as the availability rows have no entry for the master product
    of some cart line. *)
Lemma allocate_uncarried_TypeError heap items storeIds productRows r m :
  storeIds <> [] ->
  In r items ->
  item_mid (heap r) = Some m -> m <> EmptyString ->
  (forall row, In row productRows -> row.(ProductRow.master_product_id) <> m) ->
  allocate heap items storeIds productRows = Throw undefined_read.
Proof.
  intros Hs Hr Hm Hne Hrows.
  assert (Hnone : item_options (build_byMaster productRows) (heap r) = None).
  { unfold item_options. rewrite Hm.
    assert (Etr : Js.truthy (Some m) = true).
    { simpl. destruct (String.eqb m EmptyString) eqn:E; [|reflexivity].
      apply String.eqb_eq in E. contradiction. }
    rewrite Etr, get_build_byMaster.
    destruct (filter _ productRows) as [|row l] eqn:E; [reflexivity|].
    assert (Hin : In row (filter (fun row0 =>
                   String.eqb row0.(ProductRow.master_product_id) m) productRows))
      by (rewrite E; left; reflexivity).
    apply filter_In in Hin. destruct Hin as [Hin Heq].
    apply String.eqb_eq in Heq. exfalso. exact (Hrows row Hin Heq). }
  unfold allocate.
  destruct items as [|it items']; [contradiction|].
  destruct storeIds as [|s storeIds']; [contradiction|].
  cbn [List.length while_loop assigned JsSet.size JsSet.empty Nat.ltb Nat.leb negb
       best_loop].
  rewrite count_loop_undefined by (exists r; auto).
  reflexivity.
Qed.

(** ** The paging helper *)

Lemma chunk_loop_pages {T} fuel (arr : list T) size :
  0 < size -> List.length arr <= fuel ->
  exists pages,
    chunk_loop fuel arr size = Ret pages
    /\ Forall (fun c => List.length c <= size) pages
    /\ List.concat pages = arr.
Proof.
  intros Hsize. revert arr. induction fuel as [|fuel IH]; intros arr Hlen.
  - destruct arr; [|simpl in Hlen; lia]. exists []. simpl. auto.
  - destruct arr as [|x arr]; [exists []; simpl; auto|].
    destruct (IH (skipn size (x :: arr))) as (pages & Hrun & Hb & Hc).
    { rewrite length_skipn. cbn [List.length] in *. lia. }
    exists (firstn size (x :: arr) :: pages).
    cbn [chunk_loop]. rewrite Hrun. cbn [obind].
    split; [reflexivity|]. split.
    + constructor; [|exact Hb]. rewrite length_firstn. apply Nat.le_min_l.
    + cbn [List.concat]. rewrite Hc. apply firstn_skipn.
Qed.

(** Pages hold at most [size] ids, and together they are the ids. *)
Lemma chunk_pages {T} (arr : list T) size :
  0 < size ->
  exists pages,
    chunk arr size = Ret pages
    /\ Forall (fun c => List.length c <= size) pages
    /\ List.concat pages = arr.
Proof.
  intros H. apply chunk_loop_pages; auto.
Qed.

(** The listing path pages its store filter: every request it sends
    has at most [n] ids when the pages have. *)
Lemma fetch_store_chunks_requests n storeChunks : forall allRows w,
  Forall (fun c => List.length c <= n) storeChunks ->
  exists reqs,
    (snd (fetch_store_chunks storeChunks allRows w)).(sent) = w.(sent) ++ reqs
    /\ Forall (fun q => max_filter_size q <= n) reqs.
Proof.
  induction storeChunks as [|ids rest IH]; intros allRows w Hb; simpl.
  - exists []. rewrite app_nil_r. auto.
  - inversion Hb as [|? ? Hids Hrest]; subst.
    unfold bind, select_products_of_stores.
    destruct (call_cases (ReqSelect "products" [("store_id", ids)])
                (fun d => (filter (fun row => row.(ProductRow.is_active)
                                     && mem_string row.(ProductRow.store_id) ids)
                                  d.(products), d)) w)
      as [(fs & E) | [(message & fs & E) | (e & fs & E)]]; rewrite E; simpl.
    + match goal with
      | |- context [fetch_store_chunks rest ?a ?w1] =>
          destruct (IH a w1 Hrest) as (reqs & Hs & Hq)
      end.
      exists (ReqSelect "products" [("store_id", ids)] :: reqs).
      rewrite Hs. simpl. rewrite <- app_assoc. split; [reflexivity|].
      constructor; [simpl; lia | exact Hq].
    + exists [ReqSelect "products" [("store_id", ids)]]. split; [reflexivity|].
      constructor; [simpl; lia | constructor].
    + exists [ReqSelect "products" [("store_id", ids)]]. split; [reflexivity|].
      constructor; [simpl; lia | constructor].
Qed.

Lemma fetchProductRows_paged s rest w :
  exists reqs,
    (snd (fetchProductRows (Some (s :: rest)) w)).(sent) = w.(sent) ++ reqs
    /\ Forall (fun q => max_filter_size q <= IN_FILTER_CHUNK_SIZE) reqs.
Proof.
  unfold fetchProductRows.
  destruct (chunk_pages (s :: rest) IN_FILTER_CHUNK_SIZE) as (pages & Hrun & Hb & _);
    [unfold IN_FILTER_CHUNK_SIZE; lia|].
  rewrite (bind_Ret _ _ w pages w) by (unfold lift; rewrite Hrun; reflexivity).
  apply fetch_store_chunks_requests. exact Hb.
Qed.

(** ** Store-owner signup *)

Lemma filter_keeps_older (users : list AppUser.t) n :
  Forall (fun k => k <= n) (map AppUser.id users) ->
  filter (fun u => negb (u.(AppUser.id) =? S n)) users = users.
Proof.
  induction users as [|u users IH]; simpl; intros Hle; [reflexivity|].
  inversion Hle as [|? ? Hu Hrest]; subst.
  replace (AppUser.id u =? S n) with false by (symmetry; apply Nat.eqb_neq; lia).
  simpl. f_equal. apply IH. exact Hrest.
Qed.

Lemma filter_out_fresh (users : list AppUser.t) (new : AppUser.t) :
  new.(AppUser.id) = fresh_id (map AppUser.id users) ->
  filter (fun u => negb (u.(AppUser.id) =? fresh_id (map AppUser.id users)))
         (users ++ [new]) = users.
Proof.
  intros Hnew. rewrite filter_app. simpl.
  rewrite Hnew, Nat.eqb_refl. simpl. rewrite app_nil_r.
  unfold fresh_id. apply filter_keeps_older. apply list_max_le. lia.
Qed.

Lemma with_app_users_same d : with_app_users d d.(app_users) = d.
Proof. destruct d; reflexivity. Qed.

Lemma with_app_users_twice d rows rows' :
  with_app_users (with_app_users d rows) rows' = with_app_users d rows'.
Proof. reflexivity. Qed.


(** ** The properties on the sample data *)

Lemma outcome_pair {A} (r : Outcome A * World) a :
  fst r = Ret a -> r = (Ret a, snd r).
Proof. destruct r as [o w]. simpl. intros ->. reflexivity. Qed.

Lemma allocate_all_assigned_witness :
  exists st,
    allocate ex_heap [itemA; itemB; itemC] ["S1"; "S2"] ex_products = Ret st
    /\ unassigned_of [itemA; itemB; itemC] st = [].
Proof.
  apply allocate_all_assigned.
  - intros s [<-|[<-|[]]]; discriminate.
  - intros row [<-|[<-|[<-|[<-|[]]]]]; discriminate.
  - intros r [<-|[<-|[<-|[]]]].
    + exists "S1". split; [simpl; auto|].
      exists (inventory "p1" "S1" "mp-A"). simpl. auto.
    + exists "S1". split; [simpl; auto|].
      exists (inventory "p2" "S1" "mp-B"). simpl. auto.
    + exists "S2". split; [simpl; auto|].
      exists (inventory "p4" "S2" "mp-C"). simpl. auto 6.
Defined.

Lemma allocate_one_store_per_item_witness :
  let st := {| storeToItems := [("S1", [itemA; itemB]); ("S2", [itemC])];
               assigned := [0; 1; 2] |} in
  (forall s1 s2 l1 l2 r,
      JsMap.get st.(storeToItems) s1 = Some l1 ->
      JsMap.get st.(storeToItems) s2 = Some l2 ->
      In r l1 -> In r l2 -> s1 = s2)
  /\ (forall s l r,
         JsMap.get st.(storeToItems) s = Some l -> In r l ->
         row_carries ex_heap ex_products s r).
Proof.
  apply (allocate_one_store_per_item ex_heap [itemA; itemB; itemC] ["S1"; "S2"]
           ex_products).
  reflexivity.
Defined.

(** C1.  The customer order is written, the first [store_orders]
    insert is answered with an error: [createOrder] throws that error,
    sends no delete, and the datastore keeps a customer order with no
    sub-order. *)
Theorem createOrder_store_order_failure_leaves_order :
  let w := ex_world (Some ["S1"; "S2"])
             [Served; Served; Served; Served; Refused "store_orders unavailable"] in
  let r := createOrder ex_heap (ex_order [itemA; itemB; itemC] 30%Q 10%Q) w in
  fst r = Throw (Error "store_orders unavailable")
  /\ w.(db).(customer_orders) = []
  /\ List.length (snd r).(db).(customer_orders) = 1
  /\ (snd r).(db).(store_orders) = []
  /\ forallb (fun q => negb (is_delete q)) (snd r).(sent) = true.
Proof. vm_compute. repeat split; reflexivity. Qed.

(** [createOrder] has no compensating step at all: in every world, on
    every outcome, the tables hold what they held before followed by the
    rows of the attempt, and no delete is sent. *)
Lemma createOrder_never_deletes heap orderData w :
  only_appended w (snd (createOrder heap orderData w)).
Proof. apply appends_only_createOrder. Qed.

(** C2.  A cart with a line that no candidate store carries: the
    allocation throws a [TypeError] on its first round, so the
    items-unavailable error is never built; nothing is written. *)
Theorem createOrder_uncarried_item_TypeError :
  let w := ex_world (Some ["S1"; "S2"]) [] in
  let r := createOrder ex_heap (ex_order [itemA; itemZ] 20%Q 10%Q) w in
  fst r = Throw (TypeError "Cannot read properties of undefined (reading 'some')")
  /\ (snd r).(db) = w.(db).
Proof. vm_compute. split; reflexivity. Qed.

(** C9.  With one hundred and one candidate stores the availability
    query of [createOrder] goes out as one request whose [store_id]
    filter holds all of them, more than [IN_FILTER_CHUNK_SIZE]. *)
Theorem createOrder_availability_query_unpaged :
  let w := ex_world (Some ex_many_stores) [] in
  let r := createOrder ex_heap (ex_order [itemA; itemB] 20%Q 10%Q) w in
  In (ReqSelect "products"
        [("store_id", ex_many_stores); ("master_product_id", ["mp-A"; "mp-B"])])
     (snd r).(sent)
  /\ List.length ex_many_stores = 101
  /\ IN_FILTER_CHUNK_SIZE = 100
  /\ existsb (fun q => IN_FILTER_CHUNK_SIZE <? max_filter_size q) (snd r).(sent) = true.
Proof.
  split; [|split; [reflexivity | split; [reflexivity | vm_compute; reflexivity]]].
  cbv zeta.
  assert (E : (snd (createOrder ex_heap (ex_order [itemA; itemB] 20%Q 10%Q)
                      (ex_world (Some ex_many_stores) []))).(sent)
              = [ReqRpc "generate_next_order_number"; ReqRpc "get_nearby_store_ids";
                 ReqSelect "products"
                   [("store_id", ex_many_stores);
                    ("master_product_id", ["mp-A"; "mp-B"])];
                 ReqInsert "customer_orders" 1; ReqInsert "store_orders" 1;
                 ReqSelect "products" [("master_product_id", ["mp-A"; "mp-B"])];
                 ReqInsert "order_items" 2; ReqInsert "order_status_history" 1])
    by (vm_compute; reflexivity).
  rewrite E. simpl. auto.
Qed.



Lemma createOrder_delivery_fee_split_witness :
  let w := ex_world (Some ["S1"; "S2"]) [] in
  let od := ex_order [itemA; itemB; itemC] 30%Q 10%Q in
  let r := createOrder ex_heap od w in
  exists rows,
    (snd r).(db).(store_orders) = w.(db).(store_orders) ++ rows
    /\ 1 <= List.length rows
    /\ (forall row, In row rows ->
          row.(StoreOrder.delivery_fee)
          = if 1 <? List.length rows
            then (od.(CreateOrderData.delivery_fee)
                  / inject_Z (Z.of_nat (List.length rows)))%Q
            else od.(CreateOrderData.delivery_fee))
    /\ (Qsum (map StoreOrder.delivery_fee rows)
        == od.(CreateOrderData.delivery_fee))%Q.
Proof.
  intros w od r.
  assert (Hr : exists order, fst r = Ret order) by (vm_compute; eexists; reflexivity).
  destruct Hr as [order Ho].
  exact (createOrder_delivery_fee_split ex_heap od w order (snd r)
           (outcome_pair r order Ho)).
Defined.

Lemma getNearbyStoreIds_never_throws_witness :
  let w := ex_world (Some []) [] in
  let od := ex_order [itemA; itemB; itemC] 30%Q 10%Q in
  exists w3,
    createOrder ex_heap od w
    = (Throw (Error "No store available for your delivery address. Please contact support."),
       w3)
    /\ w3.(db) = w.(db).
Proof.
  intros w od. eexists.
  eapply (proj2 getNearbyStoreIds_never_throws ex_heap od w
            ((45 # 2)%Q, (177 # 2)%Q) w "NN20250601-0001").
  - reflexivity.
  - reflexivity.
  - vm_compute. reflexivity.
  - vm_compute. reflexivity.
Defined.


(** ** The availability query, in general *)

Lemma mem_string_In s l : mem_string s l = true <-> In s l.
Proof.
  unfold mem_string. rewrite existsb_exists. split.
  - intros (x & Hx & E). apply String.eqb_eq in E. subst. exact Hx.
  - intros H. exists s. split; [exact H | apply String.eqb_refl].
Qed.

Lemma master_ids_In heap items r m :
  In r items -> item_mid (heap r) = Some m -> m <> EmptyString ->
  In m (master_ids heap items).
Proof.
  intros Hr Hm Hne. unfold master_ids. apply in_flat_map.
  exists r. split; [exact Hr|]. rewrite Hm.
  assert (Etr : Js.truthy (Some m) = true).
  { simpl. destruct (String.eqb m EmptyString) eqn:E; [|reflexivity].
    apply String.eqb_eq in E. contradiction. }
  rewrite Etr. left. reflexivity.
Qed.

Lemma dedupe_nonempty ids : ids <> [] -> dedupe [] ids <> [].
Proof.
  destruct ids as [|x ids]; [contradiction|]. intros _. simpl. discriminate.
Qed.

Lemma sent_bind_call {A B} (req : Request) (serve : Db -> A * Db)
    (k : Response A -> M B) w :
  (forall a, appends_only (k a)) ->
  exists rest, (snd (bind (call req serve) k w)).(sent) = w.(sent) ++ req :: rest.
Proof.
  intros Hk. unfold bind.
  destruct (call_cases req serve w)
    as [(fs & E) | [(message & fs & E) | (e & fs & E)]]; rewrite E.
  - match goal with
    | |- context [k ?a ?w1] => destruct (Hk a w1) as (_ & _ & reqs & Hs & _)
    end.
    exists reqs. rewrite Hs. simpl. rewrite <- app_assoc. reflexivity.
  - match goal with
    | |- context [k ?a ?w1] => destruct (Hk a w1) as (_ & _ & reqs & Hs & _)
    end.
    exists reqs. rewrite Hs. simpl. rewrite <- app_assoc. reflexivity.
  - exists []. reflexivity.
Qed.

(** Whatever the number of candidate stores and of products in the
    cart, the availability query leaves as one request that carries all
    of them in its two filters. *)
Lemma allocate_and_persist_one_query heap orderData geocoded orderCode storeIds w :
  master_ids heap orderData.(CreateOrderData.items) <> [] ->
  exists rest,
    (snd (allocate_and_persist heap orderData geocoded orderCode storeIds w)).(sent)
    = w.(sent)
      ++ ReqSelect "products"
           [("store_id", storeIds);
            ("master_product_id",
             dedupe [] (master_ids heap orderData.(CreateOrderData.items)))]
         :: rest.
Proof.
  intros Hids. unfold allocate_and_persist. cbv zeta.
  destruct (List.length (dedupe [] (master_ids heap _)) =? 0) eqn:E.
  { apply Nat.eqb_eq in E. apply length_zero_iff_nil in E.
    exfalso. exact (dedupe_nonempty _ Hids E). }
  unfold select_products_in_stores. apply sent_bind_call.
  intros pr.
  apply appends_only_bind; [apply appends_only_lift|]. intros alloc.
  destruct (0 <? _); [apply appends_only_throw | apply appends_only_persist_order].
Qed.

(** Unless the availability query is rejected outright, a cart line
    whose master product no candidate store carries makes [createOrder]'s
    allocation throw the [TypeError], with nothing written: the
    items-unavailable error is out of reach for such a line. *)
Lemma allocate_and_persist_uncarried_TypeError
    heap orderData geocoded orderCode storeIds w r m :
  storeIds <> [] ->
  In r orderData.(CreateOrderData.items) ->
  item_mid (heap r) = Some m -> m <> EmptyString ->
  (forall row, In row w.(db).(products) ->
               row.(ProductRow.is_active) = true ->
               In row.(ProductRow.store_id) storeIds ->
               row.(ProductRow.master_product_id) <> m) ->
  (forall e, nth_fault 0 w <> Rejected e) ->
  fst (allocate_and_persist heap orderData geocoded orderCode storeIds w)
  = Throw undefined_read
  /\ (snd (allocate_and_persist heap orderData geocoded orderCode storeIds w)).(db)
     = w.(db).
Proof.
  intros Hs Hr Hm Hne Hrows Hfault.
  assert (Hids : master_ids heap orderData.(CreateOrderData.items) <> []).
  { intros Hnil. pose proof (master_ids_In heap _ r m Hr Hm Hne) as Hin.
    rewrite Hnil in Hin. contradiction. }
  unfold allocate_and_persist. cbv zeta.
  destruct (List.length (dedupe [] (master_ids heap _)) =? 0) eqn:E.
  { apply Nat.eqb_eq in E. apply length_zero_iff_nil in E.
    exfalso. exact (dedupe_nonempty _ Hids E). }
  unfold bind, select_products_in_stores, call, lift.
  rewrite nth_fault_0 in Hfault.
  destruct (faults w) as [|[|message|e] fs]; cbn [data error fst snd tl].
  - rewrite allocate_uncarried_TypeError with (r := r) (m := m); auto.
    intros row Hrow. apply filter_In in Hrow. destruct Hrow as [Hin Hb].
    apply andb_true_iff in Hb. destruct Hb as [Hb Hact].
    apply andb_true_iff in Hb. destruct Hb as [Hst _].
    apply Hrows; [exact Hin | exact Hact | apply mem_string_In; exact Hst].
  - rewrite allocate_uncarried_TypeError with (r := r) (m := m); auto.
    intros row Hrow. apply filter_In in Hrow. destruct Hrow as [Hin Hb].
    apply andb_true_iff in Hb. destruct Hb as [Hb Hact].
    apply andb_true_iff in Hb. destruct Hb as [Hst _].
    apply Hrows; [exact Hin | exact Hact | apply mem_string_In; exact Hst].
  - rewrite allocate_uncarried_TypeError with (r := r) (m := m); auto.
  - exfalso. exact (Hfault e eq_refl).
Qed.

(** ** The listing path ends *)

Lemma fetch_store_chunks_not_Timeout storeChunks : forall allRows w,
  fst (fetch_store_chunks storeChunks allRows w) <> Timeout.
Proof.
  induction storeChunks as [|ids rest IH]; intros allRows w; simpl.
  - discriminate.
  - unfold bind, select_products_of_stores.
    match goal with
    | |- context [call ?req ?serve w] =>
        destruct (call_cases req serve w)
          as [(fs & E) | [(message & fs & E) | (e & fs & E)]]; rewrite E; simpl
    end.
    + apply IH.
    + discriminate.
    + discriminate.
Qed.

(** A full page leaves strictly fewer rows behind it, so the [while]
    loop over pages ends within the fuel. *)
Lemma fetch_ranges_not_Timeout batchSize fuel : forall from allRows w,
  0 < batchSize ->
  List.length (skipn from (filter (fun row => row.(ProductRow.is_active))
                                  w.(db).(products))) < fuel ->
  fst (fetch_ranges fuel from batchSize allRows w) <> Timeout.
Proof.
  induction fuel as [|fuel IH]; intros from allRows w Hb Hfuel; [lia|].
  cbn [fetch_ranges]. unfold bind, select_products_range.
  match goal with
  | |- context [call ?req ?serve w] =>
      destruct (call_cases req serve w)
        as [(fs & E) | [(message & fs & E) | (e & fs & E)]]; rewrite E;
      cbn [data error fst snd]
  end; try discriminate.
  set (active := filter (fun row => row.(ProductRow.is_active)) w.(db).(products)) in *.
  destruct (firstn batchSize (skipn from active)) as [|row more] eqn:Epage;
    [simpl; discriminate|].
  destruct (List.length (row :: more) =? batchSize) eqn:Efull; [|simpl; discriminate].
  apply Nat.eqb_eq in Efull.
  apply IH; [exact Hb|]. cbn [db].
  fold active.
  assert (Hpage : List.length (firstn batchSize (skipn from active)) = batchSize)
    by (rewrite Epage; exact Efull).
  rewrite length_firstn in Hpage.
  rewrite length_skipn in *. lia.
Qed.

Lemma fetchProductRows_not_Timeout storeIds w :
  fst (fetchProductRows storeIds w) <> Timeout.
Proof.
  unfold fetchProductRows.
  destruct storeIds as [[|s rest]|].
  - apply fetch_ranges_not_Timeout; [lia|].
    rewrite length_skipn. simpl.
    pose proof (filter_length_le (fun row => row.(ProductRow.is_active))
                  w.(db).(products)). lia.
  - destruct (chunk_pages (s :: rest) IN_FILTER_CHUNK_SIZE) as (pages & Hrun & _);
      [unfold IN_FILTER_CHUNK_SIZE; lia|].
    rewrite (bind_Ret _ _ w pages w) by (unfold lift; rewrite Hrun; reflexivity).
    apply fetch_store_chunks_not_Timeout.
  - apply fetch_ranges_not_Timeout; [lia|].
    rewrite length_skipn. simpl.
    pose proof (filter_length_le (fun row => row.(ProductRow.is_active))
                  w.(db).(products)). lia.
Qed.

(** ** More on the paging helper *)

Lemma chunk_loop_shape {T} fuel (arr : list T) size :
  0 < size -> List.length arr <= fuel ->
  exists pages,
    chunk_loop fuel arr size = Ret pages
    /\ List.concat pages = arr
    /\ Forall (fun c => c <> [] /\ List.length c <= size) pages
    /\ (forall i, S i < List.length pages -> List.length (nth i pages []) = size)
    /\ List.length pages * size < List.length arr + size.
Proof.
  intros Hsize. revert arr. induction fuel as [|fuel IH]; intros arr Hlen.
  - destruct arr; [|simpl in Hlen; lia]. exists []. simpl.
    repeat split; auto. intros i Hi. lia.
  - destruct arr as [|x arr].
    { exists []. simpl. repeat split; auto. intros i Hi. lia. }
    destruct (IH (skipn size (x :: arr))) as (pages & Hrun & Hc & Hb & Hfull & Hcount).
    { rewrite length_skipn. cbn [List.length] in *. lia. }
    exists (firstn size (x :: arr) :: pages).
    cbn [chunk_loop]. rewrite Hrun. cbn [obind].
    split; [reflexivity|]. split; [|split; [|split]].
    + cbn [List.concat]. rewrite Hc. apply firstn_skipn.
    + constructor; [|exact Hb]. split.
      * destruct size; [lia|]. simpl. discriminate.
      * rewrite length_firstn. apply Nat.le_min_l.
    + intros i Hi. destruct i as [|i].
      * cbn [nth]. rewrite length_firstn.
        destruct pages as [|p pages]; [simpl in Hi; lia|].
        (* a further page exists, so more than [size] elements were left *)
        assert (Hp : p <> []) by (inversion Hb as [|? ? [Hp _] _]; exact Hp).
        assert (Hskip : skipn size (x :: arr) <> []).
        { intros Hnil. rewrite Hnil in Hc. simpl in Hc.
          destruct p; [contradiction | discriminate]. }
        assert (Hlt : size < List.length (x :: arr)).
        { destruct (Nat.lt_ge_cases size (List.length (x :: arr))) as [H|H]; [exact H|].
          exfalso. apply Hskip. apply skipn_all2. exact H. }
        lia.
      * cbn [nth]. apply Hfull. simpl in Hi. lia.
    + rewrite length_skipn in Hcount. cbn [List.length] in *.
      destruct (Nat.lt_ge_cases size (S (List.length arr))) as [H|H]; [nia|].
      assert (Hnil : skipn size (x :: arr) = []) by (apply skipn_all2; exact H).
      rewrite Hnil in Hc.
      destruct pages as [|p pages]; [simpl; lia|].
      exfalso. inversion Hb as [|? ? [Hp _] _]. simpl in Hc.
      destruct p; [contradiction | discriminate].
Qed.

(** X1. For a page size of at least one, [chunk] cuts the array into
    pages that put back together give the array: no page is empty or
    longer than the size, every page but the last is full, and there are
    just enough pages (fewer than [length/size + 1]). *)
Theorem chunk_partitions {T} (arr : list T) size :
  0 < size ->
  exists pages,
    chunk arr size = Ret pages
    /\ List.concat pages = arr
    /\ Forall (fun c => c <> [] /\ List.length c <= size) pages
    /\ (forall i, S i < List.length pages -> List.length (nth i pages []) = size)
    /\ List.length pages * size < List.length arr + size.
Proof.
  intros H. apply chunk_loop_shape; auto.
Qed.

Lemma chunk_partitions_witness :
  exists pages,
    chunk [1; 2; 3; 4; 5] 2 = Ret pages
    /\ List.concat pages = [1; 2; 3; 4; 5]
    /\ Forall (fun c => c <> [] /\ List.length c <= 2) pages
    /\ (forall i, S i < List.length pages -> List.length (nth i pages []) = 2)
    /\ List.length pages * 2 < List.length [1; 2; 3; 4; 5] + 2.
Proof.
  apply (chunk_partitions [1; 2; 3; 4; 5] 2). lia.
Defined.

(** ** The listing path when the datastore answers *)

Lemma all_served_tl d fs sn e :
  all_served {| db := d; faults := fs; sent := sn; env := e |} ->
  forall d' sn', all_served {| db := d'; faults := tl fs; sent := sn'; env := e |}.
Proof.
  unfold all_served. simpl. intros H d' sn'.
  destruct fs; [constructor | inversion H; assumption].
Qed.

(** A call in a world where every call is served. *)
Lemma call_served {A} (req : Request) (serve : Db -> A * Db) w :
  all_served w ->
  call req serve w =
  (Ret {| data := Some (fst (serve w.(db))); error := None |},
   {| db := snd (serve w.(db)); faults := tl w.(faults);
      sent := w.(sent) ++ [req]; env := w.(env) |})
  /\ all_served {| db := snd (serve w.(db)); faults := tl w.(faults);
                   sent := w.(sent) ++ [req]; env := w.(env) |}.
Proof.
  intros H. split.
  - unfold call. destruct w as [d fs sn e]. simpl.
    unfold all_served in H. simpl in H.
    destruct fs as [|f fs]; [destruct (serve d); reflexivity|].
    inversion H as [|? ? Hf _]; subst. destruct (serve d); reflexivity.
  - destruct w as [d fs sn e]. simpl. apply (all_served_tl d fs sn e H).
Qed.

Lemma fetch_store_chunks_served storeChunks : forall allRows w,
  all_served w ->
  exists w',
    fetch_store_chunks storeChunks allRows w
    = (Ret (allRows ++ flat_map (fun ids => filter (listed_for ids) w.(db).(products))
                                storeChunks), w')
    /\ w'.(db) = w.(db)
    /\ List.length w'.(sent) = List.length w.(sent) + List.length storeChunks.
Proof.
  induction storeChunks as [|ids rest IH]; intros allRows w Hs; simpl.
  - exists w. rewrite app_nil_r. unfold ret. repeat split; auto.
  - unfold select_products_of_stores.
    match goal with
    | |- context [call ?req ?serve] =>
        destruct (call_served req serve w Hs) as [Ecall Hs']
    end.
    rewrite (bind_Ret _ _ _ _ _ Ecall). cbn [data error fst snd].
    match goal with
    | |- context [fetch_store_chunks rest ?acc ?w1] =>
        destruct (IH acc w1 Hs') as (w' & Erun & Hdb & Hsent)
    end.
    exists w'. rewrite Erun. cbn [db sent] in *.
    rewrite <- app_assoc. split; [reflexivity|]. split; [exact Hdb|].
    rewrite Hsent, length_app. simpl. lia.
Qed.

Lemma filter_exclusive_perm {A} (p q : A -> bool) (l : list A) :
  (forall x, In x l -> p x = true -> q x = true -> False) ->
  Permutation (filter (fun x => p x || q x) l) (filter p l ++ filter q l).
Proof.
  induction l as [|x l IH]; intros Hex; simpl; [constructor|].
  assert (IH' := IH (fun y Hy => Hex y (or_intror Hy))).
  destruct (p x) eqn:Ep; destruct (q x) eqn:Eq; simpl.
  - exfalso. exact (Hex x (or_introl eq_refl) Ep Eq).
  - constructor. exact IH'.
  - eapply Permutation_trans; [constructor; exact IH'|].
    apply Permutation_middle.
  - exact IH'.
Qed.

Lemma mem_string_app s l1 l2 :
  mem_string s (l1 ++ l2) = mem_string s l1 || mem_string s l2.
Proof. unfold mem_string. apply existsb_app. Qed.

Lemma listed_pages_perm (products : list ProductRow.t) (pages : list (list string)) :
  NoDup (List.concat pages) ->
  Permutation (flat_map (fun ids => filter (listed_for ids) products) pages)
              (filter (listed_for (List.concat pages)) products).
Proof.
  induction pages as [|ids pages IH]; simpl; intros Hnd.
  - unfold listed_for. simpl.
    replace (filter _ products) with (@nil ProductRow.t); [constructor|].
    symmetry. induction products as [|r l IHl]; simpl; [reflexivity|].
    rewrite andb_false_r. exact IHl.
  - apply NoDup_app_remove_l in Hnd as Hnd'.
    eapply Permutation_trans; [apply Permutation_app_head; apply IH; exact Hnd'|].
    eapply Permutation_trans;
      [|apply Permutation_sym; eapply Permutation_trans;
        [|apply (filter_exclusive_perm (listed_for ids) (listed_for (List.concat pages)))]].
    + reflexivity.
    + erewrite filter_ext; [reflexivity|]. intros row. unfold listed_for.
      rewrite mem_string_app. destruct (ProductRow.is_active row); reflexivity.
    + intros row _ H1 H2. unfold listed_for in H1, H2.
      apply andb_true_iff in H1. apply andb_true_iff in H2.
      destruct H1 as [_ H1]. destruct H2 as [_ H2].
      apply mem_string_In in H1. apply mem_string_In in H2.
      revert Hnd H1 H2. clear. intros Hnd H1 H2.
      induction ids as [|i ids IHi]; [contradiction|].
      simpl in Hnd. inversion Hnd as [|? ? Hnot Hnd0]; subst.
      destruct H1 as [->|H1]; [|exact (IHi Hnd0 H1)].
      apply Hnot. apply in_or_app. right. exact H2.
Qed.

(** X2. With the datastore answering, the listing path given store ids
    returns the active rows of exactly those stores, fetched page by
    page; when the ids are distinct the merged pages are, up to order,
    the result of the one unpaged query; and nothing is written. *)
Theorem fetchProductRows_merges_pages s rest w :
  all_served w ->
  exists rows,
    fst (fetchProductRows (Some (s :: rest)) w) = Ret rows
    /\ (forall row, In row rows <->
          In row w.(db).(products)
          /\ row.(ProductRow.is_active) = true
          /\ In row.(ProductRow.store_id) (s :: rest))
    /\ (NoDup (s :: rest) ->
        Permutation rows (filter (listed_for (s :: rest)) w.(db).(products)))
    /\ (snd (fetchProductRows (Some (s :: rest)) w)).(db) = w.(db).
Proof.
  intros Hs. unfold fetchProductRows.
  destruct (chunk_pages (s :: rest) IN_FILTER_CHUNK_SIZE) as (pages & Hrun & _ & Hc);
    [unfold IN_FILTER_CHUNK_SIZE; lia|].
  rewrite (bind_Ret _ _ w pages w) by (unfold lift; rewrite Hrun; reflexivity).
  destruct (fetch_store_chunks_served pages [] w Hs) as (w' & Erun & Hdb & _).
  rewrite Erun. cbn [fst snd app].
  exists (flat_map (fun ids => filter (listed_for ids) w.(db).(products)) pages).
  split; [reflexivity|]. split; [|split; [|exact Hdb]].
  - intros row. rewrite in_flat_map. split.
    + intros (ids & Hids & Hrow). apply filter_In in Hrow.
      destruct Hrow as [Hin Hl]. unfold listed_for in Hl.
      apply andb_true_iff in Hl. destruct Hl as [Hact Hmem].
      apply mem_string_In in Hmem. repeat split; auto.
      rewrite <- Hc. apply in_concat. exists ids. auto.
    + intros (Hin & Hact & Hst). rewrite <- Hc in Hst.
      apply in_concat in Hst. destruct Hst as (ids & Hids & Hmem).
      exists ids. split; [exact Hids|]. apply filter_In. split; [exact Hin|].
      unfold listed_for. rewrite Hact. apply mem_string_In in Hmem.
      rewrite Hmem. reflexivity.
  - intros Hnd. rewrite <- Hc in Hnd. rewrite <- Hc.
    apply listed_pages_perm. exact Hnd.
Qed.

Lemma fetchProductRows_merges_pages_witness :
  exists rows,
    fst (fetchProductRows (Some ["S1"; "S2"]) (ex_world None [])) = Ret rows
    /\ (forall row, In row rows <->
          In row ex_products
          /\ row.(ProductRow.is_active) = true
          /\ In row.(ProductRow.store_id) ["S1"; "S2"])
    /\ (NoDup ["S1"; "S2"] ->
        Permutation rows (filter (listed_for ["S1"; "S2"]) ex_products))
    /\ (snd (fetchProductRows (Some ["S1"; "S2"]) (ex_world None []))).(db) = ex_db.
Proof.
  apply (fetchProductRows_merges_pages "S1" ["S2"] (ex_world None [])).
  constructor.
Defined.

(** ** The unfiltered listing path *)

Lemma firstn_nil_inv {A} n (l : list A) : 0 < n -> firstn n l = [] -> l = [].
Proof.
  intros Hn H. destruct n; [lia|]. destruct l; [reflexivity | discriminate].
Qed.

Lemma fetch_ranges_served batchSize fuel : forall from allRows w active,
  0 < batchSize ->
  all_served w ->
  active = filter (fun row => row.(ProductRow.is_active)) w.(db).(products) ->
  List.length (skipn from active) < fuel ->
  exists w',
    fetch_ranges fuel from batchSize allRows w = (Ret (allRows ++ skipn from active), w')
    /\ w'.(db) = w.(db)
    /\ List.length w'.(sent)
       = List.length w.(sent) + List.length (skipn from active) / batchSize + 1.
Proof.
  induction fuel as [|fuel IH]; intros from allRows w active Hb Hs Hact Hfuel; [lia|].
  cbn [fetch_ranges]. unfold select_products_range.
  match goal with
  | |- context [call ?req ?serve] =>
      destruct (call_served req serve w Hs) as [Ecall Hs']
  end.
  rewrite (bind_Ret _ _ _ _ _ Ecall). cbn [data error fst snd]. rewrite <- Hact.
  destruct (firstn batchSize (skipn from active)) as [|row more] eqn:Epage.
  - apply firstn_nil_inv in Epage; [|exact Hb]. rewrite Epage, app_nil_r.
    eexists. split; [reflexivity|]. cbn [db sent]. split; [reflexivity|].
    rewrite length_app. simpl. rewrite Nat.Div0.div_0_l. lia.
  - destruct (List.length (row :: more) =? batchSize) eqn:Efull.
    + apply Nat.eqb_eq in Efull.
      assert (Hpage : List.length (firstn batchSize (skipn from active)) = batchSize)
        by (rewrite Epage; exact Efull).
      rewrite length_firstn in Hpage.
      match goal with
      | |- context [fetch_ranges fuel ?f batchSize ?acc ?w1] =>
          destruct (IH f acc w1 active Hb Hs') as (w' & Erun & Hdb & Hsent)
      end.
      { cbn [db fst snd]. exact Hact. }
      { rewrite length_skipn in *. lia. }
      cbn [db sent fst snd] in *.
      exists w'. rewrite Erun. split; [|split; [exact Hdb|]].
      * rewrite <- app_assoc, <- Epage, Nat.add_comm, <- skipn_skipn, firstn_skipn.
        reflexivity.
      * rewrite Hsent, length_app. simpl.
        rewrite !length_skipn in *.
        replace (List.length active - from)
          with (1 * batchSize + (List.length active - (from + batchSize))) by lia.
        rewrite Nat.div_add_l by lia. lia.
    + apply Nat.eqb_neq in Efull.
      assert (Hlen : List.length (firstn batchSize (skipn from active)) <> batchSize)
        by (rewrite Epage; exact Efull).
      rewrite length_firstn in Hlen.
      assert (Hall : firstn batchSize (skipn from active) = skipn from active)
        by (apply firstn_all2; lia).
      rewrite <- Epage, Hall.
      eexists. split; [reflexivity|]. cbn [db sent]. split; [reflexivity|].
      rewrite length_app. simpl.
      rewrite Nat.div_small by lia. lia.
Qed.

(** X3. With the datastore answering and no store ids given ([null] or
    an empty array), the listing path returns every active row of the
    table, in table order, by pages of 500: it sends [n / 500 + 1]
    requests for [n] active rows (one more, empty, page when [n] is a
    multiple of 500) and writes nothing. *)
Theorem fetchProductRows_reads_all_pages storeIds w :
  all_served w ->
  storeIds = None \/ storeIds = Some [] ->
  let active := filter (fun row => row.(ProductRow.is_active)) w.(db).(products) in
  fst (fetchProductRows storeIds w) = Ret active
  /\ (snd (fetchProductRows storeIds w)).(db) = w.(db)
  /\ List.length (snd (fetchProductRows storeIds w)).(sent)
     = List.length w.(sent) + List.length active / 500 + 1.
Proof.
  intros Hs Hids active.
  assert (H : exists w',
             fetch_ranges (S (List.length w.(db).(products))) 0 500 [] w
             = (Ret active, w')
             /\ w'.(db) = w.(db)
             /\ List.length w'.(sent)
                = List.length w.(sent) + List.length active / 500 + 1).
  { destruct (fetch_ranges_served 500 (S (List.length w.(db).(products))) 0 [] w active)
      as (w' & Erun & Hdb & Hsent); [lia | exact Hs | reflexivity | |].
    - cbn [skipn]. unfold active.
      pose proof (filter_length_le (fun row => row.(ProductRow.is_active))
                    w.(db).(products)). lia.
    - exists w'. cbn [skipn app] in Erun, Hsent. auto. }
  destruct H as (w' & Erun & Hdb & Hsent).
  unfold fetchProductRows. destruct Hids as [-> | ->]; rewrite Erun; auto.
Qed.

Lemma fetchProductRows_reads_all_pages_witness :
  let w := ex_world None [] in
  let active := filter (fun row => row.(ProductRow.is_active)) w.(db).(products) in
  fst (fetchProductRows None w) = Ret active
  /\ (snd (fetchProductRows None w)).(db) = w.(db)
  /\ List.length (snd (fetchProductRows None w)).(sent)
     = List.length w.(sent) + List.length active / 500 + 1.
Proof.
  apply (fetchProductRows_reads_all_pages None (ex_world None [])).
  - constructor.
  - left. reflexivity.
Defined.

(** ** The listing path never returns part of the rows *)

Lemma nth_fault_tl n d fs sn e d' sn' :
  nth_fault n {| db := d'; faults := tl fs; sent := sn'; env := e |}
  = nth_fault (S n) {| db := d; faults := fs; sent := sn; env := e |}.
Proof.
  unfold nth_fault. simpl. destruct fs as [|f fs]; [destruct n|]; reflexivity.
Qed.

(** A call that returns data was served, and consumed one entry of the
    script. *)
Lemma call_data_inv {A} (req : Request) (serve : Db -> A * Db) w r w' :
  call req serve w = (Ret r, w') -> r.(error) = None ->
  nth_fault 0 w = Served
  /\ (forall n, nth_fault n w' = nth_fault (S n) w)
  /\ w'.(sent) = w.(sent) ++ [req].
Proof.
  unfold call. destruct w as [d fs sn e]. simpl.
  destruct fs as [|[|message|e0] fs].
  - destruct (serve d). intros [= <- <-] _. repeat split.
    intros n. apply (nth_fault_tl n d [] sn e).
  - destruct (serve d). intros [= <- <-] _. repeat split.
  - intros [= <- <-]. discriminate.
  - discriminate.
Qed.

Lemma fetch_store_chunks_no_partial storeChunks : forall allRows w rows w',
  fetch_store_chunks storeChunks allRows w = (Ret rows, w') ->
  exists reqs,
    w'.(sent) = w.(sent) ++ reqs
    /\ forall i, i < List.length reqs -> nth_fault i w = Served.
Proof.
  induction storeChunks as [|ids rest IH]; intros allRows w rows w' H; simpl in H.
  - unfold ret in H. injection H as _ <-. exists []. rewrite app_nil_r.
    split; [reflexivity|]. simpl. intros i Hi. lia.
  - apply bind_Ret_inv in H. destruct H as (r & w1 & Hcall & H).
    destruct (error r) as [message|] eqn:Eerr; [discriminate|].
    unfold select_products_of_stores in Hcall.
    apply call_data_inv in Hcall; [|exact Eerr].
    destruct Hcall as (H0 & Hshift & Hsent).
    apply IH in H. destruct H as (reqs & Hs & Hall).
    exists (ReqSelect "products" [("store_id", ids)] :: reqs).
    rewrite Hs, Hsent, <- app_assoc. split; [reflexivity|].
    intros i Hi. destruct i as [|i]; [exact H0|].
    rewrite <- Hshift. apply Hall. simpl in Hi. lia.
Qed.

Lemma fetch_ranges_no_partial batchSize fuel : forall from allRows w rows w',
  fetch_ranges fuel from batchSize allRows w = (Ret rows, w') ->
  exists reqs,
    w'.(sent) = w.(sent) ++ reqs
    /\ forall i, i < List.length reqs -> nth_fault i w = Served.
Proof.
  induction fuel as [|fuel IH]; intros from allRows w rows w' H; [discriminate|].
  cbn [fetch_ranges] in H.
  apply bind_Ret_inv in H. destruct H as (r & w1 & Hcall & H).
  destruct (error r) as [message|] eqn:Eerr; [discriminate|].
  unfold select_products_range in Hcall.
  apply call_data_inv in Hcall; [|exact Eerr].
  destruct Hcall as (H0 & Hshift & Hsent).
  assert (Hone : forall w2, w2 = w1 ->
            exists reqs, w2.(sent) = w.(sent) ++ reqs
              /\ forall i, i < List.length reqs -> nth_fault i w = Served).
  { intros w2 ->. exists [ReqSelect "products" []]. split; [exact Hsent|].
    intros i Hi. simpl in Hi. replace i with 0 by lia. exact H0. }
  destruct (data r) as [[|row more]|].
  - unfold ret in H. injection H as _ <-. apply Hone. reflexivity.
  - destruct (List.length (row :: more) =? batchSize).
    + apply IH in H. destruct H as (reqs & Hs & Hall).
      exists (ReqSelect "products" [] :: reqs).
      rewrite Hs, Hsent, <- app_assoc. split; [reflexivity|].
      intros i Hi. destruct i as [|i]; [exact H0|].
      rewrite <- Hshift. apply Hall. simpl in Hi. lia.
    + unfold ret in H. injection H as _ <-. apply Hone. reflexivity.
  - unfold ret in H. injection H as _ <-. apply Hone. reflexivity.
Qed.

(** X4. The listing path returns rows only when every query it sent
    was served: as soon as one page is answered with an error (or
    rejected) it throws, and the pages fetched before are not
    returned. *)
Theorem fetchProductRows_no_partial_result storeIds w rows w' :
  fetchProductRows storeIds w = (Ret rows, w') ->
  exists reqs,
    w'.(sent) = w.(sent) ++ reqs
    /\ forall i, i < List.length reqs -> nth_fault i w = Served.
Proof.
  unfold fetchProductRows. destruct storeIds as [[|s rest]|].
  - apply fetch_ranges_no_partial.
  - intros H. apply bind_Ret_inv in H. destruct H as (pages & w1 & Hl & H).
    apply lift_Ret_inv in Hl. destruct Hl as [_ ->].
    eapply fetch_store_chunks_no_partial. exact H.
  - apply fetch_ranges_no_partial.
Qed.

Lemma fetchProductRows_no_partial_result_witness :
  let w := ex_world None [Served] in
  exists reqs,
    (snd (fetchProductRows (Some ["S1"; "S2"]) w)).(sent) = w.(sent) ++ reqs
    /\ forall i, i < List.length reqs -> nth_fault i w = Served.
Proof.
  intros w.
  assert (Hr : exists rows, fst (fetchProductRows (Some ["S1"; "S2"]) w) = Ret rows)
    by (vm_compute; eexists; reflexivity).
  destruct Hr as [rows Hr].
  exact (fetchProductRows_no_partial_result (Some ["S1"; "S2"]) w rows
           (snd (fetchProductRows (Some ["S1"; "S2"]) w))
           (outcome_pair _ rows Hr)).
Defined.

(** ** Which store a round picks *)

Section BestStore.

Variable heap : Heap.
Variable items : list objref.
Variable byMaster : JsMap.t (list StoreOption.t).

Local Abbreviation cover asg s :=
  (List.length (filter (countable heap items byMaster asg s) items)).

Lemma best_loop_first_max_gen asg sids : forall bs0 bc0 bs bc,
  best_loop heap items byMaster asg sids bs0 bc0 = Ret (bs, bc) ->
  ((bs, bc) = (bs0, bc0) /\ forall s, In s sids -> cover asg s <= bc0)
  \/ exists pre b post,
       sids = pre ++ b :: post
       /\ bs = Some b /\ bc = cover asg b /\ bc0 < bc
       /\ (forall s, In s pre -> cover asg s < bc)
       /\ (forall s, In s post -> cover asg s <= bc).
Proof.
  induction sids as [|s sids IH]; intros bs0 bc0 bs bc H; simpl in H.
  - injection H as <- <-. left. split; [reflexivity|]. intros s [].
  - destruct (count_loop heap items byMaster asg s items 0) as [c| |] eqn:Ec;
      simpl in H; try discriminate.
    apply count_loop_Ret in Ec. simpl in Ec.
    destruct (bc0 <? c) eqn:Elt.
    + apply Nat.ltb_lt in Elt. apply IH in H.
      destruct H as [[Heq Hle] | (pre & b & post & -> & -> & -> & Hlt & Hpre & Hpost)].
      * injection Heq as -> ->. right. exists [], s, sids.
        repeat split; auto. intros s' [].
      * right. exists (s :: pre), b, post. repeat split; auto; try lia.
        intros s' [<-|Hs']; [lia | auto].
    + apply Nat.ltb_ge in Elt. apply IH in H.
      destruct H as [[Heq Hle] | (pre & b & post & -> & -> & -> & Hlt & Hpre & Hpost)].
      * left. split; [exact Heq|]. intros s' [<-|Hs']; [lia | auto].
      * right. exists (s :: pre), b, post. repeat split; auto.
        intros s' [<-|Hs']; [lia | auto].
Qed.

(** X5. The store a round of the allocation picks is the first
    candidate, in candidate order, that covers the greatest number of
    still unassigned cart lines: candidates before it cover strictly
    fewer, candidates after it no more.  When no candidate covers any
    line the round picks no store. *)
Theorem best_loop_first_max asg storeIds bs bc :
  best_loop heap items byMaster asg storeIds None 0 = Ret (bs, bc) ->
  (bs = None /\ bc = 0 /\ forall s, In s storeIds -> cover asg s = 0)
  \/ exists pre b post,
       storeIds = pre ++ b :: post
       /\ bs = Some b /\ bc = cover asg b /\ 0 < bc
       /\ (forall s, In s pre -> cover asg s < bc)
       /\ (forall s, In s post -> cover asg s <= bc).
Proof.
  intros H. apply best_loop_first_max_gen in H.
  destruct H as [[Heq Hle] | H]; [|right; exact H].
  injection Heq as -> ->. left. repeat split; auto.
  intros s Hs. specialize (Hle s Hs). lia.
Qed.

End BestStore.

Lemma best_loop_first_max_witness :
  (Some "S1" = None /\ 2 = 0
   /\ forall s, In s ["S1"; "S2"] ->
        List.length (filter (countable ex_heap [itemA; itemB; itemC]
                               (build_byMaster ex_products) [] s)
                            [itemA; itemB; itemC]) = 0)
  \/ exists pre b post,
       ["S1"; "S2"] = pre ++ b :: post
       /\ Some "S1" = Some b
       /\ 2 = List.length (filter (countable ex_heap [itemA; itemB; itemC]
                                     (build_byMaster ex_products) [] b)
                                  [itemA; itemB; itemC])
       /\ 0 < 2
       /\ (forall s, In s pre ->
             List.length (filter (countable ex_heap [itemA; itemB; itemC]
                                    (build_byMaster ex_products) [] s)
                                 [itemA; itemB; itemC]) < 2)
       /\ (forall s, In s post ->
             List.length (filter (countable ex_heap [itemA; itemB; itemC]
                                    (build_byMaster ex_products) [] s)
                                 [itemA; itemB; itemC]) <= 2).
Proof.
  apply (best_loop_first_max ex_heap [itemA; itemB; itemC] (build_byMaster ex_products)
           [] ["S1"; "S2"] (Some "S1") 2).
  reflexivity.
Defined.

(** ** The shape of an allocation *)

Section AllocationShape.

Variable heap : Heap.
Variable items : list objref.
Variable storeIds : list string.
Variable byMaster : JsMap.t (list StoreOption.t).

Local Abbreviation Loop := (while_loop heap items storeIds byMaster).
Local Abbreviation Inv := (AllocInv heap items byMaster).

Lemma keys_set_incl {V} (m : JsMap.t V) k v s :
  In s (JsMap.keys (JsMap.set m k v)) -> s = k \/ In s (JsMap.keys m).
Proof.
  destruct (JsMap.get m k) as [v0|] eqn:E.
  - rewrite (JsMapFacts.keys_set_present m k v v0 E). auto.
  - rewrite (JsMapFacts.keys_set_absent m k v E). intros H.
    apply in_app_or in H. destruct H as [H|[H|[]]]; auto.
Qed.

(** The stores of an allocation are candidate stores. *)
Lemma while_loop_keys fuel : forall st st',
  (forall s, In s (JsMap.keys st.(storeToItems)) -> In s storeIds) ->
  Loop fuel st = Ret st' ->
  forall s, In s (JsMap.keys st'.(storeToItems)) -> In s storeIds.
Proof.
  induction fuel as [|fuel IH]; intros st st' Hk H.
  - simpl in H. destruct (negb _); [injection H as <-; exact Hk | discriminate].
  - destruct (Nat.lt_ge_cases (JsSet.size st.(assigned)) (List.length items)) as [Hlt|Hge].
    + rewrite while_loop_step in H by exact Hlt.
      destruct (best_loop heap items byMaster st.(assigned) storeIds None 0)
        as [[bs bc]| |] eqn:Eb; simpl in H; try discriminate.
      destruct (negb (Js.truthy bs) || (bc =? 0)) eqn:Ebrk;
        [injection H as <-; exact Hk|].
      destruct bs as [b|]; [|injection H as <-; exact Hk].
      destruct (assign_loop heap byMaster b items 0 [] st.(assigned))
        as [[chunk asg']| |] eqn:Ea; simpl in H; try discriminate.
      apply orb_false_iff in Ebrk. destruct Ebrk as [_ Ebc].
      apply Nat.eqb_neq in Ebc.
      apply best_loop_Ret in Eb. destruct Eb as (_ & _ & [Heq | (_ & s0 & Hs0 & Hin & _)]).
      * injection Heq as _ ->. contradiction.
      * injection Hs0 as <-. eapply IH; [|exact H]. simpl.
        intros s Hs. apply keys_set_incl in Hs. destruct Hs as [->|Hs]; auto.
    + rewrite while_loop_exit in H by exact Hge. injection H as <-. exact Hk.
Qed.

(** Why the loop stopped. *)
Lemma while_loop_stops fuel : forall st st',
  Loop fuel st = Ret st' ->
  List.length items <= JsSet.size st'.(assigned)
  \/ exists bs bc,
       best_loop heap items byMaster st'.(assigned) storeIds None 0 = Ret (bs, bc)
       /\ (Js.truthy bs = false \/ bc = 0).
Proof.
  induction fuel as [|fuel IH]; intros st st' H.
  - simpl in H. destruct (JsSet.size (assigned st) <? List.length items) eqn:E;
      simpl in H; [discriminate|].
    injection H as <-. left. apply Nat.ltb_ge. exact E.
  - destruct (Nat.lt_ge_cases (JsSet.size st.(assigned)) (List.length items)) as [Hlt|Hge].
    + rewrite while_loop_step in H by exact Hlt.
      destruct (best_loop heap items byMaster st.(assigned) storeIds None 0)
        as [[bs bc]| |] eqn:Eb; simpl in H; try discriminate.
      destruct (negb (Js.truthy bs) || (bc =? 0)) eqn:Ebrk.
      * injection H as <-. right. exists bs, bc. split; [exact Eb|].
        apply orb_true_iff in Ebrk. destruct Ebrk as [E|E].
        -- left. apply negb_true_iff. exact E.
        -- right. apply Nat.eqb_eq. exact E.
      * destruct bs as [b|].
        -- destruct (assign_loop heap byMaster b items 0 [] st.(assigned))
             as [[chunk asg']| |] eqn:Ea; simpl in H; try discriminate.
           eapply IH. exact H.
        -- simpl in Ebrk. discriminate.
    + rewrite while_loop_exit in H by exact Hge. injection H as <-. left. exact Hge.
Qed.

Lemma unassigned_from_seq asg : forall its i,
  unassigned_from asg its i
  = map snd (filter (fun p => negb (JsSet.has asg (fst p)))
                    (combine (seq i (List.length its)) its)).
Proof.
  induction its as [|it its IH]; intros i; simpl; [reflexivity|].
  destruct (JsSet.has asg i); simpl; rewrite IH; reflexivity.
Qed.

Lemma filter_partition_perm {A} (p : A -> bool) (l : list A) :
  Permutation (filter p l ++ filter (fun x => negb (p x)) l) l.
Proof.
  induction l as [|x l IH]; simpl; [constructor|].
  destruct (p x); simpl.
  - constructor. exact IH.
  - apply Permutation_sym. apply Permutation_cons_app.
    apply Permutation_sym. exact IH.
Qed.

Lemma map_snd_combine_seq (its : list objref) i :
  map snd (combine (seq i (List.length its)) its) = its.
Proof.
  revert i. induction its as [|it its IH]; intros i; simpl; [reflexivity|].
  rewrite IH. reflexivity.
Qed.

Lemma map_fst_combine_seq (its : list objref) i :
  map fst (combine (seq i (List.length its)) its) = seq i (List.length its).
Proof.
  revert i. induction its as [|it its IH]; intros i; simpl; [reflexivity|].
  rewrite IH. reflexivity.
Qed.

Lemma nth_combine_seq (its : list objref) i p :
  In p (combine (seq i (List.length its)) its) ->
  nth_error its (fst p - i) = Some (snd p) /\ i <= fst p.
Proof.
  revert i. induction its as [|it its IH]; intros i; simpl; [contradiction|].
  intros [<-|H].
  - simpl. rewrite Nat.sub_diag. auto.
  - apply IH in H. destruct H as [Hn Hle].
    replace (fst p - i) with (S (fst p - S i)) by lia. simpl. split; [exact Hn | lia].
Qed.

Lemma nth_error_combine_seq (its : list objref) : forall n j r,
  nth_error its j = Some r ->
  nth_error (combine (seq n (List.length its)) its) j = Some (n + j, r).
Proof.
  induction its as [|it its IH]; intros n j r Er; [destruct j; discriminate|].
  destruct j as [|j]; simpl in *.
  - injection Er as ->. rewrite Nat.add_0_r. reflexivity.
  - rewrite (IH (S n) j r Er). do 2 f_equal. lia.
Qed.

(** The cart lines at the assigned positions and the unassigned lines
    are, together, the cart. *)
Lemma assigned_unassigned_perm asg :
  NoDup asg -> (forall i, In i asg -> i < List.length items) ->
  Permutation (refs_at items asg ++ unassigned_from asg items 0) items.
Proof.
  intros Hnd Hr.
  set (pairs := combine (seq 0 (List.length items)) items).
  assert (Hasg : Permutation (refs_at items asg)
                   (map snd (filter (fun p => JsSet.has asg (fst p)) pairs))).
  { assert (Hp : Permutation asg (map fst (filter (fun p => JsSet.has asg (fst p)) pairs))).
    { apply NoDup_Permutation; [exact Hnd| |].
      - assert (Hnd' : NoDup (map fst pairs)).
        { unfold pairs. rewrite map_fst_combine_seq. apply seq_NoDup. }
        revert Hnd'. generalize pairs. clear. intros l.
        induction l as [|p l IH]; simpl; intros H; [constructor|].
        inversion H as [|? ? Hn Hl]; subst.
        destruct (JsSet.has asg (fst p)); [|auto].
        simpl. constructor; [|auto].
        intros Hin. apply Hn. apply in_map_iff in Hin.
        destruct Hin as (q & Hq & Hin). apply filter_In in Hin.
        rewrite <- Hq. apply in_map. tauto.
      - intros j. rewrite in_map_iff. split.
        + intros Hj. specialize (Hr j Hj).
          destruct (nth_error items j) as [r|] eqn:Er;
            [|apply nth_error_None in Er; lia].
          exists (j, r). split; [reflexivity|]. apply filter_In. split.
          * unfold pairs.
            pose proof (nth_error_combine_seq items 0 j r Er) as Hc.
            eapply nth_error_In. exact Hc.
          * simpl. apply JsSetFacts.has_In. exact Hj.
        + intros ([j' r] & <- & Hin). apply filter_In in Hin.
          simpl in *. apply JsSetFacts.has_In. tauto. }
    unfold refs_at. eapply Permutation_trans; [apply Permutation_map; exact Hp|].
    rewrite map_map. erewrite map_ext_in; [reflexivity|].
    intros p Hp'. apply filter_In in Hp'. destruct Hp' as [Hin _].
    unfold pairs in Hin. apply nth_combine_seq in Hin.
    rewrite Nat.sub_0_r in Hin. apply nth_error_nth. tauto. }
  rewrite unassigned_from_seq. fold pairs.
  eapply Permutation_trans; [apply Permutation_app_tail; exact Hasg|].
  rewrite <- map_app.
  apply (Permutation_trans (l' := map snd pairs)).
  - apply Permutation_map. apply filter_partition_perm.
  - unfold pairs. rewrite map_snd_combine_seq. apply Permutation_refl.
Qed.

End AllocationShape.

Lemma length_concat_nonempty {A} (ls : list (list A)) :
  (forall l, In l ls -> l <> []) -> List.length ls <= List.length (List.concat ls).
Proof.
  induction ls as [|l ls IH]; intros H; simpl; [lia|].
  rewrite length_app.
  assert (Hl : l <> []) by (apply H; left; reflexivity).
  assert (List.length ls <= List.length (List.concat ls))
    by (apply IH; intros l' Hl'; apply H; right; exact Hl').
  destruct l; [contradiction | simpl; lia].
Qed.

(** X6. Whatever the cart and the availability rows, a returned
    allocation splits the cart: the lists of the stores, one after the
    other, followed by the unassigned lines, are a rearrangement of the
    cart (nothing lost, nothing twice).  Every store of the allocation is
    a candidate store, has a non-empty list, and there are no more stores
    than cart lines. *)
Theorem allocate_partitions_cart heap items storeIds productRows st :
  allocate heap items storeIds productRows = Ret st ->
  Permutation (List.concat (JsMap.values st.(storeToItems)) ++ unassigned_of items st)
              items
  /\ NoDup (JsMap.keys st.(storeToItems))
  /\ (forall s l, JsMap.get st.(storeToItems) s = Some l -> In s storeIds /\ l <> [])
  /\ List.length (JsMap.keys st.(storeToItems)) <= List.length items.
Proof.
  intros H. pose proof (allocate_inv _ _ _ _ _ H) as HI.
  assert (Hperm : Permutation
            (List.concat (JsMap.values st.(storeToItems)) ++ unassigned_of items st) items).
  { eapply Permutation_trans.
    - apply Permutation_app_tail. exact (inv_perm _ _ _ _ HI).
    - unfold unassigned_of. apply assigned_unassigned_perm.
      + exact (inv_nodup _ _ _ _ HI).
      + exact (inv_range _ _ _ _ HI). }
  split; [exact Hperm|]. split; [exact (inv_keys _ _ _ _ HI)|]. split.
  - intros s l Hget. apply JsMapFacts.get_In in Hget. split.
    + unfold allocate in H.
      eapply while_loop_keys; [|exact H|].
      * simpl. intros s' [].
      * unfold JsMap.keys. apply (in_map fst) in Hget. exact Hget.
    + exact (proj1 (inv_entry _ _ _ _ HI s l Hget)).
  - apply Permutation_length in Hperm. rewrite length_app in Hperm.
    unfold JsMap.keys. rewrite length_map.
    assert (Hl : List.length (JsMap.values st.(storeToItems))
                 <= List.length (List.concat (JsMap.values st.(storeToItems)))).
    { apply length_concat_nonempty. intros l Hl. unfold JsMap.values in Hl.
      apply in_map_iff in Hl. destruct Hl as ([s l'] & <- & Hin).
      exact (proj1 (inv_entry _ _ _ _ HI s l' Hin)). }
    unfold JsMap.values in Hl, Hperm. rewrite length_map in Hl. lia.
Qed.

Lemma filter_length_all {A} (p : A -> bool) (l : list A) :
  List.length l <= List.length (filter p l) -> forall x, In x l -> p x = true.
Proof.
  induction l as [|a l IH]; simpl; intros H x Hx; [contradiction|].
  pose proof (filter_length_le p l) as Hle.
  destruct (p a) eqn:E; simpl in H.
  - destruct Hx as [<-|Hx]; [exact E | apply IH; [lia | exact Hx]].
  - lia.
Qed.

Lemma picked_all heap byMaster b : forall its i,
  (forall r, In r its -> carries heap byMaster b r = true) ->
  picked heap byMaster b [] its i = combine (seq i (List.length its)) its.
Proof.
  induction its as [|it its IH]; intros i H; simpl; [reflexivity|].
  rewrite (H it) by (left; reflexivity). simpl.
  rewrite IH by (intros r Hr; apply H; right; exact Hr). reflexivity.
Qed.

(** X7. When some candidate store carries every line of a non-empty
    cart, the allocation is a single store with the whole cart, in cart
    order, and that store is the first candidate that carries every line. *)
Theorem allocate_single_store heap items storeIds productRows s :
  items <> [] ->
  (forall s', In s' storeIds -> s' <> EmptyString) ->
  (forall row, In row productRows ->
               row.(ProductRow.master_product_id) <> EmptyString) ->
  In s storeIds ->
  (forall r, In r items -> row_carries heap productRows s r) ->
  exists pre b post,
    storeIds = pre ++ b :: post
    /\ (forall r, In r items -> row_carries heap productRows b r)
    /\ (forall s', In s' pre ->
          exists r, In r items /\ ~ row_carries heap productRows s' r)
    /\ allocate heap items storeIds productRows
       = Ret {| storeToItems := [(b, items)];
                assigned := seq 0 (List.length items) |}.
Proof.
  intros Hne Hids Hmids Hs Hall.
  set (byMaster := build_byMaster productRows).
  assert (Hcar : forall r, In r items -> carries heap byMaster s r = true).
  { intros r Hr. apply rows_carries; auto. }
  assert (Hdef : forall it, In it items -> item_options byMaster (heap it) <> None).
  { intros it Hit. specialize (Hcar it Hit). unfold carries in Hcar.
    destruct (item_options byMaster (heap it)); discriminate. }
  assert (Hcount : forall s' r, countable heap items byMaster [] s' r
                                = carries heap byMaster s' r).
  { intros s' r. unfold countable, has_idx.
    destruct (indexOf items r); reflexivity. }
  assert (Hlen : 0 < List.length items) by (destruct items; [contradiction | simpl; lia]).
  destruct (best_loop_defined heap items byMaster [] storeIds None 0 Hdef)
    as (bs & bc & Eb).
  pose proof Eb as Eb'. apply best_loop_first_max_gen in Eb'.
  assert (Hfull : List.length (filter (countable heap items byMaster [] s) items)
                  = List.length items).
  { f_equal. apply forallb_filter_id. apply forallb_forall.
    intros r Hr. rewrite Hcount. auto. }
  destruct Eb' as [[Heq Hle] | (pre & b & post & Hsplit & -> & -> & Hpos & Hpre & Hpost)].
  { specialize (Hle s Hs). lia. }
  assert (Hb : In b storeIds) by (rewrite Hsplit; apply in_elt).
  assert (Hbfull : List.length items
                   <= List.length (filter (countable heap items byMaster [] b) items)).
  { rewrite Hsplit in Hs. apply in_app_or in Hs.
    destruct Hs as [Hs | [<- | Hs]].
    - specialize (Hpre s Hs). lia.
    - lia.
    - specialize (Hpost s Hs). lia. }
  assert (Hbcar : forall r, In r items -> carries heap byMaster b r = true).
  { intros r Hr. rewrite <- Hcount. eapply filter_length_all; eauto. }
  exists pre, b, post. split; [exact Hsplit|]. split.
  { intros r Hr. apply carries_rows. apply Hbcar. exact Hr. }
  split.
  { intros s' Hs'. specialize (Hpre s' Hs').
    destruct (forallb (countable heap items byMaster [] s') items) eqn:Ef.
    - rewrite forallb_filter_id in Hpre by exact Ef.
      pose proof (filter_length_le (countable heap items byMaster [] b) items). lia.
    - assert (Hex : exists r, In r items /\ countable heap items byMaster [] s' r = false).
      { clear -Ef. induction items as [|a l IH]; simpl in Ef; [discriminate|].
        destruct (countable heap (a :: l) byMaster [] s' a) eqn:E.
        - simpl in Ef.
          assert (Hgen : forall its, forallb (countable heap (a :: l) byMaster [] s') its
                                     = false ->
                    exists r, In r its
                              /\ countable heap (a :: l) byMaster [] s' r = false).
          { clear. induction its as [|x its IH]; simpl; intros H; [discriminate|].
            destruct (countable heap (a :: l) byMaster [] s' x) eqn:E.
            - destruct (IH H) as (r & Hr & Hc). exists r. auto.
            - exists x. auto. }
          destruct (Hgen l Ef) as (r & Hr & Hc). exists r. split; [right; exact Hr | exact Hc].
        - exists a. split; [left; reflexivity | exact E]. }
      destruct Hex as (r & Hr & Hc). exists r. split; [exact Hr|].
      intros Hrow. rewrite Hcount in Hc.
      pose proof (rows_carries heap productRows s' r Hrow Hmids) as Hx.
      fold byMaster in Hx. congruence. }
  unfold allocate. fold byMaster.
  destruct (List.length items) as [|n] eqn:En; [lia|].
  rewrite while_loop_step by (simpl; lia).
  cbn [assigned storeToItems]. unfold JsSet.empty, JsMap.empty.
  rewrite Eb. cbn [obind].
  assert (Etr : Js.truthy (Some b) = true).
  { simpl. destruct (String.eqb b EmptyString) eqn:E; [|reflexivity].
    apply String.eqb_eq in E. exfalso. exact (Hids b Hb E). }
  rewrite Etr. cbn [negb orb].
  replace (_ =? 0) with false by (symmetry; apply Nat.eqb_neq; lia).
  destruct (assign_loop_defined heap byMaster b items 0 [] [] Hdef) as ([chunk asg'] & Ea).
  rewrite Ea. cbn [obind].
  apply assign_loop_Ret in Ea. destruct Ea as [-> ->].
  rewrite picked_all by exact Hbcar.
  rewrite map_snd_combine_seq, map_fst_combine_seq. rewrite En.
  cbn [JsMap.get JsMap.set app].
  rewrite while_loop_exit; [reflexivity|].
  cbn [assigned]. unfold JsSet.size. rewrite length_seq. lia.
Qed.

(** X8. A cart line the allocation leaves unassigned is a line that no
    candidate store carries: the loop does not stop while some candidate
    still covers a line.  Store ids and master product ids are datastore
    keys, never the empty string. *)
Theorem allocate_unassigned_not_carried heap items storeIds productRows st :
  (forall s, In s storeIds -> s <> EmptyString) ->
  (forall row, In row productRows ->
               row.(ProductRow.master_product_id) <> EmptyString) ->
  allocate heap items storeIds productRows = Ret st ->
  forall r s,
    In r (unassigned_of items st) -> In s storeIds ->
    ~ row_carries heap productRows s r.
Proof.
  intros Hids Hmids H r s Hr Hs Hrow.
  pose proof (allocate_inv _ _ _ _ _ H) as HI.
  unfold allocate in H.
  set (byMaster := build_byMaster productRows) in *.
  apply while_loop_stops in H.
  unfold unassigned_of in Hr. apply unassigned_from_spec in Hr.
  destruct Hr as (j & _ & Hj & Hasg). rewrite Nat.sub_0_r in Hj.
  destruct H as [Hfull | (bs & bc & Eb & Hstop)].
  - assert (Hin : In j st.(assigned)).
    { apply (full_index_set st.(assigned) (List.length items)).
      - exact (inv_nodup _ _ _ _ HI).
      - exact (inv_range _ _ _ _ HI).
      - exact Hfull.
      - apply nth_error_Some. congruence. }
    apply JsSetFacts.has_In in Hin. congruence.
  - assert (Hr : In r items) by (eapply nth_error_In; exact Hj).
    assert (Hc : countable heap items byMaster st.(assigned) s r = true).
    { unfold countable. apply andb_true_iff. split.
      - destruct (indexOf_In items r Hr) as (j0 & E0 & Hj0).
        rewrite E0. unfold has_idx.
        rewrite (inv_alias _ _ _ _ HI j0 j r Hj0 Hj), Hasg. reflexivity.
      - apply rows_carries; assumption. }
    assert (Hpos : 0 < List.length (filter (countable heap items byMaster st.(assigned) s)
                                           items)).
    { assert (Hf : In r (filter (countable heap items byMaster st.(assigned) s) items))
        by (apply filter_In; auto).
      destruct (filter _ items); [contradiction | simpl; lia]. }
    apply best_loop_first_max_gen in Eb.
    destruct Eb as [[_ Hle] | (pre & b & post & Hsplit & -> & -> & Hlt & _ & _)].
    + specialize (Hle s Hs). lia.
    + destruct Hstop as [Htr | Hz]; [|lia].
      assert (Hb : In b storeIds) by (rewrite Hsplit; apply in_elt).
      simpl in Htr. destruct (String.eqb b EmptyString) eqn:E; [|discriminate].
      apply String.eqb_eq in E. exact (Hids b Hb E).
Qed.

Lemma allocate_partitions_cart_witness :
  let st := {| storeToItems := [("S1", [itemA; itemB]); ("S2", [itemC])];
               assigned := [0; 1; 2] |} in
  Permutation (List.concat (JsMap.values st.(storeToItems))
                 ++ unassigned_of [itemA; itemB; itemC] st)
              [itemA; itemB; itemC]
  /\ NoDup (JsMap.keys st.(storeToItems))
  /\ (forall s l, JsMap.get st.(storeToItems) s = Some l ->
                  In s ["S1"; "S2"] /\ l <> [])
  /\ List.length (JsMap.keys st.(storeToItems)) <= 3.
Proof.
  apply (allocate_partitions_cart ex_heap [itemA; itemB; itemC] ["S1"; "S2"]
           ex_products).
  reflexivity.
Defined.

Lemma allocate_single_store_witness :
  exists pre b post,
    ["S1"; "S2"] = pre ++ b :: post
    /\ (forall r, In r [itemB; itemC] -> row_carries ex_heap ex_products b r)
    /\ (forall s', In s' pre ->
          exists r, In r [itemB; itemC] /\ ~ row_carries ex_heap ex_products s' r)
    /\ allocate ex_heap [itemB; itemC] ["S1"; "S2"] ex_products
       = Ret {| storeToItems := [(b, [itemB; itemC])];
                assigned := seq 0 (List.length [itemB; itemC]) |}.
Proof.
  apply (allocate_single_store ex_heap [itemB; itemC] ["S1"; "S2"] ex_products "S2").
  - discriminate.
  - intros s [<-|[<-|[]]]; discriminate.
  - intros row [<-|[<-|[<-|[<-|[]]]]]; discriminate.
  - simpl. auto.
  - intros r [<-|[<-|[]]].
    + exists (inventory "p3" "S2" "mp-B"). simpl. auto 6.
    + exists (inventory "p4" "S2" "mp-C"). simpl. auto 6.
Defined.

Lemma allocate_unassigned_not_carried_witness :
  ~ row_carries ex_heap (ex_products ++ [inventory "p9" "S3" "mp-Z"]) "S1" itemZ.
Proof.
  apply (allocate_unassigned_not_carried ex_heap [itemA; itemZ] ["S1"; "S2"]
           (ex_products ++ [inventory "p9" "S3" "mp-Z"])
           {| storeToItems := [("S1", [itemA])]; assigned := [0] |}).
  - intros s [<-|[<-|[]]]; discriminate.
  - intros row [<-|[<-|[<-|[<-|[<-|[]]]]]]; discriminate.
  - reflexivity.
  - simpl. auto.
  - simpl. auto.
Defined.

(** ** What [createOrder] leaves in the datastore, whatever its outcome *)

Lemma fresh_id_not_In ids : ~ In (fresh_id ids) ids.
Proof.
  unfold fresh_id. intros H.
  assert (Hle : fresh_id ids <= list_max ids).
  { pose proof (proj1 (list_max_le ids (list_max ids)) (Nat.le_refl _)) as Hall.
    rewrite Forall_forall in Hall. apply Hall. exact H. }
  unfold fresh_id in Hle. lia.
Qed.

Lemma children_added_refl coid d : children_added coid d d.
Proof.
  repeat (split; [reflexivity|]).
  exists [], []. rewrite !app_nil_r.
  repeat split; constructor.
Qed.

Lemma children_added_trans coid d1 d2 d3 :
  children_added coid d1 d2 -> children_added coid d2 d3 -> children_added coid d1 d3.
Proof.
  intros (A1 & B1 & C1 & D1 & E1 & sos1 & ois1 & S1 & I1 & P1 & N1 & F1 & L1)
         (A2 & B2 & C2 & D2 & E2 & sos2 & ois2 & S2 & I2 & P2 & N2 & F2 & L2).
  repeat (split; [congruence|]).
  exists (sos1 ++ sos2), (ois1 ++ ois2).
  split; [rewrite S2, S1, app_assoc; reflexivity|].
  split; [rewrite I2, I1, app_assoc; reflexivity|].
  split; [apply Forall_app; auto|].
  assert (Hold : forall so, In so sos2 ->
            ~ In so.(StoreOrder.id) (map StoreOrder.id d1.(store_orders))
            /\ ~ In so.(StoreOrder.id) (map StoreOrder.id sos1)).
  { intros so Hso. rewrite Forall_forall in F2. specialize (F2 so Hso).
    rewrite S1, map_app, in_app_iff in F2. tauto. }
  split.
  { rewrite map_app. apply NoDup_app; [exact N1 | exact N2 |].
    intros i Hi1 Hi2. apply in_map_iff in Hi2. destruct Hi2 as (so & <- & Hso).
    exact (proj2 (Hold so Hso) Hi1). }
  split.
  { apply Forall_app. split; [exact F1|].
    apply Forall_forall. intros so Hso. exact (proj1 (Hold so Hso)). }
  apply Forall_app. split.
  - eapply Forall_impl; [|exact L1]. intros oi H. rewrite map_app, in_app_iff. tauto.
  - eapply Forall_impl; [|exact L2]. intros oi H. rewrite map_app, in_app_iff. tauto.
Qed.

(** A computation whose every run adds only children of [coid]. *)
Lemma children_bind {A B} coid (c : M A) (k : A -> M B) w :
  children_added coid w.(db) (snd (c w)).(db) ->
  (forall a w1, children_added coid w1.(db) (snd (k a w1)).(db)) ->
  children_added coid w.(db) (snd (bind c k w)).(db).
Proof.
  intros Hc Hk. unfold bind. destruct (c w) as [[a|e|] w1]; simpl in *; try exact Hc.
  eapply children_added_trans; [exact Hc | apply Hk].
Qed.

Lemma children_keeps {A} coid (c : M A) w :
  keeps (fun d => d) c ->
  children_added coid w.(db) (snd (c w)).(db).
Proof.
  intros H. rewrite (H w). apply children_added_refl.
Qed.

Section Children.

Variable heap : Heap.
Variable orderData : CreateOrderData.t.

Lemma orderItemsPayload_of_ids soid m : forall lines rows,
  orderItemsPayload_of heap soid m lines = Ret rows ->
  Forall (fun oi => oi.(OrderItemRow.store_order_id) = soid) rows.
Proof.
  intros lines.
  induction lines as [|r lines IH]; intros rows H; cbn [orderItemsPayload_of] in H.
  - injection H as <-. constructor.
  - cbv zeta in H.
    destruct (item_mid (heap r)) as [m0|]; [|discriminate].
    destruct (Js.truthy (Some m0)); [|discriminate].
    destruct (JsMap.get m m0) as [pid|]; [|discriminate].
    destruct (Js.truthy (Some pid)); [|discriminate].
    destruct (orderItemsPayload_of heap soid m lines) as [rows'| |];
      simpl in H; try discriminate.
    injection H as <-. constructor; [reflexivity | apply IH; reflexivity].
Qed.

Lemma store_order_step_children coid n s chunk w :
  children_added coid w.(db)
    (snd (store_order_step heap orderData coid n s chunk w)).(db).
Proof.
  unfold store_order_step.
  destruct chunk as [[|r l]|]; try apply children_added_refl.
  destruct (negb (Js.truthy (Some s))); [apply children_added_refl|].
  unfold insert_store_order.
  destruct (call_cases (ReqInsert "store_orders" 1)
              (fun d =>
                 let row :=
                   {| StoreOrder.id := fresh_id (map StoreOrder.id d.(store_orders));
                      StoreOrder.customer_order_id := coid;
                      StoreOrder.store_id := s;
                      StoreOrder.subtotal_amount := chunkSubtotal_of heap (r :: l);
                      StoreOrder.delivery_fee := chunkDeliveryFee_of orderData n;
                      StoreOrder.status := "pending_at_store" |} in
                 (row, with_store_orders d (d.(store_orders) ++ [row]))) w)
    as [(fs & E) | [(message & fs & E) | (e & fs & E)]].
  - rewrite (bind_Ret _ _ _ _ _ E). cbn [data error fst snd].
    set (row := {| StoreOrder.id := fresh_id (map StoreOrder.id w.(db).(store_orders));
                   StoreOrder.customer_order_id := coid;
                   StoreOrder.store_id := s;
                   StoreOrder.subtotal_amount := chunkSubtotal_of heap (r :: l);
                   StoreOrder.delivery_fee := chunkDeliveryFee_of orderData n;
                   StoreOrder.status := "pending_at_store" |}).
    match goal with
    | |- children_added _ _ (db (snd (?tail ?w1))) =>
        assert (Htail : exists ois,
                   (snd (tail w1)).(db)
                   = with_order_items w1.(db) (w1.(db).(order_items) ++ ois)
                   /\ Forall (fun oi => oi.(OrderItemRow.store_order_id)
                                        = row.(StoreOrder.id)) ois)
    end.
    { assert (Hnone : forall d : Db, d = with_order_items d (d.(order_items) ++ [])).
      { intros d. rewrite app_nil_r. destruct d; reflexivity. }
      destruct (List.length _ =? 0);
        [exists []; split; [apply Hnone | constructor]|].
      unfold select_products_of_store.
      match goal with
      | |- context [bind (call ?req ?serve) ?k ?w1] =>
          destruct (call_cases req serve w1)
            as [(fs1 & E1) | [(m1 & fs1 & E1) | (e1 & fs1 & E1)]]
      end.
      - rewrite (bind_Ret _ _ _ _ _ E1). cbn [data error fst snd].
        unfold bind at 1, lift.
        match goal with
        | |- context [orderItemsPayload_of heap ?i ?m ?c] =>
            destruct (orderItemsPayload_of heap i m c) as [payload| |] eqn:Ep
        end; try (exists []; split; [apply Hnone | constructor]).
        apply orderItemsPayload_of_ids in Ep.
        unfold insert_order_items.
        match goal with
        | |- context [bind (call ?req ?serve) ?k ?w2] =>
            destruct (call_cases req serve w2)
              as [(fs2 & E2) | [(m2 & fs2 & E2) | (e2 & fs2 & E2)]]
        end.
        + rewrite (bind_Ret _ _ _ _ _ E2). cbn [data error fst snd].
          exists payload. split; [reflexivity | exact Ep].
        + rewrite (bind_Ret _ _ _ _ _ E2). cbn [data error fst snd].
          exists []. split; [apply Hnone | constructor].
        + rewrite (bind_Throw _ _ _ _ _ E2).
          exists []. split; [apply Hnone | constructor].
      - rewrite (bind_Ret _ _ _ _ _ E1). cbn [data error fst snd].
        exists []. split; [apply Hnone | constructor].
      - rewrite (bind_Throw _ _ _ _ _ E1).
        exists []. split; [apply Hnone | constructor]. }
    destruct Htail as (ois & -> & Hois). cbn [db].
    repeat (split; [reflexivity|]).
    exists [row], ois. cbn [with_store_orders with_order_items store_orders order_items].
    split; [reflexivity|]. split; [reflexivity|].
    split; [constructor; [reflexivity | constructor]|].
    split; [constructor; [intros [] | constructor]|].
    split; [constructor; [apply fresh_id_not_In | constructor]|].
    eapply Forall_impl; [|exact Hois]. intros oi ->. left. reflexivity.
  - rewrite (bind_Ret _ _ _ _ _ E). cbn [data error fst snd]. apply children_added_refl.
  - rewrite (bind_Throw _ _ _ _ _ E). apply children_added_refl.
Qed.

Lemma for_each_children coid n (entries : list (string * option (list objref))) :
  forall w,
    children_added coid w.(db)
      (snd (for_each entries
              (fun '(storeId, chunk) =>
                 store_order_step heap orderData coid n storeId chunk) w)).(db).
Proof.
  induction entries as [|[s chunk] entries IH]; intros w; simpl.
  - apply children_added_refl.
  - apply children_bind; [apply store_order_step_children|].
    intros _ w1. apply IH.
Qed.

End Children.

Section Written.

Variable heap : Heap.
Variable orderData : CreateOrderData.t.

Local Abbreviation Written d d' :=
  (d' = d
   \/ exists co d1 d2,
        d1 = with_customer_orders d (d.(customer_orders) ++ [co])
        /\ ~ In co.(CustomerOrder.id) (map CustomerOrder.id d.(customer_orders))
        /\ co.(CustomerOrder.customer_id) = orderData.(CreateOrderData.user_id)
        /\ children_added co.(CustomerOrder.id) d1 d2
        /\ (d' = d2
            \/ exists h,
                 h.(StatusHistory.customer_order_id) = co.(CustomerOrder.id)
                 /\ d' = with_order_status_history d2
                           (d2.(order_status_history) ++ [h]))).

Lemma written_after_read {A B} (c : M A) (k : A -> M B) w :
  keeps (fun d => d) c ->
  (forall a w1, Written w1.(db) (snd (k a w1)).(db)) ->
  Written w.(db) (snd (bind c k w)).(db).
Proof.
  intros Hc Hk. unfold bind. specialize (Hc w).
  destruct (c w) as [[a|e|] w1]; simpl in *; try (left; exact Hc).
  rewrite <- Hc. apply Hk.
Qed.

Lemma loop_then {B} coid (l : list (string * option (list objref)))
    (body : string * option (list objref) -> M unit) (rest : unit -> M B)
    (hrow : StatusHistory.t) w1 :
  (forall w, children_added coid w.(db) (snd (for_each l body w)).(db)) ->
  (forall u w,
      (snd (rest u w)).(db) = w.(db)
      \/ (snd (rest u w)).(db)
         = with_order_status_history w.(db)
             (w.(db).(order_status_history) ++ [hrow])) ->
  exists d2,
    children_added coid w1.(db) d2
    /\ ((snd (bind (for_each l body) rest w1)).(db) = d2
        \/ (snd (bind (for_each l body) rest w1)).(db)
           = with_order_status_history d2 (d2.(order_status_history) ++ [hrow])).
Proof.
  intros Hloop Hrest. specialize (Hloop w1). unfold bind.
  destruct (for_each l body w1) as [[u|e|] w2]; cbn [snd] in *.
  - exists w2.(db). split; [exact Hloop|]. apply Hrest.
  - exists w2.(db). split; [exact Hloop|]. left. reflexivity.
  - exists w2.(db). split; [exact Hloop|]. left. reflexivity.
Qed.

Lemma history_then {B} (hrow : StatusHistory.t) (b : B) w :
  (snd (bind (insert_order_status_history hrow) (fun _ => ret b) w)).(db) = w.(db)
  \/ (snd (bind (insert_order_status_history hrow) (fun _ => ret b) w)).(db)
     = with_order_status_history w.(db) (w.(db).(order_status_history) ++ [hrow]).
Proof.
  unfold insert_order_status_history.
  match goal with
  | |- context [bind (call ?req ?serve) ?k w] =>
      destruct (call_cases req serve w)
        as [(fs2 & E2) | [(m2 & fs2 & E2) | (e2 & fs2 & E2)]]
  end.
  - rewrite (bind_Ret _ _ _ _ _ E2). right. reflexivity.
  - rewrite (bind_Ret _ _ _ _ _ E2). left. reflexivity.
  - rewrite (bind_Throw _ _ _ _ _ E2). left. reflexivity.
Qed.

Lemma persist_order_written geocoded orderCode alloc w :
  Written w.(db) (snd (persist_order heap orderData geocoded orderCode alloc w)).(db).
Proof.
  unfold persist_order. cbv zeta.
  rewrite (bind_Ret _ _ _ _ _ (eq_refl : ask w = (Ret w.(env), w))).
  unfold insert_customer_order.
  match goal with
  | |- context [bind (call ?req ?serve) ?k w] =>
      destruct (call_cases req serve w)
        as [(fs & E) | [(message & fs & E) | (e & fs & E)]]
  end.
  - rewrite (bind_Ret _ _ _ _ _ E). cbn [data error fst snd].
    right.
    match goal with
    | |- context [with_customer_orders _ (_ ++ [?row])] => set (co := row)
    end.
    match goal with
    | |- context [snd (bind (for_each ?l ?body) ?rest ?w1)] =>
        destruct (loop_then co.(CustomerOrder.id) l body rest
                    {| StatusHistory.customer_order_id := co.(CustomerOrder.id);
                       StatusHistory.status := "pending_at_store";
                       StatusHistory.notes := "Order placed";
                       StatusHistory.created_at := w.(env).(now_iso) |} w1)
          as (d2 & Hch & Hend)
    end.
    + exact (for_each_children heap orderData co.(CustomerOrder.id) _ _).
    + intros u w0. apply history_then.
    + exists co. eexists. exists d2. split; [reflexivity|].
      split; [apply fresh_id_not_In|]. split; [reflexivity|].
      split; [exact Hch|].
      destruct Hend as [Hend|Hend]; [left; exact Hend|].
      right. eexists. split; [|exact Hend]. reflexivity.
  - rewrite (bind_Ret _ _ _ _ _ E). left. reflexivity.
  - rewrite (bind_Throw _ _ _ _ _ E). left. reflexivity.
Qed.

Lemma allocate_and_persist_written geocoded orderCode storeIds w :
  Written w.(db)
    (snd (allocate_and_persist heap orderData geocoded orderCode storeIds w)).(db).
Proof.
  unfold allocate_and_persist. cbv zeta.
  destruct (List.length _ =? 0); [left; reflexivity|].
  apply written_after_read; [apply keeps_select_products_in_stores|]. intros pr w1.
  apply written_after_read; [apply keeps_lift|]. intros alloc w2.
  destruct (0 <? _); [left; reflexivity|].
  apply persist_order_written.
Qed.

End Written.

(** X9. Whatever the order, the world it runs in and the way it ends,
    [createOrder] changes and removes no row: every table is afterwards
    what it was, the four order tables possibly followed by new rows;
    users, stores and products are untouched, and no delete request is
    sent. *)
Theorem createOrder_only_appends heap orderData w :
  only_appended w (snd (createOrder heap orderData w)).
Proof.
  apply appends_only_createOrder.
Qed.

(** X10. Whatever the order, the world and the way [createOrder] ends,
    either the datastore is as it was, or exactly one customer order was
    written, for the user of the request and under a key not in use
    before, and every other row written hangs on it: sub-orders of that
    customer order under new, distinct keys, order lines of those
    sub-orders, and at most one status history row of that order. *)
Theorem createOrder_rows_belong_to_order heap orderData w :
  let d := w.(db) in
  let d' := (snd (createOrder heap orderData w)).(db) in
  d' = d
  \/ exists co d1 d2,
       d1 = with_customer_orders d (d.(customer_orders) ++ [co])
       /\ ~ In co.(CustomerOrder.id) (map CustomerOrder.id d.(customer_orders))
       /\ co.(CustomerOrder.customer_id) = orderData.(CreateOrderData.user_id)
       /\ children_added co.(CustomerOrder.id) d1 d2
       /\ (d' = d2
           \/ exists h,
                h.(StatusHistory.customer_order_id) = co.(CustomerOrder.id)
                /\ d' = with_order_status_history d2
                          (d2.(order_status_history) ++ [h])).
Proof.
  cbv zeta. unfold createOrder. rewrite try_catch_rethrow.
  destruct (negb _); [left; reflexivity|].
  apply written_after_read; [apply keeps_resolve_coordinates|]. intros geocoded w1.
  apply written_after_read; [apply keeps_generateOrderNumber|]. intros orderCode w2.
  apply written_after_read; [apply keeps_getNearbyStoreIds|]. intros storeIds w3.
  destruct (List.length storeIds =? 0); [left; reflexivity|].
  apply allocate_and_persist_written.
Qed.

(** ** The order lines of a successful [createOrder] *)

Lemma get_fold_masterToProduct (products : list ProductRow.t) m pid : forall acc,
  JsMap.get (fold_left (fun mp p => JsMap.set mp p.(ProductRow.master_product_id)
                                      p.(ProductRow.id)) products acc) m = Some pid ->
  (exists p, In p products /\ p.(ProductRow.master_product_id) = m
             /\ p.(ProductRow.id) = pid)
  \/ JsMap.get acc m = Some pid.
Proof.
  induction products as [|p products IH]; simpl; intros acc H; [right; exact H|].
  apply IH in H. destruct H as [(p' & Hin & Hm & Hid) | H].
  - left. exists p'. auto.
  - rewrite JsMapFacts.get_set in H.
    destruct (String.eqb p.(ProductRow.master_product_id) m) eqn:E.
    + apply String.eqb_eq in E. injection H as <-. left. exists p. auto.
    + right. exact H.
Qed.

Lemma get_masterToProduct products m pid :
  JsMap.get (masterToProduct_of products) m = Some pid ->
  exists p, In p products /\ p.(ProductRow.master_product_id) = m
            /\ p.(ProductRow.id) = pid.
Proof.
  unfold masterToProduct_of. intros H. apply get_fold_masterToProduct in H.
  destruct H as [H|H]; [exact H | discriminate].
Qed.

Section Lines.

Variable heap : Heap.
Variable orderData : CreateOrderData.t.

Lemma orderItemsPayload_of_lines d so s mids : forall chunk rows,
  so.(StoreOrder.store_id) = s ->
  orderItemsPayload_of heap so.(StoreOrder.id)
    (masterToProduct_of
       (filter (fun row =>
                  String.eqb row.(ProductRow.store_id) s
                  && mem_string row.(ProductRow.master_product_id) mids
                  && row.(ProductRow.is_active)) d.(products))) chunk = Ret rows ->
  Forall2 (records_line heap d so) chunk rows.
Proof.
  intros chunk rows Hs. revert rows.
  induction chunk as [|r chunk IH]; intros rows H; cbn [orderItemsPayload_of] in H.
  - injection H as <-. constructor.
  - cbv zeta in H.
    destruct (item_mid (heap r)) as [m0|] eqn:Em; [|discriminate].
    destruct (Js.truthy (Some m0)); [|discriminate].
    match type of H with
    | context [JsMap.get ?mp m0] => destruct (JsMap.get mp m0) as [pid|] eqn:Eg
    end; [|discriminate].
    destruct (Js.truthy (Some pid)); [|discriminate].
    match type of H with
    | context [orderItemsPayload_of heap ?i ?mp chunk] =>
        destruct (orderItemsPayload_of heap i mp chunk) as [rows'| |] eqn:Ep
    end; simpl in H; try discriminate.
    injection H as <-. constructor; [|apply IH; reflexivity].
    apply get_masterToProduct in Eg. destruct Eg as (p & Hin & Hm & Hid).
    apply filter_In in Hin. destruct Hin as [Hin Hf].
    apply andb_true_iff in Hf. destruct Hf as [Hf Hact].
    apply andb_true_iff in Hf. destruct Hf as [Hst _].
    apply String.eqb_eq in Hst.
    unfold records_line. cbn [OrderItemRow.store_order_id OrderItemRow.product_name
      OrderItemRow.unit_price OrderItemRow.quantity OrderItemRow.product_id].
    repeat (split; [reflexivity|]).
    exists p. repeat split; try assumption; congruence.
Qed.

(** One pass of the loop over the stores, when it goes through: one
    sub-order, and one order line for each cart line of the store. *)
Lemma store_order_step_lines coid n s l w w' :
  l <> [] -> s <> EmptyString ->
  (forall r, In r l -> exists m, item_mid (heap r) = Some m /\ m <> EmptyString) ->
  store_order_step heap orderData coid n s (Some l) w = (Ret tt, w') ->
  exists so rows,
    w'.(db).(store_orders) = w.(db).(store_orders) ++ [so]
    /\ w'.(db).(order_items) = w.(db).(order_items) ++ rows
    /\ w'.(db).(products) = w.(db).(products)
    /\ w'.(db).(customer_orders) = w.(db).(customer_orders)
    /\ so.(StoreOrder.customer_order_id) = coid
    /\ so.(StoreOrder.store_id) = s
    /\ ~ In so.(StoreOrder.id) (map StoreOrder.id w.(db).(store_orders))
    /\ Forall2 (records_line heap w.(db) so) l rows.
Proof.
  intros Hl Hs Hmid H. unfold store_order_step in H.
  destruct l as [|r l]; [contradiction|].
  assert (Etr : Js.truthy (Some s) = true).
  { simpl. destruct (String.eqb s EmptyString) eqn:E; [|reflexivity].
    apply String.eqb_eq in E. contradiction. }
  rewrite Etr in H. simpl negb in H. cbv iota in H.
  apply bind_Ret_inv in H. destruct H as (so & w1 & Hins & Hrest).
  unfold insert_store_order in Hins. apply call_Ret_inv in Hins.
  destruct Hins as [(-> & Hdb & _) | (message & -> & _ & _)];
    [|simpl in Hrest; discriminate].
  cbn [data error fst snd] in Hrest, Hdb.
  set (row := {| StoreOrder.id := fresh_id (map StoreOrder.id w.(db).(store_orders));
                 StoreOrder.customer_order_id := coid;
                 StoreOrder.store_id := s;
                 StoreOrder.subtotal_amount := chunkSubtotal_of heap (r :: l);
                 StoreOrder.delivery_fee := chunkDeliveryFee_of orderData n;
                 StoreOrder.status := "pending_at_store" |}) in *.
  assert (Hids : master_ids heap (r :: l) <> []).
  { destruct (Hmid r (or_introl eq_refl)) as (m & Hm & Hne).
    intros Hnil.
    pose proof (master_ids_In heap (r :: l) r m (or_introl eq_refl) Hm Hne) as Hin.
    rewrite Hnil in Hin. contradiction. }
  destruct (List.length (master_ids heap (r :: l)) =? 0) eqn:E0.
  { apply Nat.eqb_eq in E0. apply length_zero_iff_nil in E0. contradiction. }
  apply bind_Ret_inv in Hrest. destruct Hrest as (pr & w2 & Hsel & Hrest).
  unfold select_products_of_store in Hsel. apply call_Ret_inv in Hsel.
  destruct Hsel as [(-> & Hdb2 & _) | (message & -> & _ & _)];
    [|simpl in Hrest; discriminate].
  cbn [data error fst snd] in Hrest, Hdb2.
  apply bind_Ret_inv in Hrest. destruct Hrest as (payload & w3 & Hpay & Hrest).
  apply lift_Ret_inv in Hpay. destruct Hpay as [Hpay ->].
  apply bind_Ret_inv in Hrest. destruct Hrest as (ir & w4 & Hoi & Hrest).
  unfold insert_order_items in Hoi. apply call_Ret_inv in Hoi.
  destruct Hoi as [(-> & Hdb4 & _) | (message & -> & _ & _)];
    [|simpl in Hrest; discriminate].
  cbn [data error fst snd] in Hrest, Hdb4.
  unfold ret in Hrest. injection Hrest as <-.
  exists row, payload. rewrite Hdb4, Hdb2, Hdb. cbn.
  repeat (split; [reflexivity|]).
  split; [apply fresh_id_not_In|].
  rewrite ?Hdb2, ?Hdb in Hpay. cbn [products with_store_orders] in Hpay.
  eapply orderItemsPayload_of_lines; [reflexivity | exact Hpay].
Qed.

Lemma Forall2_app_r {A B} (P : A -> B -> Prop) l1 l2 m1 m2 :
  Forall2 P l1 m1 -> Forall2 P l2 m2 -> Forall2 P (l1 ++ l2) (m1 ++ m2).
Proof. intros H1 H2. induction H1; simpl; [exact H2 | constructor; auto]. Qed.

Lemma records_line_products d d' so r row :
  d'.(products) = d.(products) ->
  records_line heap d' so r row -> records_line heap d so r row.
Proof.
  intros Hp (A & B & C & D & p & Hin & E). rewrite Hp in Hin.
  unfold records_line. repeat (split; [assumption|]). exists p. auto.
Qed.

Lemma for_each_lines coid n (entries : list (string * list objref)) :
  forall w w',
    (forall s l, In (s, l) entries ->
       l <> [] /\ s <> EmptyString
       /\ forall r, In r l -> exists m, item_mid (heap r) = Some m /\ m <> EmptyString) ->
    for_each (map (fun '(s, l) => (s, Some l)) entries)
      (fun '(storeId, chunk) =>
         store_order_step heap orderData coid n storeId chunk) w = (Ret tt, w') ->
    exists sos rows,
      w'.(db).(store_orders) = w.(db).(store_orders) ++ sos
      /\ w'.(db).(order_items) = w.(db).(order_items) ++ rows
      /\ w'.(db).(products) = w.(db).(products)
      /\ w'.(db).(customer_orders) = w.(db).(customer_orders)
      /\ Forall (fun so => so.(StoreOrder.customer_order_id) = coid) sos
      /\ map StoreOrder.store_id sos = map fst entries
      /\ NoDup (map StoreOrder.id sos)
      /\ Forall (fun so => ~ In so.(StoreOrder.id)
                                (map StoreOrder.id w.(db).(store_orders))) sos
      /\ Forall2 (fun r row => exists so, In so sos /\ records_line heap w.(db) so r row)
                 (List.concat (map snd entries)) rows.
Proof.
  induction entries as [|[s l] entries IH]; simpl; intros w w' Hok H.
  - unfold ret in H. injection H as <-. exists [], [].
    rewrite !app_nil_r. repeat split; constructor.
  - apply bind_Ret_inv in H. destruct H as ([] & w1 & Hstep & Hrest).
    destruct (Hok s l (or_introl eq_refl)) as (Hl & Hs & Hmid).
    apply store_order_step_lines in Hstep; [|exact Hl|exact Hs|exact Hmid].
    destruct Hstep as (so & rows & Hso & Hoi & Hp & Hcu & Hco & Hst & Hfr & Hrec).
    apply IH in Hrest; [|intros; apply Hok; right; assumption].
    destruct Hrest as (sos & rows' & Hso' & Hoi' & Hp' & Hcu' & Hco' & Hst'
                       & Hnd' & Hfr' & Hrec').
    exists (so :: sos), (rows ++ rows').
    assert (Hlater : forall so', In so' sos ->
              ~ In so'.(StoreOrder.id) (map StoreOrder.id w.(db).(store_orders))
              /\ so'.(StoreOrder.id) <> so.(StoreOrder.id)).
    { intros so' Hin. rewrite Forall_forall in Hfr'. specialize (Hfr' so' Hin).
      rewrite Hso, map_app, in_app_iff in Hfr'. simpl in Hfr'. split; [tauto|].
      intros Heq. apply Hfr'. right. left. symmetry. exact Heq. }
    rewrite Hso', Hso, Hoi', Hoi, Hp', Hp, Hcu', Hcu, <- !app_assoc. simpl.
    repeat (split; [reflexivity|]).
    split; [constructor; assumption|].
    split; [congruence|].
    split.
    { constructor; [|exact Hnd']. intros Hin. apply in_map_iff in Hin.
      destruct Hin as (so' & Heq & Hin). exact (proj2 (Hlater so' Hin) Heq). }
    split.
    { constructor; [exact Hfr|]. apply Forall_forall. intros so' Hin.
      exact (proj1 (Hlater so' Hin)). }
    apply Forall2_app_r.
    + eapply Forall2_impl; [|exact Hrec]. intros r row Hr. exists so. split; [left; reflexivity | exact Hr].
    + eapply Forall2_impl; [|exact Hrec']. intros r row (so' & Hin & Hr).
      exists so'. split; [right; exact Hin|].
      eapply records_line_products; [|exact Hr]. exact Hp.
Qed.

End Lines.

Lemma carries_mid heap byMaster s r :
  carries heap byMaster s r = true ->
  exists m, item_mid (heap r) = Some m /\ m <> EmptyString.
Proof.
  unfold carries, item_options.
  destruct (item_mid (heap r)) as [m|]; [|discriminate].
  destruct (Js.truthy (Some m)) eqn:E; [|discriminate].
  intros _. exists m. split; [reflexivity|].
  intros ->. discriminate.
Qed.

Lemma persist_order_lines heap orderData geocoded orderCode alloc w order w' :
  NoDup (JsMap.keys alloc.(storeToItems)) ->
  (forall s l, In (s, l) alloc.(storeToItems) ->
     l <> [] /\ s <> EmptyString
     /\ forall r, In r l -> exists m, item_mid (heap r) = Some m /\ m <> EmptyString) ->
  persist_order heap orderData geocoded orderCode alloc w = (Ret order, w') ->
  exists co sos rows,
    w'.(db).(customer_orders) = w.(db).(customer_orders) ++ [co]
    /\ co.(CustomerOrder.id) = order.(Order.id)
    /\ w'.(db).(store_orders) = w.(db).(store_orders) ++ sos
    /\ Forall (fun so => so.(StoreOrder.customer_order_id) = co.(CustomerOrder.id)) sos
    /\ map StoreOrder.store_id sos = JsMap.keys alloc.(storeToItems)
    /\ w'.(db).(order_items) = w.(db).(order_items) ++ rows
    /\ Forall2 (fun r row => exists so, In so sos /\ records_line heap w.(db) so r row)
               (List.concat (JsMap.values alloc.(storeToItems))) rows
    /\ (~ In co.(CustomerOrder.id) (map CustomerOrder.id w.(db).(customer_orders))
        /\ co.(CustomerOrder.customer_id) = order.(Order.user_id)
        /\ co.(CustomerOrder.order_code) = order.(Order.order_number)
        /\ co.(CustomerOrder.total_amount) = order.(Order.order_total)
        /\ co.(CustomerOrder.subtotal_amount) = order.(Order.subtotal)
        /\ co.(CustomerOrder.delivery_fee) = order.(Order.delivery_fee))
    /\ NoDup (map StoreOrder.id sos)
    /\ Forall (fun so => ~ In so.(StoreOrder.id)
                              (map StoreOrder.id w.(db).(store_orders))) sos.
Proof.
  intros Hnd Hentries H.
  unfold persist_order in H. cbv zeta in H.
  apply bind_Ret_inv in H. destruct H as (e & w0 & Hask & H).
  apply ask_inv in Hask. destruct Hask as [-> ->].
  apply bind_Ret_inv in H. destruct H as (co & w1 & Hins & H).
  unfold insert_customer_order in Hins. apply call_Ret_inv in Hins.
  destruct Hins as [(-> & Hdb & Henv) | (message & -> & _ & _)];
    [|simpl in H; discriminate].
  cbn [data error fst snd] in H, Hdb.
  apply bind_Ret_inv in H. destruct H as ([] & w2 & Hloop & H).
  apply bind_Ret_inv in H. destruct H as (hr & w3 & Hhist & H).
  unfold ret in H. injection H as <- <-.
  rewrite combine_keys_chunks in Hloop by exact Hnd.
  apply for_each_lines in Hloop; [|exact Hentries].
  destruct Hloop as (sos & rows & Hso & Hoi & Hp & Hcu & Hco & Hst & Hnd' & Hfr & Hrec).
  assert (Hkeep : w3.(db).(store_orders) = w2.(db).(store_orders)
                  /\ w3.(db).(order_items) = w2.(db).(order_items)
                  /\ w3.(db).(customer_orders) = w2.(db).(customer_orders)).
  { unfold insert_order_status_history in Hhist. apply call_Ret_inv in Hhist.
    destruct Hhist as [(_ & -> & _) | (message & _ & -> & _)];
      repeat split; reflexivity. }
  destruct Hkeep as (K1 & K2 & K3).
  eexists. exists sos, rows.
  rewrite K1, K2, K3, Hso, Hoi, Hcu, Hdb.
  cbn [customer_orders store_orders order_items with_customer_orders].
  split; [reflexivity|]. split; [reflexivity|]. split; [reflexivity|].
  split; [exact Hco|].
  split.
  { rewrite Hst. unfold JsMap.keys. reflexivity. }
  split; [reflexivity|].
  split.
  { eapply Forall2_impl; [|exact Hrec].
    intros r row (so & Hin & Hr). exists so. split; [exact Hin|].
    eapply records_line_products; [|exact Hr]. rewrite Hdb. reflexivity. }
  split.
  { split; [apply fresh_id_not_In|]. repeat split; reflexivity. }
  split; [exact Hnd'|].
  rewrite Hdb in Hfr. exact Hfr.
Qed.

(** X11. After a successful [createOrder] the datastore holds one new
    customer order, with the key the caller gets back, sub-orders of it,
    and exactly one new order line for every line of the cart: taken in
    some order, the cart lines and the new order lines match one to one,
    each order line copying its cart line's name, unit price and quantity,
    hanging on one of the new sub-orders, and naming an active product
    row of that sub-order's store for the line's master product. *)
Theorem createOrder_records_every_line heap orderData w order w' :
  createOrder heap orderData w = (Ret order, w') ->
  exists co sos rows lines,
    w'.(db).(customer_orders) = w.(db).(customer_orders) ++ [co]
    /\ co.(CustomerOrder.id) = order.(Order.id)
    /\ w'.(db).(store_orders) = w.(db).(store_orders) ++ sos
    /\ Forall (fun so => so.(StoreOrder.customer_order_id) = co.(CustomerOrder.id)) sos
    /\ NoDup (map StoreOrder.store_id sos)
    /\ w'.(db).(order_items) = w.(db).(order_items) ++ rows
    /\ Permutation lines orderData.(CreateOrderData.items)
    /\ Forall2 (fun r row => exists so, In so sos /\ records_line heap w.(db) so r row)
               lines rows.
Proof.
  intros H. apply createOrder_Ret_inv in H.
  destruct H as (geocoded & orderCode & storeIds & productRows & alloc & w4
                 & Hdb & Halloc & Hun & Hitems & Hpersist).
  pose proof (allocate_inv _ _ _ _ _ Halloc) as HI.
  apply persist_order_lines in Hpersist.
  - destruct Hpersist as (co & sos & rows & Hco & Hid & Hso & Hpar & Hst & Hoi & Hrec & _).
    exists co, sos, rows, (List.concat (JsMap.values alloc.(storeToItems))).
    rewrite Hdb in Hco, Hso, Hoi, Hrec.
    repeat (split; [assumption|]).
    split; [rewrite Hst; exact (inv_keys _ _ _ _ HI)|].
    split; [exact Hoi|].
    split; [eapply all_assigned_perm; eassumption | exact Hrec].
  - exact (inv_keys _ _ _ _ HI).
  - intros s l Hsl. destruct (inv_entry _ _ _ _ HI s l Hsl) as (Hl & Hs & Hc).
    split; [exact Hl|]. split; [exact Hs|].
    intros r Hr. eapply carries_mid. apply Hc. exact Hr.
Qed.

Lemma createOrder_records_every_line_witness :
  let w := ex_world (Some ["S1"; "S2"]) [] in
  let r := createOrder ex_heap (ex_order [itemA; itemB; itemC] 30%Q 10%Q) w in
  exists co sos rows lines,
    (snd r).(db).(customer_orders) = w.(db).(customer_orders) ++ [co]
    /\ (exists order, fst r = Ret order /\ co.(CustomerOrder.id) = order.(Order.id))
    /\ (snd r).(db).(store_orders) = w.(db).(store_orders) ++ sos
    /\ Forall (fun so => so.(StoreOrder.customer_order_id) = co.(CustomerOrder.id)) sos
    /\ NoDup (map StoreOrder.store_id sos)
    /\ (snd r).(db).(order_items) = w.(db).(order_items) ++ rows
    /\ Permutation lines [itemA; itemB; itemC]
    /\ Forall2 (fun r row => exists so, In so sos /\ records_line ex_heap w.(db) so r row)
               lines rows.
Proof.
  intros w r.
  assert (Hr : exists order, fst r = Ret order) by (vm_compute; eexists; reflexivity).
  destruct Hr as [order Ho].
  destruct (createOrder_records_every_line ex_heap
              (ex_order [itemA; itemB; itemC] 30%Q 10%Q)
              w order (snd r) (outcome_pair r order Ho))
    as (co & sos & rows & lines & H1 & H2 & H3).
  exists co, sos, rows, lines. split; [exact H1|].
  split; [exists order; split; [exact Ho | exact H2] | exact H3].
Defined.

(** ** The availability query of [createOrder], when it fails *)

Lemma master_ids_inv heap items m :
  In m (master_ids heap items) ->
  exists r, In r items /\ item_mid (heap r) = Some m /\ m <> EmptyString.
Proof.
  unfold master_ids. intros H. apply in_flat_map in H.
  destruct H as (r & Hr & Hm). exists r. split; [exact Hr|].
  destruct (item_mid (heap r)) as [m0|]; [|contradiction].
  destruct (Js.truthy (Some m0)) eqn:E; [|contradiction].
  destruct Hm as [<-|[]]. split; [reflexivity|].
  intros ->. discriminate.
Qed.

(** X12. When the datastore answers the availability query of
    [createOrder] with an error, the error is not looked at: the rows are
    taken to be none, and the allocation throws the [TypeError] of a
    property read on [undefined] at the first cart line with a product
    id.  Nothing is written. *)
Theorem createOrder_availability_error_unreported
    heap orderData w geocoded w1 orderCode w2 storeIds w3 message :
  Js.truthy orderData.(CreateOrderData.user_id) = true ->
  resolve_coordinates orderData w = (Ret geocoded, w1) ->
  generateOrderNumber w1 = (Ret orderCode, w2) ->
  getNearbyStoreIds (fst geocoded) (snd geocoded) 50%Q w2 = (Ret storeIds, w3) ->
  storeIds <> [] ->
  master_ids heap orderData.(CreateOrderData.items) <> [] ->
  nth_fault 0 w3 = Refused message ->
  fst (createOrder heap orderData w)
  = Throw (TypeError "Cannot read properties of undefined (reading 'some')")
  /\ (snd (createOrder heap orderData w)).(db) = w.(db)
  /\ (snd (createOrder heap orderData w)).(sent)
     = w3.(sent)
       ++ [ReqSelect "products"
             [("store_id", storeIds);
              ("master_product_id",
               dedupe [] (master_ids heap orderData.(CreateOrderData.items)))]].
Proof.
  intros Hu H1 H2 H3 Hs Hids Hf.
  assert (Hdb : w3.(db) = w.(db)).
  { pose proof (keeps_resolve_coordinates (fun d => d) orderData w) as K1.
    pose proof (keeps_generateOrderNumber (fun d => d) w1) as K2.
    pose proof (keeps_getNearbyStoreIds (fun d => d) (fst geocoded) (snd geocoded)
                  50%Q w2) as K3.
    rewrite H1 in K1. rewrite H2 in K2. rewrite H3 in K3. simpl in *. congruence. }
  unfold createOrder. rewrite try_catch_rethrow, Hu. cbn [negb].
  rewrite (bind_Ret _ _ _ _ _ H1), (bind_Ret _ _ _ _ _ H2), (bind_Ret _ _ _ _ _ H3).
  destruct (List.length storeIds =? 0) eqn:E0.
  { apply Nat.eqb_eq in E0. apply length_zero_iff_nil in E0. contradiction. }
  unfold allocate_and_persist. cbv zeta.
  destruct (List.length (dedupe [] (master_ids heap _)) =? 0) eqn:E.
  { apply Nat.eqb_eq in E. apply length_zero_iff_nil in E.
    exfalso. exact (dedupe_nonempty _ Hids E). }
  destruct (master_ids heap orderData.(CreateOrderData.items)) as [|m ms] eqn:Em;
    [contradiction|].
  destruct (master_ids_inv heap orderData.(CreateOrderData.items) m) as (r & Hr & Hm & Hne).
  { rewrite Em. left. reflexivity. }
  unfold bind, select_products_in_stores, call, lift.
  rewrite nth_fault_0 in Hf.
  destruct (faults w3) as [|f fs]; [discriminate|]. subst f.
  cbn [data error fst snd].
  rewrite (allocate_uncarried_TypeError heap _ storeIds [] r m Hs Hr Hm Hne)
    by (intros row []).
  cbn [fst snd db sent]. auto.
Qed.

Lemma createOrder_availability_error_unreported_witness :
  let w := ex_world (Some ["S1"; "S2"]) [Served; Served; Refused "timeout"] in
  let r := createOrder ex_heap (ex_order [itemA; itemB] 20%Q 10%Q) w in
  fst r = Throw (TypeError "Cannot read properties of undefined (reading 'some')")
  /\ (snd r).(db) = w.(db)
  /\ (snd r).(sent)
     = [ReqRpc "generate_next_order_number"; ReqRpc "get_nearby_store_ids"]
       ++ [ReqSelect "products"
             [("store_id", ["S1"; "S2"]); ("master_product_id", ["mp-A"; "mp-B"])]].
Proof.
  intros w r.
  eapply (createOrder_availability_error_unreported ex_heap
            (ex_order [itemA; itemB] 20%Q 10%Q) w _ _ _ _ ["S1"; "S2"]
            {| db := ex_db; faults := [Refused "timeout"];
               sent := [ReqRpc "generate_next_order_number";
                        ReqRpc "get_nearby_store_ids"];
               env := ex_env (Some ["S1"; "S2"]) |} "timeout").
  - reflexivity.
  - vm_compute. reflexivity.
  - vm_compute. reflexivity.
  - vm_compute. reflexivity.
  - discriminate.
  - discriminate.
  - reflexivity.
Defined.

(** ** The order number *)

Lemma String_of_nat_inj n n' : String_of_nat n = String_of_nat n' -> n = n'.
Proof.
  unfold String_of_nat. intros H.
  assert (Hu : Nat.to_uint n = Nat.to_uint n').
  { pose proof (DecimalString.NilEmpty.usu (Nat.to_uint n)) as H1.
    pose proof (DecimalString.NilEmpty.usu (Nat.to_uint n')) as H2.
    rewrite H in H1. congruence. }
  rewrite <- (DecimalNat.Unsigned.of_to n), <- (DecimalNat.Unsigned.of_to n').
  rewrite Hu. reflexivity.
Qed.

Lemma forallb_seq_range (f : nat -> bool) a n :
  forallb f (seq a n) = true -> forall i, a <= i < a + n -> f i = true.
Proof.
  intros H i Hi. rewrite forallb_forall in H. apply H. apply in_seq. exact Hi.
Qed.

Lemma year_digits y :
  1000 <= y < 10 * 1000 -> String.length (String_of_nat y) = 4.
Proof.
  intros Hy.
  apply Nat.eqb_eq.
  apply (forallb_seq_range (fun y => String.length (String_of_nat y) =? 4) 1000 (9 * 1000));
    [vm_compute; reflexivity | lia].
Qed.

Lemma two_digits n :
  n <= 99 -> String.length (padStart 2 "0" (String_of_nat n)) = 2.
Proof.
  intros Hn.
  apply Nat.eqb_eq.
  apply (forallb_seq_range
           (fun n => String.length (padStart 2 "0" (String_of_nat n)) =? 2) 0 100);
    [vm_compute; reflexivity | lia].
Qed.

Lemma two_digits_inj n n' :
  n <= 99 -> n' <= 99 ->
  padStart 2 "0" (String_of_nat n) = padStart 2 "0" (String_of_nat n') -> n = n'.
Proof.
  intros Hn Hn' H.
  assert (Hall : forallb (fun i =>
            forallb (fun j =>
               negb (String.eqb (padStart 2 "0" (String_of_nat i))
                                (padStart 2 "0" (String_of_nat j)))
               || (i =? j)) (seq 0 100)) (seq 0 100) = true)
    by (vm_compute; reflexivity).
  pose proof (forallb_seq_range _ 0 100 Hall n ltac:(lia)) as Hrow.
  cbv beta in Hrow.
  pose proof (forallb_seq_range _ 0 100 Hrow n' ltac:(lia)) as Hcell.
  cbv beta in Hcell. rewrite H, String.eqb_refl in Hcell.
  apply Nat.eqb_eq. exact Hcell.
Qed.

Lemma append_length a b :
  String.length (String.append a b) = String.length a + String.length b.
Proof. induction a as [|c a IH]; simpl; [reflexivity | rewrite IH; reflexivity]. Qed.

Lemma append_inj_length a : forall a' b b',
  String.length a = String.length a' ->
  String.append a b = String.append a' b' -> a = a' /\ b = b'.
Proof.
  induction a as [|c a IH]; intros [|c' a'] b b' Hl H; simpl in *; try discriminate.
  - auto.
  - injection H as -> H. injection Hl as Hl.
    destruct (IH a' b b' Hl H) as [-> ->]. auto.
Qed.

(** X13. The order number [generateOrderNumber] returns is the one the
    datastore's generator gives for the prefix of today's date, and it is
    never empty.  For a date with a four-digit year that prefix is [NN]
    followed by eight characters, ten in all, and two different dates
    never share a prefix. *)
Theorem generateOrderNumber_prefix :
  (forall w code,
      fst (generateOrderNumber w) = Ret code ->
      w.(env).(generate_next_order_number) (order_prefix w.(env).(today)) = Some code
      /\ code <> EmptyString
      /\ nth_fault 0 w = Served)
  /\ (forall y m d,
         1000 <= y < 10 * 1000 -> 1 <= m <= 12 -> 1 <= d <= 31 ->
         exists rest,
           order_prefix (y, m, d) = String.append "NN" rest
           /\ String.length rest = 8)
  /\ (forall y m d y' m' d',
         1000 <= y < 10 * 1000 -> 1 <= m <= 12 -> 1 <= d <= 31 ->
         1000 <= y' < 10 * 1000 -> 1 <= m' <= 12 -> 1 <= d' <= 31 ->
         order_prefix (y, m, d) = order_prefix (y', m', d') ->
         (y, m, d) = (y', m', d')).
Proof.
  split; [|split].
  - intros w code. unfold generateOrderNumber. rewrite try_catch_rethrow.
    rewrite (bind_Ret _ _ _ _ _ (eq_refl : ask w = (Ret w.(env), w))).
    rewrite nth_fault_0. unfold order_prefix.
    destruct (today (env w)) as [[year month] day].
    unfold bind, call.
    destruct (faults w) as [|[|message|e] fs]; cbn [data error fst snd];
      try discriminate;
      (destruct (generate_next_order_number (env w) _) as [c|]; [|discriminate]);
      (destruct (Js.truthy (Some c)) eqn:E; [|discriminate]);
      intros [= ->]; (split; [reflexivity|]); (split; [|reflexivity]);
      intros ->; discriminate.
  - intros y m d Hy Hm Hd. unfold order_prefix.
    eexists. split; [reflexivity|].
    rewrite !append_length, year_digits, !two_digits by lia. reflexivity.
  - intros y m d y' m' d' Hy Hm Hd Hy' Hm' Hd' H. unfold order_prefix in H.
    apply append_inj_length in H; [|reflexivity]. destruct H as [_ H].
    apply append_inj_length in H; [|rewrite !year_digits by lia; reflexivity].
    destruct H as [Hyy H]. apply String_of_nat_inj in Hyy.
    apply append_inj_length in H; [|rewrite !two_digits by lia; reflexivity].
    destruct H as [Hmm Hdd].
    apply two_digits_inj in Hmm; [|lia|lia].
    apply two_digits_inj in Hdd; [|lia|lia].
    congruence.
Qed.

Lemma generateOrderNumber_prefix_witness :
  (exists rest,
      order_prefix (2025, 6, 1) = String.append "NN" rest
      /\ String.length rest = 8)
  /\ (2025, 6, 1) = (2025, 6, 1)
  /\ (ex_env None).(generate_next_order_number) (order_prefix (2025, 6, 1))
     = Some "NN20250601-0001".
Proof.
  destruct generateOrderNumber_prefix as (H1 & H2 & H3).
  split; [apply H2; lia|].
  split; [apply H3; try lia; reflexivity|].
  apply (H1 (ex_world None []) "NN20250601-0001"). reflexivity.
Defined.

(** ** Every way [signupComplete] can end *)

Lemma world_eta w :
  {| db := w.(db); faults := w.(faults); sent := w.(sent); env := w.(env) |} = w.
Proof. destruct w; reflexivity. Qed.

(** X14. [signupComplete] always answers, with 200, 400 or 500.  With
    400 a required field was missing and nothing was sent.  With 200 one
    user with role [store_owner] was added under a key not in use, and
    one store owned by that user, active or not as the controller is
    written.  With 500 no store was added, and the user table is as it
    was unless the store insert was rejected outright, or was answered
    with an error and the delete that follows was not served. *)
Theorem signupComplete_outcomes store_is_active reqBody w :
  let r := signupComplete store_is_active reqBody w in
  let d := w.(db) in
  let d' := (snd r).(db) in
  exists resp,
    fst r = Ret resp
    /\ ((resp.(status) = 400
         /\ snd r = w
         /\ (Js.truthy reqBody.(SignupBody.phone) = false
             \/ Js.truthy reqBody.(SignupBody.ownerName) = false
             \/ Js.truthy reqBody.(SignupBody.storeName) = false))
        \/ (resp.(status) = 200
            /\ exists u s token user,
                 d'.(app_users) = d.(app_users) ++ [u]
                 /\ d'.(stores) = d.(stores) ++ [s]
                 /\ resp.(body) = Registered "Registration complete" token user
                 /\ user.(PublicUser.id) = u.(AppUser.id)
                 /\ ~ In u.(AppUser.id) (map AppUser.id d.(app_users))
                 /\ u.(AppUser.role) = "store_owner"
                 /\ s.(Store.owner_id) = u.(AppUser.id)
                 /\ s.(Store.is_active) = store_is_active)
        \/ (resp.(status) = 500
            /\ (exists message, resp.(body) = Failure message)
            /\ d'.(stores) = d.(stores)
            /\ (d'.(app_users) = d.(app_users)
                \/ exists u,
                     d'.(app_users) = d.(app_users) ++ [u]
                     /\ nth_fault 0 w = Served
                     /\ ((exists e, nth_fault 1 w = Rejected e)
                         \/ ((exists message, nth_fault 1 w = Refused message)
                             /\ nth_fault 2 w <> Served))))).
Proof.
  cbv zeta.
  destruct reqBody as [phone ownerName storeName storeAddress radiusKm email lat lng].
  unfold signupComplete.
  cbn [SignupBody.phone SignupBody.ownerName SignupBody.storeName
       SignupBody.storeAddress SignupBody.email SignupBody.latitude
       SignupBody.longitude].
  destruct (Js.truthy phone) eqn:Hp; cbn [negb orb];
    [|eexists; split; [reflexivity|]; left; cbn [status snd];
      split; [reflexivity|]; split; [reflexivity|]; auto].
  destruct (Js.truthy ownerName) eqn:Ho; cbn [negb orb];
    [|eexists; split; [reflexivity|]; left; cbn [status snd];
      split; [reflexivity|]; split; [reflexivity|]; auto].
  destruct (Js.truthy storeName) eqn:Hs; cbn [negb orb];
    [|eexists; split; [reflexivity|]; left; cbn [status snd];
      split; [reflexivity|]; split; [reflexivity|]; auto].
  destruct phone as [phone|]; [|discriminate].
  destruct ownerName as [ownerName|]; [|discriminate].
  destruct storeName as [storeName|]; [|discriminate].
  destruct w as [d fs sn e]. unfold nth_fault. cbn [faults db].
  unfold try_catch, bind, insert_app_user, insert_store, delete_app_user, call, ret, ask.
  destruct fs as [|[|m0|e0] fs]; cbn [faults db sent env tl data error fst snd nth];
    try (eexists; split; [reflexivity|]; right; right; cbn [status body db stores];
         split; [reflexivity|]; split; [eexists; reflexivity|];
         split; [reflexivity|]; left; reflexivity).
  - (* no script left: everything is served *)
    eexists; split; [reflexivity|]. right. left. cbn [status body db].
    split; [reflexivity|]. do 4 eexists.
    split; [reflexivity|]. split; [reflexivity|]. cbn.
    split; [reflexivity|]. split; [reflexivity|].
    split; [apply fresh_id_not_In|]. auto.
  - destruct fs as [|[|m1|e1] fs]; cbn [faults db sent env tl data error fst snd nth].
    + eexists; split; [reflexivity|]. right. left. cbn [status body db].
      split; [reflexivity|]. do 4 eexists.
      split; [reflexivity|]. split; [reflexivity|]. cbn.
      split; [reflexivity|]. split; [reflexivity|].
      split; [apply fresh_id_not_In|]. auto.
    + eexists; split; [reflexivity|]. right. left. cbn [status body db].
      split; [reflexivity|]. do 4 eexists.
      split; [reflexivity|]. split; [reflexivity|]. cbn.
      split; [reflexivity|]. split; [reflexivity|].
      split; [apply fresh_id_not_In|]. auto.
    + (* the store insert is answered with an error: the delete follows *)
      destruct fs as [|[|m2|e2] fs]; cbn [faults db sent env tl data error fst snd nth];
        (eexists; split; [reflexivity|]); right; right; cbn [status body db];
        (split; [reflexivity|]); (split; [eexists; reflexivity|]);
        (split; [reflexivity|]); cbn [app_users with_app_users with_stores AppUser.id].
      * left. apply filter_out_fresh. reflexivity.
      * left. apply filter_out_fresh. reflexivity.
      * right. eexists. split; [reflexivity|]. split; [reflexivity|].
        right. split; [eexists; reflexivity | discriminate].
      * right. eexists. split; [reflexivity|]. split; [reflexivity|].
        right. split; [eexists; reflexivity | discriminate].
    + (* the store insert is rejected: the handler answers, no delete *)
      eexists; split; [reflexivity|]. right. right. cbn [status body db].
      split; [reflexivity|]. split; [eexists; reflexivity|].
      split; [reflexivity|]. right. eexists.
      split; [reflexivity|]. split; [reflexivity|]. left. eexists. reflexivity.
Qed.

(** X15. When the [app_users] insert is served and the [stores] insert
    is rejected outright (the call throws instead of answering with an
    error), [signupComplete] answers 500 from its handler without sending
    the delete: the new user row stays in the datastore with no store. *)
Theorem signupComplete_rejected_store_insert_keeps_user
    store_is_active reqBody w e :
  Js.truthy reqBody.(SignupBody.phone) = true ->
  Js.truthy reqBody.(SignupBody.ownerName) = true ->
  Js.truthy reqBody.(SignupBody.storeName) = true ->
  nth_fault 0 w = Served ->
  nth_fault 1 w = Rejected e ->
  let r := signupComplete store_is_active reqBody w in
  fst r = Ret {| status := 500;
                 body := Failure (Js.or_else (Exn_message e) "Registration failed") |}
  /\ (snd r).(sent) = w.(sent) ++ [ReqInsert "app_users" 1; ReqInsert "stores" 1]
  /\ (snd r).(db).(stores) = w.(db).(stores)
  /\ exists u,
       (snd r).(db).(app_users) = w.(db).(app_users) ++ [u]
       /\ u.(AppUser.role) = "store_owner"
       /\ ~ In u.(AppUser.id) (map AppUser.id w.(db).(app_users)).
Proof.
  intros Hp Ho Hs F0 F1. cbv zeta.
  destruct reqBody as [phone ownerName storeName storeAddress radiusKm email lat lng].
  cbn [SignupBody.phone SignupBody.ownerName SignupBody.storeName] in Hp, Ho, Hs.
  destruct phone as [phone|]; [|discriminate].
  destruct ownerName as [ownerName|]; [|discriminate].
  destruct storeName as [storeName|]; [|discriminate].
  destruct w as [d fs sn env0]. unfold nth_fault in F0, F1. simpl in F0, F1.
  destruct fs as [|f0 [|f1 rest]]; simpl in F0, F1; try discriminate. subst f0 f1.
  unfold signupComplete, try_catch, bind, insert_app_user, insert_store, call, ret.
  cbn [SignupBody.phone SignupBody.ownerName SignupBody.storeName].
  rewrite Hp, Ho, Hs. cbn [negb orb].
  cbn [faults db sent env tl data error fst snd].
  split; [reflexivity|]. split; [rewrite <- app_assoc; reflexivity|].
  split; [reflexivity|].
  eexists. split; [reflexivity|]. split; [reflexivity|].
  apply fresh_id_not_In.
Qed.

Lemma signupComplete_rejected_store_insert_keeps_user_witness :
  let w := ex_world None [Served; Rejected (Error "fetch failed")] in
  let r := signupComplete false ex_signup w in
  fst r = Ret {| status := 500; body := Failure "fetch failed" |}
  /\ (snd r).(sent) = [ReqInsert "app_users" 1; ReqInsert "stores" 1]
  /\ (snd r).(db).(stores) = []
  /\ exists u,
       (snd r).(db).(app_users) = [] ++ [u]
       /\ u.(AppUser.role) = "store_owner"
       /\ ~ In u.(AppUser.id) (map AppUser.id []).
Proof.
  intros w.
  apply (signupComplete_rejected_store_insert_keeps_user false ex_signup w
           (Error "fetch failed")); reflexivity.
Defined.

(** ** The product listing keeps one row per master product *)

Lemma mem_string_cons s x l :
  mem_string s (x :: l) = String.eqb s x || mem_string s l.
Proof. reflexivity. Qed.

Lemma dedupe_snoc k : forall l seen,
  dedupe seen (l ++ [k])
  = dedupe seen l ++ (if mem_string k seen || mem_string k l then [] else [k]).
Proof.
  induction l as [|x l IH]; intros seen; cbn [dedupe app].
  - change (mem_string k []) with false. rewrite orb_false_r.
    destruct (mem_string k seen); reflexivity.
  - rewrite !mem_string_cons.
    destruct (mem_string x seen) eqn:Ex.
    + rewrite IH.
      destruct (String.eqb k x) eqn:E.
      * apply String.eqb_eq in E. subst x. rewrite Ex. reflexivity.
      * reflexivity.
    + cbn [app]. rewrite IH, mem_string_cons.
      destruct (String.eqb k x); destruct (mem_string k seen);
        destruct (mem_string k l); reflexivity.
Qed.

Lemma dedupe_In k : forall l seen,
  In k (dedupe seen l) <-> In k l /\ ~ In k seen.
Proof.
  induction l as [|x l IH]; intros seen; simpl.
  - tauto.
  - destruct (mem_string x seen) eqn:Ex.
    + apply mem_string_In in Ex. rewrite IH. split.
      * tauto.
      * intros [[<-|H] Hn]; [contradiction | tauto].
    + assert (Hx : ~ In x seen).
      { intros H. apply mem_string_In in H. congruence. }
      simpl. rewrite IH. simpl. split.
      * intros [<-|[H Hn]]; [tauto|]. split; [tauto|]. intros H'. apply Hn. tauto.
      * intros [[<-|H] Hn]; [tauto|].
        destruct (string_dec x k) as [->|Hne]; [tauto|].
        right. split; [exact H|]. intros [H'|H']; [contradiction | contradiction].
Qed.

Lemma dedupe_NoDup : forall l seen, NoDup (dedupe seen l).
Proof.
  induction l as [|x l IH]; intros seen; simpl; [constructor|].
  destruct (mem_string x seen); [apply IH|].
  constructor; [|apply IH].
  intros H. apply dedupe_In in H. destruct H as [_ H]. apply H. left. reflexivity.
Qed.

Section ListingFacts.

Variable parseFloat : string -> number.

Local Abbreviation step := (listing_step parseFloat).
Local Abbreviation mpid := ListingRow.master_product_id.

(** What the loop of [productRowsToProducts] has in [byMaster] after
    the rows [done]. *)
Local Abbreviation Kept byMaster done :=
  (JsMap.keys byMaster = dedupe [] (map mpid (filter listed done))
   /\ forall m row, JsMap.get byMaster m = Some row ->
        In row done /\ listed row = true /\ mpid row = m).

Lemma listing_step_kept byMaster done row :
  Kept byMaster done -> Kept (step byMaster row) (done ++ [row]).
Proof.
  intros [Hkeys Hget]. unfold listing_step. rewrite filter_app. simpl.
  destruct (listed row) eqn:El; cbn [negb].
  2:{ rewrite app_nil_r. split; [exact Hkeys|].
      intros m r Hr. destruct (Hget m r Hr) as (H1 & H2 & H3).
      split; [apply in_or_app; left; exact H1 | auto]. }
  rewrite map_app. simpl. rewrite dedupe_snoc. simpl.
  assert (Hnew : forall m r,
             JsMap.get (JsMap.set byMaster (mpid row) row) m = Some r ->
             In r (done ++ [row]) /\ listed r = true /\ mpid r = m).
  { intros m r Hr. rewrite JsMapFacts.get_set in Hr.
    destruct (String.eqb (mpid row) m) eqn:E.
    - apply String.eqb_eq in E. injection Hr as <-.
      split; [apply in_or_app; right; left; reflexivity | auto].
    - destruct (Hget m r Hr) as (H1 & H2 & H3).
      split; [apply in_or_app; left; exact H1 | auto]. }
  assert (Hold : forall m r,
             JsMap.get byMaster m = Some r ->
             In r (done ++ [row]) /\ listed r = true /\ mpid r = m).
  { intros m r Hr. destruct (Hget m r Hr) as (H1 & H2 & H3).
    split; [apply in_or_app; left; exact H1 | auto]. }
  destruct (JsMap.get byMaster (mpid row)) as [ex|] eqn:Eg.
  - assert (Hmem : mem_string (mpid row) (map mpid (filter listed done)) = true).
    { apply mem_string_In.
      assert (Hk : In (mpid row) (JsMap.keys byMaster)).
      { apply JsMapFacts.get_In in Eg. apply (in_map fst) in Eg. exact Eg. }
      rewrite Hkeys in Hk. apply dedupe_In in Hk. tauto. }
    rewrite Hmem, app_nil_r.
    destruct (number_lt _ _).
    + split; [|exact Hnew]. rewrite (JsMapFacts.keys_set_present _ _ _ _ Eg). exact Hkeys.
    + split; [exact Hkeys | exact Hold].
  - assert (Hmem : mem_string (mpid row) (map mpid (filter listed done)) = false).
    { destruct (mem_string _ _) eqn:E; [|reflexivity].
      apply mem_string_In in E. apply JsMapFacts.get_None_keys in Eg.
      exfalso. apply Eg. rewrite Hkeys. apply dedupe_In. split; [exact E | intros []]. }
    rewrite Hmem. split; [|exact Hnew].
    rewrite (JsMapFacts.keys_set_absent _ _ _ Eg), Hkeys. reflexivity.
Qed.

Lemma listing_fold_kept rows : forall byMaster done,
  Kept byMaster done -> Kept (fold_left step rows byMaster) (done ++ rows).
Proof.
  induction rows as [|row rows IH]; intros byMaster done H; simpl.
  - rewrite app_nil_r. exact H.
  - replace (done ++ row :: rows) with ((done ++ [row]) ++ rows)
      by (rewrite <- app_assoc; reflexivity).
    apply IH. apply listing_step_kept. exact H.
Qed.

Lemma listing_byMaster_kept rows : Kept (listing_byMaster parseFloat rows) rows.
Proof.
  unfold listing_byMaster.
  apply (listing_fold_kept rows JsMap.empty []).
  split; [reflexivity | intros m row H; discriminate].
Qed.

Lemma map_outcome_Ret {A B} (f : A -> Outcome B) (l : list A) :
  (forall x, In x l -> exists y, f x = Ret y) ->
  exists ys, map_outcome f l = Ret ys /\ Forall2 (fun x y => f x = Ret y) l ys.
Proof.
  induction l as [|x l IH]; intros H; simpl.
  - exists []. split; [reflexivity | constructor].
  - destruct (H x (or_introl eq_refl)) as (y & Hy).
    destruct IH as (ys & Hys & Hall); [intros; apply H; right; assumption|].
    exists (y :: ys). rewrite Hy, Hys. split; [reflexivity|].
    constructor; assumption.
Qed.

End ListingFacts.

(** X16. [productRowsToProducts] never throws and returns exactly one
    product for every master product id that occurs in a row whose joined
    master product is present and active, in the order in which these ids
    first occur.  Each product is the transform of one such row of the
    input: it carries the master product's id and name, and is in stock
    when that row is active with a quantity above zero. *)
Theorem productRowsToProducts_one_per_master parseFloat rows :
  exists chosen products,
    productRowsToProducts parseFloat rows = Ret products
    /\ map ListingRow.master_product_id chosen
       = dedupe [] (map ListingRow.master_product_id (filter listed rows))
    /\ Forall2 (fun row p =>
                  In row rows
                  /\ exists mp,
                       row.(ListingRow.master_products) = Some mp
                       /\ mp.(MasterProduct.is_active) = true
                       /\ p.(Product.id) = mp.(MasterProduct.id)
                       /\ p.(Product.name) = mp.(MasterProduct.name)
                       /\ p.(Product.in_stock)
                          = row.(ListingRow.is_active)
                            && number_lt (Num 0) (quantity_of parseFloat row))
               chosen products.
Proof.
  destruct (listing_byMaster_kept parseFloat rows) as [Hkeys Hget].
  assert (Hnd : NoDup (JsMap.keys (listing_byMaster parseFloat rows)))
    by (rewrite Hkeys; apply dedupe_NoDup).
  assert (Hrow : forall row, In row (JsMap.values (listing_byMaster parseFloat rows)) ->
            In row rows /\ listed row = true
            /\ In (row.(ListingRow.master_product_id), row)
                  (listing_byMaster parseFloat rows)).
  { intros row Hin. unfold JsMap.values in Hin. apply in_map_iff in Hin.
    destruct Hin as ([m r] & <- & Hin). simpl.
    pose proof (JsMapFacts.In_get _ _ _ Hnd Hin) as Hg.
    destruct (Hget m r Hg) as (H1 & H2 & H3). subst m. auto. }
  destruct (map_outcome_Ret (transformProductRowToProduct parseFloat)
              (JsMap.values (listing_byMaster parseFloat rows)))
    as (products & Hret & Hall).
  { intros row Hin. destruct (Hrow row Hin) as (_ & Hl & _).
    unfold listed in Hl. unfold transformProductRowToProduct.
    destruct (ListingRow.master_products row); [eexists; reflexivity | discriminate]. }
  exists (JsMap.values (listing_byMaster parseFloat rows)), products.
  split; [exact Hret|]. split.
  - rewrite <- Hkeys. unfold JsMap.values, JsMap.keys. rewrite map_map.
    apply map_ext_in. intros [m r] Hin. simpl.
    pose proof (JsMapFacts.In_get _ _ _ Hnd Hin) as Hg.
    destruct (Hget m r Hg) as (_ & _ & H3). exact H3.
  - assert (Hgen : forall l ps,
               (forall row, In row l -> In row rows /\ listed row = true) ->
               Forall2 (fun x y => transformProductRowToProduct parseFloat x = Ret y) l ps ->
               Forall2 (fun row p =>
                  In row rows
                  /\ exists mp,
                       row.(ListingRow.master_products) = Some mp
                       /\ mp.(MasterProduct.is_active) = true
                       /\ p.(Product.id) = mp.(MasterProduct.id)
                       /\ p.(Product.name) = mp.(MasterProduct.name)
                       /\ p.(Product.in_stock)
                          = row.(ListingRow.is_active)
                            && number_lt (Num 0) (quantity_of parseFloat row)) l ps).
    { intros l ps Hl H2. induction H2 as [|row p l ps Ht _ IH]; constructor.
      - destruct (Hl row (or_introl eq_refl)) as [Hin Hlisted].
        split; [exact Hin|].
        unfold listed in Hlisted. unfold transformProductRowToProduct in Ht.
        destruct (ListingRow.master_products row) as [mp|]; [|discriminate].
        injection Ht as <-. exists mp. simpl. auto.
      - apply IH. intros r Hr. apply Hl. right. exact Hr. }
    apply Hgen; [|exact Hall].
    intros row Hin. destruct (Hrow row Hin) as (H1 & H2 & _). auto.
Qed.

Section ListingQuantity.

Variable parseFloat : string -> number.
Variable rows : list ListingRow.t.

Hypothesis numeric :
  forall row, In row rows -> listed row = true ->
              exists q, row.(ListingRow.quantity) = JNumber (Num q).

Lemma number_lt_Num x y : number_lt (Num x) (Num y) = false <-> (y <= x)%Q.
Proof.
  unfold number_lt. rewrite negb_false_iff. apply Qle_bool_iff.
Qed.

Local Abbreviation Best byMaster done :=
  (forall m row, JsMap.get byMaster m = Some row ->
     In row rows /\ listed row = true
     /\ forall row', In row' done -> listed row' = true ->
          ListingRow.master_product_id row' = m ->
          number_lt (quantity_of parseFloat row) (quantity_of parseFloat row') = false).

Lemma listing_step_best byMaster done row :
  In row rows ->
  (forall row', In row' done -> In row' rows) ->
  JsMap.keys byMaster
  = dedupe [] (map ListingRow.master_product_id (filter listed done)) ->
  Best byMaster done -> Best (listing_step parseFloat byMaster row) (done ++ [row]).
Proof.
  intros Hrow Hdone Hkeys HB. unfold listing_step.
  assert (Hold : forall m r,
             JsMap.get byMaster m = Some r ->
             (listed row = true -> ListingRow.master_product_id row = m ->
              number_lt (quantity_of parseFloat r) (quantity_of parseFloat row) = false) ->
             In r rows /\ listed r = true
             /\ forall row', In row' (done ++ [row]) -> listed row' = true ->
                  ListingRow.master_product_id row' = m ->
                  number_lt (quantity_of parseFloat r) (quantity_of parseFloat row')
                  = false).
  { intros m r Hr Hlast. destruct (HB m r Hr) as (H1 & H2 & H3).
    split; [exact H1|]. split; [exact H2|].
    intros row' Hin Hl Hm. apply in_app_or in Hin.
    destruct Hin as [Hin|[<-|[]]]; auto. }
  destruct (listed row) eqn:El; cbn [negb].
  2:{ intros m r Hr. apply Hold; [exact Hr | discriminate]. }
  destruct (numeric row Hrow El) as (q & Hq).
  assert (Eq : quantity_of parseFloat row = Num q)
    by (unfold quantity_of; rewrite Hq; reflexivity).
  destruct (JsMap.get byMaster (ListingRow.master_product_id row)) as [ex|] eqn:Eg.
  - destruct (HB _ ex Eg) as (Hex & Hlex & Hmax).
    destruct (numeric ex Hex Hlex) as (qe & Hqe).
    assert (Ee : quantity_of parseFloat ex = Num qe)
      by (unfold quantity_of; rewrite Hqe; reflexivity).
    assert (Ee' : existing_quantity ex = Num qe)
      by (unfold existing_quantity; rewrite Hqe; reflexivity).
    rewrite Ee', Eq.
    destruct (number_lt (Num qe) (Num q)) eqn:Elt.
    + intros m r Hr. rewrite JsMapFacts.get_set in Hr.
      destruct (String.eqb (ListingRow.master_product_id row) m) eqn:E.
      * apply String.eqb_eq in E. injection Hr as <-.
        split; [exact Hrow|]. split; [exact El|].
        intros row' Hin Hl Hm. apply in_app_or in Hin.
        destruct Hin as [Hin|[<-|[]]].
        -- destruct (numeric row' (Hdone row' Hin) Hl) as (q' & Hq').
           assert (E' : quantity_of parseFloat row' = Num q')
             by (unfold quantity_of; rewrite Hq'; reflexivity).
           specialize (Hmax row' Hin Hl (eq_trans Hm (eq_sym E))).
           rewrite Ee, E' in Hmax. rewrite Eq, E'.
           apply number_lt_Num. apply number_lt_Num in Hmax.
           unfold number_lt in Elt. apply negb_true_iff in Elt.
           assert (Hlt : (qe < q)%Q).
           { apply Qnot_le_lt. intros Hle. apply Qle_bool_iff in Hle. congruence. }
           apply Qlt_le_weak. eapply Qle_lt_trans; eassumption.
        -- rewrite Eq. apply number_lt_Num. apply Qle_refl.
      * apply Hold; [exact Hr|]. intros _ Hm.
        apply String.eqb_neq in E. contradiction.
    + intros m r Hr. apply Hold; [exact Hr|]. intros _ Hm.
      subst m. rewrite Eg in Hr. injection Hr as <-. rewrite Ee, Eq. exact Elt.
  - intros m r Hr. rewrite JsMapFacts.get_set in Hr.
    destruct (String.eqb (ListingRow.master_product_id row) m) eqn:E.
    + apply String.eqb_eq in E. injection Hr as <-.
      split; [exact Hrow|]. split; [exact El|].
      intros row' Hin Hl Hm. apply in_app_or in Hin.
      destruct Hin as [Hin|[<-|[]]].
      * exfalso. apply JsMapFacts.get_None_keys in Eg. apply Eg.
        rewrite Hkeys. apply dedupe_In. split; [|intros []].
        rewrite E, <- Hm. apply in_map. apply filter_In. auto.
      * rewrite Eq. apply number_lt_Num. apply Qle_refl.
    + apply Hold; [exact Hr|]. intros _ Hm.
      apply String.eqb_neq in E. contradiction.
Qed.

Lemma listing_fold_best rest : forall byMaster done,
  (forall row, In row (done ++ rest) -> In row rows) ->
  JsMap.keys byMaster
  = dedupe [] (map ListingRow.master_product_id (filter listed done)) ->
  (forall m row, JsMap.get byMaster m = Some row ->
     In row done /\ listed row = true /\ ListingRow.master_product_id row = m) ->
  Best byMaster done ->
  Best (fold_left (listing_step parseFloat) rest byMaster) (done ++ rest).
Proof.
  induction rest as [|row rest IH]; intros byMaster done Hin Hkeys Hget HB; simpl.
  - rewrite app_nil_r. exact HB.
  - replace (done ++ row :: rest) with ((done ++ [row]) ++ rest) in *
      by (rewrite <- app_assoc; reflexivity).
    destruct (listing_step_kept parseFloat byMaster done row (conj Hkeys Hget))
      as [Hkeys' Hget'].
    apply IH; try assumption.
    apply listing_step_best; try assumption.
    + apply Hin. apply in_or_app. left. apply in_or_app. right. left. reflexivity.
    + intros row' Hr. apply Hin. apply in_or_app. left. apply in_or_app. left. exact Hr.
Qed.

Lemma listing_byMaster_best : Best (listing_byMaster parseFloat rows) rows.
Proof.
  unfold listing_byMaster.
  apply (listing_fold_best rows JsMap.empty []).
  - intros row H. exact H.
  - reflexivity.
  - intros m row H. discriminate.
  - intros m row H. discriminate.
Qed.

End ListingQuantity.

(** X17. When the quantities of the listed rows are numbers, the row
    [productRowsToProducts] keeps for a master product is one with the
    greatest quantity: no row of the input with the same master product
    and an active master product has more. *)
Theorem productRowsToProducts_prefers_quantity parseFloat rows :
  (forall row, In row rows -> listed row = true ->
               exists q, row.(ListingRow.quantity) = JNumber (Num q)) ->
  productRowsToProducts parseFloat rows
  = map_outcome (transformProductRowToProduct parseFloat)
      (JsMap.values (listing_byMaster parseFloat rows))
  /\ forall row,
       In row (JsMap.values (listing_byMaster parseFloat rows)) ->
       forall row',
         In row' rows -> listed row' = true ->
         row'.(ListingRow.master_product_id) = row.(ListingRow.master_product_id) ->
         exists q q',
           row.(ListingRow.quantity) = JNumber (Num q)
           /\ row'.(ListingRow.quantity) = JNumber (Num q')
           /\ (q' <= q)%Q.
Proof.
  intros Hnum. split; [reflexivity|].
  intros row Hin row' Hin' Hl' Hm.
  destruct (listing_byMaster_kept parseFloat rows) as [Hkeys Hget].
  assert (Hnd : NoDup (JsMap.keys (listing_byMaster parseFloat rows)))
    by (rewrite Hkeys; apply dedupe_NoDup).
  unfold JsMap.values in Hin. apply in_map_iff in Hin.
  destruct Hin as ([m r] & <- & Hin). simpl in *.
  pose proof (JsMapFacts.In_get _ _ _ Hnd Hin) as Hg.
  destruct (Hget m r Hg) as (_ & _ & Hmr).
  destruct (listing_byMaster_best parseFloat rows Hnum m r Hg) as (Hr & Hl & Hmax).
  specialize (Hmax row' Hin' Hl' (eq_trans Hm Hmr)).
  destruct (Hnum r Hr Hl) as (q & Hq). destruct (Hnum row' Hin' Hl') as (q' & Hq').
  exists q, q'. split; [exact Hq|]. split; [exact Hq'|].
  unfold quantity_of in Hmax. rewrite Hq, Hq' in Hmax.
  apply number_lt_Num in Hmax. exact Hmax.
Qed.

Lemma productRowsToProducts_prefers_quantity_witness :
  let rows := [ex_listing "p1" "S1" "mp-A" 3%Q; ex_listing "p2" "S2" "mp-A" 7%Q;
               ex_listing "p3" "S3" "mp-A" 5%Q] in
  exists q q',
    (ex_listing "p2" "S2" "mp-A" 7%Q).(ListingRow.quantity) = JNumber (Num q)
    /\ (ex_listing "p3" "S3" "mp-A" 5%Q).(ListingRow.quantity) = JNumber (Num q')
    /\ (q' <= q)%Q.
Proof.
  intros rows.
  apply (proj2 (productRowsToProducts_prefers_quantity (fun _ => NaN) rows
                  ltac:(intros row [<-|[<-|[<-|[]]]] _; eexists; reflexivity))
           (ex_listing "p2" "S2" "mp-A" 7%Q) ltac:(left; reflexivity)
           (ex_listing "p3" "S3" "mp-A" 5%Q)).
  - simpl. auto.
  - reflexivity.
  - reflexivity.
Defined.

(** ** Reading orders back *)

Module JsNatMapFacts.

Lemma nat_get_set {V} (m : JsNatMap.t V) k v k' :
  JsNatMap.get (JsNatMap.set m k v) k' =
  if Nat.eqb k k' then Some v else JsNatMap.get m k'.
Proof.
  induction m as [|[k0 v0] m IH]; simpl.
  - reflexivity.
  - destruct (Nat.eqb k0 k) eqn:E0; simpl.
    + apply Nat.eqb_eq in E0; subst k0.
      destruct (Nat.eqb k k'); reflexivity.
    + destruct (Nat.eqb k0 k') eqn:E1.
      * apply Nat.eqb_eq in E1; subst k'.
        rewrite Nat.eqb_sym, E0. reflexivity.
      * exact IH.
Qed.

End JsNatMapFacts.

Lemma get_fold_group {A} (key : A -> nat) k (rows : list A) : forall acc,
  JsNatMap.get
    (fold_left (fun m row =>
                  JsNatMap.set m (key row)
                    (match JsNatMap.get m (key row) with
                     | Some l => l
                     | None => []
                     end ++ [row])) rows acc) k
  = match filter (fun row => Nat.eqb (key row) k) rows with
    | [] => JsNatMap.get acc k
    | l => Some (match JsNatMap.get acc k with Some l0 => l0 | None => [] end ++ l)
    end.
Proof.
  induction rows as [|row rows IH]; intros acc; simpl; [reflexivity|].
  rewrite IH, JsNatMapFacts.nat_get_set.
  destruct (Nat.eqb (key row) k) eqn:E.
  - apply Nat.eqb_eq in E. subst k.
    destruct (filter _ rows); rewrite <- ?app_assoc; reflexivity.
  - reflexivity.
Qed.

(** The rows a key is mapped to are the rows with that key, in order. *)
Lemma get_group_rows {A} (key : A -> nat) (rows : list A) k :
  match JsNatMap.get (group_rows key rows) k with
  | Some l => l
  | None => []
  end = filter (fun row => Nat.eqb (key row) k) rows.
Proof.
  unfold group_rows. rewrite get_fold_group. simpl.
  destruct (filter _ rows); reflexivity.
Qed.

Lemma insert_by_placed_at_perm co l :
  Permutation (insert_by_placed_at co l) (co :: l).
Proof.
  induction l as [|x l IH]; simpl; [apply Permutation_refl|].
  destruct (String.ltb _ _); [|apply Permutation_refl].
  eapply Permutation_trans; [apply perm_skip; exact IH | apply perm_swap].
Qed.

Lemma order_by_placed_at_desc_perm rows :
  Permutation (order_by_placed_at_desc rows) rows.
Proof.
  induction rows as [|co rows IH]; simpl; [constructor|].
  eapply Permutation_trans; [apply insert_by_placed_at_perm|].
  apply perm_skip. exact IH.
Qed.

Lemma filter_filter {A} (p q : A -> bool) (l : list A) :
  filter p (filter q l) = filter (fun x => q x && p x) l.
Proof.
  induction l as [|x l IH]; simpl; [reflexivity|].
  destruct (q x); simpl; [destruct (p x); rewrite IH; reflexivity | exact IH].
Qed.

Lemma filter_none {A} (p : A -> bool) (l : list A) :
  (forall x, In x l -> p x = false) -> filter p l = [].
Proof.
  induction l as [|x l IH]; simpl; intros H; [reflexivity|].
  rewrite (H x) by (left; reflexivity). apply IH. intros y Hy. apply H. right. exact Hy.
Qed.

Lemma filter_all {A} (p : A -> bool) (l : list A) :
  (forall x, In x l -> p x = true) -> filter p l = l.
Proof.
  induction l as [|x l IH]; simpl; intros H; [reflexivity|].
  rewrite (H x) by (left; reflexivity). f_equal.
  apply IH. intros y Hy. apply H. right. exact Hy.
Qed.

Lemma existsb_eqb_In k l : existsb (Nat.eqb k) l = true <-> In k l.
Proof.
  rewrite existsb_exists. split.
  - intros (x & Hx & E). apply Nat.eqb_eq in E. subst. exact Hx.
  - intros H. exists k. split; [exact H | apply Nat.eqb_refl].
Qed.

Lemma flat_map_ext_on {A B} (f g : A -> list B) (l : list A) :
  (forall x, In x l -> f x = g x) -> flat_map f l = flat_map g l.
Proof.
  induction l as [|x l IH]; simpl; intros H; [reflexivity|].
  rewrite (H x) by (left; reflexivity). f_equal.
  apply IH. intros y Hy. apply H. right. exact Hy.
Qed.

(** Grouping rows by a key that takes each of the values [ks] and no
    other value loses and repeats nothing. *)
Lemma flat_map_groups_perm {A} (key : A -> nat) : forall (ks : list nat) (rows : list A),
  NoDup ks -> (forall row, In row rows -> In (key row) ks) ->
  Permutation (flat_map (fun k => filter (fun row => Nat.eqb (key row) k) rows) ks) rows.
Proof.
  induction ks as [|k ks IH]; intros rows Hnd Hin; simpl.
  - destruct rows as [|row rows]; [constructor|].
    exfalso. exact (Hin row (or_introl eq_refl)).
  - inversion Hnd as [|? ? Hk Hnd']; subst.
    eapply Permutation_trans;
      [|apply (filter_partition_perm (fun row => Nat.eqb (key row) k) rows)].
    apply Permutation_app_head.
    assert (Hsame : flat_map (fun k0 => filter (fun row => Nat.eqb (key row) k0) rows) ks
                    = flat_map (fun k0 =>
                                  filter (fun row => Nat.eqb (key row) k0)
                                    (filter (fun row => negb (Nat.eqb (key row) k)) rows))
                               ks).
    { apply flat_map_ext_on. intros k0 Hk0.
      rewrite filter_filter. apply filter_ext. intros row.
      destruct (Nat.eqb (key row) k0) eqn:E0; [|rewrite andb_false_r; reflexivity].
      apply Nat.eqb_eq in E0.
      destruct (Nat.eqb (key row) k) eqn:E; [|reflexivity].
      apply Nat.eqb_eq in E. exfalso. apply Hk. congruence. }
    rewrite Hsame. apply IH; [exact Hnd'|].
    intros row Hrow. apply filter_In in Hrow. destruct Hrow as [Hrow Hne].
    destruct (Hin row Hrow) as [Heq|H]; [|exact H].
    rewrite Heq, Nat.eqb_refl in Hne. discriminate.
Qed.

Section UserOrders.

Variable u : string.
Hypothesis u_nonempty : u <> EmptyString.

Local Abbreviation owned :=
  (fun co : CustomerOrder.t =>
     match co.(CustomerOrder.customer_id) with
     | Some c => String.eqb c u
     | None => false
     end).

Lemma truthy_u : Js.truthy (Some u) = true.
Proof.
  simpl. destruct (String.eqb u EmptyString) eqn:E; [|reflexivity].
  apply String.eqb_eq in E. contradiction.
Qed.

(** What [getUserOrders] computes when its three queries are served. *)
Lemma getUserOrders_served userPhone userEmail w :
  all_served w ->
  let cos := order_by_placed_at_desc (filter owned w.(db).(customer_orders)) in
  let sos := filter (fun so => existsb (Nat.eqb so.(StoreOrder.customer_order_id))
                                       (map CustomerOrder.id cos))
                    w.(db).(store_orders) in
  let ois := filter (fun oi => existsb (Nat.eqb oi.(OrderItemRow.store_order_id))
                                       (map StoreOrder.id sos))
                    w.(db).(order_items) in
  fst (getUserOrders (Some u) userPhone userEmail w)
  = Ret (map (user_order_of (group_rows StoreOrder.customer_order_id sos)
                            (group_rows OrderItemRow.store_order_id ois)) cos)
  /\ (snd (getUserOrders (Some u) userPhone userEmail w)).(db) = w.(db).
Proof.
  intros Hs. cbv zeta.
  unfold getUserOrders. rewrite try_catch_rethrow, truthy_u. cbn [negb].
  unfold select_customer_orders_of.
  match goal with
  | |- context [call ?req ?serve] =>
      destruct (call_served req serve w Hs) as [E1 Hs1]
  end.
  rewrite (bind_Ret _ _ _ _ _ E1). cbn [data error fst snd].
  destruct (order_by_placed_at_desc (filter owned w.(db).(customer_orders)))
    as [|co cos] eqn:Ecos.
  { split; reflexivity. }
  unfold select_store_orders_in.
  match goal with
  | |- context [bind (call ?req ?serve) ?k ?w1] =>
      destruct (call_served req serve w1 Hs1) as [E2 Hs2]
  end.
  rewrite (bind_Ret _ _ _ _ _ E2). cbn [data error fst snd db].
  unfold select_order_items_in.
  match goal with
  | |- context [bind (call ?req ?serve) ?k ?w2] =>
      destruct (call_served req serve w2 Hs2) as [E3 Hs3]
  end.
  rewrite (bind_Ret _ _ _ _ _ E3). cbn [data error fst snd db].
  split; reflexivity.
Qed.

Lemma user_order_of_items G1 G2 co :
  (user_order_of G1 G2 co).(UserOrder.items)
  = flat_map (fun so =>
                map item_of_row
                    (match JsNatMap.get G2 so.(StoreOrder.id) with
                     | Some l => l
                     | None => []
                     end))
             (match JsNatMap.get G1 co.(CustomerOrder.id) with
              | Some l => l
              | None => []
              end).
Proof. reflexivity. Qed.

(** The items of an order read back are the order lines of its
    sub-orders, sub-order by sub-order. *)
Lemma served_items (d : Db) (cos : list CustomerOrder.t) co :
  In co cos ->
  let sos := filter (fun so => existsb (Nat.eqb so.(StoreOrder.customer_order_id))
                                       (map CustomerOrder.id cos))
                    d.(store_orders) in
  let ois := filter (fun oi => existsb (Nat.eqb oi.(OrderItemRow.store_order_id))
                                       (map StoreOrder.id sos))
                    d.(order_items) in
  (user_order_of (group_rows StoreOrder.customer_order_id sos)
                 (group_rows OrderItemRow.store_order_id ois) co).(UserOrder.items)
  = flat_map (fun so =>
                map item_of_row
                  (filter (fun oi => Nat.eqb oi.(OrderItemRow.store_order_id)
                                             so.(StoreOrder.id))
                          d.(order_items)))
             (filter (fun so => Nat.eqb so.(StoreOrder.customer_order_id)
                                        co.(CustomerOrder.id))
                     d.(store_orders)).
Proof.
  intros Hco. cbv zeta. rewrite user_order_of_items.
  rewrite !get_group_rows.
  assert (Hsos : filter (fun so => Nat.eqb so.(StoreOrder.customer_order_id)
                                           co.(CustomerOrder.id))
                   (filter (fun so => existsb (Nat.eqb so.(StoreOrder.customer_order_id))
                                              (map CustomerOrder.id cos))
                           d.(store_orders))
                 = filter (fun so => Nat.eqb so.(StoreOrder.customer_order_id)
                                             co.(CustomerOrder.id))
                          d.(store_orders)).
  { rewrite filter_filter. apply filter_ext. intros so.
    destruct (Nat.eqb (StoreOrder.customer_order_id so) (CustomerOrder.id co)) eqn:E;
      [|apply andb_false_r].
    apply Nat.eqb_eq in E. rewrite andb_true_r.
    apply existsb_eqb_In. rewrite E. apply in_map. exact Hco. }
  rewrite Hsos. apply flat_map_ext_on. intros so Hso. f_equal.
  rewrite get_group_rows, filter_filter. apply filter_ext. intros oi.
  destruct (Nat.eqb (OrderItemRow.store_order_id oi) (StoreOrder.id so)) eqn:E;
    [|apply andb_false_r].
  apply Nat.eqb_eq in E. rewrite andb_true_r.
  apply existsb_eqb_In. rewrite E. apply in_map.
  apply filter_In in Hso. destruct Hso as [Hso Hc].
  apply filter_In. split; [exact Hso|].
  apply existsb_eqb_In. apply Nat.eqb_eq in Hc. rewrite Hc.
  apply in_map. exact Hco.
Qed.

End UserOrders.

(** X18. When its queries are served, [getUserOrders] returns the
    orders of the user and no others, each once, and leaves the datastore
    alone.  The items of each order returned are the order lines of its
    sub-orders, sub-order by sub-order in table order, and the item count
    is their number. *)
Theorem getUserOrders_reads_user_orders u userPhone userEmail w :
  u <> EmptyString ->
  all_served w ->
  exists orders,
    fst (getUserOrders (Some u) userPhone userEmail w) = Ret orders
    /\ (snd (getUserOrders (Some u) userPhone userEmail w)).(db) = w.(db)
    /\ Permutation (map UserOrder.id orders)
         (map CustomerOrder.id
            (filter (fun co => match co.(CustomerOrder.customer_id) with
                               | Some c => String.eqb c u
                               | None => false
                               end) w.(db).(customer_orders)))
    /\ forall fo,
         In fo orders ->
         fo.(UserOrder.user_id) = Some u
         /\ fo.(UserOrder.items)
            = flat_map (fun so =>
                          map item_of_row
                            (filter (fun oi => Nat.eqb oi.(OrderItemRow.store_order_id)
                                                       so.(StoreOrder.id))
                                    w.(db).(order_items)))
                       (filter (fun so => Nat.eqb so.(StoreOrder.customer_order_id)
                                                  fo.(UserOrder.id))
                               w.(db).(store_orders))
         /\ fo.(UserOrder.items_count) = List.length fo.(UserOrder.items).
Proof.
  intros Hu Hs.
  destruct (getUserOrders_served u Hu userPhone userEmail w Hs) as [Hret Hdb].
  cbv zeta in Hret.
  eexists. split; [exact Hret|]. split; [exact Hdb|]. split.
  - rewrite map_map. cbn [user_order_of UserOrder.id].
    apply Permutation_map. apply order_by_placed_at_desc_perm.
  - intros fo Hfo. apply in_map_iff in Hfo. destruct Hfo as (co & <- & Hco).
    split.
    + cbn [user_order_of UserOrder.user_id].
      apply (Permutation_in _ (order_by_placed_at_desc_perm _)) in Hco.
      apply filter_In in Hco. destruct Hco as [_ Hc].
      destruct (CustomerOrder.customer_id co) as [c|]; [|discriminate].
      apply String.eqb_eq in Hc. congruence.
    + split; [|reflexivity].
      apply (served_items w.(db) _ co Hco).
Qed.

Lemma getUserOrders_reads_user_orders_witness :
  let w := snd (createOrder ex_heap (ex_order [itemA; itemB; itemC] 30%Q 10%Q)
                  (ex_world (Some ["S1"; "S2"]) [])) in
  exists orders,
    fst (getUserOrders (Some "user-1") None None w) = Ret orders
    /\ (snd (getUserOrders (Some "user-1") None None w)).(db) = w.(db)
    /\ Permutation (map UserOrder.id orders)
         (map CustomerOrder.id
            (filter (fun co => match co.(CustomerOrder.customer_id) with
                               | Some c => String.eqb c "user-1"
                               | None => false
                               end) w.(db).(customer_orders)))
    /\ forall fo,
         In fo orders ->
         fo.(UserOrder.user_id) = Some "user-1"
         /\ fo.(UserOrder.items)
            = flat_map (fun so =>
                          map item_of_row
                            (filter (fun oi => Nat.eqb oi.(OrderItemRow.store_order_id)
                                                       so.(StoreOrder.id))
                                    w.(db).(order_items)))
                       (filter (fun so => Nat.eqb so.(StoreOrder.customer_order_id)
                                                  fo.(UserOrder.id))
                               w.(db).(store_orders))
         /\ fo.(UserOrder.items_count) = List.length fo.(UserOrder.items).
Proof.
  intros w.
  apply (getUserOrders_reads_user_orders "user-1" None None w).
  - discriminate.
  - vm_compute. constructor.
Defined.

(** ** An order placed is an order read back *)

Lemma persist_order_returns heap orderData geocoded orderCode alloc w order w' :
  persist_order heap orderData geocoded orderCode alloc w = (Ret order, w') ->
  order.(Order.user_id) = orderData.(CreateOrderData.user_id)
  /\ order.(Order.items) = orderData.(CreateOrderData.items)
  /\ order.(Order.items_count) = List.length orderData.(CreateOrderData.items)
  /\ order.(Order.order_total) = orderData.(CreateOrderData.order_total).
Proof.
  intros H. unfold persist_order in H. cbv zeta in H.
  apply bind_Ret_inv in H. destruct H as (e & w0 & Hask & H).
  apply bind_Ret_inv in H. destruct H as (co & w1 & Hins & H).
  destruct (error co); [discriminate|].
  destruct (data co) as [customerOrder|]; [|discriminate].
  apply bind_Ret_inv in H. destruct H as ([] & w2 & Hloop & H).
  apply bind_Ret_inv in H. destruct H as (hr & w3 & Hhist & H).
  unfold ret in H. injection H as <- _. repeat split; reflexivity.
Qed.

(** Everything a successful [createOrder] wrote, in one place. *)
Lemma createOrder_Ret_written heap orderData w order w' :
  createOrder heap orderData w = (Ret order, w') ->
  exists co sos rows lines,
    w'.(db).(customer_orders) = w.(db).(customer_orders) ++ [co]
    /\ w'.(db).(store_orders) = w.(db).(store_orders) ++ sos
    /\ w'.(db).(order_items) = w.(db).(order_items) ++ rows
    /\ co.(CustomerOrder.id) = order.(Order.id)
    /\ ~ In co.(CustomerOrder.id) (map CustomerOrder.id w.(db).(customer_orders))
    /\ co.(CustomerOrder.customer_id) = order.(Order.user_id)
    /\ co.(CustomerOrder.order_code) = order.(Order.order_number)
    /\ co.(CustomerOrder.total_amount) = order.(Order.order_total)
    /\ co.(CustomerOrder.subtotal_amount) = order.(Order.subtotal)
    /\ co.(CustomerOrder.delivery_fee) = order.(Order.delivery_fee)
    /\ Forall (fun so => so.(StoreOrder.customer_order_id) = co.(CustomerOrder.id)) sos
    /\ NoDup (map StoreOrder.id sos)
    /\ Forall (fun so => ~ In so.(StoreOrder.id)
                              (map StoreOrder.id w.(db).(store_orders))) sos
    /\ Permutation lines order.(Order.items)
    /\ order.(Order.items_count) = List.length order.(Order.items)
    /\ order.(Order.user_id) = orderData.(CreateOrderData.user_id)
    /\ Forall2 (fun r row => exists so, In so sos /\ records_line heap w.(db) so r row)
               lines rows.
Proof.
  intros H. apply createOrder_Ret_inv in H.
  destruct H as (geocoded & orderCode & storeIds & productRows & alloc & w4
                 & Hdb & Halloc & Hun & Hitems & Hpersist).
  pose proof (allocate_inv _ _ _ _ _ Halloc) as HI.
  destruct (persist_order_returns _ _ _ _ _ _ _ _ Hpersist) as (Hu & Hit & Hcnt & _).
  apply persist_order_lines in Hpersist.
  - destruct Hpersist as (co & sos & rows & Hco & Hid & Hso & Hpar & Hst & Hoi & Hrec
                          & (Hfresh & Hcu & Hcode & Htot & Hsub & Hfee) & Hnd & Hfr).
    exists co, sos, rows, (List.concat (JsMap.values alloc.(storeToItems))).
    rewrite Hdb in Hco, Hso, Hoi, Hrec, Hfresh, Hfr.
    repeat (split; [assumption|]).
    split; [rewrite Hit; eapply all_assigned_perm; eassumption|].
    split; [congruence|]. split; [exact Hu | exact Hrec].
  - exact (inv_keys _ _ _ _ HI).
  - intros s l Hsl. destruct (inv_entry _ _ _ _ HI s l Hsl) as (Hl & Hs & Hc).
    split; [exact Hl|]. split; [exact Hs|].
    intros r Hr. eapply carries_mid. apply Hc. exact Hr.
Qed.

Lemma flat_map_map_out {A B C} (f : A -> list B) (g : B -> C) (l : list A) :
  flat_map (fun x => map g (f x)) l = map g (flat_map f l).
Proof.
  induction l as [|x l IH]; simpl; [reflexivity|].
  rewrite IH, map_app. reflexivity.
Qed.

Lemma flat_map_over_map {A B C} (f : B -> list C) (g : A -> B) (l : list A) :
  flat_map f (map g l) = flat_map (fun x => f (g x)) l.
Proof.
  induction l as [|x l IH]; simpl; [reflexivity|]. rewrite IH. reflexivity.
Qed.

Lemma Forall2_in_right {A B} (P : A -> B -> Prop) l m y :
  Forall2 P l m -> In y m -> exists x, In x l /\ P x y.
Proof.
  intros H. induction H as [|x y' l m Hxy _ IH]; simpl; [contradiction|].
  intros [<-|Hy].
  - exists x. auto.
  - destruct (IH Hy) as (x' & Hx' & Hp). exists x'. auto.
Qed.

Lemma Forall2_map_eq {A B C} (f : A -> C) (g : B -> C) l m :
  Forall2 (fun x y => f x = g y) l m -> map f l = map g m.
Proof.
  intros H. induction H as [|x y l m Hxy _ IH]; simpl; [reflexivity|].
  rewrite Hxy, IH. reflexivity.
Qed.

(** X19. An order that [createOrder] has placed is read back by
    [getUserOrders] for the same user: when the datastore held no
    dangling sub-order or order line before, and serves the three
    queries, the orders returned include one with the key, the order
    number and the amounts [createOrder] returned, with as many items as
    the cart had lines, and the names, unit prices and quantities of its
    items are those of the cart lines. *)
Theorem getUserOrders_after_createOrder
    heap orderData w order w' u userPhone userEmail w'' :
  createOrder heap orderData w = (Ret order, w') ->
  orderData.(CreateOrderData.user_id) = Some u ->
  references_resolve w.(db) ->
  w''.(db) = w'.(db) ->
  all_served w'' ->
  exists orders fo,
    fst (getUserOrders (Some u) userPhone userEmail w'') = Ret orders
    /\ In fo orders
    /\ fo.(UserOrder.id) = order.(Order.id)
    /\ fo.(UserOrder.order_number) = order.(Order.order_number)
    /\ fo.(UserOrder.order_total) = order.(Order.order_total)
    /\ fo.(UserOrder.subtotal) = order.(Order.subtotal)
    /\ fo.(UserOrder.delivery_fee) = order.(Order.delivery_fee)
    /\ fo.(UserOrder.items_count) = order.(Order.items_count)
    /\ Permutation (map line_summary fo.(UserOrder.items))
                   (map (fun r => line_summary (heap r)) order.(Order.items)).
Proof.
  intros Hrun Huid [FK1 FK2] Hdb Hs.
  assert (Hu : u <> EmptyString).
  { intros ->. unfold createOrder in Hrun.
    rewrite try_catch_rethrow, Huid in Hrun. simpl in Hrun. discriminate. }
  destruct (createOrder_Ret_written _ _ _ _ _ Hrun)
    as (co & sos & rows & lines & Hco & Hso & Hoi & Hid & Hfresh & Hcu & Hcode & Htot
        & Hsub & Hfee & Hpar & Hnd & Hfr & Hperm & Hcnt & Huser & Hrec).
  destruct (getUserOrders_served u Hu userPhone userEmail w'' Hs) as [Hret _].
  cbv zeta in Hret. rewrite Hdb in Hret.
  set (cos := order_by_placed_at_desc
                (filter (fun co0 : CustomerOrder.t =>
                           match co0.(CustomerOrder.customer_id) with
                           | Some c => String.eqb c u
                           | None => false
                           end) w'.(db).(customer_orders))) in *.
  assert (Hin : In co cos).
  { apply (Permutation_in _ (Permutation_sym (order_by_placed_at_desc_perm _))).
    apply filter_In. split.
    - rewrite Hco. apply in_or_app. right. left. reflexivity.
    - rewrite Hcu, Huser, Huid. apply String.eqb_refl. }
  pose proof (served_items w'.(db) cos co Hin) as Hitems. cbv zeta in Hitems.
  match type of Hitems with
  | UserOrder.items ?x = _ => set (fo := x) in *
  end.
  exists (map (user_order_of
                 (group_rows StoreOrder.customer_order_id
                    (filter (fun so => existsb (Nat.eqb so.(StoreOrder.customer_order_id))
                                               (map CustomerOrder.id cos))
                            w'.(db).(store_orders)))
                 (group_rows OrderItemRow.store_order_id
                    (filter (fun oi =>
                               existsb (Nat.eqb oi.(OrderItemRow.store_order_id))
                                 (map StoreOrder.id
                                    (filter (fun so =>
                                               existsb
                                                 (Nat.eqb so.(StoreOrder.customer_order_id))
                                                 (map CustomerOrder.id cos))
                                            w'.(db).(store_orders))))
                            w'.(db).(order_items)))) cos), fo.
  split; [exact Hret|].
  split; [apply in_map; exact Hin|].
  split; [exact Hid|]. split; [exact Hcode|]. split; [exact Htot|].
  split; [exact Hsub|]. split; [exact Hfee|].
  change (UserOrder.items_count fo) with (List.length (UserOrder.items fo)).
  rewrite Hitems. clear Hitems Hret.
  (* the sub-orders of the new order are the new sub-orders *)
  assert (Hsos : filter (fun so => Nat.eqb so.(StoreOrder.customer_order_id)
                                           co.(CustomerOrder.id))
                        w'.(db).(store_orders) = sos).
  { rewrite Hso, filter_app.
    rewrite (filter_none _ w.(db).(store_orders)), (filter_all _ sos); [reflexivity| |].
    - intros so Hin'. rewrite Forall_forall in Hpar. rewrite (Hpar so Hin').
      apply Nat.eqb_refl.
    - intros so Hin'. apply Nat.eqb_neq. intros Heq.
      apply Hfresh. rewrite <- Heq. apply FK1. exact Hin'. }
  rewrite Hsos.
  (* the lines of a new sub-order are new lines *)
  assert (Hlines : flat_map (fun so =>
                      map item_of_row
                        (filter (fun oi => Nat.eqb oi.(OrderItemRow.store_order_id)
                                                   so.(StoreOrder.id))
                                w'.(db).(order_items))) sos
                   = map item_of_row
                       (flat_map (fun k => filter (fun oi =>
                                     Nat.eqb oi.(OrderItemRow.store_order_id) k) rows)
                                 (map StoreOrder.id sos))).
  { rewrite flat_map_over_map, <- flat_map_map_out.
    apply flat_map_ext_on. intros so Hin'. f_equal.
    rewrite Hoi, filter_app, (filter_none _ w.(db).(order_items)); [reflexivity|].
    intros oi Hoi'. apply Nat.eqb_neq. intros Heq.
    rewrite Forall_forall in Hfr. apply (Hfr so Hin').
    rewrite <- Heq. apply FK2. exact Hoi'. }
  rewrite Hlines.
  assert (Hgroups : Permutation
                      (flat_map (fun k => filter (fun oi =>
                                    Nat.eqb oi.(OrderItemRow.store_order_id) k) rows)
                                (map StoreOrder.id sos)) rows).
  { apply flat_map_groups_perm; [exact Hnd|].
    intros row Hrow.
    destruct (Forall2_in_right _ _ _ _ Hrec Hrow) as (r & _ & so & Hso' & Hline).
    destruct Hline as (Hsoid & _). rewrite Hsoid. apply in_map. exact Hso'. }
  assert (Hsame : map (fun r => line_summary (heap r)) lines
                  = map (fun row => line_summary (item_of_row row)) rows).
  { apply Forall2_map_eq. eapply Forall2_impl; [|exact Hrec].
    intros r row (so & _ & _ & Hn & Hp & Hq & _).
    unfold line_summary, item_of_row. cbn. congruence. }
  split.
  - rewrite length_map, (Permutation_length Hgroups), Hcnt.
    rewrite <- (Permutation_length Hperm).
    symmetry. eapply Forall2_length. exact Hrec.
  - rewrite map_map.
    eapply Permutation_trans; [apply Permutation_map; exact Hgroups|].
    rewrite <- Hsame. apply Permutation_map. exact Hperm.
Qed.

Lemma getUserOrders_after_createOrder_witness :
  let od := ex_order [itemA; itemB; itemC] 30%Q 10%Q in
  let r := createOrder ex_heap od (ex_world (Some ["S1"; "S2"]) []) in
  exists order orders fo,
    fst r = Ret order
    /\ fst (getUserOrders (Some "user-1") None None (snd r)) = Ret orders
    /\ In fo orders
    /\ fo.(UserOrder.id) = order.(Order.id)
    /\ fo.(UserOrder.order_number) = order.(Order.order_number)
    /\ fo.(UserOrder.order_total) = order.(Order.order_total)
    /\ fo.(UserOrder.subtotal) = order.(Order.subtotal)
    /\ fo.(UserOrder.delivery_fee) = order.(Order.delivery_fee)
    /\ fo.(UserOrder.items_count) = order.(Order.items_count)
    /\ Permutation (map line_summary fo.(UserOrder.items))
                   (map (fun r => line_summary (ex_heap r)) order.(Order.items)).
Proof.
  intros od r.
  assert (Hr : exists order, fst r = Ret order) by (vm_compute; eexists; reflexivity).
  destruct Hr as [order Ho].
  destruct (getUserOrders_after_createOrder ex_heap od
              (ex_world (Some ["S1"; "S2"]) []) order (snd r) "user-1" None None (snd r)
              (outcome_pair r order Ho))
    as (orders & fo & H).
  - reflexivity.
  - split; intros x [].
  - reflexivity.
  - vm_compute. constructor.
  - exists order, orders, fo. split; [exact Ho | exact H].
Defined.

(** ** [getUserOrders] when a query fails *)

(** X20. What [getUserOrders] does with a failing datastore.  Without
    a user id it returns no orders and sends nothing.  When the first
    query is answered with an error it returns no orders, as if the user
    had none; when that query is rejected it throws.  When the first query
    is served and the sub-order query is answered with an error, the
    error is not read: the user's orders are returned, each with no
    items. *)
Theorem getUserOrders_failures :
  (forall userId userPhone userEmail w,
      Js.truthy userId = false ->
      getUserOrders userId userPhone userEmail w = (Ret [], w))
  /\ (forall u userPhone userEmail w message,
         u <> EmptyString ->
         nth_fault 0 w = Refused message ->
         fst (getUserOrders (Some u) userPhone userEmail w) = Ret []
         /\ (snd (getUserOrders (Some u) userPhone userEmail w)).(sent)
            = w.(sent) ++ [ReqSelect "customer_orders" []])
  /\ (forall u userPhone userEmail w e,
         u <> EmptyString ->
         nth_fault 0 w = Rejected e ->
         fst (getUserOrders (Some u) userPhone userEmail w) = Throw e)
  /\ (forall u userPhone userEmail w message,
         u <> EmptyString ->
         nth_fault 0 w = Served ->
         nth_fault 1 w = Refused message ->
         (forall e, nth_fault 2 w <> Rejected e) ->
         exists orders,
           fst (getUserOrders (Some u) userPhone userEmail w) = Ret orders
           /\ Permutation (map UserOrder.id orders)
                (map CustomerOrder.id
                   (filter (fun co => match co.(CustomerOrder.customer_id) with
                                      | Some c => String.eqb c u
                                      | None => false
                                      end) w.(db).(customer_orders)))
           /\ forall fo, In fo orders ->
                         fo.(UserOrder.items) = [] /\ fo.(UserOrder.items_count) = 0).
Proof.
  split; [|split; [|split]].
  - intros userId userPhone userEmail w Hu. unfold getUserOrders.
    rewrite try_catch_rethrow, Hu. reflexivity.
  - intros u userPhone userEmail w message Hu F0.
    unfold getUserOrders. rewrite try_catch_rethrow, (truthy_u u Hu). cbn [negb].
    unfold select_customer_orders_of, bind, call.
    rewrite nth_fault_0 in F0. destruct (faults w) as [|f fs]; [discriminate|]. subst f.
    cbn. auto.
  - intros u userPhone userEmail w e Hu F0.
    unfold getUserOrders. rewrite try_catch_rethrow, (truthy_u u Hu). cbn [negb].
    unfold select_customer_orders_of, bind, call.
    rewrite nth_fault_0 in F0. destruct (faults w) as [|f fs]; [discriminate|]. subst f.
    reflexivity.
  - intros u userPhone userEmail w message Hu F0 F1 F2.
    unfold getUserOrders. rewrite try_catch_rethrow, (truthy_u u Hu). cbn [negb].
    unfold select_customer_orders_of, select_store_orders_in, select_order_items_in,
      bind, call.
    destruct w as [d fs sn env0]. unfold nth_fault in F0, F1, F2. cbn [faults] in *.
    destruct fs as [|f0 [|f1 fs]]; simpl in F0, F1; try discriminate. subst f0 f1.
    cbn [faults db sent env tl data error fst snd].
    set (cos := order_by_placed_at_desc
                  (filter (fun co : CustomerOrder.t =>
                             match co.(CustomerOrder.customer_id) with
                             | Some c => String.eqb c u
                             | None => false
                             end) d.(customer_orders))).
    assert (Hperm : Permutation (map CustomerOrder.id cos)
                      (map CustomerOrder.id
                         (filter (fun co : CustomerOrder.t =>
                                    match co.(CustomerOrder.customer_id) with
                                    | Some c => String.eqb c u
                                    | None => false
                                    end) d.(customer_orders))))
      by (apply Permutation_map, order_by_placed_at_desc_perm).
    destruct cos as [|co cos'] eqn:Ecos.
    + exists []. split; [reflexivity|]. split; [exact Hperm | intros fo []].
    + simpl in F2.
      destruct fs as [|[|m2|e2] fs]; cbn [faults db sent env tl data error fst snd];
        try (exfalso; exact (F2 e2 eq_refl));
        (eexists; split; [reflexivity|]; split;
         [rewrite map_map; exact Hperm
         |intros fo Hfo; apply in_map_iff in Hfo; destruct Hfo as (c & <- & _);
          split; reflexivity]).
Qed.

Lemma getUserOrders_failures_witness :
  getUserOrders None None None (ex_world None []) = (Ret [], ex_world None [])
  /\ fst (getUserOrders (Some "user-1") None None
            (ex_world None [Refused "permission denied"])) = Ret []
  /\ fst (getUserOrders (Some "user-1") None None
            (ex_world None [Rejected (Error "fetch failed")]))
     = Throw (Error "fetch failed")
  /\ exists orders,
       fst (getUserOrders (Some "user-1") None None
              (ex_world None [Served; Refused "permission denied"])) = Ret orders.
Proof.
  destruct getUserOrders_failures as (H1 & H2 & H3 & H4).
  split; [apply H1; reflexivity|].
  split; [apply (H2 "user-1" None None _ "permission denied"); [discriminate | reflexivity]|].
  split; [apply H3; [discriminate | reflexivity]|].
  destruct (H4 "user-1" None None (ex_world None [Served; Refused "permission denied"])
              "permission denied") as (orders & H & _).
  - discriminate.
  - reflexivity.
  - reflexivity.
  - intros e. discriminate.
  - exists orders. exact H.
Defined.

(** ** [getStores] *)





(** ** The catalogue *)

Lemma productRowsToProducts_Ret parseFloat rows :
  exists products, productRowsToProducts parseFloat rows = Ret products.
Proof.
  destruct (listing_byMaster_kept parseFloat rows) as [Hkeys Hget].
  assert (Hnd : NoDup (JsMap.keys (listing_byMaster parseFloat rows)))
    by (rewrite Hkeys; apply dedupe_NoDup).
  destruct (map_outcome_Ret (transformProductRowToProduct parseFloat)
              (JsMap.values (listing_byMaster parseFloat rows)))
    as (products & Hret & _).
  - intros row Hin. unfold JsMap.values in Hin. apply in_map_iff in Hin.
    destruct Hin as ([m r] & <- & Hin). simpl.
    pose proof (JsMapFacts.In_get _ _ _ Hnd Hin) as Hg.
    destruct (Hget m r Hg) as (_ & Hl & _).
    unfold listed in Hl. unfold transformProductRowToProduct.
    destruct (ListingRow.master_products r); [eexists; reflexivity | discriminate].
  - exists products. exact Hret.
Qed.

Lemma getNearbyStoreIds_Ret lat lng radiusKm w :
  exists ids, fst (getNearbyStoreIds lat lng radiusKm w) = Ret ids.
Proof.
  unfold getNearbyStoreIds, try_catch.
  rewrite (bind_Ret _ _ _ _ _ (eq_refl : ask w = (Ret w.(env), w))).
  match goal with
  | |- context [bind (call ?req ?serve) ?k w] =>
      destruct (call_cases req serve w)
        as [(fs & E) | [(message & fs & E) | (e & fs & E)]]
  end.
  - rewrite (bind_Ret _ _ _ _ _ E). cbn [data error fst snd].
    destruct (get_nearby_store_ids (env w) lat lng radiusKm) as [[|s rest]|];
      eexists; reflexivity.
  - rewrite (bind_Ret _ _ _ _ _ E). eexists. reflexivity.
  - rewrite (bind_Throw _ _ _ _ _ E). eexists. reflexivity.
Qed.

Lemma getNearbyStoreIds_served lat lng radiusKm w :
  all_served w ->
  exists w',
    getNearbyStoreIds lat lng radiusKm w
    = (Ret (match w.(env).(get_nearby_store_ids) lat lng radiusKm with
            | Some (s :: rest) => s :: rest
            | _ => []
            end), w')
    /\ all_served w' /\ w'.(db) = w.(db) /\ w'.(env) = w.(env).
Proof.
  intros Hs. unfold getNearbyStoreIds, try_catch.
  rewrite (bind_Ret _ _ _ _ _ (eq_refl : ask w = (Ret w.(env), w))).
  match goal with
  | |- context [bind (call ?req ?serve) ?k w] =>
      destruct (call_served req serve w Hs) as [E Hs']
  end.
  rewrite (bind_Ret _ _ _ _ _ E). cbn [data error fst snd].
  destruct (get_nearby_store_ids (env w) lat lng radiusKm) as [[|s rest]|];
    eexists; (split; [reflexivity|]); auto.
Qed.

Section CatalogueFacts.

Variable parseFloat : string -> number.
Variable details : ProductRow.t -> JsNumeric * option MasterProduct.t.

Lemma fetch_listing_not_Timeout options stored w :
  fst (fetch_listing details options stored w) <> Timeout.
Proof.
  unfold fetch_listing. cbv zeta.
  match goal with
  | |- fst (bind ?c ?k w) <> _ =>
      assert (Hc : exists nearby w1, c w = (Ret nearby, w1))
  end.
  { destruct (match match options with Some o => Some o | None => stored end with
              | Some o => ProductFetchOptions.lat o
              | None => None
              end) as [lat|]; [|do 2 eexists; reflexivity].
    destruct (match match options with Some o => Some o | None => stored end with
              | Some o => ProductFetchOptions.lng o
              | None => None
              end) as [lng|]; [|do 2 eexists; reflexivity].
    match goal with
    | |- context [getNearbyStoreIds ?a ?b ?c] =>
        destruct (getNearbyStoreIds_Ret a b c w) as (ids & Hids);
        destruct (getNearbyStoreIds a b c w) as [o w1] eqn:E
    end.
    simpl in Hids. subst o. unfold bind at 1. rewrite E.
    do 2 eexists. reflexivity. }
  destruct Hc as (nearby & w1 & Hc). rewrite (bind_Ret _ _ _ _ _ Hc).
  unfold bind.
  match goal with
  | |- context [fetchProductRows ?ids w1] =>
      pose proof (fetchProductRows_not_Timeout ids w1) as Hnt;
      destruct (fetchProductRows ids w1) as [[rows|e|] w2]
  end; simpl in *; try discriminate. contradiction.
Qed.

(** The three listing functions share their head: what one fetches
    the others fetch. *)
Lemma listing_cases options stored w :
  (exists rows w1,
      fetch_listing details options stored w = (Ret rows, w1)
      /\ getAllProducts parseFloat details options stored w
         = (productRowsToProducts parseFloat rows, w1)
      /\ (forall categoryName,
             getProductsByCategory parseFloat details categoryName options stored w
             = (productRowsToProducts parseFloat
                  (filter (fun r =>
                             match r.(ListingRow.master_products) with
                             | Some mp =>
                                 String.eqb mp.(MasterProduct.category) categoryName
                             | None => false
                             end) rows), w1))
      /\ (forall query,
             searchProducts parseFloat details query options stored w
             = (productRowsToProducts parseFloat
                  (if Js.truthy (Some (Js.toLowerCase (StringOps.trim query)))
                   then filter (fun r =>
                                  match r.(ListingRow.master_products) with
                                  | Some mp =>
                                      Js.includes
                                        (Js.toLowerCase mp.(MasterProduct.name))
                                        (Js.toLowerCase (StringOps.trim query))
                                  | None => false
                                  end) rows
                   else rows), w1)))
  \/ (exists e w1,
         fetch_listing details options stored w = (Throw e, w1)
         /\ getAllProducts parseFloat details options stored w = (Throw e, w1)
         /\ (forall categoryName,
                getProductsByCategory parseFloat details categoryName options stored w
                = (Ret [], w1))
         /\ (forall query,
                searchProducts parseFloat details query options stored w
                = (Ret [], w1))).
Proof.
  pose proof (fetch_listing_not_Timeout options stored w) as Hnt.
  destruct (fetch_listing details options stored w) as [[rows|e|] w1] eqn:E;
    simpl in Hnt; [| |contradiction].
  - left. exists rows, w1. split; [reflexivity|].
    unfold getAllProducts, getProductsByCategory, searchProducts, try_catch, bind, lift.
    rewrite E. cbv zeta.
    split; [|split].
    + destruct (productRowsToProducts_Ret parseFloat rows) as (ps & ->). reflexivity.
    + intros categoryName.
      match goal with
      | |- context [productRowsToProducts parseFloat ?l] =>
          destruct (productRowsToProducts_Ret parseFloat l) as (ps & ->)
      end. reflexivity.
    + intros query.
      match goal with
      | |- context [productRowsToProducts parseFloat ?l] =>
          destruct (productRowsToProducts_Ret parseFloat l) as (ps & ->)
      end. reflexivity.
  - right. exists e, w1. split; [reflexivity|].
    unfold getAllProducts, getProductsByCategory, searchProducts, try_catch, bind.
    rewrite E. repeat split; reflexivity.
Qed.

End CatalogueFacts.

(** X23. [getProductsByCategory] and [searchProducts] never throw:
    they return a list in every world.  In exactly the worlds where
    [getAllProducts] throws (a listing query answered with an error or
    rejected) they return the empty list, so a failed read looks like an
    empty catalogue; [getAllProducts] itself either returns or throws the
    error. *)
Theorem listing_errors_hidden
    parseFloat details categoryName query options stored w :
  (exists products,
      fst (getProductsByCategory parseFloat details categoryName options stored w)
      = Ret products)
  /\ (exists products,
         fst (searchProducts parseFloat details query options stored w) = Ret products)
  /\ ((exists products,
          fst (getAllProducts parseFloat details options stored w) = Ret products)
      \/ (exists e,
             fst (getAllProducts parseFloat details options stored w) = Throw e
             /\ fst (getProductsByCategory parseFloat details categoryName
                       options stored w) = Ret []
             /\ fst (searchProducts parseFloat details query options stored w) = Ret [])).
Proof.
  destruct (listing_cases parseFloat details options stored w)
    as [(rows & w1 & _ & Hall & Hcat & Hsearch) | (e & w1 & _ & Hall & Hcat & Hsearch)].
  - rewrite Hall, Hcat, Hsearch. cbn [fst].
    split; [apply productRowsToProducts_Ret|].
    split; [apply productRowsToProducts_Ret|].
    left. apply productRowsToProducts_Ret.
  - rewrite Hall, Hcat, Hsearch. cbn [fst].
    split; [eexists; reflexivity|]. split; [eexists; reflexivity|].
    right. exists e. auto.
Qed.

(** X24. A search for a blank query (empty, or white space only) is the
    whole listing: whenever [getAllProducts] returns, [searchProducts]
    returns the same products, and both leave the same world behind. *)
Theorem searchProducts_blank_query
    parseFloat details query options stored w products :
  StringOps.trim query = EmptyString ->
  fst (getAllProducts parseFloat details options stored w) = Ret products ->
  fst (searchProducts parseFloat details query options stored w) = Ret products
  /\ snd (searchProducts parseFloat details query options stored w)
     = snd (getAllProducts parseFloat details options stored w).
Proof.
  intros Hq Hall.
  destruct (listing_cases parseFloat details options stored w)
    as [(rows & w1 & _ & Eall & _ & Esearch) | (e & w1 & _ & Eall & _ & _)].
  - rewrite Esearch, Eall in *. rewrite Hq. cbn [Js.toLowerCase Js.truthy fst snd] in *.
    rewrite String.eqb_refl. cbn [negb]. auto.
  - rewrite Eall in Hall. discriminate.
Qed.

Lemma searchProducts_blank_query_witness :
  let parseFloat := fun _ : string => NaN in
  let details := fun _ : ProductRow.t => (JNumber (Num 4%Q), Some (ex_master "mp")) in
  exists products,
    fst (getAllProducts parseFloat details None None (ex_world None [])) = Ret products
    /\ fst (searchProducts parseFloat details "   " None None (ex_world None []))
       = Ret products
    /\ snd (searchProducts parseFloat details "   " None None (ex_world None []))
       = snd (getAllProducts parseFloat details None None (ex_world None [])).
Proof.
  intros parseFloat details.
  assert (Hr : exists products,
             fst (getAllProducts parseFloat details None None (ex_world None []))
             = Ret products)
    by (vm_compute; eexists; reflexivity).
  destruct Hr as (products & Hall).
  exists products. split; [exact Hall|].
  apply (searchProducts_blank_query parseFloat details "   " None None
           (ex_world None []) products); [reflexivity | exact Hall].
Defined.

Lemma fetchProductRows_none_served w :
  all_served w ->
  exists w',
    fetchProductRows None w
    = (Ret (filter (fun row => row.(ProductRow.is_active)) w.(db).(products)), w')
    /\ w'.(db) = w.(db).
Proof.
  intros Hs.
  destruct (fetch_ranges_served 500 (S (List.length w.(db).(products))) 0 [] w
              (filter (fun row => row.(ProductRow.is_active)) w.(db).(products)))
    as (w' & Erun & Hdb & _); [lia | exact Hs | reflexivity | |].
  - cbn [skipn].
    pose proof (filter_length_le (fun row => row.(ProductRow.is_active))
                  w.(db).(products)). lia.
  - exists w'. cbn [skipn app] in Erun. unfold fetchProductRows. auto.
Qed.

Lemma fetchProductRows_some_served s rest w :
  all_served w ->
  exists rows w',
    fetchProductRows (Some (s :: rest)) w = (Ret rows, w')
    /\ w'.(db) = w.(db)
    /\ forall row, In row rows <->
         In row w.(db).(products)
         /\ row.(ProductRow.is_active) = true
         /\ In row.(ProductRow.store_id) (s :: rest).
Proof.
  intros Hs. unfold fetchProductRows.
  destruct (chunk_pages (s :: rest) IN_FILTER_CHUNK_SIZE) as (pages & Hrun & _ & Hc);
    [unfold IN_FILTER_CHUNK_SIZE; lia|].
  rewrite (bind_Ret _ _ w pages w) by (unfold lift; rewrite Hrun; reflexivity).
  destruct (fetch_store_chunks_served pages [] w Hs) as (w' & Erun & Hdb & _).
  rewrite Erun. cbn [app].
  do 2 eexists. split; [reflexivity|]. split; [exact Hdb|].
  intros row. rewrite in_flat_map. split.
  - intros (ids & Hids & Hrow). apply filter_In in Hrow.
    destruct Hrow as [Hin Hl]. unfold listed_for in Hl.
    apply andb_true_iff in Hl. destruct Hl as [Hact Hmem].
    apply mem_string_In in Hmem. repeat split; auto.
    rewrite <- Hc. apply in_concat. exists ids. auto.
  - intros (Hin & Hact & Hst). rewrite <- Hc in Hst.
    apply in_concat in Hst. destruct Hst as (ids & Hids & Hmem).
    exists ids. split; [exact Hids|]. apply filter_In. split; [exact Hin|].
    unfold listed_for. rewrite Hact. apply mem_string_In in Hmem.
    rewrite Hmem. reflexivity.
Qed.

(** X25. With a location and the datastore answering, [getAllProducts]
    lists from the active rows of the stores the nearby-stores procedure
    returns; when the procedure returns no store (or nothing), it lists
    from the active rows of every store, as it does without a location.
    Nothing is written. *)
Theorem getAllProducts_nearby_stores
    parseFloat details lat lng radiusKm stored w :
  all_served w ->
  let options := Some {| ProductFetchOptions.lat := Some lat;
                         ProductFetchOptions.lng := Some lng;
                         ProductFetchOptions.radiusKm := radiusKm |} in
  let radius := match radiusKm with Some r => r | None => 50%Q end in
  exists rows,
    fst (getAllProducts parseFloat details options stored w)
    = productRowsToProducts parseFloat (map (listing_row details) rows)
    /\ (snd (getAllProducts parseFloat details options stored w)).(db) = w.(db)
    /\ match w.(env).(get_nearby_store_ids) lat lng radius with
       | Some (s :: rest) =>
           forall row, In row rows <->
             In row w.(db).(products)
             /\ row.(ProductRow.is_active) = true
             /\ In row.(ProductRow.store_id) (s :: rest)
       | _ => rows = filter (fun row => row.(ProductRow.is_active)) w.(db).(products)
       end.
Proof.
  intros Hs. cbv zeta.
  destruct (getNearbyStoreIds_served lat lng
              (match radiusKm with Some r => r | None => 50%Q end) w Hs)
    as (w1 & Enear & Hs1 & Hdb1 & _).
  assert (Hgen : forall ids rows w2,
             (match ids with
              | s :: rest => Some (s :: rest)
              | [] => None
              end = match ids with
                    | s :: rest => Some (s :: rest)
                    | [] => None
                    end) ->
             getNearbyStoreIds lat lng
               (match radiusKm with Some r => r | None => 50%Q end) w = (Ret ids, w1) ->
             fetchProductRows (match ids with
                               | s :: rest => Some (s :: rest)
                               | [] => None
                               end) w1 = (Ret rows, w2) ->
             getAllProducts parseFloat details
               (Some {| ProductFetchOptions.lat := Some lat;
                        ProductFetchOptions.lng := Some lng;
                        ProductFetchOptions.radiusKm := radiusKm |}) stored w
             = (productRowsToProducts parseFloat (map (listing_row details) rows), w2)).
  { intros ids rows w2 _ E1 E2.
    unfold getAllProducts, fetch_listing. cbv zeta.
    cbn [ProductFetchOptions.lat ProductFetchOptions.lng ProductFetchOptions.radiusKm].
    unfold try_catch, bind, lift, ret. rewrite E1.
    destruct ids as [|s rest]; rewrite E2;
      destruct (productRowsToProducts_Ret parseFloat (map (listing_row details) rows))
        as (ps & ->); reflexivity. }
  destruct (get_nearby_store_ids (env w) lat lng
              (match radiusKm with Some r => r | None => 50%Q end)) as [[|s rest]|].
  - destruct (fetchProductRows_none_served w1 Hs1) as (w2 & E2 & Hdb2).
    rewrite (Hgen [] _ w2 eq_refl Enear E2). cbn [fst snd].
    eexists. split; [reflexivity|]. split; [congruence|].
    rewrite Hdb1. reflexivity.
  - destruct (fetchProductRows_some_served s rest w1 Hs1) as (rows & w2 & E2 & Hdb2 & Hrows).
    rewrite (Hgen (s :: rest) rows w2 eq_refl Enear E2). cbn [fst snd].
    exists rows. split; [reflexivity|]. split; [congruence|].
    rewrite Hdb1 in Hrows. exact Hrows.
  - destruct (fetchProductRows_none_served w1 Hs1) as (w2 & E2 & Hdb2).
    rewrite (Hgen [] _ w2 eq_refl Enear E2). cbn [fst snd].
    eexists. split; [reflexivity|]. split; [congruence|].
    rewrite Hdb1. reflexivity.
Qed.

Lemma getAllProducts_nearby_stores_witness :
  let parseFloat := fun _ : string => NaN in
  let details := fun _ : ProductRow.t => (JNumber (Num 4%Q), Some (ex_master "mp")) in
  let w := ex_world (Some []) [] in
  let options := Some {| ProductFetchOptions.lat := Some 22%Q;
                         ProductFetchOptions.lng := Some 88%Q;
                         ProductFetchOptions.radiusKm := None |} in
  exists rows,
    fst (getAllProducts parseFloat details options None w)
    = productRowsToProducts parseFloat (map (listing_row details) rows)
    /\ (snd (getAllProducts parseFloat details options None w)).(db) = w.(db)
    /\ rows = filter (fun row => row.(ProductRow.is_active)) w.(db).(products).
Proof.
  intros parseFloat details w options.
  apply (getAllProducts_nearby_stores parseFloat details 22%Q 88%Q None None w).
  constructor.
Defined.

(** ** The address book *)

Lemma address_served_tl rows fs now :
  address_served {| saved := rows; afaults := fs; anow := now |} ->
  forall rows', address_served {| saved := rows'; afaults := tl fs; anow := now |}.
Proof.
  unfold address_served. simpl. intros H rows'.
  destruct fs; [constructor | inversion H; assumption].
Qed.

(** A call on the address book when every call is served. *)
Lemma acall_served {A}
    (serve : string -> list AddressRow.t -> Response A * list AddressRow.t) w :
  address_served w ->
  acall serve w
  = (Ret (fst (serve w.(anow) w.(saved))),
     {| saved := snd (serve w.(anow) w.(saved)); afaults := tl w.(afaults);
        anow := w.(anow) |})
  /\ address_served {| saved := snd (serve w.(anow) w.(saved));
                       afaults := tl w.(afaults); anow := w.(anow) |}.
Proof.
  intros H. split.
  - unfold acall. destruct w as [rows fs now]. simpl.
    unfold address_served in H. simpl in H.
    destruct fs as [|f fs]; [destruct (serve now rows); reflexivity|].
    inversion H as [|? ? Hf _]; subst. destruct (serve now rows); reflexivity.
  - destruct w as [rows fs now]. simpl. apply (address_served_tl rows fs now H).
Qed.

Lemma abind_Ret {A B} (c : AM A) (k : A -> AM B) w a w1 :
  c w = (Ret a, w1) -> abind c k w = k a w1.
Proof. intros H. unfold abind. rewrite H. reflexivity. Qed.

Lemma atry_rethrow {A} (c : AM A) w :
  atry c (fun error => athrow error) w = c w.
Proof.
  unfold atry, athrow. destruct (c w) as [[a|e|] w1]; reflexivity.
Qed.

Lemma defaults_of_unset u rows :
  defaults_of u
    (update_where (fun row => String.eqb row.(AddressRow.customer_id) u)
                  (set_is_default false) rows) = [].
Proof.
  unfold defaults_of, update_where.
  induction rows as [|row rows IH]; simpl; [reflexivity|].
  destruct (String.eqb (AddressRow.customer_id row) u) eqn:E; simpl.
  - rewrite E. simpl. exact IH.
  - rewrite E. simpl. exact IH.
Qed.

Lemma others_kept_update u sel change rows :
  (forall row, sel row = true -> row.(AddressRow.customer_id) = u) ->
  (forall row, (change row).(AddressRow.customer_id) = row.(AddressRow.customer_id)) ->
  filter (fun row => negb (String.eqb row.(AddressRow.customer_id) u))
         (update_where sel change rows)
  = filter (fun row => negb (String.eqb row.(AddressRow.customer_id) u)) rows.
Proof.
  intros Hsel Hch. unfold update_where.
  induction rows as [|row rows IH]; simpl; [reflexivity|].
  destruct (sel row) eqn:E.
  - rewrite Hch, (Hsel row E), String.eqb_refl. simpl. exact IH.
  - rewrite IH. reflexivity.
Qed.

Lemma update_where_ids sel change rows :
  (forall row, (change row).(AddressRow.id) = row.(AddressRow.id)) ->
  map AddressRow.id (update_where sel change rows) = map AddressRow.id rows.
Proof.
  intros Hch. unfold update_where. rewrite map_map. apply map_ext.
  intros row. destruct (sel row); [apply Hch | reflexivity].
Qed.

Lemma update_where_none sel change rows :
  (forall row, In row rows -> sel row = false) -> update_where sel change rows = rows.
Proof.
  intros H. unfold update_where.
  induction rows as [|row rows IH]; simpl; [reflexivity|].
  rewrite (H row) by (left; reflexivity). f_equal.
  apply IH. intros r Hr. apply H. right. exact Hr.
Qed.

(** The rows [createAddress] leaves when its calls are served. *)
Lemma createAddress_served addressData w :
  address_served w ->
  let u := addressData.(CreateAddressData.user_id) in
  let before :=
    if addressData.(CreateAddressData.is_default)
    then update_where (fun row => String.eqb row.(AddressRow.customer_id) u)
                      (set_is_default false) w.(saved)
    else w.(saved) in
  let row := address_payload addressData (fresh_id (map AddressRow.id w.(saved)))
               w.(anow) in
  exists w',
    createAddress addressData w = (Ret (mapRowToAddress row), w')
    /\ w'.(saved) = before ++ [row]
    /\ address_served w'.
Proof.
  intros Hs. cbv zeta. unfold createAddress. rewrite atry_rethrow.
  destruct (CreateAddressData.is_default addressData) eqn:Ed.
  - unfold unset_defaults.
    match goal with
    | |- context [abind (abind (acall ?serve) ?k1) ?k2 w] =>
        destruct (acall_served serve w Hs) as [E1 Hs1];
        rewrite (abind_Ret (abind (acall serve) k1) k2 w tt _
                   (eq_trans (abind_Ret _ _ _ _ _ E1) eq_refl))
    end.
    match goal with
    | |- context [abind (acall ?serve) ?k ?w1] =>
        destruct (acall_served serve w1 Hs1) as [E2 Hs2];
        rewrite (abind_Ret _ _ _ _ _ E2)
    end.
    cbn [fst snd data error saved anow] in *.
    rewrite update_where_ids by reflexivity.
    eexists. split; [reflexivity|]. split; [reflexivity | exact Hs2].
  - rewrite (abind_Ret _ _ w tt w eq_refl).
    match goal with
    | |- context [abind (acall ?serve) ?k ?w1] =>
        destruct (acall_served serve w1 Hs) as [E2 Hs2];
        rewrite (abind_Ret _ _ _ _ _ E2)
    end.
    cbn [fst snd data error saved anow] in *.
    eexists. split; [reflexivity|]. split; [reflexivity | exact Hs2].
Qed.

(** X26. When its calls are served, [createAddress] stores the address
    as a new active row of the user under a key not in use and returns
    it.  Created as default, it is afterwards the user's only default
    address; created as non-default, the user's default addresses are
    those of before.  The rows of other users are untouched. *)
Theorem createAddress_sets_default addressData w :
  address_served w ->
  let u := addressData.(CreateAddressData.user_id) in
  exists row w',
    createAddress addressData w = (Ret (mapRowToAddress row), w')
    /\ List.length w'.(saved) = S (List.length w.(saved))
    /\ In row w'.(saved)
    /\ row.(AddressRow.customer_id) = u
    /\ row.(AddressRow.is_active) = true
    /\ row.(AddressRow.is_default) = addressData.(CreateAddressData.is_default)
    /\ ~ In row.(AddressRow.id) (map AddressRow.id w.(saved))
    /\ defaults_of u w'.(saved)
       = (if addressData.(CreateAddressData.is_default)
          then [row] else defaults_of u w.(saved))
    /\ filter (fun r => negb (String.eqb r.(AddressRow.customer_id) u)) w'.(saved)
       = filter (fun r => negb (String.eqb r.(AddressRow.customer_id) u)) w.(saved).
Proof.
  intros Hs. cbv zeta.
  destruct (createAddress_served addressData w Hs) as (w' & Erun & Hsaved & _).
  cbv zeta in Erun, Hsaved.
  eexists. exists w'. split; [exact Erun|].
  rewrite Hsaved.
  split.
  { rewrite length_app. simpl.
    destruct (CreateAddressData.is_default addressData);
      [unfold update_where; rewrite length_map|]; lia. }
  split; [apply in_or_app; right; left; reflexivity|].
  split; [reflexivity|]. split; [reflexivity|]. split; [reflexivity|].
  split; [apply fresh_id_not_In|].
  split.
  - unfold defaults_of at 1. rewrite filter_app. fold (defaults_of
      (CreateAddressData.user_id addressData)).
    cbn [filter address_payload AddressRow.customer_id AddressRow.is_default].
    rewrite String.eqb_refl. cbn [andb].
    destruct (CreateAddressData.is_default addressData) eqn:Ed.
    + change (filter _ (update_where _ _ (saved w)))
        with (defaults_of (CreateAddressData.user_id addressData)
                (update_where (fun row => String.eqb row.(AddressRow.customer_id)
                                            (CreateAddressData.user_id addressData))
                              (set_is_default false) (saved w))).
      rewrite defaults_of_unset. reflexivity.
    + rewrite app_nil_r. reflexivity.
  - rewrite filter_app.
    cbn [filter address_payload AddressRow.customer_id].
    rewrite String.eqb_refl. cbn [negb]. rewrite app_nil_r.
    destruct (CreateAddressData.is_default addressData); [|reflexivity].
    apply others_kept_update; [|reflexivity].
    intros r Hr. apply String.eqb_eq in Hr. exact Hr.
Qed.

Lemma createAddress_sets_default_witness :
  let data := ex_address_data "Asha" "12 Lake Road" None true in
  let w := ex_address_world
             [set_is_default true (address_payload data 1 "2025-01-01T00:00:00Z")] [] in
  exists row w',
    createAddress data w = (Ret (mapRowToAddress row), w')
    /\ List.length w'.(saved) = S (List.length w.(saved))
    /\ In row w'.(saved)
    /\ row.(AddressRow.customer_id) = "user-1"
    /\ row.(AddressRow.is_active) = true
    /\ row.(AddressRow.is_default) = true
    /\ ~ In row.(AddressRow.id) (map AddressRow.id w.(saved))
    /\ defaults_of "user-1" w'.(saved) = [row]
    /\ filter (fun r => negb (String.eqb r.(AddressRow.customer_id) "user-1")) w'.(saved)
       = filter (fun r => negb (String.eqb r.(AddressRow.customer_id) "user-1")) w.(saved).
Proof.
  intros data w.
  apply (createAddress_sets_default data w). constructor.
Defined.

Section DefaultAddress.

Variable addressId : nat.
Variable u : string.

Local Abbreviation target :=
  (fun row : AddressRow.t =>
     Nat.eqb row.(AddressRow.id) addressId
     && String.eqb row.(AddressRow.customer_id) u).
Local Abbreviation unset :=
  (update_where (fun row => String.eqb row.(AddressRow.customer_id) u)
                (set_is_default false)).

Lemma target_unset rows :
  filter target (unset rows)
  = map (set_is_default false) (filter target rows).
Proof.
  unfold update_where.
  induction rows as [|row rows IH]; simpl; [reflexivity|].
  destruct (String.eqb (AddressRow.customer_id row) u) eqn:E; simpl; rewrite E.
  - destruct (Nat.eqb (AddressRow.id row) addressId); simpl; rewrite IH; reflexivity.
  - rewrite andb_false_r. exact IH.
Qed.

Lemma defaults_after_single change rows r :
  (forall row, (change row).(AddressRow.customer_id) = row.(AddressRow.customer_id)) ->
  (forall row, (change row).(AddressRow.is_default) = true) ->
  defaults_of u rows = [] ->
  filter target rows = [r] ->
  defaults_of u (update_where target change rows) = [change r].
Proof.
  intros Hc Hd. unfold defaults_of, update_where.
  induction rows as [|row rows IH]; simpl; intros Hnone Hone; [discriminate|].
  destruct (Nat.eqb (AddressRow.id row) addressId
            && String.eqb (AddressRow.customer_id row) u) eqn:Et.
  - injection Hone as -> Hrest.
    apply andb_true_iff in Et. destruct Et as [_ Eu].
    simpl. rewrite Hc, Hd, Eu. simpl. f_equal.
    rewrite Eu in Hnone. simpl in Hnone.
    destruct (AddressRow.is_default r); [discriminate|].
    fold (update_where target change rows).
    rewrite update_where_none; [exact Hnone|].
    intros x Hx. destruct (target x) eqn:Ex; [|reflexivity].
    assert (Hin : In x (filter target rows)) by (apply filter_In; auto).
    rewrite Hrest in Hin. contradiction.
  - simpl.
    destruct (String.eqb (AddressRow.customer_id row) u && AddressRow.is_default row)
      eqn:Ed; [discriminate|].
    apply IH; assumption.
Qed.

(** The rows [setDefaultAddress] leaves when its calls are served. *)
Lemma setDefaultAddress_served w :
  address_served w ->
  let change := fun row => set_updated_at w.(anow) (set_is_default true row) in
  match filter target (unset w.(saved)) with
  | [row] =>
      exists w',
        setDefaultAddress addressId u w = (Ret (mapRowToAddress (change row)), w')
        /\ w'.(saved) = update_where target change (unset w.(saved))
  | _ =>
      exists w',
        setDefaultAddress addressId u w
        = (Throw (Error (String.append "Failed to set default address: "
                           "JSON object requested, multiple (or no) rows returned")),
           w')
        /\ w'.(saved) = unset w.(saved)
  end.
Proof.
  intros Hs. cbv zeta. unfold setDefaultAddress. rewrite atry_rethrow.
  unfold unset_defaults.
  match goal with
  | |- context [abind (acall ?serve) ?k w] =>
      destruct (acall_served serve w Hs) as [E1 Hs1]
  end.
  rewrite (abind_Ret _ _ _ _ _ E1). cbn [fst snd saved anow] in *.
  unfold update_single.
  match goal with
  | |- context [abind (acall ?serve) ?k ?w1] =>
      destruct (acall_served serve w1 Hs1) as [E2 _]
  end.
  rewrite (abind_Ret _ _ _ _ _ E2). cbn [fst snd saved anow].
  destruct (filter target (unset (saved w))) as [|row [|row2 more]] eqn:Ef;
    cbn [fst snd data error];
    eexists; split; reflexivity.
Qed.

End DefaultAddress.

(** X27. [setDefaultAddress] with its calls served.  When exactly one
    row has the given id and user, that row becomes the user's only
    default address and is returned, and the rows of other users are
    untouched.  When no row (or more than one) has them, the call throws
    the datastore's error, after the user's defaults were all unset: the
    user is left with no default address. *)
Theorem setDefaultAddress_outcomes addressId u w :
  address_served w ->
  let target := fun row : AddressRow.t =>
                  Nat.eqb row.(AddressRow.id) addressId
                  && String.eqb row.(AddressRow.customer_id) u in
  let r := setDefaultAddress addressId u w in
  filter (fun row => negb (String.eqb row.(AddressRow.customer_id) u)) (snd r).(saved)
  = filter (fun row => negb (String.eqb row.(AddressRow.customer_id) u)) w.(saved)
  /\ map AddressRow.id (snd r).(saved) = map AddressRow.id w.(saved)
  /\ match filter target w.(saved) with
     | [_] =>
         exists row,
           fst r = Ret (mapRowToAddress row)
           /\ row.(AddressRow.id) = addressId
           /\ row.(AddressRow.is_default) = true
           /\ defaults_of u (snd r).(saved) = [row]
     | _ =>
         fst r = Throw (Error (String.append "Failed to set default address: "
                                 "JSON object requested, multiple (or no) rows returned"))
         /\ defaults_of u (snd r).(saved) = []
     end.
Proof.
  intros Hs. cbv zeta.
  pose proof (setDefaultAddress_served addressId u w Hs) as H. cbv zeta in H.
  rewrite target_unset in H.
  assert (Hothers : forall rows,
             filter (fun row => negb (String.eqb row.(AddressRow.customer_id) u))
               (update_where (fun row => String.eqb row.(AddressRow.customer_id) u)
                             (set_is_default false) rows)
             = filter (fun row => negb (String.eqb row.(AddressRow.customer_id) u)) rows).
  { intros rows. apply others_kept_update; [|reflexivity].
    intros r Hr. apply String.eqb_eq in Hr. exact Hr. }
  assert (Hids : forall rows,
             map AddressRow.id
               (update_where (fun row => String.eqb row.(AddressRow.customer_id) u)
                             (set_is_default false) rows)
             = map AddressRow.id rows)
    by (intros rows; apply update_where_ids; reflexivity).
  destruct (filter (fun row => Nat.eqb row.(AddressRow.id) addressId
                               && String.eqb row.(AddressRow.customer_id) u)
                   w.(saved)) as [|row [|row2 more]] eqn:Ef;
    cbn [map] in H; destruct H as (w' & Erun & Hsaved); rewrite Erun; cbn [fst snd];
    rewrite Hsaved.
  - split; [apply Hothers|]. split; [apply Hids|].
    split; [reflexivity | apply defaults_of_unset].
  - split.
    { rewrite others_kept_update; [apply Hothers| |reflexivity].
      intros r Hr. apply andb_true_iff in Hr. destruct Hr as [_ Hr].
      apply String.eqb_eq in Hr. exact Hr. }
    split.
    { rewrite update_where_ids by reflexivity. apply Hids. }
    eexists. split; [reflexivity|].
    assert (Hrow : In row (filter (fun row => Nat.eqb row.(AddressRow.id) addressId
                                   && String.eqb row.(AddressRow.customer_id) u)
                             w.(saved))) by (rewrite Ef; left; reflexivity).
    apply filter_In in Hrow. destruct Hrow as [_ Hrow].
    apply andb_true_iff in Hrow. destruct Hrow as [Hid _]. apply Nat.eqb_eq in Hid.
    split; [exact Hid|]. split; [reflexivity|].
    rewrite (defaults_after_single addressId u
               (fun row => set_updated_at w.(anow) (set_is_default true row))
               _ (set_is_default false row)); try reflexivity.
    + apply defaults_of_unset.
    + rewrite target_unset, Ef. reflexivity.
  - split; [apply Hothers|]. split; [apply Hids|].
    split; [reflexivity | apply defaults_of_unset].
Qed.

Lemma setDefaultAddress_outcomes_witness :
  let data := ex_address_data "Asha" "12 Lake Road" None true in
  let w := ex_address_world [address_payload data 1 "2025-01-01T00:00:00Z"] [] in
  let r := setDefaultAddress 7 "user-1" w in
  filter (fun row => negb (String.eqb row.(AddressRow.customer_id) "user-1"))
         (snd r).(saved)
  = filter (fun row => negb (String.eqb row.(AddressRow.customer_id) "user-1")) w.(saved)
  /\ map AddressRow.id (snd r).(saved) = map AddressRow.id w.(saved)
  /\ fst r = Throw (Error (String.append "Failed to set default address: "
                             "JSON object requested, multiple (or no) rows returned"))
  /\ defaults_of "user-1" (snd r).(saved) = [].
Proof.
  intros data w.
  apply (setDefaultAddress_outcomes 7 "user-1" w). constructor.
Defined.

Lemma insert_address_perm a l : Permutation (insert_address a l) (a :: l).
Proof.
  induction l as [|x l IH]; simpl; [apply Permutation_refl|].
  destruct (address_after a x); [|apply Permutation_refl].
  eapply Permutation_trans; [apply perm_skip; exact IH | apply perm_swap].
Qed.

Lemma order_addresses_perm rows : Permutation (order_addresses rows) rows.
Proof.
  induction rows as [|a rows IH]; simpl; [constructor|].
  eapply Permutation_trans; [apply insert_address_perm|].
  apply perm_skip. exact IH.
Qed.

Lemma getUserAddresses_served u w :
  address_served w ->
  fst (getUserAddresses u w)
  = Ret (map mapRowToAddress
           (order_addresses
              (filter (fun row => String.eqb row.(AddressRow.customer_id) u
                                  && row.(AddressRow.is_active)) w.(saved)))).
Proof.
  intros Hs. unfold getUserAddresses. rewrite atry_rethrow.
  match goal with
  | |- context [abind (acall ?serve) ?k w] =>
      destruct (acall_served serve w Hs) as [E1 _]
  end.
  rewrite (abind_Ret _ _ _ _ _ E1). reflexivity.
Qed.

(** X28. [deleteAddress] is a soft delete.  With its call served it
    removes no row and leaves the rows of other users alone; afterwards
    [getUserAddresses] lists for the user exactly the addresses it listed
    before whose id is not the deleted one. *)
Theorem deleteAddress_hides_address addressId u w wa wb :
  address_served w ->
  wa.(saved) = w.(saved) -> address_served wa ->
  wb.(saved) = (snd (deleteAddress addressId u w)).(saved) -> address_served wb ->
  fst (deleteAddress addressId u w) = Ret tt
  /\ map AddressRow.id (snd (deleteAddress addressId u w)).(saved)
     = map AddressRow.id w.(saved)
  /\ filter (fun row => negb (String.eqb row.(AddressRow.customer_id) u))
            (snd (deleteAddress addressId u w)).(saved)
     = filter (fun row => negb (String.eqb row.(AddressRow.customer_id) u)) w.(saved)
  /\ exists before after,
       fst (getUserAddresses u wa) = Ret before
       /\ fst (getUserAddresses u wb) = Ret after
       /\ (forall ad, In ad after -> In ad before /\ ad.(Address.id) <> addressId)
       /\ (forall ad, In ad before -> ad.(Address.id) <> addressId -> In ad after).
Proof.
  intros Hs Hwa Hsa Hwb Hsb.
  assert (Erun : exists w1,
             deleteAddress addressId u w = (Ret tt, w1)
             /\ w1.(saved)
                = update_where
                    (fun row => Nat.eqb row.(AddressRow.id) addressId
                                && String.eqb row.(AddressRow.customer_id) u)
                    (fun row => set_updated_at w.(anow) (set_is_active false row))
                    w.(saved)).
  { unfold deleteAddress. rewrite atry_rethrow.
    match goal with
    | |- context [abind (acall ?serve) ?k w] =>
        destruct (acall_served serve w Hs) as [E1 _]
    end.
    rewrite (abind_Ret _ _ _ _ _ E1). eexists. split; reflexivity. }
  destruct Erun as (w1 & Erun & Hsaved). rewrite Erun in *. cbn [fst snd] in *.
  split; [reflexivity|]. rewrite Hsaved.
  split; [apply update_where_ids; reflexivity|].
  split.
  { apply others_kept_update; [|reflexivity].
    intros r Hr. apply andb_true_iff in Hr. destruct Hr as [_ Hr].
    apply String.eqb_eq in Hr. exact Hr. }
  rewrite (getUserAddresses_served u wa Hsa), (getUserAddresses_served u wb Hsb).
  rewrite Hwa, Hwb, Hsaved.
  do 2 eexists. split; [reflexivity|]. split; [reflexivity|].
  split.
  - intros ad Had. apply in_map_iff in Had. destruct Had as (row' & <- & Hin).
    apply (Permutation_in _ (order_addresses_perm _)) in Hin.
    apply filter_In in Hin. destruct Hin as [Hin Hsel].
    unfold update_where in Hin. apply in_map_iff in Hin.
    destruct Hin as (row & Hrow & Hin).
    destruct (Nat.eqb (AddressRow.id row) addressId
              && String.eqb (AddressRow.customer_id row) u) eqn:Et.
    + subst row'. simpl in Hsel. rewrite andb_false_r in Hsel. discriminate.
    + subst row'. split.
      * apply in_map.
        apply (Permutation_in _ (Permutation_sym (order_addresses_perm _))).
        apply filter_In. auto.
      * cbn [mapRowToAddress Address.id]. intros Hid.
        apply andb_true_iff in Hsel. destruct Hsel as [Hu _].
        rewrite Hid, Nat.eqb_refl, Hu in Et. discriminate.
  - intros ad Had Hne. apply in_map_iff in Had. destruct Had as (row & <- & Hin).
    apply (Permutation_in _ (order_addresses_perm _)) in Hin.
    apply filter_In in Hin. destruct Hin as [Hin Hsel].
    apply in_map.
    apply (Permutation_in _ (Permutation_sym (order_addresses_perm _))).
    apply filter_In. split; [|exact Hsel].
    unfold update_where. apply in_map_iff. exists row. split; [|exact Hin].
    cbn [mapRowToAddress Address.id] in Hne.
    apply Nat.eqb_neq in Hne. rewrite Hne. reflexivity.
Qed.

Lemma deleteAddress_hides_address_witness :
  let data := ex_address_data "Asha" "12 Lake Road" None true in
  let w := ex_address_world [address_payload data 1 "2025-01-01T00:00:00Z";
                             address_payload data 2 "2025-02-01T00:00:00Z"] [] in
  fst (deleteAddress 1 "user-1" w) = Ret tt
  /\ map AddressRow.id (snd (deleteAddress 1 "user-1" w)).(saved) = [1; 2]
  /\ filter (fun row => negb (String.eqb row.(AddressRow.customer_id) "user-1"))
            (snd (deleteAddress 1 "user-1" w)).(saved)
     = filter (fun row => negb (String.eqb row.(AddressRow.customer_id) "user-1"))
              w.(saved)
  /\ exists before after,
       fst (getUserAddresses "user-1" w) = Ret before
       /\ fst (getUserAddresses "user-1" (snd (deleteAddress 1 "user-1" w))) = Ret after
       /\ (forall ad, In ad after -> In ad before /\ ad.(Address.id) <> 1)
       /\ (forall ad, In ad before -> ad.(Address.id) <> 1 -> In ad after).
Proof.
  intros data w.
  apply (deleteAddress_hides_address 1 "user-1" w w (snd (deleteAddress 1 "user-1" w)));
    try reflexivity; constructor.
Defined.

Lemma fold_insert_first a : forall rows,
  (forall x, In x rows -> address_after x a = true) ->
  fold_right insert_address [a] rows = a :: order_addresses rows.
Proof.
  induction rows as [|x rows IH]; intros H; simpl; [reflexivity|].
  rewrite IH by (intros y Hy; apply H; right; exact Hy).
  simpl. rewrite (H x) by (left; reflexivity). reflexivity.
Qed.

(** X29. An address just created is listed: with the calls served,
    [getUserAddresses] for the user returns a list that holds the address
    [createAddress] returned, and holds it first when it was created as
    the default. *)
Theorem getUserAddresses_after_createAddress addressData w wb :
  address_served w ->
  wb.(saved) = (snd (createAddress addressData w)).(saved) ->
  address_served wb ->
  exists addr listed,
    fst (createAddress addressData w) = Ret addr
    /\ fst (getUserAddresses addressData.(CreateAddressData.user_id) wb) = Ret listed
    /\ In addr listed
    /\ (addressData.(CreateAddressData.is_default) = true ->
        hd_error listed = Some addr).
Proof.
  intros Hs Hwb Hsb.
  destruct (createAddress_served addressData w Hs) as (w' & Erun & Hsaved & _).
  cbv zeta in Erun, Hsaved. rewrite Erun in *. cbn [fst snd] in *.
  rewrite (getUserAddresses_served _ wb Hsb), Hwb, Hsaved.
  do 2 eexists. split; [reflexivity|]. split; [reflexivity|].
  rewrite filter_app.
  cbn [filter address_payload AddressRow.customer_id AddressRow.is_active].
  rewrite String.eqb_refl. cbn [andb].
  split.
  - apply in_map.
    apply (Permutation_in _ (Permutation_sym (order_addresses_perm _))).
    apply in_or_app. right. left. reflexivity.
  - intros Hd. rewrite Hd. unfold order_addresses. rewrite fold_right_app.
    cbn [fold_right insert_address].
    rewrite fold_insert_first; [reflexivity|].
    intros x Hx. apply filter_In in Hx. destruct Hx as [Hx Hsel].
    unfold update_where in Hx. apply in_map_iff in Hx. destruct Hx as (y & Hy & _).
    apply andb_true_iff in Hsel. destruct Hsel as [Hu _].
    unfold address_after. cbn [address_payload AddressRow.is_default]. rewrite Hd.
    destruct (String.eqb (AddressRow.customer_id y) (CreateAddressData.user_id addressData))
      eqn:Ey.
    + subst x. reflexivity.
    + subst x. rewrite Ey in Hu. discriminate.
Qed.

Lemma getUserAddresses_after_createAddress_witness :
  let data := ex_address_data "Asha" "12 Lake Road" None true in
  let w := ex_address_world
             [set_is_default true (address_payload data 1 "2025-01-01T00:00:00Z")] [] in
  exists addr listed,
    fst (createAddress data w) = Ret addr
    /\ fst (getUserAddresses "user-1" (snd (createAddress data w))) = Ret listed
    /\ In addr listed
    /\ (true = true -> hd_error listed = Some addr).
Proof.
  intros data w.
  apply (getUserAddresses_after_createAddress data w (snd (createAddress data w))).
  - constructor.
  - reflexivity.
  - constructor.
Defined.

(** *** What comes back of the two address lines *)

Lemma split_on_nonempty sep s : split_on sep s <> [].
Proof.
  destruct s as [|c s]; simpl; [discriminate|].
  destruct (Ascii.eqb c sep); [discriminate|].
  destruct (split_on sep s); discriminate.
Qed.








